(* ===== verification/_CoqProject ===== *)
-Q . S2P
Prelude.v
Bytes.v
Ordered.v
Deps.v
Concrete.v
Types.v
Constants.v
Poseidon.v
Merkle.v
Grumpkin.v
Crypto.v
AbiTypes.v
AbiCodec.v
KernelTypes.v
Tx.v
Hash.v
Deploy.v
Kv.v
Simulated.v
SimulatedSpec.v
KernelWf.v
LocalStores.v
CapsuleSpec.v
TaggingStores.v
TaggingSpec.v
NoteStore.v
EventStore.v
PickNotes.v
AcvmExecutor.v
ExecutorSpec.v
Indexes.v
NoteRefine.v
NoteSpec.v
EventSpec.v
Rpc.v
Nargo.v
NargoSpec.v
Node.v
Pxe.v
Sync.v
SyncSpec.v
Polling.v
Entrypoint.v
EntrypointSpec.v
OracleCommon.v
TaggingSecret.v
ExampleWorld.v
Oracle.v
OracleSpec.v
UtilityOracle.v
UtilitySpec.v
Host.v
KernelOracle.v
KernelProver.v
PxeExecution.v
RealProof.v
EmbeddedPxe.v
ExamplePxe.v
AggregateSpec.v
PxeSpec.v
RegisterSpec.v
ProveSpec.v
KernelSpec.v
RealProofSpec.v
Wallet.v
Contract.v
HashHelper.v
Account.v
AccountSpec.v
AuthSpec.v
Messaging.v
BaseWallet.v
Wire.v
WireSpec.v
BaseWalletSpec.v
L1Client.v
L1Spec.v
SledStore.v
