(* ===== verification/Prelude.v ===== *)
(** * aztec-rs: a Rocq verification library

    A model of the Rust workspace [src/crates]: the data types, hashes and codecs of the
    Aztec protocol ([core], [crypto]), the client of an Aztec node ([rpc], [node-client]),
    the private execution environment ([pxe]: its stores, services, oracles, kernels and
    the embedded PXE that ties them together), the accounts, contracts and wallet above it
    ([account], [fee], [contract], [wallet]), and the client of Ethereum ([ethereum]).

    ** How the program is put together, and where each part is modelled

    - [core/src/types.rs], [error.rs]: field elements, points, addresses, keys, instances
      ([Types.v]; [Error] and [Outcome] below); their wire forms and those of [tx.rs] and the
      selectors ([Wire.v], [WireSpec.v]).  [core/src/constants.rs]: [Constants.v].
    - [core/src/hash.rs]: the Poseidon2 sponge ([Poseidon.v]), Merkle roots ([Merkle.v]),
      siloing, nonces and authorization hashes ([Hash.v]), the helper process that can hash
      instead ([HashHelper.v]), classes, instances and
      addresses ([Deploy.v], with [crypto/src/address.rs] and the membership witness of
      [pxe/src/kernel/oracle.rs]).
    - [core/src/grumpkin.rs]: [Grumpkin.v].  [crypto/src]: [Crypto.v].
    - [core/src/abi]: types, selectors, checker ([AbiTypes.v]), codec ([AbiCodec.v]), the
      artifacts that the compiler writes ([Nargo.v], [NargoSpec.v]).
    - [core/src/fee.rs], [kernel_types.rs]: [KernelTypes.v].  [tx.rs], [validation.rs]:
      [Tx.v].
    - [pxe/src/stores]: the store interface and its triples ([Kv.v]), the small stores and
      capsules ([LocalStores.v], [CapsuleSpec.v]), tagging ([TaggingStores.v],
      [TaggingSpec.v]), notes ([NoteStore.v], refined in [NoteRefine.v] and [NoteSpec.v]),
      events ([EventStore.v], [EventSpec.v]); [Indexes.v] holds what the two last share.
      [SledStore.v] is the store on disk, lawful when its database does not fail.
    - [pxe/src/execution/execution_result.rs], [pxe/src/kernel/simulated.rs]:
      [Simulated.v], [SimulatedSpec.v], and the type of its public inputs ([KernelWf.v]).
    - [pxe/src/execution]: a circuit runs in a machine that is a class ([AcvmExecutor.v],
      [ExecutorSpec.v]) and calls back into an oracle: the one of private functions
      ([Oracle.v], [OracleSpec.v]) or of utility functions ([UtilityOracle.v],
      [UtilitySpec.v]).  What both share is [OracleCommon.v], the choice of notes
      [PickNotes.v], the secret of tags [TaggingSecret.v].
    - [pxe/src/kernel]: the preimages and witnesses that the circuits ask for
      ([KernelOracle.v]); the provers, with the sequence of circuits ([KernelProver.v],
      [KernelSpec.v]), over the operating system ([Host.v]).
    - [pxe/src/embedded_pxe.rs]: the execution of requests ([PxeExecution.v]: [PxeSpec.v],
      [AggregateSpec.v], [AuthSpec.v]), real proofs and their daemon ([RealProof.v],
      [RealProofSpec.v]), and the PXE ([EmbeddedPxe.v]: [ProveSpec.v], [RegisterSpec.v]).
      It calls the oracles, the kernels, the synchronisation and the stores; the state
      beside the world is the flags of the synchroniser, the caches, the real proofs with
      their daemon and the switch between the kernels.
    - [rpc/src/rpc.rs]: [Rpc.v].  [node-client/src/node.rs]: [Node.v], [Polling.v].
    - [pxe/src/sync]: [Sync.v], [SyncSpec.v].  It calls the node, the stores and, for a
      contract, a utility execution.
    - [pxe-client/src/pxe.rs]: the [Pxe] class ([Pxe.v]).
    - [account/src/entrypoint], [fee/src]: [Entrypoint.v], [EntrypointSpec.v].
    - [wallet/src/wallet.rs], [account_provider.rs]: [Wallet.v].  [contract/src]:
      [Contract.v].  [account/src]: [Account.v], [AccountSpec.v].
      [wallet/src/base_wallet.rs], which ties PXE, node and accounts together:
      [BaseWallet.v], [BaseWalletSpec.v].
    - [ethereum/src]: messages and claims ([Messaging.v]), the client, the inbox and the
      bridge of fee juice ([L1Client.v], [L1Spec.v]).

    Generic parts: this file, [Bytes.v] (byte strings, string functions), [Ordered.v]
    ([Ord], sorting, [BTreeMap]), [Deps.v] (the interfaces of third-party crates) and
    [Concrete.v], [ExampleWorld.v], [ExamplePxe.v] (instances of them, with which the
    witnesses are evaluated).

    ** How the code is translated

    A Rust function is a definition of the same name, in a module of the name of its type
    or crate where two share a name.  A pure function that can fail returns an [Outcome]:
    a value, an [Error] or [Panic].  An effectful one is in the state monad [M] of this
    file over a world [W]: a type with instances of the classes it uses ([KvStore],
    [AztecNode], [Pxe], [Clock], [RandCrate], ...), and a failing call leaves the state as
    the calls before it left it.  Traits whose objects are passed around ([Wallet],
    [Account], [AccountContract], [FeePaymentMethod], [AccountProvider]) are records of
    operations; traits with one implementor in scope are classes.  The lock of a service
    is a component beside the world, and concurrent tasks are a step relation ([Sync.v]).
    The state of an oracle, of the real proofs and of the PXE is a component beside the
    world too: [M (W * S)], where [in_fst] runs what only touches the world.

    Integers are [Z] with their width in [wrap]; arithmetic wraps as in a release build.
    [String] is its UTF-8 bytes.  A [BTreeMap] is an association list sorted by key, a
    [HashMap] whose order matters nowhere is a [gmap].  Floating point is [spec_float].
    JSON trees keep the order of their keys.  Instants are nanoseconds, and an instant
    past the platform's last one panics.

    A crate that is not in the repository (the field and curve arithmetic, the Poseidon2
    permutation, SHA-512, serde_json, hex, base64, reqwest, acir, ...) is a class in
    [Deps.v] or in the file that uses it, whose laws state its documented behaviour.

    ** What the theorems show

    - Codecs: decoding inverts the ABI encoding ([AbiCodec.abi_codec_roundtrip]), never
      panics on conventional types and consumes what it decodes; arguments have the
      length that is counted; the checker reports nothing exactly for valid artifacts;
      field elements print and parse back; wire buffers determine the public inputs; the
      wire forms are read back, except receipts whose fee does not fit 64 bits.
    - Hashes: the sponge is the reference sponge, protocol hashes with different inputs or
      separators have different preimages, a transaction hash determines the public
      inputs, a membership witness verifies, bytecode commitments are computed exactly
      for what fits.
    - Keys: signatures verify, the keys of an account have separated derivations, points
      are recovered canonically, an account's address is one and the same before, during
      and after deployment, and its witnesses verify under its constructor's key.
    - Stores: the note and event stores refine maps, their indexes are exact after every
      sequence of operations, rollbacks undo, capsule arrays are lists, and the sender's
      tag indexes keep their invariant under failing operations too.
    - Execution: the calls that are executed are those that the account signed; every
      foreign call only adds effects, a nested call adds exactly what its result reports,
      a static context adds none; the notes of an answer are those of the query; utility
      functions reach their own capsules and the keys of their scopes only; sender and
      recipient agree on tags.  Joining calls loses no effect and matches every public
      call with its calldata.  The simulated kernel keeps exactly the survivors of each
      side effect, in order, and divides them at the revertible counter; its public inputs
      are well formed exactly when the survivors fit the vectors of the protocol.
    - Proving: what the PXE proves is bound to the request and to the public inputs that
      are sent; the kernel circuits form one chain; a daemon is asked at most twice; a
      signature is accepted exactly when it verifies; a registered contract is found and
      is the one that its class names.
    - Artifacts: a document that describes a contract is read as that contract, with the
      selectors that its callers compute and the sizes of its contexts.
    - Ethereum: a bridge that answers has paid for the claim that it returns.
    - Synchronisation: after it the anchor is the node's block and nothing of dropped
      blocks is left; concurrent calls exclude each other.
    - Accounts and wallet: the request of the account entrypoint is the abstract one and
      what is signed determines the calls; only a proved and accepted transaction is
      sent; fee payloads given to an interaction are merged twice.
    - Waiting: the polling helpers and the wallet's waits end, and a wait for a proof
      succeeds when the block is proven in time.

    ** Fuel

    A loop that polls is [mloop fuel]: it answers [None] when the fuel is spent.  With an
    interval of at least one nanosecond the number of rounds before a deadline is bounded
    by the timeout over the interval ([Polling.v]); [wallet_fuel] is 602, two more than
    the 300 s of the longest fixed wait over its 500 ms ([BaseWalletSpec.wallet_waits_end]
    shows that it is never spent).  The ABI decoder and the tree walks recurse on their
    types and trees and need no fuel; lists of indexes are read with the length as bound;
    the type of a nargo parameter is read with the size of its document
    ([Nargo.parse_nargo_type_eq]).  The fuel of an execution bounds the nesting of its
    calls, one unit for each, and the rounds of its machine: [OracleSpec.private_execution_ends]
    gives enough for a machine whose rounds lower a rank and nest no calls.  A receipt of Ethereum is asked
    for sixty times, as the code does.

    ** What is not modelled, and why

    The acvm machine and its solver, the bb binary and the Node helper, the sled database,
    HTTP and the file system are third-party code or the operating system: classes, with
    laws only where a theorem needs them.  The output of the script that [hash.rs] can run in
    place of the permutation is a class too: [bbjs_poseidon2] is what it answers, and
    [HashHelper.v] how the program asks for it.  One daemon is kept for each PXE state instead of for
    the process.  The serde derives of calls, contexts, payloads and
    artifacts, which nothing sends to another program, are classes where they are stored.
    Logging, tracing and the memory of the machine are left out, [try_join!] runs its parts
    in order, and a helper process of the real-proof benchmark is the class [ProcessCrate].  The tests and examples under
    [src/tests] and [src/examples] drive a live network and hold no logic of their own. *)

From Stdlib Require Export ZArith Lia Bool.
From Stdlib Require Import Ascii String.
From stdpp Require Export prelude gmap strings pretty list sorting.

Declare Scope rust_scope.
Delimit Scope rust_scope with rust.
#[global] Open Scope Z_scope.

(** ** Errors and outcomes

    [Error] is the crate-level error type; [Outcome] is what a Rust call can
    end in: a value, a propagated error, or a panic (an index out of range, an
    [unwrap] on [None], a failed [assert!]). *)

Inductive Error :=
  | Transport (msg : string)
  | Json (msg : string)
  | Abi (msg : string)
  | InvalidData (msg : string)
  | Rpc (code : Z) (message : string)
  | Reverted (msg : string)
  | Timeout (msg : string).

Inductive Outcome (A : Type) :=
  | Ok (a : A)
  | Err (e : Error)
  | Panic.
Arguments Ok {A} a.
Arguments Err {A} e.
Arguments Panic {A}.

#[global] Instance Error_eq_dec : EqDecision Error.
Proof. solve_decision. Defined.

#[global] Instance Outcome_eq_dec `{EqDecision A} : EqDecision (Outcome A).
Proof. solve_decision. Defined.

Definition obind {A B} (m : Outcome A) (f : A → Outcome B) : Outcome B :=
  match m with Ok a => f a | Err e => Err e | Panic => Panic end.

Definition omap_ok {A B} (f : A → B) (m : Outcome A) : Outcome B :=
  match m with Ok a => Ok (f a) | Err e => Err e | Panic => Panic end.

(** [Option::ok_or_else]. *)
Definition ok_or {A} (o : option A) (e : Error) : Outcome A :=
  match o with Some a => Ok a | None => Err e end.

(** [Result::ok]. *)
Definition ok_opt {A} (m : Outcome A) : option A :=
  match m with Ok a => Some a | _ => None end.

Definition is_ok {A} (m : Outcome A) : bool :=
  match m with Ok _ => true | _ => false end.

Notation "'let?' x ':=' m 'in' k" := (obind m (λ x, k))
  (at level 200, x pattern, m at level 100, k at level 200,
   format "'[v' 'let?'  x  ':='  m  'in'  '/' k ']'") : rust_scope.
#[global] Open Scope rust_scope.

Lemma obind_ok {A B} (m : Outcome A) (f : A → Outcome B) b :
  obind m f = Ok b ↔ ∃ a, m = Ok a ∧ f a = Ok b.
Proof. destruct m; simpl; naive_solver. Qed.

Lemma obind_assoc {A B C} (m : Outcome A) (f : A → Outcome B) (g : B → Outcome C) :
  obind (obind m f) g = obind m (λ a, obind (f a) g).
Proof. by destruct m. Qed.

(** The [?] operator in a loop: the first failure stops the traversal. *)
Fixpoint omapM {A B} (f : A → Outcome B) (l : list A) : Outcome (list B) :=
  match l with
  | [] => Ok []
  | x :: l' => let? y := f x in let? ys := omapM f l' in Ok (y :: ys)
  end.

Fixpoint ofoldl {A B} (f : B → A → Outcome B) (b : B) (l : list A) : Outcome B :=
  match l with
  | [] => Ok b
  | x :: l' => let? b' := f b x in ofoldl f b' l'
  end.

Lemma omapM_Forall2 {A B} (f : A → Outcome B) l ys :
  omapM f l = Ok ys ↔ Forall2 (λ x y, f x = Ok y) l ys.
Proof.
  revert ys; induction l as [|x l IH]; intros ys; simpl; split.
  - intros [= <-]. constructor.
  - inversion 1; done.
  - intros (y & Hy & (ys' & Hys & [= <-])%obind_ok)%obind_ok.
    constructor; [done|]. by apply IH.
  - inversion 1 as [|? y ? ys' Hy Hys]; subst.
    rewrite Hy; simpl. apply IH in Hys. by rewrite Hys.
Qed.

Lemma omapM_length {A B} (f : A → Outcome B) l ys :
  omapM f l = Ok ys → length ys = length l.
Proof. intros H%omapM_Forall2%Forall2_length. done. Qed.

Lemma ofoldl_app {A B} (f : B → A → Outcome B) b l1 l2 :
  ofoldl f b (l1 ++ l2) = let? b' := ofoldl f b l1 in ofoldl f b' l2.
Proof.
  revert b; induction l1 as [|x l1 IH]; intros b; simpl; [done|].
  destruct (f b x); simpl; auto.
Qed.

(** Splits every [Ok] hypothesis built with [obind] into its steps. *)
Ltac ok_inv :=
  repeat match goal with
  | H : obind _ _ = Ok _ |- _ =>
      apply obind_ok in H; destruct H as (? & ? & ?)
  | H : Ok _ = Ok _ |- _ => injection H as H
  | H : Err _ = Ok _ |- _ => discriminate H
  | H : Panic = Ok _ |- _ => discriminate H
  | H : Ok _ = Err _ |- _ => discriminate H
  | H : Ok _ = Panic |- _ => discriminate H
  end; simplify_eq/=.

Lemma cons_inv {A} (x y : A) l k : x :: l = y :: k → x = y ∧ l = k.
Proof. by intros [= -> ->]. Qed.

Lemma fmap_Forall2_eq {A B} (f g : A → B) (l k : list A) :
  Forall2 (λ x y, f x = g y) l k → f <$> l = g <$> k.
Proof. induction 1 as [|x y l k E _ IH]; [done|]. rewrite !fmap_cons. by f_equal. Qed.

Lemma mjoin_cons {A} (l : list A) (ls : list (list A)) : mjoin (l :: ls) = l ++ mjoin ls.
Proof. done. Qed.

(** ** Machine integers

    A [w]-bit unsigned integer is a [Z] in [0 .. 2^w).  [wrap w] is the
    reduction Rust applies in a release build and in every [as] cast;
    [as_signed w] is the two's-complement reading of the low [w] bits.  The
    build profiles of the workspace do not turn [overflow-checks] on, so an
    overflowing [+] wraps. *)

Definition wrap (w : Z) (z : Z) : Z := z mod 2 ^ w.
Definition as_signed (w : Z) (z : Z) : Z :=
  let u := z mod 2 ^ w in if u <? 2 ^ (w - 1) then u else u - 2 ^ w.

Notation u8_wrap := (wrap 8).
Notation u16_wrap := (wrap 16).
Notation u32_wrap := (wrap 32).
Notation u64_wrap := (wrap 64).
Notation u128_wrap := (wrap 128).
Notation usize_wrap := (wrap 64).
Notation as_i128 := (as_signed 128).

Definition in_u (w : Z) (z : Z) : Prop := 0 ≤ z < 2 ^ w.

Lemma wrap_small w z : in_u w z → wrap w z = z.
Proof. intros [? ?]. unfold wrap. by apply Z.mod_small. Qed.

Lemma wrap_in_u w z : 0 ≤ w → in_u w (wrap w z).
Proof. intros Hw. unfold in_u, wrap. apply Z.mod_pos_bound. lia. Qed.

Lemma as_signed_range w z : 0 < w → - 2 ^ (w - 1) ≤ as_signed w z < 2 ^ (w - 1).
Proof.
  intros Hw. unfold as_signed.
  assert (2 ^ w = 2 * 2 ^ (w - 1)) as E.
  { rewrite <- Z.pow_succ_r by lia. f_equal. lia. }
  pose proof (Z.mod_pos_bound z (2 ^ w) ltac:(lia)).
  case (Z.ltb_spec (z mod 2 ^ w) (2 ^ (w - 1))); lia.
Qed.

Lemma as_signed_small w z :
  0 < w → - 2 ^ (w - 1) ≤ z < 2 ^ (w - 1) → as_signed w z = z.
Proof.
  intros Hw Hz. unfold as_signed.
  assert (2 ^ w = 2 * 2 ^ (w - 1)) as E.
  { rewrite <- Z.pow_succ_r by lia. f_equal. lia. }
  destruct (decide (0 ≤ z)).
  - rewrite Z.mod_small by lia. case (Z.ltb_spec z (2 ^ (w - 1))); lia.
  - rewrite <- (Z.mod_add z 1), Z.mod_small by lia.
    case (Z.ltb_spec (z + 1 * 2 ^ w) (2 ^ (w - 1))); lia.
Qed.

Lemma as_signed_wrap w z : 0 < w → as_signed w (wrap w z) = as_signed w z.
Proof. intros Hw. unfold as_signed, wrap. by rewrite Z.mod_mod by lia. Qed.

Lemma as_signed_mod w z : as_signed w z mod 2 ^ w = z mod 2 ^ w.
Proof.
  unfold as_signed. destruct (z mod 2 ^ w <? 2 ^ (w - 1)).
  - destruct (decide (2 ^ w = 0)) as [->|]; [by rewrite !Zmod_0_r|]. by rewrite Z.mod_mod.
  - destruct (decide (2 ^ w = 0)) as [E|]; [by rewrite E, !Zmod_0_r, Z.sub_0_r|].
    rewrite Zminus_mod, Z.mod_same, Z.sub_0_r, !Z.mod_mod by done. done.
Qed.

Lemma as_signed_cong w a b : a mod 2 ^ w = b mod 2 ^ w → as_signed w a = as_signed w b.
Proof. intros E. unfold as_signed. by rewrite E. Qed.

(** ** Prefix codes

    [f] is a prefix code on [P]: a value satisfying [P] can be read off the front
    of a list that starts with its encoding.  Such codes compose by
    concatenation, which is how the serializers of records are shown injective. *)

Class PrefixCode {A B : Type} (P : A → Prop) (f : A → list B) : Prop :=
  prefix_code x y r s : P x → P y → f x ++ r = f y ++ s → x = y ∧ r = s.
#[global] Hint Mode PrefixCode - - - ! : typeclass_instances.

Lemma prefix_code_nil {A B} (P : A → Prop) (f : A → list B) `{!PrefixCode P f} x y :
  P x → P y → f x = f y → x = y.
Proof.
  intros Hx Hy E. destruct (prefix_code (f:=f) x y [] [] Hx Hy) as [? _]; [|done]. by rewrite !app_nil_r.
Qed.

(** Encodings of one length. *)
Lemma prefix_code_length {A B} (P : A → Prop) (f : A → list B) n :
  (∀ x, P x → length (f x) = n) → (∀ x y, P x → P y → f x = f y → x = y) → PrefixCode P f.
Proof.
  intros Hl Hi x y r s Hx Hy E. apply app_inj_1 in E as [E ->]; [by split; [apply Hi|]|].
  by rewrite !Hl.
Qed.

Lemma prefix_code_join {A B} (P : A → Prop) (f : A → list B) `{!PrefixCode P f} l1 l2 r s :
  length l1 = length l2 → Forall P l1 → Forall P l2 →
  mjoin (f <$> l1) ++ r = mjoin (f <$> l2) ++ s → l1 = l2 ∧ r = s.
Proof.
  revert l2. induction l1 as [|x l1 IH]; intros [|y l2] Hl H1 H2 E; try done.
  apply Forall_cons in H1 as [Hx H1]. apply Forall_cons in H2 as [Hy H2].
  rewrite !fmap_cons, !mjoin_cons, <- !app_assoc in E.
  apply (prefix_code (f:=f)) in E as [-> E]; [|done..].
  apply IH in E as [-> ->]; [done|by injection Hl|done..].
Qed.

Lemma mjoin_fmap_length {A B} (f : A → list B) n (l : list A) :
  Forall (λ x, length (f x) = n) l → length (mjoin (f <$> l)) = (length l * n)%nat.
Proof.
  induction 1 as [|x l Hx Hl IH]; [done|].
  rewrite fmap_cons, mjoin_cons, length_app, Hx, IH. done.
Qed.
