(* ===== verification/Bytes.v ===== *)
(** Byte strings: the byte type, big-endian integers, [chunks], [resize],
    [truncate], and the string functions of the Rust standard library the code
    uses.  A Rust [String] is its UTF-8 bytes, so [string] models [String] and
    [list byte] models [Vec<u8>] and [[u8; N]]; [as_bytes] and [from_bytes]
    convert. *)

From Stdlib Require Import Ascii String.
From S2P Require Import Prelude.

Notation byte := Ascii.ascii.

Definition byte_Z (b : byte) : Z := Z.of_N (N_of_ascii b).
Definition Z_byte (z : Z) : byte := ascii_of_N (Z.to_N (z mod 256)).

Lemma byte_Z_range b : 0 ≤ byte_Z b < 256.
Proof. unfold byte_Z. pose proof (N_ascii_bounded b). lia. Qed.

Lemma byte_Z_of_Z z : byte_Z (Z_byte z) = z mod 256.
Proof.
  unfold byte_Z, Z_byte. pose proof (Z.mod_pos_bound z 256 ltac:(lia)).
  rewrite N_ascii_embedding by lia. lia.
Qed.

Lemma Z_byte_Z b : Z_byte (byte_Z b) = b.
Proof.
  unfold Z_byte. rewrite Z.mod_small by apply byte_Z_range.
  unfold byte_Z. rewrite N2Z.id. apply ascii_N_embedding.
Qed.

#[global] Instance byte_Z_inj : Inj (=) (=) byte_Z.
Proof. intros b1 b2 E. by rewrite <- (Z_byte_Z b1), E, Z_byte_Z. Qed.

#[global] Instance byte_countable : Countable byte :=
  inj_countable' N_of_ascii ascii_of_N ascii_N_embedding.

Definition zero_byte : byte := Z_byte 0.

(** ** Big-endian integers *)

Definition be_Z (bs : list byte) : Z :=
  foldl (λ acc b, acc * 256 + byte_Z b) 0 bs.

(** [to_be_bytes] of an [n]-byte integer. *)
Fixpoint be_bytes (n : nat) (z : Z) : list byte :=
  match n with
  | O => []
  | S n' => be_bytes n' (z / 256) ++ [Z_byte z]
  end.

Lemma be_Z_snoc bs b : be_Z (bs ++ [b]) = be_Z bs * 256 + byte_Z b.
Proof. unfold be_Z. by rewrite foldl_app. Qed.

Lemma be_Z_app bs cs :
  be_Z (bs ++ cs) = be_Z bs * 256 ^ Z.of_nat (length cs) + be_Z cs.
Proof.
  induction cs as [|c cs IH] using rev_ind.
  - rewrite app_nil_r. change (be_Z []) with 0. simpl. lia.
  - rewrite app_assoc, !be_Z_snoc, IH, length_app; simpl.
    rewrite Nat2Z.inj_add, Z.pow_add_r by lia. change (256 ^ Z.of_nat 1) with 256. lia.
Qed.

Lemma be_Z_range bs : 0 ≤ be_Z bs < 256 ^ Z.of_nat (length bs).
Proof.
  induction bs as [|b bs IH] using rev_ind; [done|].
  rewrite be_Z_snoc, length_app; simpl.
  rewrite Nat2Z.inj_add, Z.pow_add_r by lia. change (256 ^ Z.of_nat 1) with 256.
  pose proof (byte_Z_range b). lia.
Qed.

Lemma length_be_bytes n z : length (be_bytes n z) = n.
Proof. revert z; induction n; intros; simpl; [done|]. rewrite length_app, IHn; simpl; lia. Qed.

Lemma be_Z_be_bytes n z : be_Z (be_bytes n z) = z mod 256 ^ Z.of_nat n.
Proof.
  revert z; induction n as [|n IH]; intros z; simpl be_bytes.
  - by rewrite Z.mod_1_r.
  - rewrite be_Z_snoc, IH, byte_Z_of_Z.
    rewrite Nat2Z.inj_succ, Z.pow_succ_r by lia.
    rewrite Z.rem_mul_r by lia. lia.
Qed.

Lemma be_bytes_be_Z bs : be_bytes (length bs) (be_Z bs) = bs.
Proof.
  induction bs as [|b bs IH] using rev_ind; [done|].
  rewrite length_app, be_Z_snoc. simpl. rewrite Nat.add_1_r. simpl.
  pose proof (byte_Z_range b).
  rewrite Z.div_add_l, (Z.div_small (byte_Z b)) by lia.
  rewrite Z.add_0_r, IH. f_equal. f_equal.
  unfold Z_byte. rewrite Z.add_comm, Z.mod_add by lia.
  apply Z_byte_Z.
Qed.

Lemma be_Z_inj bs cs : length bs = length cs → be_Z bs = be_Z cs → bs = cs.
Proof.
  intros Hl E. rewrite <- (be_bytes_be_Z bs), <- (be_bytes_be_Z cs). by rewrite Hl, E.
Qed.

Lemma be_bytes_add n m z :
  be_bytes (n + m) z = be_bytes n (z / 256 ^ Z.of_nat m) ++ be_bytes m z.
Proof.
  revert z; induction m as [|m IH]; intros z.
  - rewrite Nat.add_0_r, Z.div_1_r. simpl. by rewrite app_nil_r.
  - rewrite Nat.add_succ_r. simpl. rewrite IH, app_assoc, Z.div_div by lia.
    do 3 f_equal. rewrite Nat2Z.inj_succ, Z.pow_succ_r by lia. done.
Qed.

Lemma be_bytes_mod n z : be_bytes n (z mod 256 ^ Z.of_nat n) = be_bytes n z.
Proof.
  apply be_Z_inj; [by rewrite !length_be_bytes|].
  rewrite !be_Z_be_bytes, Z.mod_mod; [done|]. apply Z.pow_nonzero; lia.
Qed.

Lemma be_bytes_zero n : be_bytes n 0 = replicate n zero_byte.
Proof.
  induction n as [|n IH]; [done|].
  simpl be_bytes. rewrite Z.div_0_l, IH by lia.
  replace (S n) with (n + 1)%nat by lia. by rewrite replicate_add.
Qed.

Lemma be_bytes_inj n z1 z2 :
  0 ≤ z1 < 256 ^ Z.of_nat n → 0 ≤ z2 < 256 ^ Z.of_nat n →
  be_bytes n z1 = be_bytes n z2 → z1 = z2.
Proof.
  intros H1 H2 E%(f_equal be_Z). rewrite !be_Z_be_bytes, !Z.mod_small in E; done.
Qed.

Lemma be_Z_replicate_zero n : be_Z (replicate n zero_byte) = 0.
Proof. rewrite <- be_bytes_zero, be_Z_be_bytes. apply Z.mod_0_l, Z.pow_nonzero; lia. Qed.

(** [padded[n..].copy_from_slice(bs)] on a zeroed buffer. *)
Definition left_pad (n : nat) (bs : list byte) : list byte :=
  replicate (n - length bs) zero_byte ++ bs.

Lemma be_Z_left_pad n bs : be_Z (left_pad n bs) = be_Z bs.
Proof. unfold left_pad. rewrite be_Z_app, be_Z_replicate_zero. lia. Qed.

Lemma length_left_pad n bs : (length bs ≤ n)%nat → length (left_pad n bs) = n.
Proof. intros. unfold left_pad. rewrite length_app, length_replicate. lia. Qed.

(** ** Slices *)

Fixpoint chunks_fuel {A} (fuel k : nat) (l : list A) : list (list A) :=
  match fuel, l with
  | S f, _ :: _ => take k l :: chunks_fuel f k (drop k l)
  | _, _ => []
  end.

(** [slice::chunks(k)], for a non-zero [k]: each step drops at least one
    element, so the length of the list is enough fuel. *)
Definition chunks {A} (k : nat) (l : list A) : list (list A) :=
  chunks_fuel (length l) k l.

Lemma chunks_fuel_enough {A} k (l : list A) f1 f2 :
  (0 < k)%nat → (length l ≤ f1)%nat → (length l ≤ f2)%nat →
  chunks_fuel f1 k l = chunks_fuel f2 k l.
Proof.
  intros Hk. revert f2 l; induction f1 as [|f1 IH]; intros f2 l H1 H2.
  - destruct l; simpl in *; [by destruct f2|lia].
  - destruct l as [|x l]; [by destruct f2|].
    destruct f2 as [|f2]; simpl in *; [lia|]. f_equal.
    apply IH; rewrite length_drop; simpl; lia.
Qed.

Lemma chunks_nil {A} k : chunks k (@nil A) = [].
Proof. done. Qed.

Lemma chunks_unfold {A} k (l : list A) :
  (0 < k)%nat → l ≠ [] → chunks k l = take k l :: chunks k (drop k l).
Proof.
  intros Hk Hl. unfold chunks at 1. destruct l as [|x l]; [done|].
  simpl chunks_fuel. f_equal. apply chunks_fuel_enough; [done| |done].
  rewrite length_drop. simpl. lia.
Qed.

Lemma chunks_ind {A} (k : nat) (Hk : (0 < k)%nat) (P : list A → Prop) :
  P [] → (∀ l, l ≠ [] → P (drop k l) → P l) → ∀ l, P l.
Proof.
  intros H0 H l. remember (length l) as n eqn:En. revert l En.
  induction (lt_wf n) as [n _ IH]. intros l ->.
  destruct l as [|x l]; [done|]. apply H; [done|].
  eapply IH; [|done]. rewrite length_drop; simpl; lia.
Qed.

Lemma concat_chunks {A} k (l : list A) : (0 < k)%nat → concat (chunks k l) = l.
Proof.
  intros Hk. induction l as [|l Hl IH] using (chunks_ind k Hk); [done|].
  rewrite chunks_unfold by done. simpl. rewrite IH. apply take_drop.
Qed.

Lemma chunks_lengths {A} k (l : list A) :
  (0 < k)%nat → Forall (λ c, 0 < length c ≤ k)%nat (chunks k l).
Proof.
  intros Hk. induction l as [|l Hl IH] using (chunks_ind k Hk); [constructor|].
  rewrite chunks_unfold by done. constructor; [|done].
  rewrite length_take. destruct l; simpl; [done|lia].
Qed.

Lemma chunks_short {A} k (l : list A) :
  l ≠ [] → (length l ≤ k)%nat → chunks k l = [l].
Proof.
  intros Hl Hk. assert (0 < k)%nat by (destruct l; simpl in *; [done|lia]).
  rewrite chunks_unfold by done. rewrite take_ge, drop_ge by lia. done.
Qed.

(** [Vec::resize] and [Vec::truncate]. *)
Definition vec_resize {A} (n : nat) (x : A) (l : list A) : list A := resize n x l.
Definition truncate {A} (n : nat) (l : list A) : list A := take n l.

(** ** Strings *)

Definition as_bytes (s : string) : list byte := list_ascii_of_string s.
Definition from_bytes (bs : list byte) : string := string_of_list_ascii bs.

Lemma from_as_bytes s : from_bytes (as_bytes s) = s.
Proof. apply string_of_list_ascii_of_string. Qed.
Lemma as_from_bytes bs : as_bytes (from_bytes bs) = bs.
Proof. apply list_ascii_of_string_of_list_ascii. Qed.

#[global] Instance as_bytes_inj : Inj (=) (=) as_bytes.
Proof. intros s t E. by rewrite <- (from_as_bytes s), E, from_as_bytes. Qed.

Lemma as_bytes_app s t : as_bytes (s +:+ t) = as_bytes s ++ as_bytes t.
Proof. induction s as [|a s IH]; [done|]. simpl. by f_equal. Qed.

Lemma length_as_bytes s : length (as_bytes s) = String.length s.
Proof. induction s; simpl; auto. Qed.

Lemma string_app_inj_length (s s' t t' : string) :
  String.length s = String.length s' → s +:+ t = s' +:+ t' → s = s' ∧ t = t'.
Proof.
  revert s'. induction s as [|a s IH]; intros [|b s'] Hl E; simpl in *; try done.
  injection E as -> E. destruct (IH s') as [-> ->]; auto.
Qed.

(** [str::len]. *)
Definition str_len (s : string) : Z := Z.of_nat (String.length s).

(** [str::strip_prefix]. *)
Fixpoint strip_prefix (p s : string) : option string :=
  match p, s with
  | EmptyString, _ => Some s
  | String a p', String b s' => if decide (a = b) then strip_prefix p' s' else None
  | String _ _, EmptyString => None
  end.

Lemma strip_prefix_app p s : strip_prefix p (p +:+ s) = Some s.
Proof. induction p as [|a p IH]; simpl; [done|]. by rewrite decide_True. Qed.

Lemma strip_prefix_Some p s t : strip_prefix p s = Some t ↔ s = p +:+ t.
Proof.
  split; [|by intros ->; apply strip_prefix_app].
  revert s; induction p as [|a p IH]; intros s; simpl; [by intros [= ->]|].
  destruct s as [|b s]; [done|]. case_decide; [|done]. subst. intros H%IH. by subst.
Qed.

(** [str::ends_with]. *)
Fixpoint ends_with (suffix s : string) : bool :=
  String.eqb s suffix ||
  match s with EmptyString => false | String _ s' => ends_with suffix s' end.

Lemma ends_with_spec suffix s :
  ends_with suffix s = true ↔ ∃ p, s = p +:+ suffix.
Proof.
  induction s as [|a s IH]; cbn [ends_with]; rewrite orb_true_iff, String.eqb_eq.
  - split; [intros [<-|]; [by exists ""%string|done]|].
    intros [[|] E]; [by left|done].
  - rewrite IH. split.
    + intros [<-|[p ->]]; [by exists ""%string|by exists (String a p)].
    + intros [[|b p] E]; [by left|]. injection E as -> ->. right. by exists p.
Qed.

(** [str::contains]. *)
Fixpoint contains (needle s : string) : bool :=
  String.prefix needle s ||
  match s with EmptyString => false | String _ s' => contains needle s' end.

(** [[T]::join(sep)] on strings. *)
Fixpoint join (sep : string) (l : list string) : string :=
  match l with
  | [] => ""
  | [s] => s
  | s :: l' => s +:+ sep +:+ join sep l'
  end.

(** [char::from(byte)] pushed on a [String]: the code points 128 to 255 take
    two bytes in UTF-8. *)
Definition char_from_u8 (b : byte) : string :=
  if byte_Z b <? 128 then String b ""
  else String (Z_byte (192 + byte_Z b / 64)) (String (Z_byte (128 + byte_Z b mod 64)) "").

Definition chars_to_string (cs : list byte) : string :=
  foldr (λ b s, char_from_u8 b +:+ s) ""%string cs.

(** [str::chars] of the UTF-8 bytes of a text, as code points. *)
Fixpoint utf8_chars (bs : list byte) : list Z :=
  match bs with
  | [] => []
  | b :: rest =>
      if byte_Z b <? 128 then byte_Z b :: utf8_chars rest
      else match rest with
      | [] => []
      | c1 :: rest1 =>
          if byte_Z b <? 224 then
            (byte_Z b mod 32 * 64 + byte_Z c1 mod 64) :: utf8_chars rest1
          else match rest1 with
          | [] => []
          | c2 :: rest2 =>
              if byte_Z b <? 240 then
                ((byte_Z b mod 16 * 64 + byte_Z c1 mod 64) * 64 + byte_Z c2 mod 64)
                  :: utf8_chars rest2
              else match rest2 with
              | [] => []
              | c3 :: rest3 =>
                  (((byte_Z b mod 8 * 64 + byte_Z c1 mod 64) * 64 + byte_Z c2 mod 64) * 64
                   + byte_Z c3 mod 64) :: utf8_chars rest3
              end
          end
      end
  end.

Definition is_ascii (bs : list byte) : bool := forallb (λ b, byte_Z b <? 128) bs.

Lemma utf8_chars_ascii bs : is_ascii bs = true → utf8_chars bs = byte_Z <$> bs.
Proof.
  induction bs as [|b bs IH]; simpl; [done|].
  intros [Hb Hbs]%andb_true_iff. rewrite Hb. by rewrite IH.
Qed.

Lemma chars_to_string_ascii bs :
  is_ascii bs = true → chars_to_string bs = from_bytes bs.
Proof.
  induction bs as [|b bs IH]; simpl; [done|].
  intros [Hb Hbs]%andb_true_iff. unfold char_from_u8. rewrite Hb. simpl. by rewrite IH.
Qed.

(** ** Decimal numbers *)

(** [str::parse::<u64>]: an optional [+], then at least one digit, without overflow. *)
Fixpoint parse_digits (acc : Z) (s : string) : option Z :=
  match s with
  | EmptyString => Some acc
  | String c s' =>
      let d := byte_Z c - 48 in
      if (0 <=? d) && (d <=? 9) then
        let acc' := acc * 10 + d in
        if acc' <? 2 ^ 64 then parse_digits acc' s' else None
      else None
  end.

Definition parse_u64 (s : string) : option Z :=
  match (match s with String c s' => if byte_Z c =? 43 then s' else s | EmptyString => s end) with
  | EmptyString => None
  | digits => parse_digits 0 digits
  end.

Lemma parse_digits_char d acc s :
  (d < 10)%N → acc * 10 + Z.of_N d < 2 ^ 64 →
  parse_digits acc (String (pretty_N_char d) s) = parse_digits (acc * 10 + Z.of_N d) s.
Proof.
  intros Hd Hacc. cbn [parse_digits].
  assert (byte_Z (pretty_N_char d) - 48 = Z.of_N d) as ->.
  { unfold byte_Z.
    destruct d as [|[[[|[]|]|[|[]|]|]|[[|[]|]|[|[]|]|]|]]; try reflexivity; lia. }
  replace ((0 <=? Z.of_N d) && (Z.of_N d <=? 9)) with true by lia.
  by replace (acc * 10 + Z.of_N d <? 2 ^ 64) with true by lia.
Qed.

Lemma parse_pretty_go x s :
  Z.of_N x < 2 ^ 64 → parse_digits 0 (pretty_N_go x s) = parse_digits (Z.of_N x) s.
Proof.
  revert s. induction (N.lt_wf_0 x) as [x _ IH]. intros s Hx.
  destruct (decide (x = 0)%N) as [->|Hne]; [by rewrite pretty_N_go_0|].
  rewrite pretty_N_go_step by lia.
  pose proof (N.div_lt x 10 ltac:(lia) ltac:(lia)).
  pose proof (N.div_mod x 10 ltac:(lia)). pose proof (N.mod_lt x 10 ltac:(lia)).
  rewrite IH by lia. rewrite parse_digits_char by lia. f_equal. lia.
Qed.

(** [parse] reads back what [Display] writes. *)
Lemma parse_u64_pretty z : in_u 64 z → parse_u64 (pretty z) = Some z.
Proof.
  intros Hz. assert (pretty z = pretty (Z.to_N z)) as ->.
  { destruct z; [done|done|unfold in_u in Hz; lia]. }
  assert (parse_digits 0 (pretty (Z.to_N z)) = Some z) as Hp.
  { unfold pretty, pretty_N. destruct (decide (Z.to_N z = 0%N)) as [E|E].
    - assert (z = 0) as -> by (unfold in_u in Hz; lia). done.
    - rewrite parse_pretty_go by (unfold in_u in Hz; lia). simpl. f_equal.
      unfold in_u in Hz. lia. }
  assert (pretty (Z.to_N z) ≠ ""%string) as Hne.
  { unfold pretty, pretty_N. destruct (decide (Z.to_N z = 0%N)) as [E|E]; [done|].
    intros E'. unfold pretty, pretty_N in Hp. rewrite decide_False, E' in Hp by done.
    injection Hp as <-. done. }
  unfold parse_u64. destruct (pretty (Z.to_N z)) as [|c s]; [done|].
  cbn [parse_digits] in Hp.
  destruct (Z.eqb_spec (byte_Z c) 43) as [E|_]; [by rewrite E in Hp|done].
Qed.

(** ** Hexadecimal numbers *)

(** [u64::from_str_radix(s, 16)]. *)
Fixpoint parse_hex_digits (acc : Z) (s : string) : option Z :=
  match s with
  | EmptyString => Some acc
  | String c s' =>
      let b := byte_Z c in
      let d := if (48 <=? b) && (b <=? 57) then b - 48
               else if (97 <=? b) && (b <=? 102) then b - 87
               else if (65 <=? b) && (b <=? 70) then b - 55 else -1 in
      if 0 <=? d then
        let acc' := acc * 16 + d in
        if acc' <? 2 ^ 64 then parse_hex_digits acc' s' else None
      else None
  end.

Definition parse_hex_u64 (s : string) : option Z :=
  match (match s with String c s' => if byte_Z c =? 43 then s' else s | EmptyString => s end) with
  | EmptyString => None
  | digits => parse_hex_digits 0 digits
  end.

(** ** 128-bit numbers *)

(** [u128::from_str_radix(s, 16)]. *)
Fixpoint parse_hex_digits_u128 (acc : Z) (s : string) : option Z :=
  match s with
  | EmptyString => Some acc
  | String c s' =>
      let b := byte_Z c in
      let d := if (48 <=? b) && (b <=? 57) then b - 48
               else if (97 <=? b) && (b <=? 102) then b - 87
               else if (65 <=? b) && (b <=? 70) then b - 55 else -1 in
      if 0 <=? d then
        let acc' := acc * 16 + d in
        if acc' <? 2 ^ 128 then parse_hex_digits_u128 acc' s' else None
      else None
  end.

Definition parse_hex_u128 (s : string) : option Z :=
  match (match s with String c s' => if byte_Z c =? 43 then s' else s | EmptyString => s end) with
  | EmptyString => None
  | digits => parse_hex_digits_u128 0 digits
  end.

(** [str::parse::<u128>]. *)
Fixpoint parse_digits_u128 (acc : Z) (s : string) : option Z :=
  match s with
  | EmptyString => Some acc
  | String c s' =>
      let d := byte_Z c - 48 in
      if (0 <=? d) && (d <=? 9) then
        let acc' := acc * 10 + d in
        if acc' <? 2 ^ 128 then parse_digits_u128 acc' s' else None
      else None
  end.

Definition parse_u128 (s : string) : option Z :=
  match (match s with String c s' => if byte_Z c =? 43 then s' else s | EmptyString => s end) with
  | EmptyString => None
  | digits => parse_digits_u128 0 digits
  end.
