(* ===== verification/Ordered.v ===== *)
(** Rust's [Ord], the stable [sort_by] and [sort_by_key], and [BTreeMap] as a
    key-sorted association list (iteration, [range] and [values] follow the
    key order).  [bt_view] relates it to a [gmap], the view the client theorems
    are stated on. *)

From S2P Require Import Prelude Bytes.

(** ** [std::cmp::Ord] *)

Class RustOrd (K : Type) := ord_cmp : K → K → comparison.
#[global] Hint Mode RustOrd ! : typeclass_instances.

Class RustOrdLaws (K : Type) `{RustOrd K} : Prop := {
  ord_cmp_eq : ∀ a b : K, ord_cmp a b = Eq ↔ a = b;
  ord_cmp_antisym : ∀ a b : K, ord_cmp b a = CompOpp (ord_cmp a b);
  ord_cmp_trans : ∀ a b c : K, ord_cmp a b = Lt → ord_cmp b c = Lt → ord_cmp a c = Lt;
}.

(** [Ordering::then]. *)
Definition cmp_then (c1 c2 : comparison) : comparison :=
  match c1 with Eq => c2 | _ => c1 end.

#[global] Instance Z_ord : RustOrd Z := Z.compare.
#[global] Instance Z_ord_laws : RustOrdLaws Z.
Proof.
  split; unfold ord_cmp, Z_ord.
  - apply Z.compare_eq_iff.
  - intros. apply Z.compare_antisym.
  - intros a b c. rewrite !Z.compare_lt_iff. lia.
Qed.

#[global] Instance byte_ord : RustOrd byte := λ a b, Z.compare (byte_Z a) (byte_Z b).
#[global] Instance byte_ord_laws : RustOrdLaws byte.
Proof.
  split; unfold ord_cmp, byte_ord.
  - intros. rewrite Z.compare_eq_iff. split; [apply (inj byte_Z)|by intros ->].
  - intros. apply Z.compare_antisym.
  - intros a b c. rewrite !Z.compare_lt_iff. lia.
Qed.

Section list_ord.
Context {A : Type} `{RustOrdLaws A}.

(** Slices compare lexicographically. *)
Fixpoint list_cmp (l1 l2 : list A) : comparison :=
  match l1, l2 with
  | [], [] => Eq
  | [], _ :: _ => Lt
  | _ :: _, [] => Gt
  | a :: l1', b :: l2' => cmp_then (ord_cmp a b) (list_cmp l1' l2')
  end.

#[global] Instance list_ord : RustOrd (list A) := list_cmp.

#[global] Instance list_ord_laws : RustOrdLaws (list A).
Proof.
  split; unfold ord_cmp, list_ord.
  - induction a as [|a l1 IH]; intros [|b l2]; simpl; try done.
    destruct (ord_cmp a b) eqn:E; simpl.
    + apply ord_cmp_eq in E as ->. rewrite IH. naive_solver.
    + split; [done|]. intros [= -> ->].
      assert (ord_cmp b b = Eq) as E' by by apply ord_cmp_eq. congruence.
    + split; [done|]. intros [= -> ->].
      assert (ord_cmp b b = Eq) as E' by by apply ord_cmp_eq. congruence.
  - induction a as [|a l1 IH]; intros [|b l2]; simpl; try done.
    rewrite (ord_cmp_antisym a b). destruct (ord_cmp a b); simpl; auto.
  - induction a as [|a l1 IH]; intros [|b l2] [|c l3]; simpl; try done.
    destruct (ord_cmp a b) eqn:E1; simpl; try done.
    + apply ord_cmp_eq in E1 as ->. destruct (ord_cmp b c); simpl; eauto.
    + destruct (ord_cmp b c) eqn:E2; simpl; try done; intros _ _.
      * apply ord_cmp_eq in E2 as ->. by rewrite E1.
      * by rewrite (ord_cmp_trans _ _ _ E1 E2).
Qed.

#[global] Instance option_ord : RustOrd (option A) := λ o1 o2,
  match o1, o2 with
  | None, None => Eq | None, Some _ => Lt | Some _, None => Gt
  | Some a, Some b => ord_cmp a b
  end.

#[global] Instance option_ord_laws : RustOrdLaws (option A).
Proof.
  split; unfold ord_cmp, option_ord.
  - intros [a|] [b|]; try done. rewrite ord_cmp_eq. naive_solver.
  - intros [a|] [b|]; try done. apply ord_cmp_antisym.
  - intros [a|] [b|] [c|]; try done. apply ord_cmp_trans.
Qed.
End list_ord.

#[global] Instance string_ord : RustOrd string := λ s t, list_cmp (as_bytes s) (as_bytes t).
#[global] Instance string_ord_laws : RustOrdLaws string.
Proof.
  split; unfold ord_cmp, string_ord; intros.
  - pose proof (ord_cmp_eq (as_bytes a) (as_bytes b)) as E.
    unfold ord_cmp, list_ord in E. rewrite E.
    split; [apply (inj as_bytes)|by intros ->].
  - apply (ord_cmp_antisym (as_bytes a)).
  - eapply (ord_cmp_trans (as_bytes a) (as_bytes b)); done.
Qed.

Section ord_facts.
Context {K : Type} `{RustOrdLaws K}.
Lemma ord_cmp_refl (a : K) : ord_cmp a a = Eq.
Proof. by apply ord_cmp_eq. Qed.
Lemma ord_cmp_gt (a b : K) : ord_cmp a b = Gt ↔ ord_cmp b a = Lt.
Proof. rewrite (ord_cmp_antisym a b). destruct (ord_cmp a b); naive_solver. Qed.
Lemma ord_cmp_lt_ne (a b : K) : ord_cmp a b = Lt → a ≠ b.
Proof. intros E ->. rewrite ord_cmp_refl in E. done. Qed.
End ord_facts.

(** ** Stable sort *)

Section stable_sort.
Context {A : Type} (cmp : A → A → comparison).

Fixpoint sort_insert (x : A) (l : list A) : list A :=
  match l with
  | [] => [x]
  | y :: l' => match cmp x y with Gt => y :: sort_insert x l' | _ => x :: l end
  end.

(** [slice::sort_by]: the stable sort, which is determined by the comparison. *)
Definition sort_by (l : list A) : list A := foldr sort_insert [] l.

Definition cmp_le (x y : A) : Prop := cmp x y ≠ Gt.

Lemma sort_insert_perm x l : sort_insert x l ≡ₚ x :: l.
Proof.
  induction l as [|y l IH]; simpl; [done|].
  destruct (cmp x y); [done|done|]. rewrite IH. constructor.
Qed.

Lemma sort_by_perm l : sort_by l ≡ₚ l.
Proof. induction l as [|x l IH]; simpl; [done|]. by rewrite sort_insert_perm, IH. Qed.

Lemma length_sort_by l : length (sort_by l) = length l.
Proof. apply Permutation_length, sort_by_perm. Qed.

Lemma elem_of_sort_by x l : x ∈ sort_by l ↔ x ∈ l.
Proof. by rewrite sort_by_perm. Qed.

(** A sorted list is left as it is. *)
Lemma sort_by_sorted_id l : StronglySorted cmp_le l → sort_by l = l.
Proof.
  induction 1 as [|x l Hl IH Hx]; simpl; [done|]. rewrite IH.
  destruct l as [|y l]; simpl; [done|].
  inversion Hx as [|? ? Hxy]; subst. unfold cmp_le in Hxy. by destruct (cmp x y).
Qed.

Context (cmp_opp : ∀ x y, cmp y x = CompOpp (cmp x y))
        (cmp_le_trans : ∀ x y z, cmp_le x y → cmp_le y z → cmp_le x z).

Lemma sort_insert_sorted x l :
  StronglySorted cmp_le l → StronglySorted cmp_le (sort_insert x l).
Proof.
  induction 1 as [|y l Hl IH Hy]; simpl; [repeat constructor|].
  destruct (cmp x y) eqn:E.
  1,2: constructor; [by constructor|]; assert (cmp_le x y) by (unfold cmp_le; congruence);
       constructor; [done|]; eapply Forall_impl; [exact Hy|]; eauto.
  constructor; [done|].
  assert (cmp_le y x) by (unfold cmp_le; rewrite cmp_opp, E; done).
  rewrite sort_insert_perm. by constructor.
Qed.

Lemma sort_by_sorted l : StronglySorted cmp_le (sort_by l).
Proof. induction l; simpl; [constructor|by apply sort_insert_sorted]. Qed.

(** Permutations sort to the same list when equal keys mean equal elements. *)
Lemma sort_by_perm_eq l1 l2 :
  l1 ≡ₚ l2 → (∀ x y, x ∈ l1 → y ∈ l1 → cmp x y = Eq → x = y) →
  sort_by l1 = sort_by l2.
Proof.
  intros E Hk. eapply StronglySorted_unique_strong; [|apply sort_by_sorted..|].
  - intros x y Hx Hy Hxy Hyx. rewrite elem_of_sort_by in Hx, Hy.
    rewrite <- E in Hy. apply Hk; [done..|].
    unfold cmp_le in *. rewrite cmp_opp in Hyx. by destruct (cmp x y).
  - by rewrite !sort_by_perm.
Qed.
End stable_sort.

(** [slice::sort_by_key]. *)
Definition sort_by_key {A K} `{RustOrd K} (key : A → K) (l : list A) : list A :=
  sort_by (λ x y, ord_cmp (key x) (key y)) l.

Section sort_by_key.
Context {A K : Type} `{RustOrdLaws K} (key : A → K).
Let cmp x y := ord_cmp (key x) (key y).

Lemma key_cmp_opp x y : cmp y x = CompOpp (cmp x y).
Proof. apply (ord_cmp_antisym (key x) (key y)). Qed.

Lemma key_cmp_le_trans x y z : cmp_le cmp x y → cmp_le cmp y z → cmp_le cmp x z.
Proof.
  unfold cmp_le, cmp. intros H1 H2 E%ord_cmp_gt.
  destruct (ord_cmp (key x) (key y)) eqn:E1; [| |done].
  - apply ord_cmp_eq in E1. rewrite E1 in E. by apply ord_cmp_gt in E.
  - pose proof (ord_cmp_trans _ _ _ E E1) as E2. by apply ord_cmp_gt in E2.
Qed.

Lemma sort_by_key_perm l : sort_by_key key l ≡ₚ l.
Proof. apply sort_by_perm. Qed.

Lemma sort_by_key_sorted l : StronglySorted (cmp_le cmp) (sort_by_key key l).
Proof. apply sort_by_sorted; [apply key_cmp_opp|apply key_cmp_le_trans]. Qed.

Lemma sort_by_key_perm_eq l1 l2 :
  l1 ≡ₚ l2 → NoDup (key <$> l1) → sort_by_key key l1 = sort_by_key key l2.
Proof.
  intros E Hnd. apply sort_by_perm_eq; [apply key_cmp_opp|apply key_cmp_le_trans|done|].
  intros x y Hx Hy Hxy%ord_cmp_eq.
  apply list_elem_of_lookup in Hx as [i Hi]. apply list_elem_of_lookup in Hy as [j Hj].
  assert (i = j) as ->; [|congruence].
  eapply NoDup_lookup; [exact Hnd|by rewrite list_lookup_fmap, Hi|].
  by rewrite list_lookup_fmap, Hj; simpl; rewrite Hxy.
Qed.
End sort_by_key.

(** ** [BTreeMap] *)

Section btree.
Context {K V : Type} `{RustOrdLaws K}.

Fixpoint bt_get (k : K) (m : list (K * V)) : option V :=
  match m with
  | [] => None
  | (k', v) :: m' => match ord_cmp k k' with Eq => Some v | _ => bt_get k m' end
  end.

Fixpoint bt_insert (k : K) (v : V) (m : list (K * V)) : list (K * V) :=
  match m with
  | [] => [(k, v)]
  | (k', v') :: m' =>
      match ord_cmp k k' with
      | Lt => (k, v) :: m
      | Eq => (k, v) :: m'
      | Gt => (k', v') :: bt_insert k v m'
      end
  end.

Fixpoint bt_remove (k : K) (m : list (K * V)) : list (K * V) :=
  match m with
  | [] => []
  | (k', v') :: m' =>
      match ord_cmp k k' with Eq => m' | _ => (k', v') :: bt_remove k m' end
  end.

(** [entry(k).or_insert(v)]. *)
Definition bt_or_insert (k : K) (v : V) (m : list (K * V)) : list (K * V) :=
  match bt_get k m with Some _ => m | None => bt_insert k v m end.

Definition bt_values (m : list (K * V)) : list V := m.*2.

(** [range(k..)]. *)
Fixpoint bt_range_from (k : K) (m : list (K * V)) : list (K * V) :=
  match m with
  | [] => []
  | (k', v') :: m' => match ord_cmp k' k with Lt => bt_range_from k m' | _ => m end
  end.

Definition entry_lt (p q : K * V) : Prop := ord_cmp p.1 q.1 = Lt.
Definition bt_wf (m : list (K * V)) : Prop := StronglySorted entry_lt m.

Lemma bt_insert_elem k v m p : p ∈ bt_insert k v m → p = (k, v) ∨ p ∈ m.
Proof.
  induction m as [|[k' v'] m IH]; simpl; [set_solver|].
  destruct (ord_cmp k k'); set_solver.
Qed.

Lemma bt_insert_wf k v m : bt_wf m → bt_wf (bt_insert k v m).
Proof.
  induction 1 as [|[k' v'] m Hm IH Hk']; simpl; [repeat constructor|].
  destruct (ord_cmp k k') eqn:E.
  - apply ord_cmp_eq in E as ->. by constructor.
  - constructor; [by constructor|]. constructor; [done|].
    eapply Forall_impl; [exact Hk'|]. intros p. apply (ord_cmp_trans _ _ _ E).
  - constructor; [done|]. apply Forall_forall. intros p [->|Hp]%bt_insert_elem.
    + by apply ord_cmp_gt in E.
    + rewrite Forall_forall in Hk'. auto.
Qed.

Lemma bt_remove_sub k m : bt_remove k m ⊆ m.
Proof.
  induction m as [|[k' v'] m IH]; simpl; [done|]. destruct (ord_cmp k k'); set_solver.
Qed.

Lemma bt_remove_wf k m : bt_wf m → bt_wf (bt_remove k m).
Proof.
  induction 1 as [|[k' v'] m Hm IH Hk']; simpl; [constructor|].
  destruct (ord_cmp k k'); [done| |];
    (constructor; [done|]; rewrite Forall_forall in *; intros p Hp%bt_remove_sub; auto).
Qed.

Lemma bt_or_insert_wf k v m : bt_wf m → bt_wf (bt_or_insert k v m).
Proof. unfold bt_or_insert. destruct (bt_get k m); [done|apply bt_insert_wf]. Qed.

Lemma bt_get_insert k v m : bt_get k (bt_insert k v m) = Some v.
Proof.
  induction m as [|[k' v'] m IH]; simpl; [by rewrite ord_cmp_refl|].
  destruct (ord_cmp k k') eqn:E; simpl; [by rewrite ord_cmp_refl..|by rewrite E].
Qed.

Lemma bt_get_insert_ne k k' v m : k ≠ k' → bt_get k' (bt_insert k v m) = bt_get k' m.
Proof.
  intros Hne. assert (ord_cmp k' k ≠ Eq) as Hc by (rewrite ord_cmp_eq; congruence).
  induction m as [|[k1 v1] m IH]; simpl; [by destruct (ord_cmp k' k)|].
  destruct (ord_cmp k k1) eqn:E; simpl.
  - apply ord_cmp_eq in E as ->. by destruct (ord_cmp k' k1).
  - by destruct (ord_cmp k' k).
  - by rewrite IH.
Qed.

Lemma bt_get_Some_elem k v m : bt_get k m = Some v → (k, v) ∈ m.
Proof.
  induction m as [|[k' v'] m IH]; simpl; [done|].
  destruct (ord_cmp k k') eqn:E; [|set_solver..].
  apply ord_cmp_eq in E as ->. intros [= ->]. set_solver.
Qed.

Lemma bt_get_elem k v m : bt_wf m → (k, v) ∈ m → bt_get k m = Some v.
Proof.
  induction 1 as [|[k' v'] m Hm IH Hk']; simpl; [by rewrite elem_of_nil|].
  rewrite elem_of_cons. intros [[= -> ->]|Hin]; [by rewrite ord_cmp_refl|].
  rewrite Forall_forall in Hk'. specialize (Hk' _ Hin). unfold entry_lt in Hk'; simpl in Hk'.
  rewrite (ord_cmp_antisym k' k), Hk'. simpl. auto.
Qed.

Lemma bt_get_None k m : bt_get k m = None ↔ k ∉ m.*1.
Proof.
  induction m as [|[k' v'] m IH]; simpl; [set_solver|].
  rewrite elem_of_cons. destruct (ord_cmp k k') eqn:E.
  - apply ord_cmp_eq in E. naive_solver.
  - apply ord_cmp_lt_ne in E. naive_solver.
  - apply ord_cmp_gt, ord_cmp_lt_ne in E. naive_solver.
Qed.

Lemma bt_wf_keys_NoDup m : bt_wf m → NoDup m.*1.
Proof.
  induction 1 as [|[k v] m Hm IH Hk]; simpl; constructor; [|done].
  intros ([k' v'] & -> & Hin)%list_elem_of_fmap. rewrite Forall_forall in Hk.
  specialize (Hk _ Hin). by apply ord_cmp_lt_ne in Hk.
Qed.

Lemma bt_get_remove k m : bt_wf m → bt_get k (bt_remove k m) = None.
Proof.
  intros Hm. pose proof (bt_wf_keys_NoDup _ Hm) as Hnd. clear Hm.
  induction m as [|[k' v'] m IH]; simpl; [done|]. simpl in Hnd.
  apply NoDup_cons in Hnd as [Hk' Hnd].
  destruct (ord_cmp k k') eqn:E; simpl; [|by rewrite E; auto..].
  apply ord_cmp_eq in E as ->. by apply bt_get_None.
Qed.

Lemma bt_get_remove_ne k k' m : k ≠ k' → bt_get k' (bt_remove k m) = bt_get k' m.
Proof.
  intros Hne. induction m as [|[k1 v1] m IH]; simpl; [done|].
  destruct (ord_cmp k k1) eqn:E; simpl; [|by rewrite IH..].
  apply ord_cmp_eq in E as ->. destruct (ord_cmp k' k1) eqn:E'; [|done..].
  apply ord_cmp_eq in E'. congruence.
Qed.

Lemma bt_range_from_elem k m p :
  bt_wf m → p ∈ bt_range_from k m ↔ p ∈ m ∧ ord_cmp p.1 k ≠ Lt.
Proof.
  induction 1 as [|[k' v'] m Hm IH Hk']; simpl; [set_solver|].
  destruct (ord_cmp k' k) eqn:E.
  3: apply ord_cmp_gt in E.
  2: { rewrite IH, elem_of_cons. split; [naive_solver|]. intros [[->|?] ?]; [done|auto]. }
  - apply ord_cmp_eq in E as ->. split; [|tauto]. intros Hp. split; [done|].
    rewrite Forall_forall in Hk'. apply elem_of_cons in Hp as [->|Hp].
    + simpl. by rewrite ord_cmp_refl.
    + intros Hlt. specialize (Hk' _ Hp). unfold entry_lt in Hk'; simpl in Hk'.
      pose proof (ord_cmp_trans _ _ _ Hk' Hlt) as C. by rewrite ord_cmp_refl in C.
  - split; [|tauto]. intros Hp. split; [done|].
    rewrite Forall_forall in Hk'. apply elem_of_cons in Hp as [->|Hp].
    + simpl. rewrite (ord_cmp_antisym k k'), E. done.
    + intros Hlt. specialize (Hk' _ Hp). unfold entry_lt in Hk'; simpl in Hk'.
      pose proof (ord_cmp_trans _ _ _ E (ord_cmp_trans _ _ _ Hk' Hlt)) as C.
      by rewrite ord_cmp_refl in C.
Qed.
End btree.

Section btree_view.
Context {K V : Type} `{RustOrdLaws K, Countable K}.

Definition bt_view (m : list (K * V)) : gmap K V := list_to_map m.

Lemma bt_view_lookup m k : bt_view m !! k = bt_get k m.
Proof.
  unfold bt_view. induction m as [|[k' v'] m IH]; simpl; [done|].
  destruct (ord_cmp k k') eqn:E.
  - apply ord_cmp_eq in E as ->. apply lookup_insert_eq.
  - rewrite lookup_insert_ne, IH; [done|]. apply ord_cmp_lt_ne in E. congruence.
  - rewrite lookup_insert_ne, IH; [done|]. by apply ord_cmp_gt, ord_cmp_lt_ne in E.
Qed.

Lemma bt_view_insert k v m : bt_view (bt_insert k v m) = <[k:=v]> (bt_view m).
Proof.
  apply map_eq. intros k'. rewrite bt_view_lookup. destruct (decide (k = k')) as [->|Hne].
  - by rewrite bt_get_insert, lookup_insert_eq.
  - by rewrite bt_get_insert_ne, lookup_insert_ne, bt_view_lookup.
Qed.

Lemma bt_view_remove k m : bt_wf m → bt_view (bt_remove k m) = delete k (bt_view m).
Proof.
  intros Hm. apply map_eq. intros k'. rewrite bt_view_lookup.
  destruct (decide (k = k')) as [->|Hne].
  - by rewrite bt_get_remove, lookup_delete_eq.
  - by rewrite bt_get_remove_ne, lookup_delete_ne, bt_view_lookup.
Qed.

Lemma bt_view_elem m k v : bt_wf m → bt_view m !! k = Some v ↔ (k, v) ∈ m.
Proof.
  intros Hm. rewrite bt_view_lookup. split; [apply bt_get_Some_elem|by apply bt_get_elem].
Qed.
End btree_view.
