(* ===== verification/Deps.v ===== *)
(** Interfaces of the third-party crates.

    The code of these crates is not part of the repository, so each is a class:
    the operations the source calls are fields, and the documented behaviour the
    theorems rely on are the class's laws.  Every definition that uses a crate
    takes the class as an argument.  [Concrete.v] gives an instance of every
    class, which the witnesses use. *)

From S2P Require Import Prelude Bytes Ordered.

(** ** [ark_bn254::{Fr, Fq}] through [ark_ff::PrimeField] *)

(** The orders of the BN254 scalar field and base field. *)
Definition fr_modulus : Z :=
  21888242871839275222246405745257275088548364400416034343698204186575808495617.
Definition fq_modulus : Z :=
  21888242871839275222246405745257275088696311157297823662689037894645226208583.

Lemma fr_modulus_bounds : 2 ^ 253 < fr_modulus < 2 ^ 254.
Proof. split; reflexivity. Qed.
Lemma fq_modulus_bounds : 2 ^ 253 < fq_modulus < 2 ^ 254.
Proof. split; reflexivity. Qed.
Arguments fr_modulus : simpl never.
Arguments fq_modulus : simpl never.

(** Elements of the prime field of order [p].  [pf_to_bytes_be x] is
    [x.into_bigint().to_bytes_be()], the 32 bytes of the canonical
    representative, and [pf_val x] that representative. *)
Class PrimeField (p : Z) := {
  pf_car : Type;
  pf_eq_dec :: EqDecision pf_car;
  pf_countable :: Countable pf_car;
  pf_zero : pf_car;
  pf_one : pf_car;
  pf_add : pf_car → pf_car → pf_car;
  pf_sub : pf_car → pf_car → pf_car;
  pf_mul : pf_car → pf_car → pf_car;
  pf_neg : pf_car → pf_car;
  pf_from_u64 : Z → pf_car;
  pf_from_be_bytes_mod_order : list byte → pf_car;
  pf_to_bytes_be : pf_car → list byte;
  pf_cmp : pf_car → pf_car → comparison;

  pf_length_to_bytes x : length (pf_to_bytes_be x) = 32%nat;
  pf_val_lt x : be_Z (pf_to_bytes_be x) < p;
  pf_to_bytes_inj x y : pf_to_bytes_be x = pf_to_bytes_be y → x = y;
  pf_val_zero : be_Z (pf_to_bytes_be pf_zero) = 0;
  pf_val_one : be_Z (pf_to_bytes_be pf_one) = 1;
  pf_val_add x y : be_Z (pf_to_bytes_be (pf_add x y)) =
    (be_Z (pf_to_bytes_be x) + be_Z (pf_to_bytes_be y)) mod p;
  pf_val_sub x y : be_Z (pf_to_bytes_be (pf_sub x y)) =
    (be_Z (pf_to_bytes_be x) - be_Z (pf_to_bytes_be y)) mod p;
  pf_val_mul x y : be_Z (pf_to_bytes_be (pf_mul x y)) =
    (be_Z (pf_to_bytes_be x) * be_Z (pf_to_bytes_be y)) mod p;
  pf_val_neg x : be_Z (pf_to_bytes_be (pf_neg x)) = (- be_Z (pf_to_bytes_be x)) mod p;
  pf_val_from_u64 n : 0 ≤ n < 2 ^ 64 → be_Z (pf_to_bytes_be (pf_from_u64 n)) = n mod p;
  pf_val_from_be bs : be_Z (pf_to_bytes_be (pf_from_be_bytes_mod_order bs)) = be_Z bs mod p;
  pf_cmp_val x y : pf_cmp x y =
    Z.compare (be_Z (pf_to_bytes_be x)) (be_Z (pf_to_bytes_be y));
}.
#[global] Hint Mode PrimeField ! : typeclass_instances.
Arguments pf_car p {_}.
Arguments pf_zero p {_}.
Arguments pf_one p {_}.
Arguments pf_from_u64 p {_} n.
Arguments pf_from_be_bytes_mod_order p {_} bs.

Section prime_field.
Context {p : Z} `{PF : PrimeField p}.
Implicit Types x y : pf_car p.

Definition pf_val (x : pf_car p) : Z := be_Z (pf_to_bytes_be x).

Lemma pf_val_range x : 0 ≤ pf_val x < p.
Proof.
  unfold pf_val. pose proof (be_Z_range (pf_to_bytes_be x)). pose proof (pf_val_lt x). lia.
Qed.

#[global] Instance pf_val_inj : Inj (=) (=) pf_val.
Proof.
  intros x y E. apply pf_to_bytes_inj, be_Z_inj; [by rewrite !pf_length_to_bytes|done].
Qed.

Lemma pf_from_to_be x : pf_from_be_bytes_mod_order p (pf_to_bytes_be x) = x.
Proof.
  apply (inj pf_val). unfold pf_val. rewrite pf_val_from_be.
  apply Z.mod_small. apply pf_val_range.
Qed.

Lemma pf_to_bytes_val x : pf_to_bytes_be x = be_bytes 32 (pf_val x).
Proof. unfold pf_val. by rewrite <- (pf_length_to_bytes x), be_bytes_be_Z. Qed.
End prime_field.

(** The two fields of the curve cycle. *)
Notation ArkFr := (pf_car fr_modulus).
Notation ArkFq := (pf_car fq_modulus).

(** ** [hex] *)

Definition is_hex_digit (b : byte) : bool :=
  let c := byte_Z b in
  ((48 <=? c) && (c <=? 57)) || ((97 <=? c) && (c <=? 102)) || ((65 <=? c) && (c <=? 70)).

(** [hex_decode] answers the bytes or the [Display] text of its error. *)
Class HexCrate := {
  hex_encode : list byte → string;
  hex_decode : string → string + list byte;
  hex_decode_encode bs : hex_decode (hex_encode bs) = inr bs;
  hex_length_encode bs : String.length (hex_encode bs) = (2 * length bs)%nat;
  hex_decode_ok s bs : hex_decode s = inr bs →
    String.length s = (2 * length bs)%nat ∧ forallb is_hex_digit (as_bytes s) = true;
}.

(** ** [taceo_poseidon2], the process environment and the bb.js helper

    [env_var] is [std::env::var]; [bbjs_poseidon2] is the answer of the external
    helper process that replaces the native hash when the environment asks for
    it. *)
Class Poseidon2Crate `{PrimeField fr_modulus} := {
  poseidon2_permutation : list ArkFr → list ArkFr;
  env_var : string → option string;
  bbjs_poseidon2 : list ArkFr → ArkFr;
  poseidon2_permutation_length st :
    length st = 4%nat → length (poseidon2_permutation st) = 4%nat;
}.

(** ** [sha2] and [blake2] *)
Class HashCrates := {
  sha256_digest : list byte → list byte;
  sha512_digest : list byte → list byte;
  blake2s256 : list byte → list byte;
  sha256_length bs : length (sha256_digest bs) = 32%nat;
  sha512_length bs : length (sha512_digest bs) = 64%nat;
  blake2s256_length bs : length (blake2s256 bs) = 32%nat;
}.

(** ** [serde_json] on one serializable type

    [from_slice] reads back what [to_vec] wrote. *)
Class SerdeJson (T : Type) := {
  to_vec : T → Outcome (list byte);
  from_slice : list byte → Outcome T;
  serde_roundtrip x : ∃ bs, to_vec x = Ok bs ∧ from_slice bs = Ok x;
}.
#[global] Hint Mode SerdeJson ! : typeclass_instances.

(** ** [serde_json::Value]

    The accessors of a parsed document.  [json_from_str] is [serde_json::from_str]
    at type [Value]; a member or an element of a value is smaller than the value. *)
Class JsonCrate := {
  json_value : Type;
  json_from_str : string → Outcome json_value;
  json_get : json_value → string → option json_value;
  json_pointer : json_value → string → option json_value;
  json_as_str : json_value → option string;
  json_as_bool : json_value → option bool;
  json_as_u64 : json_value → option Z;
  json_as_array : json_value → option (list json_value);
  json_size : json_value → nat;
  json_get_size v k w : json_get v k = Some w → (json_size w < json_size v)%nat;
  json_as_array_size v ws w : json_as_array v = Some ws → w ∈ ws → (json_size w < json_size v)%nat;
}.

(** [serde_json::to_value]: the [Display] text of the error, or the value. *)
Class ToValue (T : Type) `{JS : JsonCrate} := { to_value : T → string + json_value }.
#[global] Hint Mode ToValue ! - : typeclass_instances.

(** ** [base64]

    [base64_decode] answers the bytes or the [Display] text of its error. *)
Class Base64Crate := { base64_decode : string → string + list byte }.

(** ** The tree behind a [serde_json::Value]

    A number is kept as its [Display] text.  [json_quote] is [serde_json::to_string]
    of a string: the quoted and escaped text, from which the string can be read.
    [json_debug] is the [Debug] text of a value. *)
Inductive JsonTree :=
  | TNull
  | TBool (boolean : bool)
  | TNumber (number : string)
  | TString (s : string)
  | TArray (items : list JsonTree)
  | TObject (map : list (string * JsonTree)).

Class JsonText `{JS : JsonCrate} := {
  json_tree : json_value → JsonTree;
  json_quote : string → string;
  json_debug : json_value → string;
  json_quote_inj : Inj (=) (=) json_quote;
}.

(** ** [ark_ff::Field::sqrt] on the scalar field *)
Class SqrtField `{PrimeField fr_modulus} := {
  fr_sqrt : ArkFr → option ArkFr;
  fr_sqrt_sound x y : fr_sqrt x = Some y → pf_mul y y = x;
}.

(** ** [ark_grumpkin::Affine] and the generators of [bn254_blackbox_solver]

    [ag_valid] says that a point is on the curve.  The points of the curve form a
    commutative group whose order is the order of the BN254 base field
    (Grumpkin's scalar field); [ag_mul n P] is [mul_bigint].  A non-zero point is
    determined by its coordinates, and the equation [y^2 = x^3 - 17] excludes the
  origin. *)
Class GrumpkinCrate `{PrimeField fr_modulus} := {
  ag_point : Type;
  ag_valid : ag_point → Prop;
  ag_zero : ag_point;
  ag_generator : ag_point;
  ag_is_zero : ag_point → bool;
  ag_x : ag_point → ArkFr;
  ag_y : ag_point → ArkFr;
  ag_new_unchecked : ArkFr → ArkFr → ag_point;
  ag_add : ag_point → ag_point → ag_point;
  ag_mul : Z → ag_point → ag_point;
  derive_generators : list byte → Z → Z → list ag_point;

  ag_valid_zero : ag_valid ag_zero;
  ag_valid_generator : ag_valid ag_generator;
  ag_valid_add P Q : ag_valid P → ag_valid Q → ag_valid (ag_add P Q);
  ag_valid_mul n P : 0 ≤ n → ag_valid P → ag_valid (ag_mul n P);
  derive_generators_length dom n i : 0 ≤ n → Z.of_nat (length (derive_generators dom n i)) = n;
  derive_generators_valid dom n i : Forall ag_valid (derive_generators dom n i);
  ag_is_zero_spec P : ag_is_zero P = true ↔ P = ag_zero;
  ag_new_coords P : P ≠ ag_zero → ag_new_unchecked (ag_x P) (ag_y P) = P;
  ag_coords_nonzero P : ag_valid P → P ≠ ag_zero →
    ¬ (ag_x P = pf_zero fr_modulus ∧ ag_y P = pf_zero fr_modulus);
  ag_add_zero_l P : ag_valid P → ag_add ag_zero P = P;
  ag_add_comm P Q : ag_valid P → ag_valid Q → ag_add P Q = ag_add Q P;
  ag_add_assoc P Q R : ag_valid P → ag_valid Q → ag_valid R →
    ag_add P (ag_add Q R) = ag_add (ag_add P Q) R;
  ag_mul_0 P : ag_valid P → ag_mul 0 P = ag_zero;
  ag_mul_1 P : ag_valid P → ag_mul 1 P = P;
  ag_mul_add n m P : ag_valid P → 0 ≤ n → 0 ≤ m →
    ag_mul (n + m) P = ag_add (ag_mul n P) (ag_mul m P);
  ag_mul_mul n m P : ag_valid P → 0 ≤ n → 0 ≤ m → ag_mul n (ag_mul m P) = ag_mul (n * m) P;
  ag_mul_order P : ag_valid P → ag_mul fq_modulus P = ag_zero;
}.

(** ** [acir::FieldElement] and the witness maps of [acir]

    A witness map is a [BTreeMap] from witness indices.  [to_hex] of an element made
    from the 32 canonical bytes is their hexadecimal text. *)
Class AcirCrate `{PrimeField fr_modulus, HexCrate} := {
  fe : Type;
  fe_to_hex : fe → string;
  fe_from_be_bytes_reduce : list byte → fe;
  fe_to_hex_from (x : ArkFr) :
    fe_to_hex (fe_from_be_bytes_reduce (pf_to_bytes_be x)) = hex_encode (pf_to_bytes_be x);
}.
