(* ===== verification/Concrete.v ===== *)
(** Concrete instances of the crate interfaces of [Deps.v].

    They are not models of the crates: they show that the laws the theorems
    assume hold together, and they let the witnesses compute.  The prime fields
    are the integers modulo the order, the Grumpkin group is the cyclic group of
    the right order with made-up coordinates, hexadecimal is real, and the hash
    functions are arithmetic stand-ins. *)

From Stdlib Require Import Ascii String.
From S2P Require Import Prelude Bytes Ordered Deps.

(** ** Integers modulo [p] *)

Section zp.
Context (p : Z) (Hp : (1 <? p) = true).

Definition zp_in (v : Z) : bool := (0 <=? v) && (v <? p).
Record zp := Zp { zp_val : Z; zp_ok : zp_in zp_val = true }.

Lemma zp_in_0 : zp_in 0 = true.
Proof. unfold zp_in. apply andb_true_iff. lia. Qed.

Definition zp_of (z : Z) : zp :=
  match Bool.bool_dec (zp_in (z mod p)) true with
  | left e => Zp (z mod p) e
  | right _ => Zp 0 zp_in_0
  end.

Lemma zp_eq x y : zp_val x = zp_val y → x = y.
Proof.
  destruct x as [x Hx], y as [y Hy]; simpl; intros ->. f_equal. apply (proof_irrel Hx Hy).
Qed.

Lemma zp_val_of z : zp_val (zp_of z) = z mod p.
Proof.
  unfold zp_of. destruct (Bool.bool_dec _ _) as [e|ne]; [done|].
  destruct ne. unfold zp_in. pose proof (Z.mod_pos_bound z p ltac:(lia)).
  apply andb_true_iff. lia.
Qed.

Lemma zp_range x : 0 ≤ zp_val x < p.
Proof. destruct x as [v H]; simpl. unfold zp_in in H. apply andb_true_iff in H. lia. Qed.

Lemma zp_of_val x : zp_of (zp_val x) = x.
Proof. apply zp_eq. rewrite zp_val_of. apply Z.mod_small, zp_range. Qed.

#[global] Instance zp_eq_dec : EqDecision zp.
Proof.
  intros x y. destruct (Z.eq_dec (zp_val x) (zp_val y)) as [E|E].
  - left. by apply zp_eq.
  - right. by intros ->.
Defined.

#[global] Instance zp_countable : Countable zp := inj_countable' zp_val zp_of zp_of_val.

Context (Hp256 : (p <=? 2 ^ 256) = true).

Lemma zp_bytes_val x : be_Z (be_bytes 32 (zp_val x)) = zp_val x.
Proof. rewrite be_Z_be_bytes. apply Z.mod_small. pose proof (zp_range x). simpl. lia. Qed.

Definition zp_field : PrimeField p.
Proof.
  refine {|
    pf_car := zp;
    pf_zero := zp_of 0;
    pf_one := zp_of 1;
    pf_add x y := zp_of (zp_val x + zp_val y);
    pf_sub x y := zp_of (zp_val x - zp_val y);
    pf_mul x y := zp_of (zp_val x * zp_val y);
    pf_neg x := zp_of (- zp_val x);
    pf_from_u64 n := zp_of n;
    pf_from_be_bytes_mod_order bs := zp_of (be_Z bs);
    pf_to_bytes_be x := be_bytes 32 (zp_val x);
    pf_cmp x y := Z.compare (zp_val x) (zp_val y) |};
    intros; rewrite ?zp_bytes_val, ?zp_val_of; try done.
  - apply zp_range.
  - apply zp_eq. rewrite <- (zp_bytes_val x), <- (zp_bytes_val y). by f_equal.
  - apply Z.mod_small. lia.
Defined.
End zp.

#[local] Instance concrete_fr : PrimeField fr_modulus :=
  zp_field fr_modulus eq_refl eq_refl.
#[local] Instance concrete_fq : PrimeField fq_modulus :=
  zp_field fq_modulus eq_refl eq_refl.

(** ** Hexadecimal *)

Lemma list_ind_two {A} (P : list A → Prop) :
  P [] → (∀ x, P [x]) → (∀ x y l, P l → P (x :: y :: l)) → ∀ l, P l.
Proof.
  intros H0 H1 H2. assert (∀ l, P l ∧ ∀ x, P (x :: l)) as H; [|intros; apply H].
  induction l as [|y l [IH1 IH2]]; split; auto.
Qed.

Definition nibble_char (n : Z) : byte :=
  Z_byte (if n <? 10 then 48 + n else 87 + n).

Definition char_nibble (b : byte) : option Z :=
  let c := byte_Z b in
  if (48 <=? c) && (c <=? 57) then Some (c - 48)
  else if (97 <=? c) && (c <=? 102) then Some (c - 87)
  else if (65 <=? c) && (c <=? 70) then Some (c - 55)
  else None.

Fixpoint hex_chars (bs : list byte) : list byte :=
  match bs with
  | [] => []
  | b :: bs' => nibble_char (byte_Z b / 16) :: nibble_char (byte_Z b mod 16) :: hex_chars bs'
  end.

Fixpoint unhex_chars (cs : list byte) : option (list byte) :=
  match cs with
  | [] => Some []
  | [_] => None
  | h :: l :: cs' =>
      match char_nibble h, char_nibble l, unhex_chars cs' with
      | Some x, Some y, Some bs => Some (Z_byte (x * 16 + y) :: bs)
      | _, _, _ => None
      end
  end.

Lemma char_nibble_char n : 0 ≤ n < 16 → char_nibble (nibble_char n) = Some n.
Proof.
  intros Hn.
  assert (forallb (λ n, bool_decide (char_nibble (nibble_char n) = Some n)) (seqZ 0 16)
          = true) as H by (vm_compute; reflexivity).
  rewrite forallb_forall in H. apply (bool_decide_unpack _), Is_true_true, H.
  apply list_elem_of_In, elem_of_seqZ. lia.
Qed.

Lemma unhex_hex_chars bs : unhex_chars (hex_chars bs) = Some bs.
Proof.
  induction bs as [|b bs IH]; [done|]. cbn [hex_chars unhex_chars].
  pose proof (byte_Z_range b).
  rewrite !char_nibble_char, IH.
  - do 2 f_equal. rewrite <- (Z_byte_Z b) at 3. f_equal.
    pose proof (Z.div_mod (byte_Z b) 16). lia.
  - apply Z.mod_pos_bound. lia.
  - split; [apply Z.div_pos; lia|apply Z.div_lt_upper_bound; lia].
Qed.

Lemma length_hex_chars bs : length (hex_chars bs) = (2 * length bs)%nat.
Proof. induction bs as [|b bs IH]; simpl; [done|]. rewrite IH. lia. Qed.

Lemma char_nibble_digit c n : char_nibble c = Some n → is_hex_digit c = true.
Proof.
  unfold char_nibble, is_hex_digit.
  destruct ((48 <=? byte_Z c) && (byte_Z c <=? 57)); [done|].
  destruct ((97 <=? byte_Z c) && (byte_Z c <=? 102)); [done|].
  destruct ((65 <=? byte_Z c) && (byte_Z c <=? 70)); done.
Qed.

Lemma unhex_chars_ok cs bs :
  unhex_chars cs = Some bs →
  length cs = (2 * length bs)%nat ∧ forallb is_hex_digit cs = true.
Proof.
  revert bs. induction cs as [| |h l cs IH] using (list_ind_two);
    intros bs; simpl; [by intros [= <-]|done|].
  destruct (char_nibble h) eqn:Eh; [|done]. destruct (char_nibble l) eqn:El; [|done].
  destruct (unhex_chars cs) as [bs'|] eqn:E; [|done]. intros [= <-].
  destruct (IH _ eq_refl) as [-> ->]. split; [simpl; lia|].
  by rewrite (char_nibble_digit _ _ Eh), (char_nibble_digit _ _ El).
Qed.

#[local] Instance concrete_hex : HexCrate.
Proof.
  refine {|
    hex_encode bs := from_bytes (hex_chars bs);
    hex_decode s := match unhex_chars (as_bytes s) with
                    | Some bs => inr bs
                    | None => inl "Invalid hex"%string
                    end |}.
  - intros bs. by rewrite as_from_bytes, unhex_hex_chars.
  - intros bs. by rewrite <- length_as_bytes, as_from_bytes, length_hex_chars.
  - intros s bs. destruct (unhex_chars _) eqn:E; [|done]. intros [= <-].
    rewrite <- length_as_bytes. by apply unhex_chars_ok.
Defined.

(** ** Stand-ins for the hash functions *)

Definition mix_fr (st : list ArkFr) (k : Z) : ArkFr :=
  zp_of fr_modulus eq_refl
    (foldl (λ acc x, acc * (k + 7) + be_Z (pf_to_bytes_be x) + k) (k * 11) st).

#[local] Instance concrete_poseidon2 : Poseidon2Crate.
Proof.
  refine {|
    poseidon2_permutation st := [mix_fr st 1; mix_fr st 2; mix_fr st 3; mix_fr st 4];
    env_var _ := None;
    bbjs_poseidon2 _ := pf_zero fr_modulus |}.
  done.
Defined.

Definition mix_bytes (n : nat) (k : Z) (bs : list byte) : list byte :=
  be_bytes n (foldl (λ acc b, (acc * (k + 257) + byte_Z b + 1) mod 2 ^ 509) k bs).

#[local] Instance concrete_hashes : HashCrates.
Proof.
  refine {|
    sha256_digest := mix_bytes 32 3;
    sha512_digest := mix_bytes 64 5;
    blake2s256 := mix_bytes 32 7 |}; intros; apply length_be_bytes.
Defined.

(** ** JSON documents as trees *)

Inductive jvalue :=
  | JNull
  | JBool (b : bool)
  | JNumber (n : Z)
  | JString (s : string)
  | JArray (l : list jvalue)
  | JObject (m : list (string * jvalue)).

Fixpoint jsize (v : jvalue) : nat :=
  match v with
  | JArray l => S (foldr (λ w n, jsize w + n)%nat 0%nat l)
  | JObject m => S (foldr (λ kw n, jsize kw.2 + n)%nat 0%nat m)
  | _ => 1%nat
  end.

Definition jget (v : jvalue) (k : string) : option jvalue :=
  match v with
  | JObject m => snd <$> (snd <$> list_find (λ kw, kw.1 = k) m)
  | _ => None
  end.

(** A pointer is empty or a sequence of member names, each after a slash. *)
Fixpoint split_slash (s : string) : list string :=
  match s with
  | EmptyString => [EmptyString]
  | String a s' =>
      if decide (a = "/"%char) then EmptyString :: split_slash s'
      else match split_slash s' with
           | [] => [String a EmptyString]
           | t :: ts => String a t :: ts
           end
  end.

Definition jpointer (v : jvalue) (k : string) : option jvalue :=
  match split_slash k with
  | EmptyString :: names => foldl (λ o name, o ≫= λ w, jget w name) (Some v) names
  | _ => None
  end.

Lemma jsize_sum {A} (f : A → nat) (l : list A) x :
  x ∈ l → (f x < S (foldr (λ w n, f w + n) 0 l))%nat.
Proof. induction 1; simpl; lia. Qed.

#[local] Instance concrete_json : JsonCrate.
Proof.
  refine {|
    json_value := jvalue;
    json_from_str s := Ok (JString s);
    json_get := jget;
    json_pointer := jpointer;
    json_as_str v := match v with JString s => Some s | _ => None end;
    json_as_bool v := match v with JBool b => Some b | _ => None end;
    json_as_u64 v := match v with JNumber n => Some n | _ => None end;
    json_as_array v := match v with JArray l => Some l | _ => None end;
    json_size := jsize |}.
  - intros v k w. destruct v as [| | | | |m]; try done. simpl.
    destruct (list_find _ m) as [[i [k' w']]|] eqn:E; [|done]. intros [= <-].
    apply list_find_Some in E as (E%list_elem_of_lookup_2 & _).
    apply (jsize_sum (λ kw, jsize kw.2) m (k', w') E).
  - intros v ws w. destruct v; try done. intros [= <-]. apply (jsize_sum jsize).
Defined.

(** ** Base 64, with its padding *)

Definition b64_digit (b : byte) : option Z :=
  let c := byte_Z b in
  if (65 <=? c) && (c <=? 90) then Some (c - 65)
  else if (97 <=? c) && (c <=? 122) then Some (c - 71)
  else if (48 <=? c) && (c <=? 57) then Some (c + 4)
  else if c =? 43 then Some 62
  else if c =? 47 then Some 63
  else None.

(** The bytes of a group of digits: three, or fewer in front of padding. *)
Definition b64_bytes (n : nat) (digits : list Z) : list byte :=
  let v := foldl (λ acc d, acc * 64 + d) 0 digits in
  take n [Z_byte (v / 65536); Z_byte (v / 256 mod 256); Z_byte (v mod 256)].

Fixpoint b64_decode (l : list byte) : option (list byte) :=
  match l with
  | [] => Some []
  | a :: b :: c :: d :: l' =>
      let pad x := byte_Z x =? 61 in
      x ← b64_digit a; y ← b64_digit b;
      if pad c && pad d && match l' with [] => true | _ => false end
      then Some (b64_bytes 1 [x; y; 0; 0])
      else
        z ← b64_digit c;
        if pad d && match l' with [] => true | _ => false end
        then Some (b64_bytes 2 [x; y; z; 0])
        else
          w ← b64_digit d; rest ← b64_decode l';
          Some (b64_bytes 3 [x; y; z; w] ++ rest)
  | _ => None
  end.

#[local] Instance concrete_base64 : Base64Crate :=
  {| base64_decode s := match b64_decode (as_bytes s) with
                        | Some bytes => inr bytes
                        | None => inl "invalid symbol"%string
                        end |}.

Fixpoint jtree (v : jvalue) : JsonTree :=
  match v with
  | JNull => TNull
  | JBool b => TBool b
  | JNumber n => TNumber (pretty n)
  | JString s => TString s
  | JArray l => TArray (jtree <$> l)
  | JObject m => TObject ((λ kv, (kv.1, jtree kv.2)) <$> m)
  end.

Definition quote_text (s : string) : string := from_bytes [Z_byte 34] +:+ s +:+ from_bytes [Z_byte 34].

#[local] Instance concrete_json_text : JsonText.
Proof.
  refine {| json_tree := jtree; json_quote := quote_text; json_debug v := "" |}.
  intros s t E%(f_equal as_bytes). unfold quote_text in E. rewrite !as_bytes_app in E.
  apply app_inj_1 in E as [_ E]; [|done]. apply app_inj_2 in E as [E _]; [|done].
  by apply (inj as_bytes).
Defined.

(** ** JSON stand-in: the binary digits of stdpp's encoding *)

Fixpoint positive_bits (p : positive) : list byte :=
  match p with
  | xH => []
  | xO q => Z_byte 48 :: positive_bits q
  | xI q => Z_byte 49 :: positive_bits q
  end.

Fixpoint bits_positive (bs : list byte) : positive :=
  match bs with
  | [] => xH
  | b :: bs' => if byte_Z b =? 48 then xO (bits_positive bs') else xI (bits_positive bs')
  end.

Lemma bits_positive_bits p : bits_positive (positive_bits p) = p.
Proof. induction p as [p IH|p IH|]; cbn [positive_bits bits_positive]; rewrite ?IH; done. Qed.

Definition countable_serde (T : Type) `{Countable T} : SerdeJson T.
Proof.
  refine {|
    to_vec x := Ok (positive_bits (encode x));
    from_slice bs := match decode (bits_positive bs) with
                     | Some x => Ok x
                     | None => Err (Json "invalid value")
                     end |}.
  intros x. eexists. split; [done|]. by rewrite bits_positive_bits, decode_encode.
Defined.

(** ** Documents as numbers *)

Fixpoint jenc (v : jvalue) : gen_tree (option (bool + Z + string)) :=
  match v with
  | JNull => GenLeaf None
  | JBool b => GenLeaf (Some (inl (inl b)))
  | JNumber n => GenLeaf (Some (inl (inr n)))
  | JString s => GenLeaf (Some (inr s))
  | JArray l => GenNode 0 (map jenc l)
  | JObject m => GenNode 1 (map (λ kv, GenNode 2 [GenLeaf (Some (inr kv.1)); jenc kv.2]) m)
  end.

Fixpoint jdec (t : gen_tree (option (bool + Z + string))) : jvalue :=
  match t with
  | GenLeaf None => JNull
  | GenLeaf (Some (inl (inl b))) => JBool b
  | GenLeaf (Some (inl (inr n))) => JNumber n
  | GenLeaf (Some (inr s)) => JString s
  | GenNode 0 ts => JArray (map jdec ts)
  | GenNode _ ts => JObject (map (λ t, match t with
                                       | GenNode _ [GenLeaf (Some (inr k)); u] => (k, jdec u)
                                       | _ => (EmptyString, JNull)
                                       end) ts)
  end.

Lemma jdec_jenc v : jdec (jenc v) = v.
Proof.
  induction (well_founded_ltof _ jsize v) as [v _ IH]. unfold ltof in IH.
  destruct v as [|b|n|s|l|m]; simpl; try done.
  - f_equal. rewrite map_map. transitivity (map id l); [|apply map_id]. apply map_ext_in.
    intros w Hw%list_elem_of_In. apply IH. by apply (jsize_sum jsize).
  - f_equal. rewrite map_map. transitivity (map id m); [|apply map_id]. apply map_ext_in.
    intros [k w] Hw%list_elem_of_In. simpl. f_equal. apply IH.
    apply (jsize_sum (λ kv, jsize kv.2) m (k, w) Hw).
Qed.

Lemma jenc_inj v w : jenc v = jenc w → v = w.
Proof. intros E. by rewrite <- (jdec_jenc v), E, jdec_jenc. Qed.

#[local] Instance jvalue_eq_dec : EqDecision jvalue := λ v w,
  match decide (jenc v = jenc w) with
  | left E => left (jenc_inj v w E)
  | right N => right (λ E, N (f_equal jenc E))
  end.
#[local] Instance jvalue_countable : Countable jvalue := inj_countable' jenc jdec jdec_jenc.

(** ** A cyclic group with coordinates in the scalar field

    The generator and its triple have the coordinates that they have on Grumpkin, every
    other element has the two digits of its exponent. *)

Definition cyc_zero : zp fq_modulus := zp_of fq_modulus eq_refl 0.

Definition generator_y : Z := 17631683881184975370165255887551781615748388533673675138860.
Definition triple_x : Z :=
  18660890509582237958343981571981920822503400000196279471655180441138020044621.
Definition triple_y : Z :=
  8902249110305491597038405103722863701255802573786510474664632793109847672620.

Definition cyc_coords (n : Z) : Z * Z :=
  if n =? 1 then (1, generator_y) else if n =? 3 then (triple_x, triple_y)
  else (n mod fr_modulus, n / fr_modulus).

Definition cyc_exponent (x y : Z) : Z :=
  if y =? generator_y then 1 else if y =? triple_y then 3 else x + fr_modulus * y.

Lemma cyc_coords_range n : 0 ≤ n < fq_modulus →
  0 ≤ (cyc_coords n).1 < fr_modulus ∧ 0 ≤ (cyc_coords n).2 < fr_modulus ∧
  cyc_exponent (cyc_coords n).1 (cyc_coords n).2 = n.
Proof.
  intros Hn. assert (fq_modulus < fr_modulus * 2) by done. pose proof fr_modulus_bounds.
  unfold cyc_coords. destruct (Z.eqb_spec n 1) as [->|]; [by split_and!|].
  destruct (Z.eqb_spec n 3) as [->|]; [by split_and!|]. cbn [fst snd].
  assert (0 ≤ n / fr_modulus < 2).
  { split; [apply Z.div_pos; lia|]. apply Z.div_lt_upper_bound; lia. }
  split_and!; [apply Z.mod_pos_bound; lia|apply Z.mod_pos_bound; lia|lia|lia|].
  unfold cyc_exponent. assert (2 < generator_y ∧ 2 < triple_y) as [? ?] by done.
  destruct (Z.eqb_spec (n / fr_modulus) generator_y); [lia|].
  destruct (Z.eqb_spec (n / fr_modulus) triple_y); [lia|].
  rewrite Z.add_comm. by rewrite <- Z.div_mod by lia.
Qed.

#[local] Instance concrete_grumpkin : GrumpkinCrate.
Proof.
  refine {|
    ag_point := zp fq_modulus;
    ag_valid _ := True;
    ag_zero := cyc_zero;
    ag_generator := zp_of fq_modulus eq_refl 1;
    ag_is_zero P := zp_val _ P =? 0;
    ag_x P := zp_of fr_modulus eq_refl (cyc_coords (zp_val _ P)).1;
    ag_y P := zp_of fr_modulus eq_refl (cyc_coords (zp_val _ P)).2;
    ag_new_unchecked x y := zp_of fq_modulus eq_refl (cyc_exponent (zp_val _ x) (zp_val _ y));
    ag_add P Q := zp_of fq_modulus eq_refl (zp_val _ P + zp_val _ Q);
    ag_mul n P := zp_of fq_modulus eq_refl (n * zp_val _ P);
    derive_generators dom n i :=
      (λ j, zp_of fq_modulus eq_refl (be_Z dom + i + j + 2)) <$> seqZ 0 n |}.
  1-4: done.
  1: intros dom n i Hn; rewrite length_fmap, length_seqZ; lia.
  1: intros; by apply Forall_true.
  all: pose proof (zp_range fq_modulus) as R; unfold cyc_zero.
  all: pose proof fq_modulus_bounds; pose proof fr_modulus_bounds.
  - intros P. rewrite Z.eqb_eq. split.
    + intros E. apply zp_eq. rewrite zp_val_of, E. done.
    + intros ->. rewrite zp_val_of. apply Z.mod_0_l. lia.
  - intros P _. apply zp_eq. rewrite !zp_val_of. destruct (cyc_coords_range _ (R P)) as (? & ? & E).
    rewrite (Z.mod_small (cyc_coords _).1), (Z.mod_small (cyc_coords _).2), E by done.
    by apply Z.mod_small.
  - intros P _ Hne [Hx Hy]. apply Hne. destruct (cyc_coords_range _ (R P)) as (? & ? & E).
    apply (f_equal (zp_val fr_modulus)) in Hx, Hy. cbn in Hx, Hy.
    rewrite !zp_val_of, Z.mod_0_l, Z.mod_small in Hx, Hy by done.
    rewrite Hx, Hy in E. apply zp_eq. rewrite zp_val_of, <- E. done.
  - intros P _. apply zp_eq. rewrite !zp_val_of, Z.mod_0_l by lia. apply Z.mod_small, R.
  - intros P Q _ _. f_equal. lia.
  - intros P Q S _ _ _. apply zp_eq. rewrite !zp_val_of.
    rewrite Z.add_mod_idemp_r, Z.add_mod_idemp_l by lia. f_equal. lia.
  - intros P _. f_equal.
  - intros P _. rewrite Z.mul_1_l. apply zp_of_val.
  - intros n m P _ _ _. apply zp_eq. rewrite !zp_val_of.
    rewrite Z.add_mod_idemp_r, Z.add_mod_idemp_l by lia. f_equal. lia.
  - intros n m P _ _ _. apply zp_eq. rewrite !zp_val_of.
    rewrite Z.mul_mod_idemp_r by lia. f_equal. lia.
  - intros P _. apply zp_eq. rewrite !zp_val_of, Z.mul_comm, Z.mod_mul, Z.mod_0_l by lia. done.
Defined.

(** Square roots of a few elements, among them those of the two points. *)
Definition known_roots : list ArkFr :=
  (λ n, zp_of fr_modulus eq_refl n) <$>
    [0; 1; 2; 3; 4;
     fr_modulus - generator_y; triple_y].

#[local] Instance concrete_sqrt : SqrtField.
Proof.
  refine {| fr_sqrt x := snd <$> list_find (λ y, pf_mul y y = x) known_roots |}.
  intros x y. destruct (list_find _ _) as [[i z]|] eqn:E; [|done].
  intros [= <-]. by apply list_find_Some in E as (_ & ? & _).
Defined.

(** ** The instances, for the witnesses to import *)

#[local] Instance concrete_acir : AcirCrate :=
  {| fe := string; fe_to_hex s := s; fe_from_be_bytes_reduce := hex_encode;
     fe_to_hex_from x := eq_refl |}.

Module Instances.
#[export] Existing Instance concrete_fr.
#[export] Existing Instance concrete_fq.
#[export] Existing Instance concrete_hex.
#[export] Existing Instance concrete_json.
#[export] Existing Instance concrete_json_text.
#[export] Existing Instance jvalue_eq_dec.
#[export] Existing Instance jvalue_countable.
#[export] Existing Instance concrete_base64.
#[export] Existing Instance concrete_poseidon2.
#[export] Existing Instance concrete_hashes.
#[export] Existing Instance concrete_grumpkin.
#[export] Existing Instance concrete_sqrt.
#[export] Existing Instance concrete_acir.
End Instances.
