(* ===== verification/Types.v ===== *)
(** [crates/core/src/types.rs]: the field elements [Fr] and [Fq], fixed-width
    hexadecimal, addresses, points, public keys and contract instances.

    The newtypes [Fr(pub ArkFr)], [Fq(pub ArkFq)], [AztecAddress(pub Fr)] and
    [TxHash(pub [u8; 32])] are erased. *)

From Stdlib Require Import Ascii String.
From S2P Require Import Prelude Bytes Ordered Deps Concrete.

Notation Fr := (pf_car fr_modulus).
Notation Fq := (pf_car fq_modulus).
Notation GrumpkinScalar := (pf_car fq_modulus) (only parsing).
Notation AztecAddress := (pf_car fr_modulus) (only parsing).
Notation EthAddress := (list byte) (only parsing).
Notation TxHash := (list byte) (only parsing).

(** [Result::expect] and [Result::unwrap]. *)
Definition expect {A} (m : Outcome A) : Outcome A :=
  match m with Ok a => Ok a | _ => Panic end.

Section hex.
Context `{HX : HexCrate}.

Definition strip_0x (s : string) : string := default s (strip_prefix "0x" s).

Definition hex_too_large (N : nat) : Error :=
  InvalidData ("hex value too large: expected at most " +:+ pretty N +:+ " bytes").

Definition decode_fixed_hex (N : nat) (s : string) : Outcome (list byte) :=
  let raw := strip_0x s in
  if Z.of_nat N * 2 <? str_len raw then Err (hex_too_large N)
  else
    let padded := if str_len raw mod 2 =? 1 then "0" +:+ raw else raw in
    match hex_decode padded with
    | inl e => Err (InvalidData e)
    | inr decoded =>
        if decide (N < length decoded)%nat then Err (hex_too_large N)
        else Ok (left_pad N decoded)
    end.

Definition encode_hex (bs : list byte) : string := "0x" +:+ hex_encode bs.

Lemma decode_fixed_hex_length N s bs : decode_fixed_hex N s = Ok bs → length bs = N.
Proof.
  unfold decode_fixed_hex. case_match; [done|]. case_match; [done|].
  case_decide; [done|]. intros [= <-]. apply length_left_pad. lia.
Qed.

Lemma strip_0x_encode_hex bs : strip_0x (encode_hex bs) = hex_encode bs.
Proof. done. Qed.

Lemma decode_encode_hex N bs : length bs = N → decode_fixed_hex N (encode_hex bs) = Ok bs.
Proof.
  intros <-. unfold decode_fixed_hex. rewrite strip_0x_encode_hex. unfold str_len.
  rewrite hex_length_encode.
  rewrite Nat2Z.inj_mul, (Z.mul_comm (Z.of_nat 2)), Z.ltb_irrefl.
  rewrite Z.mod_mul by lia. simpl. rewrite hex_decode_encode. rewrite decide_False by lia.
  unfold left_pad. by rewrite Nat.sub_diag.
Qed.

#[global] Instance encode_hex_inj : Inj (=) (=) encode_hex.
Proof.
  intros bs cs E%(f_equal strip_0x). rewrite !strip_0x_encode_hex in E.
  apply (f_equal hex_decode) in E.
  rewrite !hex_decode_encode in E. congruence.
Qed.

Definition encode_field_hex {p} `{PrimeField p} (value : pf_car p) : string :=
  encode_hex (left_pad 32 (pf_to_bytes_be value)).

Definition TxHash_zero : TxHash := replicate 32 zero_byte.
Definition TxHash_from_hex (value : string) : Outcome TxHash := decode_fixed_hex 32 value.
Definition TxHash_to_string (h : TxHash) : string := encode_hex h.
End hex.

(** The [usize] fold of [to_usize] keeps the low 64 bits. *)
Lemma lor_low_byte y b : 0 ≤ b < 256 → Z.lor (y * 256) b = y * 256 + b.
Proof.
  intros Hb. symmetry. rewrite Z.add_nocarry_lxor, Z.lxor_lor; [done|..].
  all: change 256 with (2 ^ 8) in *; apply Z.bits_inj'; intros n Hn;
    rewrite Z.land_spec, Z.bits_0.
  all: destruct (Z.lt_ge_cases n 8) as [Hlt|Hge];
    [by rewrite Z.mul_pow2_bits_low by lia|].
  all: rewrite (Z.testbit_eqb b n), Z.div_small, andb_comm; [done| |lia].
  all: split; [lia|]; apply Z.lt_le_trans with (2 ^ 8); [lia|]; apply Z.pow_le_mono_r; lia.
Qed.

Lemma usize_fold_mod bs acc acc' :
  acc = acc' mod 2 ^ 64 →
  foldl (λ a b, Z.lor (usize_wrap (Z.shiftl a 8)) (byte_Z b)) acc bs =
  foldl (λ a b, a * 256 + byte_Z b) acc' bs mod 2 ^ 64.
Proof.
  revert acc acc'. induction bs as [|b bs IH]; intros acc acc' ->; [done|].
  cbn [foldl]. apply IH. unfold wrap. rewrite Z.shiftl_mul_pow2 by lia.
  rewrite Z.mul_mod_idemp_l by lia.
  change (2 ^ 64) with (2 ^ 56 * 2 ^ 8). rewrite Z.mul_mod_distr_r by lia.
  change (2 ^ 8) with 256. pose proof (byte_Z_range b). rewrite lor_low_byte by lia.
  rewrite (Z.mul_comm (2 ^ 56)), Z.rem_mul_r by lia.
  rewrite (Z.add_comm (acc' * 256)), Z.mod_add, Z.div_add by lia.
  rewrite (Z.mod_small (byte_Z b)), (Z.div_small (byte_Z b)) by lia.
  rewrite Z.add_0_l. lia.
Qed.

Section fr.
Context `{FR : PrimeField fr_modulus}.

Definition Fr_zero : Fr := pf_zero fr_modulus.
Definition Fr_one : Fr := pf_one fr_modulus.

Definition Fr_from_be (bs : list byte) : Fr := pf_from_be_bytes_mod_order fr_modulus bs.

Definition Fr_from_hex `{HexCrate} (value : string) : Outcome Fr :=
  let? bytes := decode_fixed_hex 32 value in Ok (Fr_from_be bytes).

Definition Fr_to_be_bytes (x : Fr) : list byte := left_pad 32 (pf_to_bytes_be x).

(** The fold shifts within a [usize]: the bits above the low 64 are lost. *)
Definition Fr_to_usize (x : Fr) : Z :=
  foldl (λ acc b, Z.lor (usize_wrap (Z.shiftl acc 8)) (byte_Z b)) 0 (pf_to_bytes_be x).

Definition Fr_is_zero (x : Fr) : bool := bool_decide (x = Fr_zero).

Definition Fr_from_u64 (value : Z) : Fr := pf_from_u64 fr_modulus value.

Definition Fr_from_i64 (value : Z) : Fr :=
  if 0 <=? value then pf_from_u64 fr_modulus value
  else pf_neg (pf_from_u64 fr_modulus (Z.abs value)).

Definition Fr_from_u128 (value : Z) : Fr :=
  Fr_from_be (left_pad 32 (be_bytes 16 value)).

Definition Fr_from_bool (value : bool) : Fr := if value then Fr_one else Fr_zero.

Definition Fr_from_bytes32 (value : list byte) : Fr := Fr_from_be value.

Definition Fr_to_string `{HexCrate} (x : Fr) : string := encode_field_hex x.

Definition Fr_from_eth_address (value : EthAddress) : Fr := Fr_from_be (left_pad 32 value).

#[global] Instance Fr_ord : RustOrd Fr := pf_cmp.
#[global] Instance Fr_ord_laws : RustOrdLaws Fr.
Proof.
  split; unfold ord_cmp, Fr_ord; intros *; rewrite !pf_cmp_val.
  - rewrite Z.compare_eq_iff. split; [apply (inj pf_val)|by intros ->].
  - apply Z.compare_antisym.
  - rewrite !Z.compare_lt_iff. lia.
Qed.

Definition AztecAddress_zero : AztecAddress := Fr_zero.

Lemma Fr_to_be_bytes_eq x : Fr_to_be_bytes x = pf_to_bytes_be x.
Proof. unfold Fr_to_be_bytes, left_pad. by rewrite pf_length_to_bytes. Qed.

Lemma Fr_to_be_bytes_length x : length (Fr_to_be_bytes x) = 32%nat.
Proof. rewrite Fr_to_be_bytes_eq. apply pf_length_to_bytes. Qed.

Lemma Fr_from_to_be x : Fr_from_be (Fr_to_be_bytes x) = x.
Proof. rewrite Fr_to_be_bytes_eq. apply pf_from_to_be. Qed.

Lemma pf_val_fr_small z : 0 ≤ z < 2 ^ 253 → z mod fr_modulus = z.
Proof. intros. apply Z.mod_small. pose proof fr_modulus_bounds. lia. Qed.

Lemma Fr_val_zero : pf_val Fr_zero = 0.
Proof. apply pf_val_zero. Qed.
Lemma Fr_val_one : pf_val Fr_one = 1.
Proof. apply pf_val_one. Qed.

Lemma Fr_val_from_u64 n : in_u 64 n → pf_val (Fr_from_u64 n) = n.
Proof.
  intros Hn. unfold Fr_from_u64, pf_val. rewrite pf_val_from_u64 by done.
  apply pf_val_fr_small. unfold in_u in *. lia.
Qed.

Lemma Fr_val_from_be bs : pf_val (Fr_from_be bs) = be_Z bs mod fr_modulus.
Proof. apply pf_val_from_be. Qed.

Lemma Fr_val_from_be_small bs :
  (length bs ≤ 31)%nat → pf_val (Fr_from_be bs) = be_Z bs.
Proof.
  intros Hl. rewrite Fr_val_from_be. apply pf_val_fr_small.
  pose proof (be_Z_range bs).
  assert (256 ^ Z.of_nat (length bs) ≤ 256 ^ 31) by (apply Z.pow_le_mono_r; lia).
  assert (256 ^ 31 < 2 ^ 253) by done. lia.
Qed.

Lemma Fr_val_from_u128 n : pf_val (Fr_from_u128 n) = n mod 2 ^ 128.
Proof.
  unfold Fr_from_u128. rewrite Fr_val_from_be, be_Z_left_pad, be_Z_be_bytes.
  change (256 ^ Z.of_nat 16) with (2 ^ 128).
  pose proof (Z.mod_pos_bound n (2 ^ 128) ltac:(lia)).
  apply pf_val_fr_small. assert (2 ^ 128 < 2 ^ 253) by done. lia.
Qed.

Lemma Fr_is_zero_spec x : Fr_is_zero x = true ↔ pf_val x = 0.
Proof.
  unfold Fr_is_zero. rewrite bool_decide_eq_true. split.
  - intros ->. apply Fr_val_zero.
  - intros E. apply (inj pf_val). by rewrite E, Fr_val_zero.
Qed.

Lemma Fr_one_ne_zero : Fr_one ≠ Fr_zero.
Proof. intros E%(f_equal pf_val). rewrite Fr_val_one, Fr_val_zero in E. done. Qed.

Lemma Fr_from_u64_inj n m :
  in_u 64 n → in_u 64 m → Fr_from_u64 n = Fr_from_u64 m → n = m.
Proof. intros Hn Hm E%(f_equal pf_val). by rewrite !Fr_val_from_u64 in E. Qed.

Lemma Fr_to_usize_val x : Fr_to_usize x = pf_val x mod 2 ^ 64.
Proof. unfold Fr_to_usize, pf_val, be_Z. by apply usize_fold_mod. Qed.

Lemma Fr_to_usize_small x : pf_val x < 2 ^ 64 → Fr_to_usize x = pf_val x.
Proof.
  intros. rewrite Fr_to_usize_val. apply Z.mod_small. pose proof (pf_val_range x). lia.
Qed.

Lemma Fr_to_usize_from_u64 n : in_u 64 n → Fr_to_usize (Fr_from_u64 n) = n.
Proof.
  intros Hn. rewrite Fr_to_usize_val, Fr_val_from_u64 by done. by apply Z.mod_small.
Qed.

Lemma Fr_to_string_inj `{HexCrate} x y : Fr_to_string x = Fr_to_string y → x = y.
Proof.
  intros E%(inj encode_hex). apply pf_to_bytes_inj.
  by rewrite <- !Fr_to_be_bytes_eq.
Qed.

Lemma length_Fr_to_string `{HexCrate} x : String.length (Fr_to_string x) = 66%nat.
Proof.
  unfold Fr_to_string, encode_field_hex, encode_hex.
  change (S (S (String.length (hex_encode (Fr_to_be_bytes x)))) = 66%nat).
  by rewrite hex_length_encode, Fr_to_be_bytes_length.
Qed.

Lemma Fr_from_to_string `{HexCrate} x : Fr_from_hex (Fr_to_string x) = Ok x.
Proof.
  unfold Fr_from_hex, Fr_to_string, encode_field_hex.
  rewrite (decode_encode_hex 32) by apply Fr_to_be_bytes_length.
  simpl. f_equal. apply Fr_from_to_be.
Qed.
End fr.

(** ** The base field *)

Section fq.
Context `{FR : PrimeField fr_modulus} `{FQ : PrimeField fq_modulus}.

Definition Fq_zero : Fq := pf_zero fq_modulus.
Definition Fq_one : Fq := pf_one fq_modulus.
Definition Fq_from_be_bytes_mod_order (bs : list byte) : Fq :=
  pf_from_be_bytes_mod_order fq_modulus bs.
Definition Fq_from_hex `{HexCrate} (value : string) : Outcome Fq :=
  let? bytes := decode_fixed_hex 32 value in Ok (Fq_from_be_bytes_mod_order bytes).
Definition Fq_to_be_bytes (x : Fq) : list byte := left_pad 32 (pf_to_bytes_be x).
Definition Fq_is_zero (x : Fq) : bool := bool_decide (x = Fq_zero).
Definition Fq_from_u64 (value : Z) : Fq := pf_from_u64 fq_modulus value.
Definition Fq_mul (x y : Fq) : Fq := pf_mul x y.

(** Upper and lower 128 bits, as scalar field elements. *)
Definition Fq_hi (x : Fq) : Fr := Fr_from_be (left_pad 32 (take 16 (Fq_to_be_bytes x))).
Definition Fq_lo (x : Fq) : Fr := Fr_from_be (left_pad 32 (drop 16 (Fq_to_be_bytes x))).

Lemma Fq_to_be_bytes_eq x : Fq_to_be_bytes x = pf_to_bytes_be x.
Proof. unfold Fq_to_be_bytes, left_pad. by rewrite pf_length_to_bytes. Qed.

Lemma Fq_from_to_be x : Fq_from_be_bytes_mod_order (Fq_to_be_bytes x) = x.
Proof. rewrite Fq_to_be_bytes_eq. apply pf_from_to_be. Qed.

Lemma Fq_is_zero_spec x : Fq_is_zero x = true ↔ pf_val x = 0.
Proof.
  unfold Fq_is_zero, Fq_zero. rewrite bool_decide_eq_true. split.
  - intros ->. apply pf_val_zero.
  - intros E. apply (inj pf_val). rewrite E. symmetry. apply pf_val_zero.
Qed.
End fq.

(** ** Points, keys and contract instances *)

Section records.
Context `{FR : PrimeField fr_modulus}.

Record Point := MkPoint { pt_x : Fr; pt_y : Fr; pt_is_infinite : bool }.

Record PublicKeys := {
  master_nullifier_public_key : Point;
  master_incoming_viewing_public_key : Point;
  master_outgoing_viewing_public_key : Point;
  master_tagging_public_key : Point;
}.

Record CompleteAddress := {
  ca_address : AztecAddress;
  ca_public_keys : PublicKeys;
  ca_partial_address : Fr;
}.

Record ContractInstance := {
  ci_version : Z;
  ci_salt : Fr;
  ci_deployer : AztecAddress;
  ci_current_contract_class_id : Fr;
  ci_original_contract_class_id : Fr;
  ci_initialization_hash : Fr;
  ci_public_keys : PublicKeys;
}.

Record ContractInstanceWithAddress := {
  instance_address : AztecAddress;
  instance_inner : ContractInstance;
}.

#[global] Instance Point_eq_dec : EqDecision Point.
Proof. solve_decision. Defined.
#[global] Instance PublicKeys_eq_dec : EqDecision PublicKeys.
Proof. solve_decision. Defined.
#[global] Instance CompleteAddress_eq_dec : EqDecision CompleteAddress.
Proof. solve_decision. Defined.
#[global] Instance ContractInstance_eq_dec : EqDecision ContractInstance.
Proof. solve_decision. Defined.
#[global] Instance ContractInstanceWithAddress_eq_dec : EqDecision ContractInstanceWithAddress.
Proof. solve_decision. Defined.

Definition Point_default : Point := MkPoint Fr_zero Fr_zero false.
Definition Point_infinity : Point := MkPoint Fr_zero Fr_zero true.

Definition Point_is_zero (p : Point) : bool :=
  bool_decide (pt_x p = Fr_zero) && bool_decide (pt_y p = Fr_zero) && negb (pt_is_infinite p).

(** The packed wire form of a point: 64 bytes of hexadecimal. *)
Definition Point_from_packed `{HexCrate} (value : string) : Outcome Point :=
  let? bytes := decode_fixed_hex 64 value in
  Ok (MkPoint (Fr_from_be (take 32 bytes)) (Fr_from_be (drop 32 bytes)) false).

Definition PublicKeys_is_empty (k : PublicKeys) : bool :=
  Point_is_zero (master_nullifier_public_key k)
  && Point_is_zero (master_incoming_viewing_public_key k)
  && Point_is_zero (master_outgoing_viewing_public_key k)
  && Point_is_zero (master_tagging_public_key k).

Definition PublicKeys_default `{HexCrate} : Outcome PublicKeys :=
  let point xs ys :=
    let? px := expect (Fr_from_hex xs) in
    let? py := expect (Fr_from_hex ys) in
    Ok (MkPoint px py false) in
  let? npk := point
    "0x1498945581e0eb9f8427ad6021184c700ef091d570892c437d12c7d90364bbd"%string
    "0x170ae506787c5c43d6ca9255d571c10fa9ffa9d141666e290c347c5c9ab7e344"%string in
  let? ivpk := point
    "0x0c044b05b6ca83b9c2dbae79cc1135155956a64e136819136e9947fe5e5866c"%string
    "0x1c1f0ca244c7cd46b682552bff8ae77dea40b966a71de076ec3b7678f2bdb151"%string in
  let? ovpk := point
    "0x1b00316144359e9a3ec8e49c1cdb7eeb0cedd190dfd9dc90eea5115aa779e287"%string
    "0x080ffc74d7a8b0bccb88ac11f45874172f3847eb8b92654aaa58a3d2b8dc7833"%string in
  let? tpk := point
    "0x019c111f36ad3fc1d9b7a7a14344314d2864b94f030594cd67f753ef774a1efb"%string
    "0x2039907fe37f08d10739255141bb066c506a12f7d1e8dfec21abc58494705b6f"%string in
  Ok {| master_nullifier_public_key := npk;
        master_incoming_viewing_public_key := ivpk;
        master_outgoing_viewing_public_key := ovpk;
        master_tagging_public_key := tpk |}.
End records.

(** ** Properties *)

Import Concrete.Instances.

(** Printing a field element and parsing the text back gives the element,
    and parsing accepts no text of more than 32 bytes of digits: whatever
    [from_hex] accepts has at most 64 digits after the optional ["0x"]. *)
Theorem Fr_hex_roundtrip `{PrimeField fr_modulus} `{HexCrate} (a : Fr) (s : string) :
  Fr_from_hex (Fr_to_string a) = Ok a ∧
  (is_ok (Fr_from_hex s) = true → str_len (strip_0x s) ≤ 64).
Proof.
  split; [apply Fr_from_to_string|].
  unfold Fr_from_hex, decode_fixed_hex. case_match eqn:E; [done|].
  apply Z.ltb_ge in E. intros _. lia.
Qed.

Lemma Fr_hex_roundtrip_witness :
  Fr_from_hex (Fr_to_string (Fr_from_u64 48879)) = Ok (Fr_from_u64 48879) ∧
  (is_ok (Fr_from_hex "0xbeef") = true → str_len (strip_0x "0xbeef") ≤ 64).
Proof. apply (Fr_hex_roundtrip (Fr_from_u64 48879) "0xbeef"). Defined.

(** [to_usize] returns the low 64 bits of the element and never fails, so it
    is exact on the elements below 2^64 and silently truncates every other one. *)
Theorem Fr_to_usize_truncates `{PrimeField fr_modulus} (a : Fr) :
  in_u 64 (Fr_to_usize a) ∧
  pf_val a mod 2 ^ 64 = Fr_to_usize a ∧
  (Fr_to_usize a = pf_val a ↔ pf_val a < 2 ^ 64).
Proof.
  rewrite Fr_to_usize_val. pose proof (Z.mod_pos_bound (pf_val a) (2 ^ 64) ltac:(lia)).
  pose proof (pf_val_range a). split_and!; [done|done|]. split; intros; [lia|].
  apply Z.mod_small. lia.
Qed.

Lemma Fr_to_usize_truncates_witness :
  Fr_to_usize (Fr_from_u128 (2 ^ 64 + 5)) = 5 ∧
  in_u 64 (Fr_to_usize (Fr_from_u128 (2 ^ 64 + 5))).
Proof.
  split; [vm_compute; reflexivity|]. apply (Fr_to_usize_truncates (Fr_from_u128 (2 ^ 64 + 5))).
Defined.

(** [hi] and [lo] split a base-field element at bit 128 without loss. *)
Theorem Fq_hi_lo `{PrimeField fr_modulus} `{PrimeField fq_modulus} (a : Fq) :
  pf_val a = pf_val (Fq_hi a) * 2 ^ 128 + pf_val (Fq_lo a) ∧
  in_u 128 (pf_val (Fq_hi a)) ∧ in_u 128 (pf_val (Fq_lo a)).
Proof.
  assert (∀ bs, length bs = 16%nat → pf_val (Fr_from_be (left_pad 32 bs)) = be_Z bs) as Hv.
  { intros bs Hl. rewrite Fr_val_from_be, be_Z_left_pad. apply pf_val_fr_small.
    pose proof (be_Z_range bs) as R. rewrite Hl in R. change (256 ^ Z.of_nat 16) with (2 ^ 128) in R.
    assert (2 ^ 128 < 2 ^ 253) by done. lia. }
  unfold Fq_hi, Fq_lo. rewrite Fq_to_be_bytes_eq.
  pose proof (pf_length_to_bytes a) as Hl.
  assert (length (take 16 (pf_to_bytes_be a)) = 16%nat) as H1 by (rewrite length_take; lia).
  assert (length (drop 16 (pf_to_bytes_be a)) = 16%nat) as H2 by (rewrite length_drop; lia).
  rewrite !Hv by done.
  pose proof (be_Z_range (take 16 (pf_to_bytes_be a))) as R1.
  pose proof (be_Z_range (drop 16 (pf_to_bytes_be a))) as R2.
  rewrite H1 in R1. rewrite H2 in R2. split_and!; [|done|done].
  unfold pf_val at 1. rewrite <- (take_drop 16 (pf_to_bytes_be a)) at 1.
  by rewrite be_Z_app, H2.
Qed.

Lemma Fq_hi_lo_witness :
  pf_val (Fq_from_u64 7) = pf_val (Fq_hi (Fq_from_u64 7)) * 2 ^ 128 + pf_val (Fq_lo (Fq_from_u64 7)).
Proof. apply (Fq_hi_lo (Fq_from_u64 7)). Defined.
