(* ===== verification/Constants.v ===== *)
(** [crates/core/src/constants.rs]: protocol contract addresses, domain
    separators, per-transaction limits and gas constants. *)

From Stdlib Require Import Ascii String.
From S2P Require Import Prelude Bytes Ordered Deps Types.

(** ** [mod protocol_contract_address] *)

Module protocol_contract_address.
Section addresses.
Context `{FR : PrimeField fr_modulus}.

Definition fee_juice : AztecAddress := Fr_from_u64 5.
Definition public_checks : AztecAddress := Fr_from_u64 6.
Definition auth_registry : AztecAddress := Fr_from_u64 1.
Definition contract_instance_deployer : AztecAddress := Fr_from_u64 2.
Definition contract_instance_registry : AztecAddress := contract_instance_deployer.
Definition contract_class_registerer : AztecAddress := Fr_from_u64 3.
Definition contract_class_registry : AztecAddress := contract_class_registerer.
Definition multi_call_entrypoint : AztecAddress := Fr_from_u64 4.

Definition null_msg_sender `{HexCrate} : Outcome AztecAddress :=
  expect (Fr_from_hex
    "0x30644e72e131a029b85045b68181585d2833e84879b9709143e1f593f0000000"%string).
End addresses.
End protocol_contract_address.

(** ** [mod domain_separator] *)

Module domain_separator.
Definition AUTHWIT_INNER : Z := 221354163.
Definition AUTHWIT_OUTER : Z := 3283595782.
Definition FUNCTION_ARGS : Z := 3576554347.
Definition PUBLIC_CALLDATA : Z := 2760353947.
Definition PRIVATE_TX_HASH : Z := 1971680439.
Definition PUBLIC_TX_HASH : Z := 1630108851.
Definition TX_REQUEST : Z := 3763737512.
Definition PROTOCOL_CONTRACTS : Z := 3904434327.
Definition PUBLIC_KEYS_HASH : Z := 777457226.
Definition PARTIAL_ADDRESS : Z := 2103633018.
Definition CONTRACT_CLASS_ID : Z := 3923495515.
Definition PRIVATE_FUNCTION_LEAF : Z := 1389398688.
Definition PUBLIC_BYTECODE : Z := 260313585.
Definition INITIALIZER : Z := 385396519.
Definition CONTRACT_ADDRESS_V1 : Z := 1788365517.
Definition NHK_M : Z := 242137788.
Definition IVSK_M : Z := 2747825907.
Definition OVSK_M : Z := 4272201051.
Definition TSK_M : Z := 1546190975.
Definition SECRET_HASH : Z := 4199652938.
Definition MESSAGE_NULLIFIER : Z := 3754509616.
Definition SIGNATURE_PAYLOAD : Z := 463525807.
Definition SILO_NOTE_HASH : Z := 1864988894.
Definition SILO_NULLIFIER : Z := 3956568061.
Definition UNIQUE_NOTE_HASH : Z := 226850429.
Definition NOTE_HASH_NONCE : Z := 1721808740.
Definition SILOED_NOTE_HASH : Z := 3361878420.
Definition SILOED_NULLIFIER : Z := 57496191.
Definition PRIVATE_LOG_FIRST_FIELD : Z := 2769976252.
Definition NOTE_NULLIFIER : Z := 50789342.
End domain_separator.

(** ** Limits, tree heights and gas *)

Definition MAX_NOTE_HASHES_PER_TX : Z := 64.
Definition MAX_NULLIFIERS_PER_TX : Z := 64.
Definition MAX_PRIVATE_LOGS_PER_TX : Z := 64.
Definition MAX_L2_TO_L1_MSGS_PER_TX : Z := 8.
Definition MAX_ENQUEUED_CALLS_PER_TX : Z := 32.
Definition MAX_CONTRACT_CLASS_LOGS_PER_TX : Z := 1.
Definition CONTRACT_CLASS_LOG_SIZE_IN_FIELDS : Z := 3023.
Definition MAX_NOTE_HASHES_PER_CALL : Z := 16.
Definition MAX_NULLIFIERS_PER_CALL : Z := 16.
Definition MAX_PRIVATE_CALL_STACK_LENGTH_PER_CALL : Z := 8.
Definition MAX_ENQUEUED_CALLS_PER_CALL : Z := 32.
Definition MAX_L2_TO_L1_MSGS_PER_CALL : Z := 8.
Definition MAX_PRIVATE_LOGS_PER_CALL : Z := 16.
Definition MAX_CONTRACT_CLASS_LOGS_PER_CALL : Z := 1.
Definition MAX_NOTE_HASH_READ_REQUESTS_PER_TX : Z := 64.
Definition MAX_NULLIFIER_READ_REQUESTS_PER_TX : Z := 64.
Definition MAX_KEY_VALIDATION_REQUESTS_PER_TX : Z := 64.
Definition MAX_NOTE_HASH_READ_REQUESTS_PER_CALL : Z := 16.
Definition MAX_NULLIFIER_READ_REQUESTS_PER_CALL : Z := 16.
Definition MAX_KEY_VALIDATION_REQUESTS_PER_CALL : Z := 16.
Definition MAX_FR_CALLDATA_TO_ALL_ENQUEUED_CALLS : Z := 12288.
Definition PRIVATE_LOG_SIZE_IN_FIELDS : Z := 16.
Definition NOTE_HASH_TREE_HEIGHT : Z := 42.
Definition NULLIFIER_TREE_HEIGHT : Z := 42.
Definition PUBLIC_DATA_TREE_HEIGHT : Z := 40.
Definition L1_TO_L2_MSG_TREE_HEIGHT : Z := 36.
Definition NUMBER_OF_L1_L2_MESSAGES_PER_ROLLUP : Z := 1024.
Definition L1_TO_L2_MSG_SUBTREE_HEIGHT : Z := 10.
Definition ARCHIVE_HEIGHT : Z := 30.
Definition VK_TREE_HEIGHT : Z := 7.
Definition MAX_PROTOCOL_CONTRACTS : Z := 11.
Definition CHONK_PROOF_LENGTH : Z := 1935.
Definition RECURSIVE_PROOF_LENGTH : Z := 449.
Definition TX_DA_GAS_OVERHEAD : Z := 96.
Definition PUBLIC_TX_L2_GAS_OVERHEAD : Z := 540000.
Definition PRIVATE_TX_L2_GAS_OVERHEAD : Z := 440000.
Definition FIXED_AVM_STARTUP_L2_GAS : Z := 20000.
Definition L2_GAS_PER_NOTE_HASH : Z := 9200.
Definition L2_GAS_PER_NULLIFIER : Z := 16000.
Definition L2_GAS_PER_L2_TO_L1_MSG : Z := 5200.
Definition L2_GAS_PER_PRIVATE_LOG : Z := 2500.
Definition L2_GAS_PER_CONTRACT_CLASS_LOG : Z := 73000.
Definition DA_BYTES_PER_FIELD : Z := 32.
Definition DA_GAS_PER_BYTE : Z := 1.
Definition DA_GAS_PER_FIELD : Z := 32.
Definition MAX_PROCESSABLE_L2_GAS : Z := 6540000.
Definition MAX_PROCESSABLE_DA_GAS_PER_CHECKPOINT : Z := 786432.
Definition DEFAULT_L2_GAS_LIMIT : Z := 6540000.
Definition DEFAULT_TEARDOWN_L2_GAS_LIMIT : Z := 1000000.
Definition DEFAULT_DA_GAS_LIMIT : Z := 786432.
Definition DEFAULT_TEARDOWN_DA_GAS_LIMIT : Z := 393216.
Definition MAX_TX_LIFETIME : Z := 86400.
Definition FUNCTION_TREE_HEIGHT : Z := 7.
Definition MAX_PACKED_PUBLIC_BYTECODE_SIZE_IN_FIELDS : Z := 3000.
Definition ARTIFACT_FUNCTION_TREE_MAX_HEIGHT : Z := 7.

Section magic_values.
Context `{FR : PrimeField fr_modulus} `{HX : HexCrate}.

Definition current_vk_tree_root : Outcome Fr :=
  expect (Fr_from_hex
    "0x1dd2644a17d1ddd8831287a78c5a1033b7ae35cdf2a3db833608856c062fc2ba"%string).
Definition contract_class_published_magic_value : Outcome Fr :=
  expect (Fr_from_hex
    "0x20f5895a4e837356c2d551743df6bf642756dcd93cd31cbd37c556c90bf7f244"%string).
Definition contract_instance_published_magic_value : Outcome Fr :=
  expect (Fr_from_hex
    "0x174c6b3d0fd14728e4fc5e53f7b262ab943546a7e125e2ed5e9fde3cf0b3e22f"%string).
Definition contract_class_registry_bytecode_capsule_slot : Outcome Fr :=
  expect (Fr_from_hex
    "0x1f61038721b052d5389449bf44f73c817146aedfab1ef13d37f16ce928df1fb7"%string).
End magic_values.

(** No two of the separators listed here are equal, so no two hashes that use
    different separators have the same sponge input. *)
Definition all_domain_separators : list Z :=
  [domain_separator.AUTHWIT_INNER;
   domain_separator.AUTHWIT_OUTER;
   domain_separator.FUNCTION_ARGS;
   domain_separator.PUBLIC_CALLDATA;
   domain_separator.PRIVATE_TX_HASH;
   domain_separator.PUBLIC_TX_HASH;
   domain_separator.TX_REQUEST;
   domain_separator.PROTOCOL_CONTRACTS;
   domain_separator.PUBLIC_KEYS_HASH;
   domain_separator.PARTIAL_ADDRESS;
   domain_separator.CONTRACT_CLASS_ID;
   domain_separator.PRIVATE_FUNCTION_LEAF;
   domain_separator.PUBLIC_BYTECODE;
   domain_separator.INITIALIZER;
   domain_separator.CONTRACT_ADDRESS_V1;
   domain_separator.NHK_M;
   domain_separator.IVSK_M;
   domain_separator.OVSK_M;
   domain_separator.TSK_M;
   domain_separator.SECRET_HASH;
   domain_separator.MESSAGE_NULLIFIER;
   domain_separator.SIGNATURE_PAYLOAD;
   domain_separator.SILO_NOTE_HASH;
   domain_separator.SILO_NULLIFIER;
   domain_separator.UNIQUE_NOTE_HASH;
   domain_separator.NOTE_HASH_NONCE;
   domain_separator.SILOED_NOTE_HASH;
   domain_separator.SILOED_NULLIFIER;
   domain_separator.PRIVATE_LOG_FIRST_FIELD;
   domain_separator.NOTE_NULLIFIER].

Lemma domain_separators_NoDup : NoDup all_domain_separators.
Proof. apply (bool_decide_unpack _). vm_compute. exact I. Qed.

Lemma domain_separators_u32 : Forall (in_u 32) all_domain_separators.
Proof. repeat constructor; done. Qed.
