(* ===== verification/Poseidon.v ===== *)
(** [crates/core/src/hash.rs], the hash functions that need no ABI data: the
    Poseidon2 sponge, its byte and separator forms, and the argument hashes. *)

From Stdlib Require Import Ascii String.
From S2P Require Import Prelude Bytes Ordered Deps Concrete Types Constants.

Section poseidon2.
Context `{FR : PrimeField fr_modulus} `{P2 : !Poseidon2Crate}.

Definition use_external_poseidon2 : bool :=
  match env_var "AZTEC_RS_USE_TS_POSEIDON"%string with
  | Some value => bool_decide (value ∈ ["1"; "true"; "TRUE"]%string)
  | None => false
  end.

Definition RATE : nat := 3.

(** [for i in 0..n { state[i] += cache[i] }]. *)
Definition absorb (n : nat) (state cache : list Fr) : list Fr :=
  imap (λ i s, if (i <? n)%nat then pf_add s (default Fr_zero (cache !! i)) else s) state.

Record Sponge := MkSponge { sp_state : list Fr; sp_cache : list Fr; sp_cache_size : nat }.

(** One iteration of the loop over the inputs. *)
Definition sponge_input (s : Sponge) (input : Fr) : Sponge :=
  let s :=
    if (sp_cache_size s =? RATE)%nat then
      {| sp_state := poseidon2_permutation (absorb RATE (sp_state s) (sp_cache s));
         sp_cache := replicate RATE Fr_zero;
         sp_cache_size := 0 |}
    else s in
  {| sp_state := sp_state s;
     sp_cache := <[sp_cache_size s := input]> (sp_cache s);
     sp_cache_size := sp_cache_size s + 1 |}.

Definition two_pow_64 : Fr := pf_mul (Fr_from_u64 (2 ^ 32)) (Fr_from_u64 (2 ^ 32)).

Definition initial_state (inputs : list Fr) : list Fr :=
  [Fr_from_u64 0; Fr_from_u64 0; Fr_from_u64 0;
   pf_mul (Fr_from_u64 (u64_wrap (Z.of_nat (length inputs)))) two_pow_64].

Definition poseidon2_hash (inputs : list Fr) : Fr :=
  if use_external_poseidon2 then bbjs_poseidon2 inputs
  else
    let s := foldl sponge_input
               {| sp_state := initial_state inputs;
                  sp_cache := replicate RATE Fr_zero;
                  sp_cache_size := 0 |} inputs in
    let state := poseidon2_permutation
                   (absorb (sp_cache_size s) (sp_state s) (sp_cache s)) in
    default Fr_zero (state !! 0%nat).

(** Each chunk of 31 bytes is read in little-endian order. *)
Definition bytes_to_fields (bytes : list byte) : list Fr :=
  (λ chunk, Fr_from_be (reverse (vec_resize 32 zero_byte chunk))) <$> chunks 31 bytes.

Definition poseidon2_hash_bytes (bytes : list byte) : Fr :=
  if decide (bytes = []) then poseidon2_hash []
  else poseidon2_hash (bytes_to_fields bytes).

Definition poseidon2_hash_with_separator_field (inputs : list Fr) (separator : Fr) : Fr :=
  poseidon2_hash (separator :: inputs).

Definition poseidon2_hash_with_separator (inputs : list Fr) (separator : Z) : Fr :=
  poseidon2_hash_with_separator_field inputs (Fr_from_u64 separator).

Definition compute_secret_hash (secret : Fr) : Fr :=
  poseidon2_hash_with_separator [secret] domain_separator.SECRET_HASH.

Definition compute_var_args_hash (args : list Fr) : Fr :=
  if decide (args = []) then Fr_zero
  else poseidon2_hash_with_separator args domain_separator.FUNCTION_ARGS.

Definition compute_calldata_hash (calldata : list Fr) : Fr :=
  poseidon2_hash_with_separator calldata domain_separator.PUBLIC_CALLDATA.

(** ** The sponge as its specification states it

    The inputs are cut in blocks of [RATE]; each block but the last is added to
    the state, which is then permuted; the last block, empty when there is no
    input, is absorbed by the final permutation. *)

Definition add_block (state block : list Fr) : list Fr :=
  imap (λ i s, if (i <? length block)%nat
               then pf_add s (default Fr_zero (block !! i)) else s) state.

Fixpoint sponge_blocks (state : list Fr) (blocks : list (list Fr)) : list Fr :=
  match blocks with
  | [] => poseidon2_permutation state
  | [b] => poseidon2_permutation (add_block state b)
  | b :: bs => sponge_blocks (poseidon2_permutation (add_block state b)) bs
  end.

Definition sponge_spec (inputs : list Fr) : Fr :=
  default Fr_zero (sponge_blocks (initial_state inputs) (chunks RATE inputs) !! 0%nat).

Lemma absorb_add_block state block tail :
  absorb (length block) state (block ++ tail) = add_block state block.
Proof.
  unfold absorb, add_block. apply imap_ext. intros i s _.
  case_match eqn:E; [|done]. apply Nat.ltb_lt in E. by rewrite lookup_app_l.
Qed.

Lemma absorb_0 state cache : absorb 0 state cache = state.
Proof. unfold absorb. apply list_eq. intros i. rewrite list_lookup_imap. by destruct (state !! i). Qed.

(** The cache holds the pending block [pre], followed by zeros. *)
Definition cached (pre : list Fr) (s : Sponge) : Prop :=
  (length pre ≤ RATE)%nat ∧
  sp_cache s = pre ++ replicate (RATE - length pre) Fr_zero ∧
  sp_cache_size s = length pre.

Definition finish (s : Sponge) : list Fr :=
  poseidon2_permutation (absorb (sp_cache_size s) (sp_state s) (sp_cache s)).

Lemma sponge_input_room pre s x :
  cached pre s → (length pre < RATE)%nat →
  cached (pre ++ [x]) (sponge_input s x) ∧ sp_state (sponge_input s x) = sp_state s.
Proof.
  intros (Hl & Hc & Hs) Hr. unfold sponge_input.
  destruct (Nat.eqb_spec (sp_cache_size s) RATE); [lia|]. split; [|done].
  unfold cached; simpl. rewrite length_app, Hs, Hc; simpl. split_and!; [lia| |done].
  rewrite insert_app_r_alt by lia. rewrite Nat.sub_diag.
  replace (RATE - length pre)%nat with (S (RATE - (length pre + 1)))%nat by lia.
  simpl. by rewrite <- app_assoc.
Qed.

Lemma sponge_input_full pre s x :
  cached pre s → length pre = RATE →
  cached [x] (sponge_input s x) ∧
  sp_state (sponge_input s x) = poseidon2_permutation (add_block (sp_state s) pre).
Proof.
  intros (Hl & Hc & Hs) Hr. unfold sponge_input.
  destruct (Nat.eqb_spec (sp_cache_size s) RATE); [|lia].
  split; [unfold cached, RATE; simpl; split_and!; [lia|done|done]|].
  simpl. rewrite Hc, <- Hr. by rewrite absorb_add_block.
Qed.

Lemma sponge_loop inputs pre s :
  cached pre s → pre ≠ [] →
  finish (foldl sponge_input s inputs) =
  sponge_blocks (sp_state s) (chunks RATE (pre ++ inputs)).
Proof.
  revert pre s. induction inputs as [|x inputs IH]; intros pre s Hc Hne; simpl.
  - destruct Hc as (Hl & Hc & Hs). rewrite app_nil_r, chunks_short; [|done|done].
    unfold finish. simpl. by rewrite Hc, Hs, absorb_add_block.
  - destruct (decide (length pre = RATE)) as [Hf|Hf].
    + destruct (sponge_input_full pre s x Hc Hf) as [Hc' Hst].
      rewrite (IH [x]) by done. rewrite Hst.
      rewrite (chunks_unfold RATE (pre ++ x :: inputs)); [|unfold RATE; lia|by destruct pre].
      rewrite <- Hf, take_app_length, drop_app_length, Hf. change ([x] ++ inputs) with (x :: inputs).
      destruct (chunks RATE (x :: inputs)) eqn:E; [|done].
      apply (f_equal (@concat Fr)) in E. rewrite concat_chunks in E; [done|unfold RATE; lia].
    + destruct (sponge_input_room pre s x Hc) as [Hc' Hst]; [destruct Hc; lia|].
      rewrite (IH _ _ Hc') by (by destruct pre). by rewrite Hst, <- app_assoc.
Qed.

Definition sponge_init (inputs : list Fr) : Sponge :=
  {| sp_state := initial_state inputs;
     sp_cache := replicate RATE Fr_zero;
     sp_cache_size := 0 |}.

Lemma cached_init inputs : cached [] (sponge_init inputs).
Proof. unfold cached, RATE; simpl. split_and!; [lia|done|done]. Qed.

Lemma poseidon2_hash_blocks inputs :
  use_external_poseidon2 = false → poseidon2_hash inputs = sponge_spec inputs.
Proof.
  intros Hn. unfold poseidon2_hash, sponge_spec. rewrite Hn. f_equal.
  fold (sponge_init inputs). fold (finish (foldl sponge_input (sponge_init inputs) inputs)).
  destruct inputs as [|x inputs]; [unfold finish; simpl; by rewrite absorb_0|].
  cbn [foldl].
  destruct (sponge_input_room [] _ x (cached_init (x :: inputs))) as [Hc Hst];
    [unfold RATE; simpl; lia|].
  by rewrite (sponge_loop _ _ _ Hc), Hst.
Qed.

Lemma bytes_to_fields_length bytes :
  length (bytes_to_fields bytes) = length (chunks 31 bytes).
Proof. apply length_fmap. Qed.
End poseidon2.

Import Concrete.Instances.

(** With the native permutation the incremental sponge (a cache of three
    elements flushed when it is full) computes the block sponge: every block but
    the last is added and permuted, the capacity starts at [len * 2^64], and an
    input whose length is a multiple of the rate costs no extra permutation. *)
Theorem poseidon2_sponge_spec `{PrimeField fr_modulus} `{!Poseidon2Crate} (inputs : list Fr) :
  use_external_poseidon2 = false →
  poseidon2_hash inputs = sponge_spec inputs.
Proof. apply poseidon2_hash_blocks. Qed.

Lemma poseidon2_sponge_spec_witness :
  use_external_poseidon2 = false ∧
  poseidon2_hash (Fr_from_u64 <$> [1; 2; 3; 4]) = sponge_spec (Fr_from_u64 <$> [1; 2; 3; 4]).
Proof. split; [reflexivity|]. apply poseidon2_sponge_spec. reflexivity. Defined.
