(* ===== verification/Merkle.v ===== *)
(** Binary Merkle trees: the roots of [crates/core/src/hash.rs] and the sibling
    paths of [crates/pxe/src/kernel/oracle.rs]. *)

From Stdlib Require Import Ascii String.
From S2P Require Import Prelude Bytes Ordered Deps Concrete Types Constants Poseidon.

Section merkle.
Context `{FR : PrimeField fr_modulus}.

(** ** The levels of a tree, over a hash of two nodes *)

Section levels.
Context (hash2 : Fr → Fr → Fr).

(** [for chunk in current.chunks(2) { .. next.push(..) }]; a chunk is not empty. *)
Definition merkle_pair (chunk : list Fr) : Fr :=
  match chunk with
  | l :: r :: _ => hash2 l r
  | [l] => hash2 l Fr_zero
  | [] => Fr_zero
  end.

Definition merkle_next (current : list Fr) : list Fr := merkle_pair <$> chunks 2 current.

(** [while current.len() > 1]: every step shortens the level, so its length is
    enough fuel ([merkle_loop_one]). *)
Fixpoint merkle_loop (fuel : nat) (current : list Fr) : list Fr :=
  match fuel with
  | O => current
  | S fuel' => if (1 <? length current)%nat then merkle_loop fuel' (merkle_next current) else current
  end.

Definition merkle_root (leaves : list Fr) : Fr :=
  if decide (leaves = []) then Fr_zero
  else if decide (length leaves = 1%nat) then default Fr_zero (head leaves)
  else default Fr_zero (head (merkle_loop (length leaves) leaves)).

(** [if index & 1 == 1 { index - 1 } else { index + 1 }]. *)
Definition sibling_index (index : nat) : nat :=
  if Nat.odd index then index - 1 else index + 1.

Fixpoint sibling_loop (fuel : nat) (level : list Fr) (index : nat) : list Fr :=
  match fuel with
  | O => []
  | S fuel' =>
      if (1 <? length level)%nat then
        default Fr_zero (level !! sibling_index index)
          :: sibling_loop fuel' (merkle_next level) (Nat.div2 index)
      else []
  end.

(** ** The root a verifier recomputes from a leaf, its index and its path *)

Fixpoint root_from_path (node : Fr) (index : nat) (path : list Fr) : Fr :=
  match path with
  | [] => node
  | sibling :: path' =>
      root_from_path (if Nat.odd index then hash2 sibling node else hash2 node sibling)
        (Nat.div2 index) path'
  end.

(** A perfect tree, as a verifier's circuit defines it. *)
Fixpoint perfect_root (height : nat) (leaves : list Fr) : Fr :=
  match height with
  | O => default Fr_zero (head leaves)
  | S h => hash2 (perfect_root h (take (2 ^ h) leaves)) (perfect_root h (drop (2 ^ h) leaves))
  end.

Lemma merkle_next_lookup l i :
  merkle_next l !! i =
  (λ x, hash2 x (default Fr_zero (l !! (2 * i + 1)%nat))) <$> l !! (2 * i)%nat.
Proof.
  revert i. unfold merkle_next.
  induction l as [|l Hl IH] using (chunks_ind 2 ltac:(lia)); intros i; [done|].
  rewrite chunks_unfold by (done || lia). rewrite fmap_cons.
  destruct i as [|i].
  - destruct l as [|x [|y l]]; done.
  - change ((merkle_pair (take 2 l) :: (merkle_pair <$> chunks 2 (drop 2 l))) !! S i)
      with ((merkle_pair <$> chunks 2 (drop 2 l)) !! i).
    rewrite IH, !lookup_drop. do 2 f_equal; [|f_equal; lia].
    replace (2 + (2 * i + 1))%nat with (2 * S i + 1)%nat by lia. done.
Qed.

Lemma length_merkle_next l : length (merkle_next l) = Nat.div2 (length l + 1).
Proof.
  unfold merkle_next. rewrite length_fmap.
  induction l as [|l Hl IH] using (chunks_ind 2 ltac:(lia)); [done|].
  rewrite chunks_unfold by (done || lia). rewrite length_cons, IH, length_drop.
  destruct l as [|x [|y l]]; [done|done|]. simpl length.
  replace (S (S (length l)) - 2 + 1)%nat with (length l + 1)%nat by lia.
  by replace (S (S (length l)) + 1)%nat with (S (S (length l + 1))) by lia.
Qed.

Lemma merkle_next_shorter l :
  (1 < length l)%nat → (0 < length (merkle_next l) < length l)%nat.
Proof.
  intros H. rewrite length_merkle_next. rewrite Nat.div2_div.
  split; [apply Nat.div_str_pos; lia|apply Nat.div_lt_upper_bound; lia].
Qed.

Lemma merkle_loop_one fuel l :
  l ≠ [] → (length l ≤ fuel)%nat → length (merkle_loop fuel l) = 1%nat.
Proof.
  revert l. induction fuel as [|fuel IH]; intros l Hl Hf; simpl; [by destruct l; simpl in *; [|lia]|].
  destruct (Nat.ltb_spec 1 (length l)) as [H|H]; [|by destruct l as [|? [|]]; simpl in *; [|..|lia]].
  pose proof (merkle_next_shorter l H). apply IH; [|lia].
  by destruct (merkle_next l); simpl in *; [lia|].
Qed.

(** A path leads from its leaf to the root, whatever the number of leaves. *)
Lemma root_from_sibling_loop fuel level index x :
  level !! index = Some x → (length level ≤ fuel)%nat →
  root_from_path x index (sibling_loop fuel level index) =
  default Fr_zero (head (merkle_loop fuel level)).
Proof.
  revert level index x. induction fuel as [|fuel IH]; intros level index x Hx Hf; simpl.
  { apply lookup_lt_Some in Hx. lia. }
  destruct (Nat.ltb_spec 1 (length level)) as [H|H].
  - pose proof (merkle_next_shorter level H). simpl. apply IH; [|lia].
    rewrite merkle_next_lookup. unfold sibling_index.
    pose proof (Nat.div2_odd index) as Hi. destruct (Nat.odd index); simpl Nat.b2n in Hi.
    + replace (index - 1)%nat with (2 * Nat.div2 index)%nat by lia.
      replace (2 * Nat.div2 index + 1)%nat with index by lia. rewrite Hx.
      destruct (lookup_lt_is_Some_2 level (2 * Nat.div2 index)) as [y Hy];
        [apply lookup_lt_Some in Hx; lia|by rewrite Hy].
    + rewrite Nat.add_0_r in Hi. by rewrite <- Hi, Hx.
  - apply lookup_lt_Some in Hx as Hlt. assert (index = 0%nat) as -> by lia.
    destruct level; [done|]. simpl in *. congruence.
Qed.

(** ** Perfect trees *)

Lemma length_merkle_next_pow k l :
  length l = (2 ^ S k)%nat → length (merkle_next l) = (2 ^ k)%nat.
Proof.
  intros E. rewrite length_merkle_next, E, Nat.div2_div. simpl Nat.pow.
  symmetry. apply (Nat.div_unique _ _ _ 1); lia.
Qed.

Lemma pow2_pos k : (0 < 2 ^ k)%nat.
Proof. induction k; simpl; lia. Qed.

Lemma merkle_loop_pow fuel k l :
  length l = (2 ^ S k)%nat → (length l ≤ S fuel)%nat →
  merkle_loop (S fuel) l = merkle_loop fuel (merkle_next l).
Proof.
  intros E Hf. pose proof (pow2_pos k). cbn [merkle_loop].
  replace (1 <? length l)%nat with true; [done|]. symmetry. apply Nat.ltb_lt. simpl in E. lia.
Qed.

Lemma sibling_loop_length fuel k level index :
  length level = (2 ^ k)%nat → (length level ≤ fuel)%nat →
  length (sibling_loop fuel level index) = k.
Proof.
  revert k level index. induction fuel as [|fuel IH]; intros k level index E Hf.
  { pose proof (pow2_pos k). lia. }
  cbn [sibling_loop]. destruct k as [|k]; [by rewrite E|].
  pose proof (pow2_pos k). simpl Nat.pow in E.
  replace (1 <? length level)%nat with true by (symmetry; apply Nat.ltb_lt; lia).
  cbn [length]. f_equal. apply IH; [by apply length_merkle_next_pow|].
  pose proof (merkle_next_shorter level). lia.
Qed.

Lemma merkle_next_take k l : merkle_next (take (2 * k) l) = take k (merkle_next l).
Proof.
  apply list_eq. intros i. rewrite merkle_next_lookup.
  destruct (decide (i < k)%nat).
  - rewrite (lookup_take_lt (merkle_next l)), merkle_next_lookup, !lookup_take_lt by lia. done.
  - rewrite !lookup_take_ge by lia. done.
Qed.

Lemma merkle_next_drop k l : merkle_next (drop (2 * k) l) = drop k (merkle_next l).
Proof.
  apply list_eq. intros i. rewrite merkle_next_lookup, !lookup_drop, merkle_next_lookup.
  by replace (2 * k + (2 * i + 1))%nat with (2 * (k + i) + 1)%nat by lia;
    replace (2 * k + 2 * i)%nat with (2 * (k + i))%nat by lia.
Qed.

Lemma perfect_root_next k l :
  length l = (2 ^ S k)%nat → perfect_root (S k) l = perfect_root k (merkle_next l).
Proof.
  revert l. induction k as [|k IH]; intros l E.
  - destruct l as [|x [|y [|]]]; simpl in E; try lia. done.
  - pose proof (pow2_pos k). change (perfect_root (S (S k)) l) with
      (hash2 (perfect_root (S k) (take (2 ^ S k) l)) (perfect_root (S k) (drop (2 ^ S k) l))).
    rewrite !IH by (rewrite ?length_take, ?length_drop, E; simpl; lia).
    replace (2 ^ S k)%nat with (2 * 2 ^ k)%nat by (simpl; lia).
    by rewrite merkle_next_take, merkle_next_drop.
Qed.

Lemma merkle_loop_perfect fuel k l :
  length l = (2 ^ k)%nat → (length l ≤ fuel)%nat →
  default Fr_zero (head (merkle_loop fuel l)) = perfect_root k l.
Proof.
  revert k l. induction fuel as [|fuel IH]; intros k l E Hf.
  { pose proof (pow2_pos k). lia. }
  destruct k as [|k].
  - cbn [merkle_loop]. by rewrite E.
  - rewrite (merkle_loop_pow fuel k) by done. rewrite perfect_root_next by done.
    apply IH; [by apply length_merkle_next_pow|].
    pose proof (merkle_next_shorter l). pose proof (pow2_pos k). simpl in E. lia.
Qed.

Lemma merkle_root_loop l :
  l ≠ [] → merkle_root l = default Fr_zero (head (merkle_loop (length l) l)).
Proof.
  intros Hl. unfold merkle_root. rewrite decide_False by done.
  destruct (decide _) as [E|]; [|done]. rewrite E. simpl. by rewrite E.
Qed.

Lemma merkle_root_perfect k l : length l = (2 ^ k)%nat → merkle_root l = perfect_root k l.
Proof.
  intros E. pose proof (pow2_pos k). rewrite merkle_root_loop by (by destruct l; simpl in *; [lia|]).
  by apply merkle_loop_perfect.
Qed.
End levels.

(** [poseidon_merkle_root]. *)
Definition poseidon_merkle_root `{!Poseidon2Crate} (leaves : list Fr) : Fr :=
  merkle_root (λ l r, poseidon2_hash [l; r]) leaves.

(** [sha256_to_field]: the first 31 bytes of the digest after a zero byte. *)
Definition sha256_to_field `{!HashCrates} (data : list byte) : Fr :=
  Fr_from_bytes32 (zero_byte :: take 31 (sha256_digest data)).

Definition sha256_merkle_root `{!HashCrates} (leaves : list Fr) : Fr :=
  merkle_root (λ l r, sha256_to_field (Fr_to_be_bytes l ++ Fr_to_be_bytes r)) leaves.

(** [sibling_path_from_leaves]. *)
Definition sibling_path_from_leaves `{!Poseidon2Crate} (level : list Fr) (leaf_index : nat)
    : Outcome (list Fr) :=
  if bool_decide (level = []) || (length level <=? leaf_index)%nat then
    Err (InvalidData ("invalid leaf index " +:+ pretty (Z.of_nat leaf_index) +:+
      " for tree with " +:+ pretty (Z.of_nat (length level)) +:+ " leaves"))
  else Ok (sibling_loop (λ l r, poseidon2_hash [l; r]) (length level) level leaf_index).

(** [sibling_path_from_flat_tree]: the rows of a perfect tree, leaves first, in
    one vector; an index past its end panics. *)
Fixpoint flat_loop (fuel : nat) (nodes : list Fr) (row_size row_offset index : nat)
    : Outcome (list Fr) :=
  match fuel with
  | O => Ok []
  | S fuel' =>
      if (1 <? row_size)%nat then
        match nodes !! (row_offset + sibling_index index)%nat with
        | None => Panic
        | Some sibling =>
            let? path := flat_loop fuel' nodes (Nat.div2 row_size) (row_offset + row_size)
                           (Nat.div2 index) in
            Ok (sibling :: path)
        end
      else Ok []
  end.

Definition sibling_path_from_flat_tree (nodes : list Fr) (leaf_index : nat) : Outcome (list Fr) :=
  let leaf_count := Nat.div2 (length nodes + 1) in
  if (leaf_count <=? leaf_index)%nat then
    Err (InvalidData ("invalid VK leaf index " +:+ pretty (Z.of_nat leaf_index) +:+
      " for " +:+ pretty (Z.of_nat leaf_count) +:+ " leaves"))
  else flat_loop leaf_count nodes leaf_count 0 leaf_index.

(** The rows of the tree over [leaves], as the flat vector lists them. *)
Fixpoint flat_tree (hash2 : Fr → Fr → Fr) (fuel : nat) (level : list Fr) : list Fr :=
  match fuel with
  | O => level
  | S fuel' =>
      if (1 <? length level)%nat then level ++ flat_tree hash2 fuel' (merkle_next hash2 level)
      else level
  end.

Lemma sibling_index_lt k index :
  (index < 2 ^ S k)%nat → (sibling_index index < 2 ^ S k)%nat.
Proof.
  intros H. unfold sibling_index. pose proof (Nat.div2_odd index) as Hi. simpl Nat.pow in *.
  destruct (Nat.odd index); simpl Nat.b2n in Hi; lia.
Qed.

Lemma div2_pow k : Nat.div2 (2 ^ S k) = (2 ^ k)%nat.
Proof.
  rewrite Nat.div2_div. symmetry. apply (Nat.div_unique _ _ _ 0); [lia|]. simpl Nat.pow. lia.
Qed.

Lemma div2_lt_pow k index : (index < 2 ^ S k)%nat → (Nat.div2 index < 2 ^ k)%nat.
Proof. intros H. rewrite Nat.div2_div. apply Nat.div_lt_upper_bound; simpl in H; lia. Qed.

(** Reading the rows of the flat vector gives the path of the tree. *)
Lemma flat_loop_path hash2 fuel f2 f3 k pre level index :
  length level = (2 ^ k)%nat → (index < 2 ^ k)%nat →
  (2 ^ k ≤ fuel)%nat → (2 ^ k ≤ f2)%nat → (2 ^ k ≤ f3)%nat →
  flat_loop fuel (pre ++ flat_tree hash2 f2 level) (2 ^ k) (length pre) index =
  Ok (sibling_loop hash2 f3 level index).
Proof.
  revert f2 f3 k pre level index.
  induction fuel as [|fuel IH]; intros f2 f3 k pre level index E Hi H1 H2 H3.
  { pose proof (pow2_pos k). lia. }
  destruct k as [|k].
  { destruct f3; [done|]. cbn [sibling_loop]. by rewrite E. }
  pose proof (pow2_pos k). pose proof (sibling_index_lt k index Hi).
  destruct f2 as [|f2]; [simpl in H2; lia|]. destruct f3 as [|f3]; [simpl in H3; lia|].
  cbn [flat_loop flat_tree sibling_loop].
  replace (1 <? 2 ^ S k)%nat with true by (symmetry; apply Nat.ltb_lt; simpl; lia).
  rewrite E. replace (1 <? 2 ^ S k)%nat with true by (symmetry; apply Nat.ltb_lt; simpl; lia).
  rewrite lookup_app_r by lia.
  replace (length pre + sibling_index index - length pre)%nat with (sibling_index index) by lia.
  rewrite lookup_app_l by lia.
  destruct (lookup_lt_is_Some_2 level (sibling_index index)) as [y Hy]; [lia|]. rewrite Hy.
  rewrite div2_pow.
  replace (length pre + 2 ^ S k)%nat with (length (pre ++ level)) by (rewrite length_app; lia).
  rewrite app_assoc, (IH f2 f3); [done|by apply length_merkle_next_pow|by apply div2_lt_pow|..];
    simpl in *; lia.
Qed.

Lemma length_flat_tree hash2 fuel k level :
  length level = (2 ^ k)%nat → (2 ^ k ≤ fuel)%nat →
  (length (flat_tree hash2 fuel level) + 1 = 2 ^ S k)%nat.
Proof.
  revert k level. induction fuel as [|fuel IH]; intros k level E Hf.
  { pose proof (pow2_pos k). lia. }
  cbn [flat_tree]. rewrite E. destruct k as [|k]; [simpl; rewrite E; done|].
  pose proof (pow2_pos k).
  replace (1 <? 2 ^ S k)%nat with true by (symmetry; apply Nat.ltb_lt; simpl; lia).
  rewrite length_app, <- Nat.add_assoc, (IH k), E; [simpl; lia| |simpl in Hf; lia].
  by apply length_merkle_next_pow.
Qed.

Lemma flat_path_leaves `{!Poseidon2Crate} k leaves index :
  length leaves = (2 ^ k)%nat → (index < 2 ^ k)%nat →
  sibling_path_from_flat_tree (flat_tree (λ l r, poseidon2_hash [l; r]) (2 ^ k) leaves) index =
  sibling_path_from_leaves leaves index.
Proof.
  intros E Hi. unfold sibling_path_from_flat_tree, sibling_path_from_leaves.
  rewrite (length_flat_tree _ _ k) by done.
  rewrite div2_pow.
  rewrite E. replace (2 ^ k <=? index)%nat with false by (symmetry; apply Nat.leb_gt; lia).
  rewrite bool_decide_false by (by destruct leaves; [simpl in E; pose proof (pow2_pos k); lia|]).
  simpl orb. apply (flat_loop_path _ _ _ _ k [] leaves index); done.
Qed.

Lemma sibling_path_ok `{!Poseidon2Crate} leaves index :
  (index < length leaves)%nat →
  sibling_path_from_leaves leaves index =
  Ok (sibling_loop (λ l r, poseidon2_hash [l; r]) (length leaves) leaves index).
Proof.
  intros Hl. unfold sibling_path_from_leaves.
  rewrite bool_decide_false by (intros ->; simpl in Hl; lia).
  by replace (length leaves <=? index)%nat with false by (symmetry; apply Nat.leb_gt; lia).
Qed.

Lemma sibling_path_root `{!Poseidon2Crate} leaves index x path :
  leaves !! index = Some x → sibling_path_from_leaves leaves index = Ok path →
  root_from_path (λ l r, poseidon2_hash [l; r]) x index path = poseidon_merkle_root leaves.
Proof.
  intros Hx. rewrite sibling_path_ok by (by eapply lookup_lt_Some). intros [= <-].
  unfold poseidon_merkle_root. rewrite merkle_root_loop by (by intros ->).
  by apply root_from_sibling_loop.
Qed.
End merkle.
