(* ===== verification/Grumpkin.v ===== *)
(** [crates/core/src/grumpkin.rs]: affine points of the Grumpkin curve as the
    repository's [Point], over the operations of [ark_grumpkin]. *)

From S2P Require Import Prelude Bytes Ordered Deps Concrete Types.

Section grumpkin.
Context `{FR : PrimeField fr_modulus} `{FQ : PrimeField fq_modulus} `{AG : !GrumpkinCrate}.

Definition to_ark_affine (point : Point) : ag_point :=
  if pt_is_infinite point then ag_zero else ag_new_unchecked (pt_x point) (pt_y point).

Definition from_ark_affine (point : ag_point) : Point :=
  if ag_is_zero point then Point_infinity
  else {| pt_x := ag_x point; pt_y := ag_y point; pt_is_infinite := false |}.

Definition generator : Point := from_ark_affine ag_generator.

Definition point_add (p q : Point) : Point :=
  from_ark_affine (ag_add (to_ark_affine p) (to_ark_affine q)).

(** [mul_bigint] takes the integer [pf_val scalar]. *)
Definition scalar_mul (scalar : Fq) (point : Point) : Point :=
  if pt_is_infinite point then point
  else if Fq_is_zero scalar then Point_infinity
  else from_ark_affine (ag_mul (pf_val scalar) (to_ark_affine point)).

(** [candidate.into_bigint() <= MODULUS_MINUS_ONE_DIV_TWO]. *)
Definition is_positive (candidate : Fr) : bool := pf_val candidate <=? (fr_modulus - 1) / 2.

Definition curve_rhs (x : Fr) : Fr := pf_sub (pf_mul (pf_mul x x) x) (Fr_from_u64 17).

Definition point_from_x `{SQ : !SqrtField} (x : Fr) : Outcome Point :=
  let? y := ok_or (fr_sqrt (curve_rhs x))
              (InvalidData "address x-coordinate is not on Grumpkin") in
  let neg_y := pf_neg y in
  let chosen := if is_positive y then y else if is_positive neg_y then neg_y else y in
  Ok {| pt_x := x; pt_y := chosen; pt_is_infinite := false |}.

Definition has_positive_y (point : Point) : bool := is_positive (pt_y point).

(** ** The points the functions return are images of curve points *)

Lemma to_from_ark P : to_ark_affine (from_ark_affine P) = P.
Proof.
  unfold from_ark_affine. destruct (ag_is_zero P) eqn:E.
  - by apply ag_is_zero_spec in E as ->.
  - unfold to_ark_affine. simpl. apply ag_new_coords. intros ->.
    pose proof (proj2 (ag_is_zero_spec ag_zero) eq_refl). congruence.
Qed.

Lemma from_ark_zero : from_ark_affine ag_zero = Point_infinity.
Proof. unfold from_ark_affine. by rewrite (proj2 (ag_is_zero_spec ag_zero)). Qed.

Lemma from_ark_infinite P : pt_is_infinite (from_ark_affine P) = ag_is_zero P.
Proof. unfold from_ark_affine. by destruct (ag_is_zero P). Qed.

#[global] Instance from_ark_inj : Inj (=) (=) from_ark_affine.
Proof. intros P Q E%(f_equal to_ark_affine). by rewrite !to_from_ark in E. Qed.

Definition on_curve (p : Point) : Prop := ∃ P, ag_valid P ∧ p = from_ark_affine P.

Lemma ag_mul_zero_r n : 0 ≤ n → ag_mul n ag_zero = ag_zero.
Proof.
  intros Hn. rewrite <- (ag_mul_0 ag_zero) at 1 by apply ag_valid_zero.
  rewrite ag_mul_mul, Z.mul_0_r by (lia || apply ag_valid_zero).
  apply ag_mul_0, ag_valid_zero.
Qed.

Lemma point_add_ark P Q :
  point_add (from_ark_affine P) (from_ark_affine Q) = from_ark_affine (ag_add P Q).
Proof. unfold point_add. by rewrite !to_from_ark. Qed.

Lemma scalar_mul_ark s P :
  ag_valid P → scalar_mul s (from_ark_affine P) = from_ark_affine (ag_mul (pf_val s) P).
Proof.
  intros HP. unfold scalar_mul. rewrite from_ark_infinite, to_from_ark.
  pose proof (pf_val_range s).
  destruct (ag_is_zero P) eqn:E.
  - apply ag_is_zero_spec in E as ->. by rewrite ag_mul_zero_r by lia.
  - destruct (Fq_is_zero s) eqn:Es; [|done].
    apply Fq_is_zero_spec in Es. by rewrite Es, ag_mul_0, from_ark_zero.
Qed.

(** Scalars act modulo the order of the group. *)
Lemma ag_mul_mod n P : ag_valid P → 0 ≤ n → ag_mul (n mod fq_modulus) P = ag_mul n P.
Proof.
  intros HP Hn. pose proof fq_modulus_bounds as Hq.
  assert (0 ≤ n / fq_modulus) by (apply Z.div_pos; lia).
  assert (0 ≤ n mod fq_modulus) by (apply Z.mod_pos_bound; lia).
  rewrite (Z.div_mod n fq_modulus) at 2 by lia.
  rewrite ag_mul_add by (done || nia).
  rewrite (Z.mul_comm fq_modulus), <- ag_mul_mul by (done || lia).
  rewrite ag_mul_order, ag_mul_zero_r, ag_add_zero_l by (done || lia || by apply ag_valid_mul).
  done.
Qed.

Lemma on_curve_from_ark P : ag_valid P → on_curve (from_ark_affine P).
Proof. by exists P. Qed.
Lemma on_curve_infinity : on_curve Point_infinity.
Proof. rewrite <- from_ark_zero. apply on_curve_from_ark, ag_valid_zero. Qed.
Lemma on_curve_generator : on_curve generator.
Proof. apply on_curve_from_ark, ag_valid_generator. Qed.
Lemma on_curve_add p q : on_curve p → on_curve q → on_curve (point_add p q).
Proof.
  intros (P & HP & ->) (Q & HQ & ->). rewrite point_add_ark.
  by apply on_curve_from_ark, ag_valid_add.
Qed.
Lemma on_curve_mul s p : on_curve p → on_curve (scalar_mul s p).
Proof.
  intros (P & HP & ->). rewrite scalar_mul_ark by done.
  apply on_curve_from_ark, ag_valid_mul; [apply pf_val_range|done].
Qed.

Lemma point_add_comm p q : on_curve p → on_curve q → point_add p q = point_add q p.
Proof. intros (P & HP & ->) (Q & HQ & ->). rewrite !point_add_ark. f_equal. by apply ag_add_comm. Qed.

Lemma point_add_assoc p q r : on_curve p → on_curve q → on_curve r →
  point_add p (point_add q r) = point_add (point_add p q) r.
Proof.
  intros (P & HP & ->) (Q & HQ & ->) (R & HR & ->). rewrite !point_add_ark. f_equal.
  by apply ag_add_assoc.
Qed.

Lemma point_add_infinity_l p : on_curve p → point_add Point_infinity p = p.
Proof.
  intros (P & HP & ->). rewrite <- from_ark_zero, point_add_ark. f_equal. by apply ag_add_zero_l.
Qed.

(** Distributivity over the addition of the scalar field. *)
Lemma scalar_mul_add_distr s t p : on_curve p →
  scalar_mul (pf_add s t) p = point_add (scalar_mul s p) (scalar_mul t p).
Proof.
  intros (P & HP & ->). rewrite !scalar_mul_ark, point_add_ark by done. f_equal.
  unfold pf_val at 1. rewrite pf_val_add. fold (pf_val s) (pf_val t).
  pose proof (pf_val_range s). pose proof (pf_val_range t).
  rewrite ag_mul_mod by (done || lia). apply ag_mul_add; (done || lia).
Qed.

Lemma scalar_mul_mul s t p : on_curve p →
  scalar_mul s (scalar_mul t p) = scalar_mul (pf_mul s t) p.
Proof.
  intros (P & HP & ->). pose proof (pf_val_range s). pose proof (pf_val_range t).
  rewrite (scalar_mul_ark t), (scalar_mul_ark (pf_mul s t)) by done.
  rewrite scalar_mul_ark by (apply ag_valid_mul; [lia|done]). f_equal.
  unfold pf_val at 3. rewrite pf_val_mul. fold (pf_val s) (pf_val t).
  rewrite ag_mul_mod by (done || nia). apply ag_mul_mul; (done || lia).
Qed.

Lemma pf_val_neg_nonzero (y : Fr) : pf_val y ≠ 0 → pf_val (pf_neg y) = fr_modulus - pf_val y.
Proof.
  intros Hy. pose proof (pf_val_range y). unfold pf_val at 1. rewrite pf_val_neg.
  fold (pf_val y). rewrite Z.mod_opp_l_nz.
  - by rewrite Z.mod_small.
  - pose proof fr_modulus_bounds; lia.
  - by rewrite Z.mod_small.
Qed.

Lemma pf_mul_neg_neg (y : Fr) : pf_mul (pf_neg y) (pf_neg y) = pf_mul y y.
Proof.
  apply (inj pf_val). unfold pf_val. rewrite !pf_val_mul, !pf_val_neg.
  rewrite Z.mul_mod_idemp_l, Z.mul_mod_idemp_r by (pose proof fr_modulus_bounds; lia).
  f_equal. lia.
Qed.

(** The negation of a root that is not in the lower half is. *)
Lemma is_positive_neg (y : Fr) : is_positive y = false → is_positive (pf_neg y) = true.
Proof.
  unfold is_positive. rewrite Z.leb_gt, Z.leb_le. intros Hy.
  assert (0 < (fr_modulus - 1) / 2) by reflexivity.
  assert (2 * ((fr_modulus - 1) / 2) + 1 = fr_modulus) by reflexivity.
  rewrite pf_val_neg_nonzero by lia. lia.
Qed.

Lemma point_from_x_spec `{!SqrtField} x p :
  point_from_x x = Ok p →
  pt_x p = x ∧ pt_is_infinite p = false ∧
  pf_mul (pt_y p) (pt_y p) = curve_rhs x ∧ has_positive_y p = true.
Proof.
  unfold point_from_x, has_positive_y. destruct (fr_sqrt (curve_rhs x)) as [y|] eqn:E; [|done].
  apply fr_sqrt_sound in E. simpl. intros [= <-]. simpl. split_and!; [done|done|..].
  - destruct (is_positive y); [done|]. destruct (is_positive (pf_neg y)); [|done].
    by rewrite pf_mul_neg_neg.
  - destruct (is_positive y) eqn:Ey; [done|].
    by rewrite (is_positive_neg y Ey), is_positive_neg.
Qed.
End grumpkin.

Import Concrete.Instances.

(** The point recovered from an address's [x] coordinate satisfies the curve
    equation [y^2 = x^3 - 17], keeps the coordinate, and is the one of the two
    with the "positive" ordinate. *)
Theorem point_from_x_canonical `{PrimeField fr_modulus} `{!SqrtField} (x : Fr) (p : Point) :
  point_from_x x = Ok p →
  pt_x p = x ∧ pt_is_infinite p = false ∧
  pf_mul (pt_y p) (pt_y p) = curve_rhs x ∧ has_positive_y p = true.
Proof. apply point_from_x_spec. Qed.

Lemma point_from_x_canonical_witness :
  ∃ p, point_from_x (Fr_from_u64 1) = Ok p ∧ has_positive_y p = true.
Proof.
  destruct (point_from_x (Fr_from_u64 1)) as [p| |] eqn:E.
  - exists p. split; [reflexivity|]. apply (point_from_x_canonical (Fr_from_u64 1) p E).
  - apply (f_equal is_ok) in E. vm_compute in E. discriminate E.
  - apply (f_equal is_ok) in E. vm_compute in E. discriminate E.
Defined.
