(* ===== verification/Crypto.v ===== *)
(** [crates/crypto]: SHA-512 scalars, the key hierarchy, the Pedersen hash and
    Schnorr signatures ([sha512.rs], [keys.rs], [pedersen.rs], [schnorr.rs]). *)

From Stdlib Require Import Ascii String.
From S2P Require Import Prelude Bytes Ordered Deps Concrete Types Constants Poseidon Grumpkin.

Section crypto.
Context `{FR : PrimeField fr_modulus} `{FQ : PrimeField fq_modulus}.
Context `{P2 : !Poseidon2Crate} `{HC : HashCrates} `{AG : !GrumpkinCrate}.

(** ** [sha512.rs] *)

Definition sha512_input (secret_key : Fr) (domain_separator : Z) : list byte :=
  Fr_to_be_bytes secret_key ++ be_bytes 4 domain_separator.

Definition sha512_to_grumpkin_scalar (secret_key : Fr) (domain_separator : Z) : GrumpkinScalar :=
  Fq_from_be_bytes_mod_order (sha512_digest (sha512_input secret_key domain_separator)).

(** ** [keys.rs] *)

Definition derive_master_nullifier_hiding_key (secret_key : Fr) : GrumpkinScalar :=
  sha512_to_grumpkin_scalar secret_key domain_separator.NHK_M.
Definition derive_master_incoming_viewing_secret_key (secret_key : Fr) : GrumpkinScalar :=
  sha512_to_grumpkin_scalar secret_key domain_separator.IVSK_M.
Definition derive_master_outgoing_viewing_secret_key (secret_key : Fr) : GrumpkinScalar :=
  sha512_to_grumpkin_scalar secret_key domain_separator.OVSK_M.
Definition derive_master_tagging_secret_key (secret_key : Fr) : GrumpkinScalar :=
  sha512_to_grumpkin_scalar secret_key domain_separator.TSK_M.
Definition derive_signing_key (secret_key : Fr) : GrumpkinScalar :=
  sha512_to_grumpkin_scalar secret_key domain_separator.IVSK_M.

Definition derive_public_key_from_secret_key (secret_key : GrumpkinScalar) : Point :=
  scalar_mul secret_key generator.

Record DerivedKeys := {
  master_nullifier_hiding_key : GrumpkinScalar;
  master_incoming_viewing_secret_key : GrumpkinScalar;
  master_outgoing_viewing_secret_key : GrumpkinScalar;
  master_tagging_secret_key : GrumpkinScalar;
  dk_public_keys : PublicKeys;
}.

Definition derive_keys (secret_key : Fr) : DerivedKeys :=
  let nhk_m := derive_master_nullifier_hiding_key secret_key in
  let ivsk_m := derive_master_incoming_viewing_secret_key secret_key in
  let ovsk_m := derive_master_outgoing_viewing_secret_key secret_key in
  let tsk_m := derive_master_tagging_secret_key secret_key in
  let npk_m := derive_public_key_from_secret_key nhk_m in
  let ivpk_m := derive_public_key_from_secret_key ivsk_m in
  let ovpk_m := derive_public_key_from_secret_key ovsk_m in
  let tpk_m := derive_public_key_from_secret_key tsk_m in
  {| master_nullifier_hiding_key := nhk_m;
     master_incoming_viewing_secret_key := ivsk_m;
     master_outgoing_viewing_secret_key := ovsk_m;
     master_tagging_secret_key := tsk_m;
     dk_public_keys :=
       {| master_nullifier_public_key := npk_m;
          master_incoming_viewing_public_key := ivpk_m;
          master_outgoing_viewing_public_key := ovpk_m;
          master_tagging_public_key := tpk_m |} |}.

Inductive KeyType := Nullifier | IncomingViewing | OutgoingViewing | Tagging.

Definition KeyType_domain_separator (k : KeyType) : Z :=
  match k with
  | Nullifier => domain_separator.NHK_M
  | IncomingViewing => domain_separator.IVSK_M
  | OutgoingViewing => domain_separator.OVSK_M
  | Tagging => domain_separator.TSK_M
  end.

Definition compute_app_secret_key (master_key : GrumpkinScalar) (app : AztecAddress)
    (key_type : KeyType) : Fr :=
  poseidon2_hash_with_separator [Fq_hi master_key; Fq_lo master_key; app]
    (KeyType_domain_separator key_type).

Definition compute_app_nullifier_hiding_key (master_key : GrumpkinScalar)
    (app : AztecAddress) : Fr :=
  compute_app_secret_key master_key app Nullifier.

Definition compute_ovsk_app (master_key : GrumpkinScalar) (app : AztecAddress)
    : GrumpkinScalar :=
  Fq_from_be_bytes_mod_order
    (Fr_to_be_bytes (compute_app_secret_key master_key app OutgoingViewing)).

(** ** [pedersen.rs] *)

Definition affine_to_point (affine : ag_point) : Point :=
  if ag_is_zero affine then Point_infinity
  else {| pt_x := Fr_from_be (left_pad 32 (pf_to_bytes_be (ag_x affine)));
          pt_y := Fr_from_be (left_pad 32 (pf_to_bytes_be (ag_y affine)));
          pt_is_infinite := false |}.

Definition fr_to_grumpkin_scalar (fr : Fr) : GrumpkinScalar :=
  Fq_from_be_bytes_mod_order (Fr_to_be_bytes fr).

(** The loop over [inputs.iter().enumerate()], from index [i]. *)
Fixpoint pedersen_accumulate (generators : list ag_point) (i : nat) (inputs : list Fr)
    (result : Point) : Outcome Point :=
  match inputs with
  | [] => Ok result
  | input :: inputs' =>
      match generators !! i with
      | None => Panic
      | Some g =>
          let gen_point := affine_to_point g in
          let scalar := fr_to_grumpkin_scalar input in
          let term := scalar_mul scalar gen_point in
          pedersen_accumulate generators (S i) inputs' (point_add result term)
      end
  end.

Definition pedersen_hash (inputs : list Fr) : Outcome Fr :=
  let n := Z.of_nat (length inputs) in
  let generators := derive_generators (as_bytes "DEFAULT_DOMAIN_SEPARATOR"%string) (u32_wrap n) 0 in
  let length_generators := derive_generators (as_bytes "pedersen_hash_length"%string) 1 0 in
  match length_generators !! 0%nat with
  | None => Panic
  | Some lg =>
      let length_gen := affine_to_point lg in
      let? result := pedersen_accumulate generators 0 inputs Point_infinity in
      let length_scalar := Fq_from_u64 (u64_wrap n) in
      let length_term := scalar_mul length_scalar length_gen in
      Ok (pt_x (point_add result length_term))
  end.

(** ** [schnorr.rs] *)

Record SchnorrSignature := { sig_s : list byte; sig_e : list byte }.

Definition SchnorrSignature_to_bytes (sg : SchnorrSignature) : list byte :=
  sig_s sg ++ sig_e sg.
Definition SchnorrSignature_from_bytes (bytes : list byte) : SchnorrSignature :=
  {| sig_s := take 32 bytes; sig_e := drop 32 bytes |}.
Definition SchnorrSignature_to_fields (sg : SchnorrSignature) : list Fr :=
  (λ b, Fr_from_u64 (byte_Z b)) <$> SchnorrSignature_to_bytes sg.

Definition generate_nonce (private_key : GrumpkinScalar) (message : Fr) : GrumpkinScalar :=
  Fq_from_be_bytes_mod_order
    (blake2s256 (Fq_to_be_bytes private_key ++ Fr_to_be_bytes message)).

Definition compute_challenge (r public_key : Point) (message : list byte)
    : Outcome (list byte) :=
  let? pedersen_h := pedersen_hash [pt_x r; pt_x public_key; pt_y public_key] in
  Ok (blake2s256 (Fr_to_be_bytes pedersen_h ++ message)).

Definition schnorr_sign (private_key : GrumpkinScalar) (message : Fr)
    : Outcome SchnorrSignature :=
  let g := generator in
  let public_key := scalar_mul private_key g in
  let k := generate_nonce private_key message in
  let r := scalar_mul k g in
  let? e_bytes := compute_challenge r public_key (Fr_to_be_bytes message) in
  let e_scalar := Fq_from_be_bytes_mod_order e_bytes in
  let s_scalar := pf_sub k (pf_mul private_key e_scalar) in
  Ok {| sig_s := Fq_to_be_bytes s_scalar; sig_e := e_bytes |}.

Definition schnorr_verify (public_key : Point) (message : Fr) (signature : SchnorrSignature)
    : Outcome bool :=
  let g := generator in
  let s_scalar := Fq_from_be_bytes_mod_order (sig_s signature) in
  let e_scalar := Fq_from_be_bytes_mod_order (sig_e signature) in
  let s_g := scalar_mul s_scalar g in
  let e_pk := scalar_mul e_scalar public_key in
  let r_prime := point_add s_g e_pk in
  let? e_prime := compute_challenge r_prime public_key (Fr_to_be_bytes message) in
  Ok (bool_decide (sig_e signature = e_prime)).

(** ** Lemmas *)

Lemma affine_to_point_eq P : affine_to_point P = from_ark_affine P.
Proof.
  unfold affine_to_point, from_ark_affine. destruct (ag_is_zero P); [done|].
  change (Fr_from_be (left_pad 32 (pf_to_bytes_be ?a))) with (Fr_from_be (Fr_to_be_bytes a)).
  by rewrite !Fr_from_to_be.
Qed.

Lemma pedersen_accumulate_ok gens i inputs result :
  (i + length inputs ≤ length gens)%nat →
  Forall ag_valid gens → on_curve result →
  ∃ p, pedersen_accumulate gens i inputs result = Ok p ∧ on_curve p.
Proof.
  intros Hl Hg. revert i result Hl. induction inputs as [|x inputs IH]; intros i result Hl Hr;
    simpl in *; [by exists result|].
  destruct (lookup_lt_is_Some_2 gens i) as [g Hgi]; [lia|]. rewrite Hgi.
  apply IH; [lia|]. rewrite affine_to_point_eq.
  apply on_curve_add, on_curve_mul, on_curve_from_ark; [done|].
  by eapply Forall_lookup_1.
Qed.

Lemma pedersen_hash_ok inputs :
  Z.of_nat (length inputs) < 2 ^ 32 → ∃ h, pedersen_hash inputs = Ok h.
Proof.
  intros Hn. unfold pedersen_hash.
  destruct (lookup_lt_is_Some_2 (derive_generators (as_bytes "pedersen_hash_length") 1 0) 0)
    as [lg Hlg].
  { pose proof (derive_generators_length (as_bytes "pedersen_hash_length") 1 0). lia. }
  rewrite Hlg.
  rewrite wrap_small by (unfold in_u; lia).
  destruct (pedersen_accumulate_ok
              (derive_generators (as_bytes "DEFAULT_DOMAIN_SEPARATOR") (Z.of_nat (length inputs)) 0)
              0 inputs Point_infinity) as (p & -> & _).
  - pose proof (derive_generators_length (as_bytes "DEFAULT_DOMAIN_SEPARATOR")
                  (Z.of_nat (length inputs)) 0). lia.
  - apply derive_generators_valid.
  - apply on_curve_infinity.
  - by eexists.
Qed.

Lemma compute_challenge_ok r pk m :
  ∃ e, compute_challenge r pk m = Ok e ∧ length e = 32%nat.
Proof.
  unfold compute_challenge.
  destruct (pedersen_hash_ok [pt_x r; pt_x pk; pt_y pk]) as [h ->]; [done|].
  eexists. split; [done|]. apply blake2s256_length.
Qed.

Lemma pf_sub_add_mul (k x e : Fq) :
  pf_add (pf_sub k (pf_mul x e)) (pf_mul e x) = k.
Proof.
  apply (inj pf_val). pose proof (pf_val_range k) as Hk.
  unfold pf_val in *. rewrite pf_val_add, pf_val_sub, !pf_val_mul.
  pose proof fq_modulus_bounds.
  rewrite Z.add_mod_idemp_l, Z.add_mod_idemp_r by lia.
  rewrite (Z.mul_comm (be_Z (pf_to_bytes_be e))).
  rewrite <- Z.add_sub_swap, <- Z.add_opp_r.
  set (xe := be_Z (pf_to_bytes_be x) * be_Z (pf_to_bytes_be e)).
  replace (be_Z (pf_to_bytes_be k) + xe + - (xe mod fq_modulus))
    with (be_Z (pf_to_bytes_be k) + xe / fq_modulus * fq_modulus)
    by (pose proof (Z.div_mod xe fq_modulus); lia).
  rewrite Z.mod_add by lia. by apply Z.mod_small.
Qed.

(** The verifier recovers the signer's nonce point. *)
Lemma schnorr_nonce_point k x e :
  point_add (scalar_mul (pf_sub k (pf_mul x e)) generator)
            (scalar_mul e (scalar_mul x generator)) = scalar_mul k generator.
Proof.
  rewrite scalar_mul_mul by apply on_curve_generator.
  rewrite <- scalar_mul_add_distr by apply on_curve_generator. by rewrite pf_sub_add_mul.
Qed.

Lemma sha512_input_inj s1 d1 s2 d2 :
  in_u 32 d1 → in_u 32 d2 → sha512_input s1 d1 = sha512_input s2 d2 → s1 = s2 ∧ d1 = d2.
Proof.
  intros H1 H2 E. unfold sha512_input in E. apply app_inj_1 in E as [Es Ed].
  - split.
    + rewrite !Fr_to_be_bytes_eq in Es. by apply pf_to_bytes_inj.
    + eapply (be_bytes_inj 4); [exact H1|exact H2|done].
  - by rewrite !Fr_to_be_bytes_length.
Qed.

Lemma KeyType_domain_separator_inj k1 k2 :
  KeyType_domain_separator k1 = KeyType_domain_separator k2 → k1 = k2.
Proof. by destruct k1, k2. Qed.

Lemma derive_public_key_on_curve sk : on_curve (derive_public_key_from_secret_key sk).
Proof. apply on_curve_mul, on_curve_generator. Qed.

(** Signing succeeds and the signature verifies under the public key. *)
Lemma schnorr_sign_verifies (private_key : GrumpkinScalar) (message : Fr) :
  ∃ sg, schnorr_sign private_key message = Ok sg ∧
    length (SchnorrSignature_to_bytes sg) = 64%nat ∧
    schnorr_verify (derive_public_key_from_secret_key private_key) message
      (SchnorrSignature_from_bytes (SchnorrSignature_to_bytes sg)) = Ok true.
Proof.
  unfold schnorr_sign.
  destruct (compute_challenge_ok (scalar_mul (generate_nonce private_key message) generator)
              (scalar_mul private_key generator) (Fr_to_be_bytes message)) as (e & He & Hl).
  rewrite He. simpl. eexists. split; [done|].
  unfold SchnorrSignature_to_bytes, SchnorrSignature_from_bytes, schnorr_verify; simpl.
  set (s := pf_sub _ _).
  assert (length (Fq_to_be_bytes s) = 32%nat) as Hs
    by (rewrite Fq_to_be_bytes_eq; apply pf_length_to_bytes).
  rewrite length_app, Hs, Hl, take_app_length', drop_app_length' by done.
  split; [done|]. rewrite Fq_from_to_be.
  unfold derive_public_key_from_secret_key, s. rewrite schnorr_nonce_point, He. simpl.
  by rewrite bool_decide_eq_true_2.
Qed.
End crypto.

Import Concrete.Instances.

(** C22: signing never fails, and the signature verifies under the public key of
    the signing key: for every key and message, zero key and zero nonce
    included. *)
Theorem schnorr_sign_verify `{PrimeField fr_modulus, PrimeField fq_modulus, HashCrates}
    `{!GrumpkinCrate} (private_key : GrumpkinScalar) (message : Fr) :
  ∃ sg, schnorr_sign private_key message = Ok sg ∧
    length (SchnorrSignature_to_bytes sg) = 64%nat ∧
    schnorr_verify (derive_public_key_from_secret_key private_key) message
      (SchnorrSignature_from_bytes (SchnorrSignature_to_bytes sg)) = Ok true.
Proof.
  apply schnorr_sign_verifies.
Qed.

Lemma schnorr_sign_verify_witness :
  ∃ sg, schnorr_sign (Fq_from_u64 12345) (Fr_from_u64 42) = Ok sg ∧
    length (SchnorrSignature_to_bytes sg) = 64%nat ∧
    schnorr_verify (derive_public_key_from_secret_key (Fq_from_u64 12345)) (Fr_from_u64 42)
      (SchnorrSignature_from_bytes (SchnorrSignature_to_bytes sg)) = Ok true.
Proof. apply (schnorr_sign_verify (Fq_from_u64 12345) (Fr_from_u64 42)). Defined.

(** Every master key is derived from its own hash input: two derivations have
    the same SHA-512 input only for the same secret and the same kind of key, and
    the four public keys of [derive_keys] are curve points. *)
Theorem derive_keys_separated `{PrimeField fr_modulus, PrimeField fq_modulus, HashCrates}
    `{!GrumpkinCrate} (s1 s2 : Fr) (k1 k2 : KeyType) :
  (sha512_input s1 (KeyType_domain_separator k1) =
   sha512_input s2 (KeyType_domain_separator k2) → s1 = s2 ∧ k1 = k2) ∧
  let keys := dk_public_keys (derive_keys s1) in
  on_curve (master_nullifier_public_key keys) ∧
  on_curve (master_incoming_viewing_public_key keys) ∧
  on_curve (master_outgoing_viewing_public_key keys) ∧
  on_curve (master_tagging_public_key keys).
Proof.
  split.
  - intros [-> E%KeyType_domain_separator_inj]%sha512_input_inj; [done|by destruct k1|by destruct k2].
  - split_and!; apply derive_public_key_on_curve.
Qed.

Lemma derive_keys_separated_witness :
  on_curve (master_nullifier_public_key (dk_public_keys (derive_keys (Fr_from_u64 1)))) ∧
  sha512_input (Fr_from_u64 1) (KeyType_domain_separator Nullifier) ≠
  sha512_input (Fr_from_u64 1) (KeyType_domain_separator Tagging).
Proof.
  destruct (derive_keys_separated (Fr_from_u64 1) (Fr_from_u64 1) Nullifier Tagging)
    as [I (Hn & _)].
  split; [exact Hn|]. intros E. by destruct (I E).
Defined.
