(* ===== verification/AbiTypes.v ===== *)
(** [crates/core/src/abi/{types,selectors,checkers}.rs]: ABI types and values,
    artifacts, the four-byte selectors, the recognisers of special structs, the
    flattened size of a type and the artifact checker. *)

From Stdlib Require Import Ascii String.
From S2P Require Import Prelude Bytes Ordered Deps Concrete Types Constants Poseidon.

(** ** [enum AbiType] and [struct AbiParameter] *)

Module AbiType.
Inductive t :=
  | Field
  | Boolean
  | Integer (sign : string) (width : Z)
  | Array (element : t) (length : Z)
  | String (length : Z)
  | Struct (name : string) (fields : list parameter)
  | Tuple (elements : list t)
with parameter : Type :=
  | MkAbiParameter (name : string) (typ : t) (visibility : option string).

Definition p_name (p : parameter) : string := let 'MkAbiParameter n _ _ := p in n.
Definition p_typ (p : parameter) : t := let 'MkAbiParameter _ ty _ := p in ty.

(** Induction over nested fields and elements. *)
Section induction.
Context (P : t → Prop).
Context (HField : P Field) (HBool : P Boolean) (HInt : ∀ s w, P (Integer s w)).
Context (HArray : ∀ e n, P e → P (Array e n)) (HString : ∀ n, P (String n)).
Context (HStruct : ∀ n fs, Forall (λ p, P (p_typ p)) fs → P (Struct n fs)).
Context (HTuple : ∀ es, Forall P es → P (Tuple es)).

Fixpoint nested_ind (ty : t) : P ty :=
  match ty with
  | Field => HField
  | Boolean => HBool
  | Integer s w => HInt s w
  | Array e n => HArray e n (nested_ind e)
  | String n => HString n
  | Struct n fs =>
      HStruct n fs
        ((fix go (fs : list parameter) : Forall (λ p, P (p_typ p)) fs :=
            match fs with
            | [] => Forall_nil_2 _
            | MkAbiParameter n' ty' v :: fs' =>
                Forall_cons_2 _ (MkAbiParameter n' ty' v) _ (nested_ind ty') (go fs')
            end) fs)
  | Tuple es =>
      HTuple es
        ((fix go (es : list t) : Forall P es :=
            match es with
            | [] => Forall_nil_2 _
            | e :: es' => Forall_cons_2 _ _ _ (nested_ind e) (go es')
            end) es)
  end.
End induction.
End AbiType.
Notation AbiType := AbiType.t.
Notation AbiParameter := AbiType.parameter.
Notation MkAbiParameter := AbiType.MkAbiParameter.

(** [abi_type_signature]. *)
Fixpoint abi_type_signature (typ : AbiType) : string :=
  match typ with
  | AbiType.Field => "Field"
  | AbiType.Boolean => "bool"
  | AbiType.Integer sign width =>
      let prefix := if String.eqb sign "signed" then "i" else "u" in
      prefix +:+ pretty width
  | AbiType.Array element length =>
      "[" +:+ abi_type_signature element +:+ ";" +:+ pretty length +:+ "]"
  | AbiType.String length => "str<" +:+ pretty length +:+ ">"
  | AbiType.Struct _ fields =>
      let inner := (λ f, let 'MkAbiParameter _ ty _ := f in abi_type_signature ty) <$> fields in
      "(" +:+ join "," inner +:+ ")"
  | AbiType.Tuple elements =>
      let inner := abi_type_signature <$> elements in
      "(" +:+ join "," inner +:+ ")"
  end%string.

(** ** Values *)

Module AbiValue.
Inductive t {FR : PrimeField fr_modulus} :=
  | Field (f : Fr)
  | Boolean (b : bool)
  | Integer (i : Z)
  | Array (items : list t)
  | String (s : string)
  | Struct (map : list (string * t))
  | Tuple (items : list t).
Arguments t FR : clear implicits.
End AbiValue.
Notation AbiValue := (AbiValue.t _).

Inductive FunctionType := Private | Public | Utility.
#[global] Instance FunctionType_eq_dec : EqDecision FunctionType.
Proof. solve_decision. Defined.

(** [{:?}] of a function type. *)
Definition FunctionType_debug (ft : FunctionType) : string :=
  match ft with Private => "Private" | Public => "Public" | Utility => "Utility" end.

(** ** Selectors *)

Notation FunctionSelector := (list byte) (only parsing).
Notation AuthorizationSelector := (list byte) (only parsing).

Section selectors.
Context `{FR : PrimeField fr_modulus} `{HX : HexCrate} `{P2 : !Poseidon2Crate}.

(** The characters of a UTF-8 string: the bytes that do not continue one. *)
Definition char_count (s : string) : nat :=
  length (List.filter (λ b, negb (byte_Z b / 64 =? 2)) (as_bytes s)).

(** [format!("{raw:0>8}")]: padding counts characters. *)
Definition zero_pad8 (raw : string) : string :=
  from_bytes (replicate (8 - char_count raw) (Z_byte 48)) +:+ raw.

Definition decode_selector_hex (s : string) : Outcome (list byte) :=
  let raw := strip_0x s in
  if 8 <? str_len raw then Err (InvalidData "function selector must fit in 4 bytes")
  else
    match hex_decode (zero_pad8 raw) with
    | inl e => Err (InvalidData e)
    | inr bytes => if decide (length bytes = 4%nat) then Ok bytes else Panic
    end.

Definition field_to_selector_bytes (field : Fr) : list byte :=
  drop 28 (left_pad 32 (pf_to_bytes_be field)).

Definition selector_bytes_to_field (bytes : list byte) : Fr := Fr_from_u64 (be_Z bytes).

Definition selector_from_signature (signature : string) : list byte :=
  field_to_selector_bytes (poseidon2_hash_bytes (as_bytes signature)).

Definition FunctionSelector_from_hex (value : string) : Outcome FunctionSelector :=
  decode_selector_hex value.
Definition FunctionSelector_from_field (field : Fr) : FunctionSelector :=
  field_to_selector_bytes field.
Definition FunctionSelector_from_signature (signature : string) : FunctionSelector :=
  selector_from_signature signature.
Definition FunctionSelector_from_name_and_parameters (name : string)
    (params : list AbiParameter) : FunctionSelector :=
  let param_sigs := (λ p, abi_type_signature (AbiType.p_typ p)) <$> params in
  let sig := name +:+ "(" +:+ join "," param_sigs +:+ ")" in
  FunctionSelector_from_signature sig.
Definition FunctionSelector_empty : FunctionSelector := replicate 4 zero_byte.
Definition FunctionSelector_to_field (sel : FunctionSelector) : Fr :=
  selector_bytes_to_field sel.
Definition FunctionSelector_to_string (sel : FunctionSelector) : string :=
  "0x" +:+ hex_encode sel.

Definition AuthorizationSelector_from_field (field : Fr) : AuthorizationSelector :=
  field_to_selector_bytes field.
Definition AuthorizationSelector_from_signature (signature : string) : AuthorizationSelector :=
  selector_from_signature signature.
Definition AuthorizationSelector_to_field (sel : AuthorizationSelector) : Fr :=
  selector_bytes_to_field sel.

(** [struct NoteSelector(u8)]. *)
Definition NoteSelector_MAX_VALUE : Z := 127.

Definition note_selector_error (v : Z) : Error :=
  InvalidData ("note selector must fit in 7 bits (got " +:+ pretty v +:+ ")").

Definition NoteSelector_new (value : Z) : Outcome Z :=
  if NoteSelector_MAX_VALUE <? value then Err (note_selector_error value) else Ok value.
Definition NoteSelector_from_field (field : Fr) : Outcome Z :=
  let val := Fr_to_usize field in
  if NoteSelector_MAX_VALUE <? val then Err (note_selector_error val) else Ok (u8_wrap val).
Definition NoteSelector_to_field (sel : Z) : Fr := Fr_from_u64 sel.

(** [u8::from_str_radix(s, 16)]: the number, or the [Display] text of the error of the first
    digit that is none or takes the number past its type. *)
Fixpoint hex_u8_digits (acc : Z) (digits : list byte) : string + Z :=
  match digits with
  | [] => inr acc
  | c :: digits' =>
      let b := byte_Z c in
      let d := if (48 <=? b) && (b <=? 57) then b - 48
               else if (97 <=? b) && (b <=? 102) then b - 87
               else if (65 <=? b) && (b <=? 70) then b - 55 else -1 in
      if 0 <=? d then
        if acc * 16 + d <? 256 then hex_u8_digits (acc * 16 + d) digits'
        else inl "number too large to fit in target type"%string
      else inl "invalid digit found in string"%string
  end.
Definition parse_hex_u8 (s : string) : string + Z :=
  match as_bytes s with
  | [] => inl "cannot parse integer from empty string"%string
  | c :: (_ :: _) as digits => hex_u8_digits 0 (if byte_Z c =? 43 then drop 1 digits else digits)
  | digits => hex_u8_digits 0 digits
  end.

Definition NoteSelector_empty : Z := 0.
Definition NoteSelector_from_hex (value : string) : Outcome Z :=
  match parse_hex_u8 (default value (strip_prefix "0x" value)) with
  | inl e => Err (InvalidData e)
  | inr val => NoteSelector_new val
  end.
(** [0x{:02x}]. *)
Definition NoteSelector_to_string (sel : Z) : string := "0x" +:+ hex_encode [Z_byte sel].

Definition AuthorizationSelector_from_hex (value : string) : Outcome AuthorizationSelector :=
  decode_selector_hex value.
Definition AuthorizationSelector_to_string (sel : AuthorizationSelector) : string :=
  "0x" +:+ hex_encode sel.

Lemma field_to_selector_bytes_length f : length (field_to_selector_bytes f) = 4%nat.
Proof.
  unfold field_to_selector_bytes. rewrite length_drop.
  pose proof (Fr_to_be_bytes_length f) as E. unfold Fr_to_be_bytes in E. by rewrite E.
Qed.

(** The selector bytes are the low 32 bits. *)
Lemma be_Z_field_to_selector_bytes f :
  be_Z (field_to_selector_bytes f) = pf_val f mod 2 ^ 32.
Proof.
  pose proof (field_to_selector_bytes_length f) as Hl.
  pose proof (be_Z_range (field_to_selector_bytes f)) as Hr. rewrite Hl in Hr.
  assert (pf_val f = be_Z (left_pad 32 (pf_to_bytes_be f))) as ->
    by (symmetry; apply be_Z_left_pad).
  unfold field_to_selector_bytes in *.
  rewrite <- (take_drop 28 (left_pad 32 (pf_to_bytes_be f))) at 2.
  rewrite be_Z_app, Hl. change (256 ^ Z.of_nat 4) with (2 ^ 32) in *.
  rewrite Z.add_comm, Z.mod_add by lia. symmetry. by apply Z.mod_small.
Qed.

Lemma be_Z_4_range (bs : list byte) : length bs = 4%nat → in_u 32 (be_Z bs).
Proof. intros Hl. pose proof (be_Z_range bs) as Hr. by rewrite Hl in Hr. Qed.

Lemma selector_field_roundtrip bs :
  length bs = 4%nat → field_to_selector_bytes (selector_bytes_to_field bs) = bs.
Proof.
  intros Hl. pose proof (be_Z_4_range bs Hl) as Hr. apply be_Z_inj.
  - by rewrite field_to_selector_bytes_length, Hl.
  - rewrite be_Z_field_to_selector_bytes. unfold selector_bytes_to_field, in_u in *.
    rewrite Fr_val_from_u64 by (unfold in_u; lia). by apply Z.mod_small.
Qed.

Lemma selector_to_field_val bs :
  length bs = 4%nat → pf_val (selector_bytes_to_field bs) = be_Z bs.
Proof.
  intros Hl. pose proof (be_Z_4_range bs Hl) as Hr. unfold in_u in Hr.
  apply Fr_val_from_u64. unfold in_u. lia.
Qed.

Lemma char_count_hex s :
  forallb is_hex_digit (as_bytes s) = true → char_count s = String.length s.
Proof.
  unfold char_count. rewrite <- length_as_bytes.
  induction (as_bytes s) as [|b bs IH]; simpl; [done|].
  intros [Hb Hbs]%andb_true_iff. pose proof (byte_Z_range b).
  destruct (Z.eqb_spec (byte_Z b / 64) 2) as [E|E]; simpl; [|by rewrite IH].
  assert (128 ≤ byte_Z b) by (pose proof (Z.mul_div_le (byte_Z b) 64); lia).
  unfold is_hex_digit in Hb. lia.
Qed.

Lemma selector_hex_roundtrip bs :
  length bs = 4%nat → decode_selector_hex (FunctionSelector_to_string bs) = Ok bs.
Proof.
  intros Hl. unfold decode_selector_hex, FunctionSelector_to_string.
  change (strip_0x _) with (hex_encode bs).
  assert (String.length (hex_encode bs) = 8%nat) as He by (rewrite hex_length_encode, Hl; done).
  unfold str_len, zero_pad8. rewrite char_count_hex.
  - rewrite He. simpl. change (""%string +:+ hex_encode bs) with (hex_encode bs).
    by rewrite hex_decode_encode, decide_True.
  - eapply hex_decode_ok, hex_decode_encode.
Qed.

(** The padded text of at most eight digits decodes to four bytes. *)
Lemma decode_selector_hex_total s :
  decode_selector_hex s ≠ Panic ∧
  (∀ bs, decode_selector_hex s = Ok bs → length bs = 4%nat).
Proof.
  unfold decode_selector_hex.
  destruct (Z.ltb_spec 8 (str_len (strip_0x s))) as [|Hl]; [done|].
  destruct (hex_decode (zero_pad8 (strip_0x s))) as [e|bs] eqn:E; [done|].
  apply hex_decode_ok in E as [El Ed]. unfold zero_pad8 in El, Ed.
  rewrite as_bytes_app, as_from_bytes, forallb_app, andb_true_iff in Ed.
  destruct Ed as [_ Ed%char_count_hex].
  rewrite <- length_as_bytes, as_bytes_app, as_from_bytes, length_app, length_replicate,
    length_as_bytes, Ed in El.
  unfold str_len in Hl. rewrite decide_True by lia. split; [done|]. intros ? [= <-]. lia.
Qed.
End selectors.

(** ** Artifacts *)

Section artifacts.
Context {FR : PrimeField fr_modulus} {JS : JsonCrate}.

Record FunctionArtifact := {
  fa_name : string;
  function_type : FunctionType;
  is_initializer : bool;
  fa_is_static : bool;
  is_only_self : option bool;
  parameters : list AbiParameter;
  return_types : list AbiType;
  error_types : option json_value;
  fa_selector : option FunctionSelector;
  bytecode : option string;
  verification_key_hash : option Fr;
  verification_key : option string;
  custom_attributes : option (list string);
  is_unconstrained : option bool;
  debug_symbols : option json_value;
}.

(** [context_inputs_sizes] is a [HashMap<String, usize>]. *)
Record ContractArtifact := {
  art_name : string;
  functions : list FunctionArtifact;
  outputs : option json_value;
  file_map : option json_value;
  context_inputs_sizes : option (gmap string Z);
}.

Definition find_first {A} (p : A → bool) (l : list A) : option A := List.find p l.

Definition find_function (artifact : ContractArtifact) (name : string)
    : Outcome FunctionArtifact :=
  ok_or (find_first (λ f, String.eqb (fa_name f) name) (functions artifact))
    (Abi ("function '" +:+ name +:+ "' not found in artifact '" +:+ art_name artifact +:+ "'")).

Definition find_function_by_type (artifact : ContractArtifact) (name : string)
    (ft : FunctionType) : Outcome FunctionArtifact :=
  ok_or (find_first (λ f, String.eqb (fa_name f) name && bool_decide (function_type f = ft))
           (functions artifact))
    (Abi (FunctionType_debug ft +:+ " function '" +:+ name +:+ "' not found in artifact '"
          +:+ art_name artifact +:+ "'")).

Definition find_function_by_selector (artifact : ContractArtifact)
    (selector : FunctionSelector) : option FunctionArtifact :=
  find_first (λ f, bool_decide (fa_selector f = Some selector)) (functions artifact).

Definition private_context_inputs_size (artifact : ContractArtifact) (function_name : string) : Z :=
  default 0 (context_inputs_sizes artifact ≫= λ m, m !! function_name).
End artifacts.
Arguments FunctionArtifact FR JS : clear implicits.
Arguments ContractArtifact FR JS : clear implicits.

(** [.map(f).sum()] over [usize]. *)
Definition usize_sum (l : list Z) : Z := foldl (λ acc x, usize_wrap (acc + x)) 0 l.

Fixpoint count_abi_type_fields (typ : AbiType) : Z :=
  match typ with
  | AbiType.Field | AbiType.Boolean => 1
  | AbiType.Integer _ _ => 1
  | AbiType.Array element length => usize_wrap (count_abi_type_fields element * length)
  | AbiType.String length => length
  | AbiType.Struct _ fields =>
      usize_sum ((λ f, let 'MkAbiParameter _ ty _ := f in count_abi_type_fields ty) <$> fields)
  | AbiType.Tuple elements => usize_sum (count_abi_type_fields <$> elements)
  end.

(** ** [checkers.rs] *)

Definition is_aztec_address_struct (typ : AbiType) : bool :=
  match typ with
  | AbiType.Struct name _ => ends_with "address::AztecAddress" name
  | _ => false
  end.

Definition is_eth_address_struct (typ : AbiType) : bool :=
  match typ with
  | AbiType.Struct name _ => ends_with "address::EthAddress" name
  | _ => false
  end.

Definition is_address_struct (typ : AbiType) : bool :=
  is_aztec_address_struct typ || is_eth_address_struct typ.

Definition is_function_selector_struct (typ : AbiType) : bool :=
  match typ with
  | AbiType.Struct name _ => ends_with "function_selector::FunctionSelector" name
  | _ => false
  end.

Definition is_wrapped_field_struct (typ : AbiType) : bool :=
  match typ with
  | AbiType.Struct _ [MkAbiParameter n AbiType.Field _] => String.eqb n "inner"
  | _ => false
  end.

Definition is_public_keys_struct (typ : AbiType) : bool :=
  match typ with
  | AbiType.Struct name [f0; f1; f2; f3] =>
      ends_with "public_keys::PublicKeys" name
      && String.eqb (AbiType.p_name f0) "npk_m" && String.eqb (AbiType.p_name f1) "ivpk_m"
      && String.eqb (AbiType.p_name f2) "ovpk_m" && String.eqb (AbiType.p_name f3) "tpk_m"
  | _ => false
  end.

Definition is_bounded_vec_struct (typ : AbiType) : bool :=
  match typ with
  | AbiType.Struct name [f0; f1] =>
      ends_with "bounded_vec::BoundedVec" name
      && String.eqb (AbiType.p_name f0) "storage" && String.eqb (AbiType.p_name f1) "len"
  | _ => false
  end.

Definition is_option_struct (typ : AbiType) : bool :=
  match typ with
  | AbiType.Struct name [f0; f1] =>
      ends_with "option::Option" name
      && String.eqb (AbiType.p_name f0) "_is_some" && String.eqb (AbiType.p_name f1) "_value"
  | _ => false
  end.

Fixpoint abi_type_size (typ : AbiType) : Z :=
  match typ with
  | AbiType.Field | AbiType.Boolean | AbiType.Integer _ _ => 1
  | AbiType.String length => length
  | AbiType.Array element length => usize_wrap (length * abi_type_size element)
  | AbiType.Struct _ fields =>
      usize_sum ((λ f, let 'MkAbiParameter _ ty _ := f in abi_type_size ty) <$> fields)
  | AbiType.Tuple elements => usize_sum (abi_type_size <$> elements)
  end.

Definition count_arguments_size `{PrimeField fr_modulus, JsonCrate}
    (function : FunctionArtifact _ _) : Z :=
  usize_sum ((λ p, abi_type_size (AbiType.p_typ p)) <$> parameters function).

(** The loop over [elements.iter().enumerate()]. *)
Definition validate_elements (validate : AbiType → string → list string) (path : string)
    : nat → list AbiType → list string :=
  fix go i es :=
    match es with
    | [] => []
    | e :: es' => validate e (path +:+ "."%string +:+ pretty i) ++ go (S i) es'
    end.

Fixpoint validate_abi_type (typ : AbiType) (path : string) : list string :=
  match typ with
  | AbiType.Field | AbiType.Boolean => []
  | AbiType.Integer _ width =>
      if (width =? 0)%Z then [path +:+ ": integer width must be > 0"%string] else []
  | AbiType.String length =>
      if (length =? 0)%Z then [path +:+ ": string length must be > 0"%string] else []
  | AbiType.Array element length =>
      (if (length =? 0)%Z then [path +:+ ": array length must be > 0"%string] else [])
      ++ validate_abi_type element (path +:+ "[]"%string)
  | AbiType.Struct name fields =>
      (if String.eqb name ""%string then [path +:+ ": struct name must not be empty"%string] else [])
      ++ (match fields with
          | [] => [path +:+ ": struct '"%string +:+ name +:+ "' must have at least one field"%string]
          | _ => []
          end)
      ++ mjoin ((λ f, let 'MkAbiParameter n ty _ := f in
                      validate_abi_type ty (path +:+ "."%string +:+ n)) <$> fields)
  | AbiType.Tuple elements =>
      (match elements with
       | [] => [path +:+ ": tuple must have at least one element"%string]
       | _ => []
       end)
      ++ validate_elements validate_abi_type path 0%nat elements
  end.

Section abi_checker.
Context `{FR : PrimeField fr_modulus} `{JS : JsonCrate}.

Definition check_function (func : FunctionArtifact FR JS) : list string :=
  let fn_path := "function '"%string +:+ fa_name func +:+ "'"%string in
  (if String.eqb (fa_name func) ""%string then [fn_path +:+ ": function name must not be empty"%string] else [])
  ++ (match fa_selector func with None => [fn_path +:+ ": missing selector"%string] | Some _ => [] end)
  ++ mjoin ((λ p, validate_abi_type (AbiType.p_typ p) (fn_path +:+ "."%string +:+ AbiType.p_name p))
              <$> parameters func)
  ++ mjoin (imap (λ i ret, validate_abi_type ret
                             (fn_path +:+ "->return["%string +:+ pretty i +:+ "]"%string))
              (return_types func)).

Definition abi_checker (artifact : ContractArtifact FR JS) : list string :=
  match functions artifact with
  | [] => ["artifact has no functions"%string]
  | _ =>
      (if existsb is_initializer (functions artifact) then []
       else ["artifact has no constructor (initializer)"%string])
      ++ mjoin (check_function <$> functions artifact)
  end.
End abi_checker.

(** ** The flattened size, without the bound of [usize] *)

Fixpoint type_fields (typ : AbiType) : nat :=
  match typ with
  | AbiType.Field | AbiType.Boolean | AbiType.Integer _ _ => 1
  | AbiType.String length => Z.to_nat length
  | AbiType.Array element length => Z.to_nat length * type_fields element
  | AbiType.Struct _ fields =>
      sum_list_with (λ f, let 'MkAbiParameter _ ty _ := f in type_fields ty) fields
  | AbiType.Tuple elements => sum_list_with type_fields elements
  end.

(** Every length in the type is a [usize]. *)
Fixpoint lengths_ok (typ : AbiType) : bool :=
  match typ with
  | AbiType.Field | AbiType.Boolean | AbiType.Integer _ _ => true
  | AbiType.String length => (0 <=? length) && (length <? 2 ^ 64)
  | AbiType.Array element length => (0 <=? length) && (length <? 2 ^ 64) && lengths_ok element
  | AbiType.Struct _ fields =>
      forallb (λ f, let 'MkAbiParameter _ ty _ := f in lengths_ok ty) fields
  | AbiType.Tuple elements => forallb lengths_ok elements
  end.

Lemma foldl_wrap_sum {A} w (f : A → nat) acc (l : list A) :
  0 ≤ w →
  foldl (λ acc x, wrap w (acc + x)) (wrap w acc) ((λ x, wrap w (Z.of_nat (f x))) <$> l) =
  wrap w (acc + Z.of_nat (sum_list_with f l)).
Proof.
  intros Hw. revert acc. induction l as [|x l IH]; intros acc; simpl; [by rewrite Z.add_0_r|].
  replace (wrap w (wrap w acc + wrap w (Z.of_nat (f x)))) with (wrap w (acc + Z.of_nat (f x)))
    by (unfold wrap; by rewrite Z.add_mod_idemp_l, Z.add_mod_idemp_r by lia).
  rewrite IH. unfold wrap. f_equal. lia.
Qed.

Lemma usize_sum_eq {A} (g : A → Z) (f : A → nat) (l : list A) :
  Forall (λ x, g x = usize_wrap (Z.of_nat (f x))) l →
  usize_sum (g <$> l) = usize_wrap (Z.of_nat (sum_list_with f l)).
Proof.
  intros Hl. rewrite (list_fmap_ext g (λ x, usize_wrap (Z.of_nat (f x)))).
  - apply (foldl_wrap_sum 64 f 0 l). lia.
  - intros i x Hx. rewrite Forall_lookup in Hl. by apply (Hl i).
Qed.

Lemma fields_fmap_typ {B} (f : AbiType → B) (fs : list AbiParameter) :
  (λ p, let 'MkAbiParameter _ ty _ := p in f ty) <$> fs = (λ p, f (AbiType.p_typ p)) <$> fs.
Proof. apply list_fmap_ext. by intros _ [???] _. Qed.

Lemma forallb_fields_typ (f : AbiType → bool) fs :
  forallb (λ p, let 'MkAbiParameter _ ty _ := p in f ty) fs = forallb (λ p, f (AbiType.p_typ p)) fs.
Proof. induction fs as [|[???] fs IH]; simpl; congruence. Qed.

Lemma sum_fields_typ (f : AbiType → nat) fs :
  sum_list_with (λ p, let 'MkAbiParameter _ ty _ := p in f ty) fs =
  sum_list_with (λ p, f (AbiType.p_typ p)) fs.
Proof. induction fs as [|[???] fs IH]; simpl; congruence. Qed.

Lemma forallb_Forall_impl {A} (ok : A → bool) (P : A → Prop) (l : list A) :
  Forall (λ x, ok x = true → P x) l → forallb ok l = true → Forall P l.
Proof.
  intros Hl Hok. rewrite forallb_forall in Hok. rewrite Forall_forall in *.
  intros x Hx. by apply Hl, Hok, list_elem_of_In.
Qed.

Lemma abi_type_size_wrap t :
  lengths_ok t = true → abi_type_size t = usize_wrap (Z.of_nat (type_fields t)).
Proof.
  induction t as [| | | e n IH | n | nm fs IH | es IH] using AbiType.nested_ind; intros Hok; try done.
  - simpl in *. rewrite !andb_true_iff in Hok. destruct Hok as [[??] He]. rewrite (IH He).
    unfold wrap. rewrite Z.mul_mod_idemp_r by lia. f_equal. lia.
  - simpl in *. rewrite andb_true_iff in Hok. rewrite wrap_small; [lia|]. unfold in_u. lia.
  - cbn [abi_type_size type_fields lengths_ok] in *.
    rewrite forallb_fields_typ in Hok. rewrite fields_fmap_typ, sum_fields_typ.
    apply usize_sum_eq. eapply forallb_Forall_impl; [exact IH|exact Hok].
  - cbn [abi_type_size type_fields lengths_ok] in *.
    apply usize_sum_eq. eapply forallb_Forall_impl; [exact IH|exact Hok].
Qed.

Lemma count_abi_type_fields_eq t : count_abi_type_fields t = abi_type_size t.
Proof.
  induction t as [| | | e n IH | n | nm fs IH | es IH] using AbiType.nested_ind; try done.
  - simpl. by rewrite IH, Z.mul_comm.
  - cbn [abi_type_size count_abi_type_fields]. rewrite !fields_fmap_typ. f_equal.
    apply list_fmap_ext. intros i p Hp. by rewrite Forall_lookup in IH; apply (IH i).
  - cbn [abi_type_size count_abi_type_fields]. f_equal.
    apply list_fmap_ext. intros i p Hp. by rewrite Forall_lookup in IH; apply (IH i).
Qed.

(** ** What the artifact checker accepts *)

Inductive type_wf : AbiType → Prop :=
  | wf_field : type_wf AbiType.Field
  | wf_boolean : type_wf AbiType.Boolean
  | wf_integer s w : w ≠ 0 → type_wf (AbiType.Integer s w)
  | wf_string n : n ≠ 0 → type_wf (AbiType.String n)
  | wf_array e n : n ≠ 0 → type_wf e → type_wf (AbiType.Array e n)
  | wf_struct nm fs : nm ≠ ""%string → fs ≠ [] →
      Forall (λ p, type_wf (AbiType.p_typ p)) fs → type_wf (AbiType.Struct nm fs)
  | wf_tuple es : es ≠ [] → Forall type_wf es → type_wf (AbiType.Tuple es).

Lemma mjoin_nil {A} (ls : list (list A)) : mjoin ls = [] ↔ Forall (λ l, l = []) ls.
Proof.
  induction ls as [|l ls IH]; simpl; [done|]. rewrite Forall_cons, <- IH. apply app_nil.
Qed.

Lemma if_singleton_nil {A} (b : bool) (x : A) : (if b then [x] else []) = [] ↔ b = false.
Proof. by destruct b. Qed.

Lemma option_singleton_nil {A B} (o : option B) (x : A) :
  match o with None => [x] | Some _ => [] end = [] ↔ o ≠ None.
Proof. destruct o; naive_solver. Qed.

Lemma validate_abi_type_nil t path : validate_abi_type t path = [] ↔ type_wf t.
Proof.
  revert path.
  induction t as [| | s w | e n IH | n | nm fs IH | es IH] using AbiType.nested_ind; intros path.
  - split; [constructor|done].
  - split; [constructor|done].
  - cbn [validate_abi_type]. rewrite if_singleton_nil, Z.eqb_neq.
    split; [by constructor|by inversion 1].
  - cbn [validate_abi_type]. rewrite app_nil, if_singleton_nil, Z.eqb_neq, IH.
    split; [intros []; by constructor|by inversion 1].
  - cbn [validate_abi_type]. rewrite if_singleton_nil, Z.eqb_neq.
    split; [by constructor|by inversion 1].
  - cbn [validate_abi_type]. rewrite !app_nil, if_singleton_nil, mjoin_nil, Forall_fmap.
    rewrite String.eqb_neq.
    assert (Forall ((λ l : list string, l = []) ∘ (λ f, let 'MkAbiParameter n ty _ := f in
              validate_abi_type ty (path +:+ "." +:+ n))) fs
            ↔ Forall (λ p, type_wf (AbiType.p_typ p)) fs) as ->.
    { rewrite !Forall_forall in *. split; intros H p Hp; specialize (H p Hp);
        destruct p as [pn pt pv]; specialize (IH _ Hp (path +:+ "." +:+ pn)); simpl in *;
        by apply IH. }
    split.
    + intros (Hn & Hf & Hfs). constructor; [done| |done]. by destruct fs.
    + inversion 1; subst. split_and!; [done| |done]. by destruct fs.
  - cbn [validate_abi_type]. rewrite app_nil.
    assert (∀ es i, Forall (λ t, ∀ path, validate_abi_type t path = [] ↔ type_wf t) es →
              validate_elements validate_abi_type path i es = [] ↔ Forall type_wf es) as Hgo.
    { clear. intros es. induction es as [|e es IH]; intros i Hes; simpl; [done|].
      apply Forall_cons in Hes as [He Hes]. rewrite app_nil, Forall_cons, He, IH; done. }
    rewrite (Hgo _ _ IH). split.
    + intros [Hf Hes]. constructor; [by destruct es|done].
    + inversion 1; subst. split; [by destruct es|done].
Qed.

Definition function_wf `{PrimeField fr_modulus, JsonCrate} (f : FunctionArtifact _ _) : Prop :=
  fa_name f ≠ ""%string ∧ fa_selector f ≠ None ∧
  Forall (λ p, type_wf (AbiType.p_typ p)) (parameters f) ∧ Forall type_wf (return_types f).

Lemma check_function_nil `{PrimeField fr_modulus, JsonCrate} (f : FunctionArtifact _ _) :
  check_function f = [] ↔ function_wf f.
Proof.
  unfold check_function, function_wf.
  rewrite !app_nil, if_singleton_nil, String.eqb_neq, !mjoin_nil, Forall_fmap.
  rewrite option_singleton_nil.
  apply and_iff_compat_l, and_iff_compat_l.
  apply Morphisms_Prop.and_iff_morphism.
  - apply Forall_iff. intros p. apply validate_abi_type_nil.
  - rewrite !Forall_lookup. split.
    + intros Hi i ty Hty.
      apply (validate_abi_type_nil ty (("function '" +:+ fa_name f +:+ "'")
               +:+ "->return[" +:+ pretty i +:+ "]")), (Hi i).
      by rewrite list_lookup_imap, Hty.
    + intros Hty i l. rewrite list_lookup_imap. intros (ty & Ht & ->)%fmap_Some.
      apply validate_abi_type_nil. by eapply Hty.
Qed.

(** ** Properties *)

Import Concrete.Instances.

(** The checker reports nothing exactly for the artifacts with a function, an
    initializer, named functions with selectors, and parameter and return types
    without empty integers, strings, arrays, structs or tuples at any depth. *)
Theorem abi_checker_complete `{PrimeField fr_modulus, JsonCrate} (artifact : ContractArtifact _ _) :
  abi_checker artifact = [] ↔
  functions artifact ≠ [] ∧
  (∃ f, f ∈ functions artifact ∧ is_initializer f = true) ∧
  Forall function_wf (functions artifact).
Proof.
  unfold abi_checker.
  destruct (functions artifact) as [|f0 fs] eqn:E; [naive_solver|]. rewrite <- E.
  assert (Forall ((λ l : list string, l = []) ∘ check_function) (functions artifact) ↔
          Forall function_wf (functions artifact)) as Hwf
    by (apply Forall_iff; intros f; apply check_function_nil).
  rewrite app_nil, mjoin_nil, Forall_fmap, Hwf.
  assert (functions artifact ≠ []) by by rewrite E.
  destruct (existsb is_initializer (functions artifact)) eqn:Ei.
  - apply existsb_exists in Ei as (f & Hf%list_elem_of_In & Hi). naive_solver.
  - split; [by intros [? _]|]. intros (_ & (f & Hf & Hi) & _).
    assert (existsb is_initializer (functions artifact) = true); [|congruence].
    apply existsb_exists. exists f. by rewrite <- list_elem_of_In.
Qed.

(** Converting a selector to a field and back is the identity, the field of a
    selector is its big-endian value, and the selector of a field is its low 32
    bits, so [from_field] identifies fields that agree modulo [2^32]. *)
Theorem selector_field_low_bits `{PrimeField fr_modulus} (sel : FunctionSelector) (f g : Fr) :
  length sel = 4%nat →
  FunctionSelector_from_field (FunctionSelector_to_field sel) = sel ∧
  pf_val (FunctionSelector_to_field sel) = be_Z sel ∧
  (FunctionSelector_from_field f = FunctionSelector_from_field g ↔
   pf_val f mod 2 ^ 32 = pf_val g mod 2 ^ 32).
Proof.
  intros Hl. split_and!.
  - by apply selector_field_roundtrip.
  - by apply selector_to_field_val.
  - rewrite <- !be_Z_field_to_selector_bytes. unfold FunctionSelector_from_field.
    split; [by intros ->|]. apply be_Z_inj. by rewrite !field_to_selector_bytes_length.
Qed.

Lemma selector_field_low_bits_witness :
  length (be_bytes 4 3735928559) = 4%nat ∧
  FunctionSelector_from_field (FunctionSelector_to_field (be_bytes 4 3735928559)) =
  be_bytes 4 3735928559.
Proof.
  split; [reflexivity|].
  destruct (selector_field_low_bits (be_bytes 4 3735928559) (Fr_from_u64 1) (Fr_from_u64 2)
              eq_refl) as [E _]. exact E.
Defined.

(** A selector printed in hexadecimal parses back, and parsing any text ends in
    four bytes or an error: it never panics on the length of the decoded bytes. *)
Theorem selector_hex_parse `{HexCrate} (sel : FunctionSelector) (s : string) :
  length sel = 4%nat →
  FunctionSelector_from_hex (FunctionSelector_to_string sel) = Ok sel ∧
  FunctionSelector_from_hex s ≠ Panic ∧
  (∀ bs, FunctionSelector_from_hex s = Ok bs → length bs = 4%nat).
Proof. intros Hl. split; [by apply selector_hex_roundtrip|apply decode_selector_hex_total]. Qed.

Lemma selector_hex_parse_witness :
  FunctionSelector_from_hex (FunctionSelector_to_string (be_bytes 4 3735928559)) =
    Ok (be_bytes 4 3735928559) ∧
  FunctionSelector_from_hex "0x123456789"%string ≠ Panic.
Proof.
  destruct (selector_hex_parse (be_bytes 4 3735928559) "0x123456789"%string eq_refl) as [E [P _]].
  split; [exact E|exact P].
Defined.

(** [NoteSelector::from_field] decides on the low 64 bits only: it accepts
    the field exactly when they are below 128, and so accepts [2^64 + 5]. *)
Theorem NoteSelector_from_field_truncates `{PrimeField fr_modulus} (f : Fr) (v : Z) :
  NoteSelector_from_field f = Ok v ↔ v = pf_val f mod 2 ^ 64 ∧ v < 128.
Proof.
  unfold NoteSelector_from_field, NoteSelector_MAX_VALUE. rewrite Fr_to_usize_val.
  pose proof (Z.mod_pos_bound (pf_val f) (2 ^ 64) ltac:(lia)).
  destruct (Z.ltb_spec 127 (pf_val f mod 2 ^ 64)); [split; [done|lia]|].
  rewrite wrap_small by (unfold in_u; lia). split; [intros [= <-]; lia|intros [-> _]; done].
Qed.

Lemma NoteSelector_from_field_truncates_witness :
  NoteSelector_from_field (Fr_from_u128 (2 ^ 64 + 5)) = Ok 5.
Proof.
  apply (NoteSelector_from_field_truncates (Fr_from_u128 (2 ^ 64 + 5)) 5).
  split; vm_compute; reflexivity.
Defined.
