(* ===== verification/AbiCodec.v ===== *)
(** [crates/core/src/abi/{encoder,decoder,buffer}.rs]: encoding ABI values as
    field elements, decoding field elements as ABI values, and byte buffers packed
    in field elements.

    [encode_value] returns the fields the source pushes on [out].  The decoder is
    a state monad over the [cursor]. *)

From Stdlib Require Import Ascii String.
From S2P Require Import Prelude Bytes Ordered Deps Concrete Types Constants Poseidon AbiTypes.

(** The pushes of a loop that may fail. *)
Definition oconcat {A B} (f : A → Outcome (list B)) (l : list A) : Outcome (list B) :=
  omap_ok mjoin (omapM f l).

Definition mismatch : Error := Abi "argument type/value mismatch".

(** ** [encoder.rs] *)

Section encoder.
Context {FR : PrimeField fr_modulus}.
Implicit Types value : AbiValue.

(** [encode_value(&AbiType::Field, value, out)]. *)
Definition encode_field_value (value : AbiValue) : Outcome (list Fr) :=
  match value with AbiValue.Field field => Ok [field] | _ => Err mismatch end.

(** [1i128 << width] for a width below 128. *)
Definition i128_shl1 (width : Z) : Z := as_i128 (Z.shiftl 1 width).

Definition encode_integer (sign : string) (width integer : Z) : Fr :=
  if String.eqb sign "signed" && (integer <? 0) then
    let encoded :=
      if 128 <=? width then u128_wrap integer
      else u128_wrap (as_i128 (integer + i128_shl1 width)) in
    Fr_from_u128 encoded
  else Fr_from_u128 (u128_wrap integer).

Definition encode_address (value : AbiValue) : Outcome (list Fr) :=
  match value with
  | AbiValue.Field f => Ok [f]
  | AbiValue.Struct map =>
      let? f := ok_or (match bt_get "inner"%string map with
                       | Some f => Some f
                       | None => bt_get "address"%string map
                       end)
                  (Abi "address struct must have 'inner' or 'address' field") in
      encode_field_value f
  | _ => Err (Abi "expected Field or Struct for address type")
  end.

Definition encode_function_selector (value : AbiValue) : Outcome (list Fr) :=
  match value with
  | AbiValue.Integer v => Ok [Fr_from_u64 (u64_wrap v)]
  | AbiValue.Field f => Ok [f]
  | AbiValue.Struct map =>
      let? inner_value := ok_or (match bt_get "value"%string map with
                                 | Some f => Some f
                                 | None => bt_get "inner"%string map
                                 end)
                  (Abi "FunctionSelector struct must have 'value' or 'inner' field") in
      match inner_value with
      | AbiValue.Field f => Ok [f]
      | AbiValue.Integer v => Ok [Fr_from_u64 (u64_wrap v)]
      | _ => Err (Abi "FunctionSelector inner must be Field or Integer")
      end
  | _ => Err (Abi "expected Integer, Field, or Struct for FunctionSelector")
  end.

Definition encode_wrapped_field (value : AbiValue) : Outcome (list Fr) :=
  match value with
  | AbiValue.Field f => Ok [f]
  | AbiValue.Struct map =>
      let? f := ok_or (bt_get "inner"%string map)
                  (Abi "wrapped field struct must have 'inner' field") in
      encode_field_value f
  | _ => Err (Abi "expected Field or Struct for wrapped field type")
  end.

Definition bounded_vec_items (value : AbiValue) : Outcome (list AbiValue) :=
  match value with
  | AbiValue.Array items => Ok items
  | AbiValue.Struct map =>
      match bt_get "storage"%string map with
      | Some (AbiValue.Array items) => Ok items
      | _ => Err (Abi "BoundedVec struct must have 'storage' array field")
      end
  | _ => Err (Abi "expected Array or Struct for BoundedVec")
  end.

Definition array_length_error (length got : Z) : Error :=
  Abi ("expected array of length " +:+ pretty length +:+ ", got " +:+ pretty got).

(** The loop over the fields of a struct, for the encoder [enc] of a field. *)
Definition encode_fields (enc : AbiType → AbiValue → Outcome (list Fr))
    (values : list (string * AbiValue)) : list AbiParameter → Outcome (list Fr) :=
  fix go fs :=
    match fs with
    | [] => Ok []
    | MkAbiParameter name ty _ :: fs' =>
        let? field_value := ok_or (bt_get name values)
                              (Abi ("missing struct field '" +:+ name +:+ "'")) in
        let? e := enc ty field_value in
        let? es := go fs' in
        Ok (e ++ es)
    end.

(** The loop over [elements.iter().zip(values)]. *)
Definition encode_elements (enc : AbiType → AbiValue → Outcome (list Fr))
    : list AbiType → list AbiValue → Outcome (list Fr) :=
  fix go ts vs :=
    match ts, vs with
    | t :: ts', v :: vs' =>
        let? e := enc t v in
        let? es := go ts' vs' in
        Ok (e ++ es)
    | _, _ => Ok []
    end.

Fixpoint encode_value (typ : AbiType) (value : AbiValue) {struct typ} : Outcome (list Fr) :=
  match typ with
  | AbiType.Field => encode_field_value value
  | AbiType.Boolean =>
      match value with
      | AbiValue.Boolean boolean => Ok [if boolean then Fr_one else Fr_zero]
      | _ => Err mismatch
      end
  | AbiType.Integer sign width =>
      match value with
      | AbiValue.Integer integer => Ok [encode_integer sign width integer]
      | AbiValue.Field field => Ok [field]
      | _ => Err mismatch
      end
  | AbiType.Array element length =>
      match value with
      | AbiValue.Array items =>
          if Z.of_nat (List.length items) =? length then oconcat (encode_value element) items
          else Err (array_length_error length (Z.of_nat (List.length items)))
      | _ => Err mismatch
      end
  | AbiType.String length =>
      match value with
      | AbiValue.String string =>
          if length <? str_len string then
            Err (Abi ("string exceeds fixed ABI length " +:+ pretty length))
          else
            Ok (((λ byte, Fr_from_u64 (byte_Z byte)) <$> as_bytes string)
                ++ replicate (Z.to_nat (length - str_len string)) Fr_zero)
      | _ => Err mismatch
      end
  | AbiType.Struct _ fields =>
      if is_address_struct typ then encode_address value
      else if is_function_selector_struct typ then encode_function_selector value
      else if is_wrapped_field_struct typ then encode_wrapped_field value
      else if is_bounded_vec_struct typ then
        let? items := bounded_vec_items value in
        match fields with
        | [] => Panic
        | MkAbiParameter _ (AbiType.Array elem_type max_len) _ :: _ =>
            let len := Z.of_nat (List.length items) in
            if max_len <? len then
              Err (Abi ("BoundedVec has " +:+ pretty len +:+ " items but max capacity is "
                        +:+ pretty max_len))
            else
              let? encoded := oconcat (encode_value elem_type) items in
              let elem_size := abi_type_size elem_type in
              Ok (encoded
                  ++ replicate (Z.to_nat (usize_wrap ((max_len - len) * elem_size))) Fr_zero
                  ++ [Fr_from_u64 len])
        | _ :: _ => Err (Abi "BoundedVec storage must be an Array")
        end
      else if is_option_struct typ then
        match fields with
        | MkAbiParameter _ ty0 _ :: MkAbiParameter _ ty1 _ :: _ =>
            match value with
            | AbiValue.Struct map =>
                match bt_get "_is_some"%string map, bt_get "_value"%string map with
                | Some is_some_val, Some value_val =>
                    let? e0 := encode_value ty0 is_some_val in
                    let? e1 := encode_value ty1 value_val in
                    Ok (e0 ++ e1)
                | _, _ => Err (Abi "Option struct must have '_is_some' and '_value' fields")
                end
            | _ => let? e1 := encode_value ty1 value in Ok (Fr_one :: e1)
            end
        | _ => Panic
        end
      else
        match value with
        | AbiValue.Struct values =>
            encode_fields encode_value values fields
        | _ => Err mismatch
        end
  | AbiType.Tuple elements =>
      match value with
      | AbiValue.Tuple values =>
          if decide (List.length elements = List.length values) then
            encode_elements encode_value elements values
          else
            Err (Abi ("expected tuple of length " +:+ pretty (List.length elements)
                      +:+ ", got " +:+ pretty (List.length values)))
      | _ => Err mismatch
      end
  end.

Definition encode_arguments {JS : JsonCrate} (function : FunctionArtifact FR JS)
    (args : list AbiValue) : Outcome (list Fr) :=
  let n := List.length (parameters function) in
  if decide (n = List.length args) then
    oconcat (λ pv, encode_value (AbiType.p_typ pv.1) pv.2) (zip (parameters function) args)
  else
    Err (Abi ("function '" +:+ fa_name function +:+ "' expects " +:+ pretty n
              +:+ " argument(s), got " +:+ pretty (List.length args))).
End encoder.

(** ** [decoder.rs] *)

Module AbiDecoded.
Inductive t {FR : PrimeField fr_modulus} :=
  | Field (f : Fr)
  | Boolean (b : bool)
  | Integer (i : Z)
  | Array (items : list t)
  | String (s : string)
  | Struct (map : list (string * t))
  | Tuple (items : list t)
  | Address (a : AztecAddress)
  | None.
Arguments t FR : clear implicits.
End AbiDecoded.
Notation AbiDecoded := (AbiDecoded.t _).

(** A decoding step reads at the cursor and moves it. *)
Definition Decode (A : Type) : Type := nat → Outcome (A * nat).

Definition dret {A} (a : A) : Decode A := λ c, Ok (a, c).
Definition dbind {A B} (m : Decode A) (k : A → Decode B) : Decode B :=
  λ c, let? (a, c') := m c in k a c'.
Definition dfail {A} (e : Error) : Decode A := λ _, Err e.

Notation "'let@' x ':=' m 'in' k" := (dbind m (λ x, k))
  (at level 200, x pattern, m at level 100, k at level 200,
   format "'[v' 'let@'  x  ':='  m  'in'  '/' k ']'") : rust_scope.

Fixpoint drepeat {A} (n : nat) (m : Decode A) : Decode (list A) :=
  match n with
  | O => dret []
  | S n' => let@ x := m in let@ xs := drepeat n' m in dret (x :: xs)
  end.

Section decoder.
Context {FR : PrimeField fr_modulus}.
Variable fields : list Fr.

Definition take_field : Decode Fr := λ cursor,
  match fields !! cursor with
  | None => Err (Abi ("insufficient fields for decoding: cursor " +:+ pretty cursor
                      +:+ " >= len " +:+ pretty (List.length fields)))
  | Some fr => Ok (fr, S cursor)
  end.

(** A loop of [take] whose results are dropped. *)
Definition skip_fields (n : nat) : Decode unit :=
  let@ _ := drepeat n take_field in dret ().

(** [1u128 << k]: a release build masks the shift amount. *)
Definition u128_shl1 (k : Z) : Z := u128_wrap (Z.shiftl 1 (k mod 128)).

Definition decode_integer (sign : string) (width : Z) (fr : Fr) : Z :=
  let raw := be_Z (drop 16 (Fr_to_be_bytes fr)) in
  if String.eqb sign "signed" then
    if 128 <=? width then as_i128 raw
    else if u128_shl1 (u16_wrap (width - 1)) <=? raw
    then as_i128 (as_i128 raw - i128_shl1 width)
    else as_i128 raw
  else as_i128 raw.

(** The string loop with [n] iterations left. *)
Fixpoint decode_chars (n : nat) (chars : list byte) : Decode (list byte) :=
  match n with
  | O => dret chars
  | S n' =>
      let@ fr := take_field in
      let byte := u8_wrap (Fr_to_usize fr) in
      if byte =? 0 then let@ _ := skip_fields n' in dret chars
      else decode_chars n' (chars ++ [Z_byte byte])
  end.

(** The loop over the fields of a struct and the map it fills. *)
Definition decode_fields (dec : AbiType → Decode AbiDecoded)
    : list AbiParameter → list (string * AbiDecoded) → Decode (list (string * AbiDecoded)) :=
  fix go fs map :=
    match fs with
    | [] => dret map
    | MkAbiParameter name ty _ :: fs' =>
        let@ value := dec ty in go fs' (bt_insert name value map)
    end.

Definition decode_elements (dec : AbiType → Decode AbiDecoded)
    : list AbiType → Decode (list AbiDecoded) :=
  fix go ts :=
    match ts with
    | [] => dret []
    | t :: ts' => let@ x := dec t in let@ xs := go ts' in dret (x :: xs)
    end.

Fixpoint decode_next (typ : AbiType) : Decode AbiDecoded :=
  match typ with
  | AbiType.Field => let@ fr := take_field in dret (AbiDecoded.Field fr)
  | AbiType.Boolean => let@ fr := take_field in dret (AbiDecoded.Boolean (negb (Fr_is_zero fr)))
  | AbiType.Integer sign width =>
      let@ fr := take_field in dret (AbiDecoded.Integer (decode_integer sign width fr))
  | AbiType.Array element length =>
      let@ items := drepeat (Z.to_nat length) (decode_next element) in
      dret (AbiDecoded.Array items)
  | AbiType.String length =>
      let@ chars := decode_chars (Z.to_nat length) [] in
      dret (AbiDecoded.String (chars_to_string chars))
  | AbiType.Struct _ struct_fields =>
      if is_aztec_address_struct typ then
        let@ fr := take_field in dret (AbiDecoded.Address fr)
      else if is_eth_address_struct typ then
        let@ fr := take_field in dret (AbiDecoded.Field fr)
      else if is_option_struct typ then
        match struct_fields with
        | _ :: MkAbiParameter _ ty1 _ :: _ =>
            let@ is_some_fr := take_field in
            if Fr_is_zero is_some_fr then
              let@ _ := skip_fields (Z.to_nat (abi_type_size ty1)) in dret AbiDecoded.None
            else decode_next ty1
        | _ => λ _, Panic
        end
      else if is_bounded_vec_struct typ then
        match struct_fields with
        | [] => λ _, Panic
        | MkAbiParameter _ (AbiType.Array elem_type max_len) _ :: _ =>
            let@ items := drepeat (Z.to_nat max_len) (decode_next elem_type) in
            let@ len_fr := take_field in
            let actual_len := Fr_to_usize len_fr in
            dret (AbiDecoded.Array
                    (take (Z.to_nat (actual_len `min` Z.of_nat (List.length items))) items))
        | _ :: _ => dfail (Abi "BoundedVec storage must be an Array")
        end
      else
        let@ map := decode_fields decode_next struct_fields [] in
        dret (AbiDecoded.Struct map)
  | AbiType.Tuple elements =>
      let@ items := decode_elements decode_next elements in
      dret (AbiDecoded.Tuple items)
  end.

Definition decode_from_abi (types : list AbiType) : Outcome AbiDecoded :=
  match types with
  | [t] => omap_ok fst (decode_next t 0%nat)
  | _ => omap_ok (λ rc, AbiDecoded.Tuple rc.1) (decode_elements decode_next types 0%nat)
  end.
End decoder.

(** ** [buffer.rs] *)

Section buffer.
Context {FR : PrimeField fr_modulus}.

(** [padded[1..1 + chunk.len()].copy_from_slice(chunk)]. *)
Definition chunk_to_field (chunk : list byte) : Fr :=
  Fr_from_be (vec_resize 32 zero_byte (zero_byte :: chunk)).

Definition buffer_as_fields (input : list byte) (target_length : Z) : Outcome (list Fr) :=
  let encoded := Fr_from_u64 (u64_wrap (Z.of_nat (length input)))
                 :: (chunk_to_field <$> chunks 31 input) in
  if target_length <? Z.of_nat (length encoded) then
    Err (Abi ("buffer exceeds maximum field count: got " +:+ pretty (length encoded)
              +:+ " but max is " +:+ pretty target_length))
  else Ok (vec_resize (Z.to_nat target_length) Fr_zero encoded).

Definition buffer_from_fields (fields : list Fr) : Outcome (list byte) :=
  match fields with
  | [] => Err (Abi "empty field array")
  | f :: rest =>
      let length := Fr_to_usize f in
      let result := mjoin ((λ field, drop 1 (Fr_to_be_bytes field)) <$> rest) in
      Ok (take (Z.to_nat (length `min` Z.of_nat (List.length result))) result)
  end.
End buffer.

(** ** Decoders of a known size *)

(** On a buffer of [len] fields, [m] consumes exactly [n] of them, and fails with
    an error when they are not there. *)
Definition sized {A} (len : nat) (m : Decode A) (n : nat) : Prop :=
  ∀ c, (c ≤ len)%nat →
    ((c + n ≤ len)%nat → ∃ a, m c = Ok (a, (c + n)%nat)) ∧
    ((len < c + n)%nat → ∃ e, m c = Err e).

(** [m] reads exactly the fields [fs], and its answer satisfies [P]. *)
Definition reads {FR : PrimeField fr_modulus} {A} (fields : list Fr) (m : Decode A)
    (fs : list Fr) (P : A → Prop) : Prop :=
  ∀ c post, (c ≤ length fields)%nat → drop c fields = fs ++ post →
    ∃ a, P a ∧ m c = Ok (a, (c + length fs)%nat).

Section decode_lemmas.
Context {FR : PrimeField fr_modulus}.
Variable fields : list Fr.
Notation len := (length fields).

Lemma sized_ret {A} (a : A) : sized len (dret a) 0.
Proof. intros c Hc. split; [|lia]. intros _. exists a. by rewrite Nat.add_0_r. Qed.

Lemma sized_bind {A B} (m : Decode A) (k : A → Decode B) n1 n2 :
  sized len m n1 → (∀ a, sized len (k a) n2) → sized len (dbind m k) (n1 + n2).
Proof.
  intros Hm Hk c Hc. destruct (Hm c Hc) as [Hok Herr]. unfold dbind. split.
  - intros Hle. destruct Hok as [a ->]; [lia|]. simpl.
    destruct (Hk a (c + n1)%nat) as [Hok' _]; [lia|].
    destruct Hok' as [b ->]; [lia|]. exists b. by rewrite Nat.add_assoc.
  - intros Hlt. destruct (decide (c + n1 ≤ len)%nat) as [Hle|Hgt].
    + destruct Hok as [a ->]; [lia|]. simpl.
      destruct (Hk a (c + n1)%nat) as [_ Herr']; [lia|]. apply Herr'. lia.
    + destruct Herr as [e ->]; [lia|]. by exists e.
Qed.

Lemma sized_map {A B} (m : Decode A) (f : A → B) n :
  sized len m n → sized len (let@ a := m in dret (f a)) n.
Proof.
  intros Hm. rewrite <- (Nat.add_0_r n). apply sized_bind; [done|]. intros. apply sized_ret.
Qed.

Lemma sized_take : sized len (take_field fields) 1.
Proof.
  intros c Hc. unfold take_field. split; intros Hl.
  - destruct (lookup_lt_is_Some_2 fields c) as [fr ->]; [lia|]. exists fr. f_equal. f_equal. lia.
  - rewrite lookup_ge_None_2 by lia. by eexists.
Qed.

Lemma sized_repeat {A} (m : Decode A) n k :
  (n ≠ 0%nat → sized len m k) → sized len (drepeat n m) (n * k).
Proof.
  induction n as [|n IH]; intros Hm; simpl; [apply sized_ret|].
  apply sized_bind; [by apply Hm|]. intros x. apply sized_map, IH. intros _. by apply Hm.
Qed.

Lemma sized_skip n : sized len (skip_fields fields n) n.
Proof.
  rewrite <- (Nat.mul_1_r n) at 2. apply sized_map, sized_repeat. intros _. apply sized_take.
Qed.

Lemma sized_decode_chars n chars : sized len (decode_chars fields n chars) n.
Proof.
  revert chars. induction n as [|n IH]; intros chars; cbn [decode_chars]; [apply sized_ret|].
  apply (sized_bind _ _ 1 n); [apply sized_take|]. intros fr.
  destruct (_ =? 0); [apply sized_map, sized_skip|apply IH].
Qed.

Lemma sized_decode_fields dec (size : AbiType → nat) fs map :
  Forall (λ p, sized len (dec (AbiType.p_typ p)) (size (AbiType.p_typ p))) fs →
  sized len (decode_fields dec fs map) (sum_list_with (λ p, size (AbiType.p_typ p)) fs).
Proof.
  intros Hfs. revert map. induction Hfs as [|[n ty v] fs Hf Hfs IH]; intros map; simpl.
  - apply sized_ret.
  - by apply sized_bind.
Qed.

Lemma sized_decode_elements dec (size : AbiType → nat) ts :
  Forall (λ t, sized len (dec t) (size t)) ts →
  sized len (decode_elements dec ts) (sum_list_with size ts).
Proof.
  induction 1 as [|t ts Ht Hts IH]; simpl; [apply sized_ret|].
  apply sized_bind; [done|]. intros x. by apply sized_map.
Qed.

Lemma reads_ret {A} (a : A) (P : A → Prop) : P a → reads fields (dret a) [] P.
Proof. intros Ha c post _ _. exists a. split; [done|]. unfold dret. simpl. by rewrite Nat.add_0_r. Qed.

Lemma reads_bind {A B} (m : Decode A) (k : A → Decode B) fs1 fs2 P Q :
  reads fields m fs1 P → (∀ a, P a → reads fields (k a) fs2 Q) →
  reads fields (dbind m k) (fs1 ++ fs2) Q.
Proof.
  intros Hm Hk c post Hc Hd. rewrite <- app_assoc in Hd. unfold dbind.
  apply (f_equal length) in Hd as Hl. rewrite length_app, length_drop in Hl.
  destruct (Hm c _ Hc Hd) as (a & Ha & ->). simpl.
  destruct (Hk a Ha (c + length fs1)%nat post) as (b & Hb & ->).
  - destruct fs1; simpl in *; lia.
  - rewrite <- drop_drop, Hd. by rewrite drop_app_length.
  - exists b. split; [done|]. f_equal. f_equal. rewrite length_app. lia.
Qed.

Lemma reads_map {A B} (m : Decode A) (f : A → B) fs P Q :
  reads fields m fs P → (∀ a, P a → Q (f a)) → reads fields (let@ x := m in dret (f x)) fs Q.
Proof.
  intros Hm HPQ. rewrite <- (app_nil_r fs). eapply reads_bind; [done|].
  intros a Ha. apply reads_ret. auto.
Qed.

Lemma reads_take fr : reads fields (take_field fields) [fr] (eq fr).
Proof.
  intros c post _ Hd. unfold take_field. exists fr. split; [done|].
  assert (fields !! c = Some fr) as ->.
  { rewrite <- (Nat.add_0_r c), <- lookup_drop, Hd. done. }
  simpl. f_equal. f_equal. lia.
Qed.

(** A sized decoder reads whatever is there. *)
Lemma sized_reads {A} (m : Decode A) n fs :
  sized len m n → length fs = n → reads fields m fs (λ _, True).
Proof.
  intros Hm <- c post Hc Hd. apply (f_equal length) in Hd.
  rewrite length_app, length_drop in Hd.
  destruct (Hm c Hc) as [[a Ha] _]; [lia|]. by exists a.
Qed.

Lemma reads_repeat {A} (m : Decode A) fss xs :
  Forall2 (λ fs x, reads fields m fs (eq x)) fss xs →
  reads fields (drepeat (length xs) m) (mjoin fss) (eq xs).
Proof.
  induction 1 as [|fs x fss xs Hx Hxs IH]; simpl; [by apply reads_ret|].
  eapply reads_bind; [done|]. intros ? <-. eapply reads_map; [done|]. by intros ? <-.
Qed.

Lemma reads_repeat_app {A} (m : Decode A) n k fs1 fs2 xs :
  reads fields (drepeat n m) fs1 (eq xs) →
  reads fields (drepeat k m) fs2 (λ _, True) →
  reads fields (drepeat (n + k) m) (fs1 ++ fs2) (λ ys, take (length xs) ys = xs).
Proof.
  revert fs1 xs. intros fs1 xs H1 H2 c post Hc Hd.
  assert (∀ n c, drepeat (n + k) m c =
            (let@ xs := drepeat n m in let@ ys := drepeat k m in dret (xs ++ ys)) c) as Happ.
  { clear. unfold dbind, dret. intros n. induction n as [|n IH]; intros c; simpl.
    - by destruct (drepeat k m c) as [[]| |].
    - unfold dbind, dret. destruct (m c) as [[x c']| |]; simpl; [|done..]. rewrite IH.
      destruct (drepeat n m c') as [[]| |]; simpl; [|done..].
      by destruct (drepeat k m _) as [[]| |]. }
  rewrite Happ. revert c post Hc Hd.
  change (reads fields (let@ xs := drepeat n m in let@ ys := drepeat k m in dret (xs ++ ys))
            (fs1 ++ fs2) (λ ys, take (length xs) ys = xs)).
  eapply reads_bind; [exact H1|]. intros ? <-. eapply reads_map; [exact H2|].
  intros ys _. by rewrite take_app_length.
Qed.
End decode_lemmas.

(** ** Conventional types

    The special structs have the shape their names announce: an address is one
    field, a function selector one member of one field, a [BoundedVec] an array
    and a length of one field, an [Option] a flag of one field and a value. *)

Fixpoint conventional (typ : AbiType) : bool :=
  match typ with
  | AbiType.Array element _ => conventional element
  | AbiType.Struct _ fields =>
      if is_address_struct typ then Nat.eqb (type_fields typ) 1
      else if is_function_selector_struct typ then
        match fields with
        | [MkAbiParameter _ ty _] => Nat.eqb (type_fields ty) 1 && conventional ty
        | _ => false
        end
      else if is_bounded_vec_struct typ then
        match fields with
        | [MkAbiParameter _ (AbiType.Array element _) _; MkAbiParameter _ ty _] =>
            Nat.eqb (type_fields ty) 1 && conventional element
        | _ => false
        end
      else if is_option_struct typ then
        match fields with
        | [MkAbiParameter _ ty0 _; MkAbiParameter _ ty1 _] =>
            Nat.eqb (type_fields ty0) 1 && conventional ty0 && conventional ty1
        | _ => false
        end
      else forallb (λ f, let 'MkAbiParameter _ ty _ := f in conventional ty) fields
  | AbiType.Tuple elements => forallb conventional elements
  | _ => true
  end.

(** The cases of a conventional struct, with the answers of the recognisers. *)
Inductive struct_view (nm : string) (fs : list AbiParameter) : Prop :=
  | view_address :
      is_address_struct (AbiType.Struct nm fs) = true →
      type_fields (AbiType.Struct nm fs) = 1%nat → struct_view nm fs
  | view_selector n ty v :
      fs = [MkAbiParameter n ty v] →
      is_address_struct (AbiType.Struct nm fs) = false →
      is_function_selector_struct (AbiType.Struct nm fs) = true →
      type_fields ty = 1%nat → conventional ty = true → struct_view nm fs
  | view_wrapped v :
      fs = [MkAbiParameter "inner" AbiType.Field v] →
      is_address_struct (AbiType.Struct nm fs) = false →
      is_function_selector_struct (AbiType.Struct nm fs) = false → struct_view nm fs
  | view_bounded_vec n0 element max_len v0 n1 ty v1 :
      fs = [MkAbiParameter n0 (AbiType.Array element max_len) v0; MkAbiParameter n1 ty v1] →
      is_address_struct (AbiType.Struct nm fs) = false →
      is_function_selector_struct (AbiType.Struct nm fs) = false →
      is_bounded_vec_struct (AbiType.Struct nm fs) = true →
      is_option_struct (AbiType.Struct nm fs) = false →
      type_fields ty = 1%nat → conventional element = true → struct_view nm fs
  | view_option n0 ty0 v0 n1 ty1 v1 :
      fs = [MkAbiParameter n0 ty0 v0; MkAbiParameter n1 ty1 v1] →
      is_address_struct (AbiType.Struct nm fs) = false →
      is_function_selector_struct (AbiType.Struct nm fs) = false →
      is_bounded_vec_struct (AbiType.Struct nm fs) = false →
      is_option_struct (AbiType.Struct nm fs) = true →
      type_fields ty0 = 1%nat → conventional ty0 = true → conventional ty1 = true →
      struct_view nm fs
  | view_generic :
      is_address_struct (AbiType.Struct nm fs) = false →
      is_function_selector_struct (AbiType.Struct nm fs) = false →
      is_wrapped_field_struct (AbiType.Struct nm fs) = false →
      is_bounded_vec_struct (AbiType.Struct nm fs) = false →
      is_option_struct (AbiType.Struct nm fs) = false →
      forallb (λ p, conventional (AbiType.p_typ p)) fs = true → struct_view nm fs.

Lemma bounded_vec_not_option typ :
  is_bounded_vec_struct typ = true → is_option_struct typ = false.
Proof.
  destruct typ as [| | | | |nm fs|]; try done.
  destruct fs as [|[n0 t0 v0] [|[n1 t1 v1] [|]]]; try done. simpl.
  rewrite !andb_true_iff, !String.eqb_eq. intros ((_ & ->) & ->).
  by rewrite andb_false_r.
Qed.

Lemma wrapped_field_shape nm fs :
  is_wrapped_field_struct (AbiType.Struct nm fs) = true →
  ∃ v, fs = [MkAbiParameter "inner" AbiType.Field v].
Proof.
  destruct fs as [|[n ty v] [|]]; try done; simpl; destruct ty; try done.
  intros ->%String.eqb_eq. by exists v.
Qed.

Lemma wrapped_field_two nm p0 p1 ps :
  is_wrapped_field_struct (AbiType.Struct nm (p0 :: p1 :: ps)) = false.
Proof. destruct p0 as [n ty v]. by destruct ty. Qed.

Lemma conventional_struct nm fs :
  conventional (AbiType.Struct nm fs) = true → struct_view nm fs.
Proof.
  intros Hc. cbn [conventional] in Hc.
  destruct (is_address_struct _) eqn:Ea.
  { apply view_address; [done|]. by apply Nat.eqb_eq. }
  destruct (is_function_selector_struct _) eqn:Es.
  { destruct fs as [|[n ty v] [|]]; try done. apply andb_true_iff in Hc as [H1%Nat.eqb_eq H2].
    by eapply view_selector. }
  destruct (is_wrapped_field_struct (AbiType.Struct nm fs)) eqn:Ew.
  { destruct (wrapped_field_shape nm fs Ew) as [v Hv]. by eapply view_wrapped. }
  destruct (is_bounded_vec_struct _) eqn:Eb.
  { pose proof (bounded_vec_not_option _ Eb).
    destruct fs as [|[n0 ty0 v0] [|[n1 ty1 v1] [|]]]; try done; destruct ty0; try done.
    apply andb_true_iff in Hc as [H1%Nat.eqb_eq H2]. by eapply view_bounded_vec. }
  destruct (is_option_struct _) eqn:Eo.
  { destruct fs as [|[n0 ty0 v0] [|[n1 ty1 v1] [|]]]; try done.
    rewrite !andb_true_iff in Hc. destruct Hc as [[H1%Nat.eqb_eq H2] H3]. by eapply view_option. }
  apply view_generic; try done. by rewrite forallb_fields_typ in Hc.
Qed.

(** A type whose size can be computed in a [usize]. *)
Definition fits (typ : AbiType) : Prop :=
  lengths_ok typ = true ∧ Z.of_nat (type_fields typ) < 2 ^ 64.

Lemma fits_size typ : fits typ → abi_type_size typ = Z.of_nat (type_fields typ).
Proof. intros [Hl Hs]. rewrite abi_type_size_wrap by done. apply wrap_small. unfold in_u. lia. Qed.

Lemma fits_array e n : fits (AbiType.Array e n) → n ≠ 0 → fits e.
Proof.
  intros [Hl Hs] Hn. simpl in *. rewrite !andb_true_iff in Hl. split; [tauto|].
  destruct Hl as [[Hl _] _]. nia.
Qed.

Lemma sum_list_with_elem {A} (f : A → nat) l x : x ∈ l → (f x ≤ sum_list_with f l)%nat.
Proof. induction 1; simpl; lia. Qed.

Lemma fits_struct nm fs p : fits (AbiType.Struct nm fs) → p ∈ fs → fits (AbiType.p_typ p).
Proof.
  intros [Hl Hs] Hp. cbn [lengths_ok type_fields] in *.
  rewrite forallb_fields_typ, forallb_forall in Hl. rewrite sum_fields_typ in Hs.
  split; [by apply Hl, list_elem_of_In|].
  pose proof (sum_list_with_elem (λ p, type_fields (AbiType.p_typ p)) fs p Hp). simpl in *. lia.
Qed.

Lemma fits_tuple es e : fits (AbiType.Tuple es) → e ∈ es → fits e.
Proof.
  intros [Hl Hs] Hp. simpl in *. rewrite forallb_forall in Hl.
  split; [by apply Hl, list_elem_of_In|].
  pose proof (sum_list_with_elem type_fields es e Hp). lia.
Qed.

(** Induction that also reaches the element of an array field, which is what a
    [BoundedVec] encodes. *)
Definition with_element (Q : AbiType → Prop) (t : AbiType) : Prop :=
  Q t ∧ match t with AbiType.Array e _ => Q e | _ => True end.

Lemma type_ind_element (Q : AbiType → Prop) :
  Q AbiType.Field → Q AbiType.Boolean → (∀ s w, Q (AbiType.Integer s w)) →
  (∀ e n, Q e → Q (AbiType.Array e n)) → (∀ n, Q (AbiType.String n)) →
  (∀ nm fs, Forall (λ p, with_element Q (AbiType.p_typ p)) fs → Q (AbiType.Struct nm fs)) →
  (∀ es, Forall Q es → Q (AbiType.Tuple es)) → ∀ t, Q t.
Proof.
  intros H1 H2 H3 H4 H5 H6 H7 t.
  enough (with_element Q t) as [? _] by done.
  induction t as [| | | e n [IH _] | | | es IH] using AbiType.nested_ind; split; auto.
  apply H7. eapply Forall_impl; [exact IH|]. by intros e [? _].
Qed.

Section decode_total.
Context {FR : PrimeField fr_modulus}.
Variable fields : list Fr.
Notation len := (length fields).
Let Q (t : AbiType) :=
  conventional t = true → fits t → sized len (decode_next fields t) (type_fields t).

Lemma sized_eq {A} (m : Decode A) n n' : n = n' → sized len m n' → sized len m n.
Proof. by intros ->. Qed.

Lemma sized_decode_array e n :
  Q e → conventional e = true → fits (AbiType.Array e n) →
  sized len (drepeat (Z.to_nat n) (decode_next fields e)) (Z.to_nat n * type_fields e).
Proof.
  intros He Hc Hf. apply sized_repeat. intros Hn. apply He; [done|].
  eapply fits_array; [done|]. lia.
Qed.

Lemma decode_struct_sized nm fs :
  Forall (λ p, with_element Q (AbiType.p_typ p)) fs → Q (AbiType.Struct nm fs).
Proof.
  intros IH Hc Hf.
  assert (∀ p, p ∈ fs → fits (AbiType.p_typ p)) as Hfit by (intros p; by apply (fits_struct nm)).
  assert (∀ p, p ∈ fs → conventional (AbiType.p_typ p) = true →
            sized len (decode_next fields (AbiType.p_typ p)) (type_fields (AbiType.p_typ p))) as IHp.
  { rewrite Forall_forall in IH. intros p Hp Hcp. apply (IH p Hp); auto. }
  assert (forallb (λ p, conventional (AbiType.p_typ p)) fs = true →
          sized len (decode_fields (decode_next fields) fs []) (type_fields (AbiType.Struct nm fs)))
    as Hgen.
  { intros Hall. cbn [type_fields]. rewrite sum_fields_typ. apply sized_decode_fields.
    rewrite forallb_forall in Hall. apply Forall_forall. intros p Hp.
    apply IHp, Hall, list_elem_of_In; done. }
  cbn [decode_next].
  destruct (conventional_struct nm fs Hc)
    as [Ha Hs | n ty v -> Ha Hfs Hs Hcy | v -> Ha Hfs | n0 e mx v0 n1 ty v1 -> Ha Hfs Hb Ho Hs Hcy
       | n0 ty0 v0 n1 ty1 v1 -> Ha Hfs Hb Ho Hs Hc0 Hc1 | Ha Hfs Hw Hb Ho Hall].
  - rewrite Hs. unfold is_address_struct in Ha.
    destruct (is_aztec_address_struct _); [apply sized_map, sized_take|].
    destruct (is_eth_address_struct _); [apply sized_map, sized_take|done].
  - apply orb_false_iff in Ha as [-> ->]. apply sized_map, Hgen. simpl. by rewrite Hcy.
  - apply orb_false_iff in Ha as [-> ->]. by apply sized_map, Hgen.
  - apply orb_false_iff in Ha as [-> ->]. rewrite Ho, Hb.
    apply (sized_eq _ _ (Z.to_nat mx * type_fields e + 1)); [simpl; lia|].
    apply sized_bind; [|intros; apply sized_map, sized_take].
    apply Forall_cons in IH as [[_ He] _]. apply sized_decode_array; [done..|].
    apply (Hfit (MkAbiParameter n0 (AbiType.Array e mx) v0)), list_elem_of_here.
  - apply orb_false_iff in Ha as [-> ->]. rewrite Ho.
    apply (sized_eq _ _ (1 + type_fields ty1)); [simpl; lia|].
    apply sized_bind; [apply sized_take|]. intros fr.
    assert (MkAbiParameter n1 ty1 v1 ∈ [MkAbiParameter n0 ty0 v0; MkAbiParameter n1 ty1 v1])
      as Hin by set_solver.
    destruct (Fr_is_zero fr); [|by apply (IHp _ Hin)].
    pose proof (fits_size _ (Hfit _ Hin)) as Hz. simpl in Hz. rewrite Hz, Nat2Z.id.
    apply sized_map, sized_skip.
  - apply orb_false_iff in Ha as [-> ->]. rewrite Ho, Hb. by apply sized_map, Hgen.
Qed.

Lemma decode_sized t : Q t.
Proof.
  induction t as [| | s w | e n IH | n | nm fs IH | es IH] using type_ind_element; intros Hc Hf.
  - apply sized_map, sized_take.
  - apply sized_map, sized_take.
  - apply sized_map, sized_take.
  - cbn [decode_next type_fields]. by apply sized_map, sized_decode_array.
  - apply sized_map, sized_decode_chars.
  - by apply decode_struct_sized.
  - cbn [decode_next type_fields]. apply sized_map, sized_decode_elements.
    simpl in Hc. rewrite forallb_forall in Hc. rewrite Forall_forall in *. intros e He.
    apply IH; [done|by apply Hc, list_elem_of_In|by eapply fits_tuple].
Qed.
End decode_total.

(** ** The length of an encoding *)

Section encode_length.
Context {FR : PrimeField fr_modulus}.
Let Q (t : AbiType) := ∀ value fs,
  conventional t = true → fits t → encode_value t value = Ok fs → length fs = type_fields t.

Lemma oconcat_length {A B} (f : A → Outcome (list B)) l ys k :
  (∀ x y, x ∈ l → f x = Ok y → length y = k) → oconcat f l = Ok ys →
  length ys = (length l * k)%nat.
Proof.
  unfold oconcat. destruct (omapM f l) as [yss| |] eqn:E; try done. simpl. intros Hk [= <-].
  apply omapM_Forall2 in E. induction E as [|x y l yss Hxy E IH]; simpl; [done|].
  rewrite length_app, (Hk x y), IH; [done| |set_solver|done]. intros; eapply Hk; set_solver.
Qed.

Lemma encode_fields_length values fs out :
  (∀ p value out, p ∈ fs → encode_value (AbiType.p_typ p) value = Ok out →
     length out = type_fields (AbiType.p_typ p)) →
  encode_fields encode_value values fs = Ok out →
  length out = sum_list_with (λ p, type_fields (AbiType.p_typ p)) fs.
Proof.
  revert out. induction fs as [|[n ty v] fs IH]; intros out Hp; simpl; [by intros [= <-]|].
  intros H. ok_inv. rewrite length_app. f_equal.
  - eapply (Hp (MkAbiParameter n ty v)); [set_solver|done].
  - apply IH; [|done]. intros; eapply Hp; [set_solver|done].
Qed.

Lemma encode_elements_length ts vs out :
  (∀ t value out, t ∈ ts → encode_value t value = Ok out → length out = type_fields t) →
  length ts = length vs → encode_elements encode_value ts vs = Ok out →
  length out = sum_list_with type_fields ts.
Proof.
  revert vs out. induction ts as [|t ts IH]; intros vs out Hp Hl; destruct vs as [|v vs]; try done;
    simpl; [by intros [= <-]|].
  intros H. ok_inv. rewrite length_app. f_equal.
  - eapply Hp; [set_solver|done].
  - apply (IH vs); [|exact Hl|done]. intros; eapply Hp; [set_solver|done].
Qed.

Lemma encode_field_value_length value fs : encode_field_value value = Ok fs → length fs = 1%nat.
Proof. destruct value; simpl; try done. by intros [= <-]. Qed.

Lemma encode_address_length value fs : encode_address value = Ok fs → length fs = 1%nat.
Proof.
  destruct value; simpl; intros H; try done; ok_inv; try done.
  by eapply encode_field_value_length.
Qed.

Lemma encode_wrapped_length value fs : encode_wrapped_field value = Ok fs → length fs = 1%nat.
Proof.
  destruct value; simpl; intros H; try done; ok_inv; try done.
  by eapply encode_field_value_length.
Qed.

Lemma encode_selector_length value fs : encode_function_selector value = Ok fs → length fs = 1%nat.
Proof.
  destruct value; simpl; intros H; try done; ok_inv; try done.
  case_match; by simplify_eq.
Qed.
Lemma encode_struct_length nm fs :
  Forall (λ p, with_element Q (AbiType.p_typ p)) fs → Q (AbiType.Struct nm fs).
Proof.
  intros IH value out Hc Hf He.
  assert (∀ p, p ∈ fs → fits (AbiType.p_typ p)) as Hfit by (intros p; by apply (fits_struct nm)).
  assert (∀ p value out, p ∈ fs → conventional (AbiType.p_typ p) = true →
            encode_value (AbiType.p_typ p) value = Ok out →
            length out = type_fields (AbiType.p_typ p)) as IHp.
  { rewrite Forall_forall in IH. intros p v o Hp Hcp. apply (IH p Hp); auto. }
  cbn [encode_value] in He.
  destruct (conventional_struct nm fs Hc)
    as [Ha Hs | n ty v -> Ha Hfs Hs Hcy | v -> Ha Hfs | n0 e mx v0 n1 ty v1 -> Ha Hfs Hb Ho Hs Hcy
       | n0 ty0 v0 n1 ty1 v1 -> Ha Hfs Hb Ho Hs Hc0 Hc1 | Ha Hfs Hw Hb Ho Hall].
  - rewrite Ha in He. rewrite Hs. by eapply encode_address_length.
  - rewrite Ha, Hfs in He. simpl type_fields. rewrite Nat.add_0_r, Hs.
    by eapply encode_selector_length.
  - rewrite Ha, Hfs in He. simpl is_wrapped_field_struct in He.
    by apply encode_wrapped_length in He.
  - rewrite Ha, Hfs, Hb, wrapped_field_two in He.
    apply obind_ok in He as (items & _ & He).
    destruct (Z.ltb_spec mx (Z.of_nat (length items))) as [|Hmx]; [done|].
    apply obind_ok in He as (enc & Henc & [= <-]).
    assert (fits (AbiType.Array e mx)) as Hfa.
    { apply (Hfit (MkAbiParameter n0 (AbiType.Array e mx) v0)), list_elem_of_here. }
    apply Forall_cons in IH as [[_ IHe] _]. simpl in IHe.
    apply (oconcat_length _ _ _ (type_fields e)) in Henc as Hl.
    2: { intros x y Hx. apply IHe; [done|]. eapply fits_array; [done|].
         intros ->. destruct items; [set_solver|simpl in *; lia]. }
    rewrite !length_app, Hl, length_replicate. simpl. rewrite Nat.add_0_r, Hs.
    destruct (decide (Z.of_nat (length items) = mx)) as [<-|Hne].
    { rewrite Z.sub_diag, Z.mul_0_l. unfold wrap. simpl. lia. }
    assert (fits e) as Hfe by (eapply fits_array; [done|lia]).
    rewrite (fits_size _ Hfe). destruct Hfa as [_ Hfa]. simpl in Hfa.
    rewrite wrap_small by (unfold in_u; nia). nia.
  - rewrite Ha, Hfs, Hb, Ho, wrapped_field_two in He.
    assert (MkAbiParameter n1 ty1 v1 ∈ [MkAbiParameter n0 ty0 v0; MkAbiParameter n1 ty1 v1])
      as Hin1 by set_solver.
    assert (MkAbiParameter n0 ty0 v0 ∈ [MkAbiParameter n0 ty0 v0; MkAbiParameter n1 ty1 v1])
      as Hin0 by set_solver.
    assert (∀ v o, encode_value ty1 v = Ok o → length o = type_fields ty1) as H1
      by (intros v o Hv; by apply (IHp _ _ _ Hin1 Hc1 Hv)).
    assert (∀ v o, encode_value ty0 v = Ok o → length o = 1%nat) as H0
      by (intros v o Hv; rewrite <- Hs; by apply (IHp _ _ _ Hin0 Hc0 Hv)).
    cbn [type_fields sum_list_with]. rewrite Hs, Nat.add_0_r.
    destruct value as [| | | | |mp|]; ok_inv; try (simpl; by erewrite H1).
    destruct (bt_get "_is_some" mp); [|done]. destruct (bt_get "_value" mp); [|done].
    ok_inv. rewrite length_app. erewrite H0, H1; done.
  - rewrite Ha, Hfs, Hw, Hb, Ho in He. destruct value as [| | | | |values|]; try done.
    cbn [type_fields]. rewrite sum_fields_typ. eapply encode_fields_length; [|exact He].
    intros p v o Hp. apply IHp; [done|].
    rewrite forallb_forall in Hall. by apply Hall, list_elem_of_In.
Qed.

Lemma encode_value_length t : Q t.
Proof.
  induction t as [| | s w | e n IH | n | nm fs IH | es IH] using type_ind_element;
    intros value fs' Hc Hf He.
  - by eapply encode_field_value_length.
  - destruct value; try done. by injection He as <-.
  - destruct value; try done; by injection He as <-.
  - destruct value as [| | |items| | |]; try done. cbn [encode_value] in He.
    destruct (Z.eqb_spec (Z.of_nat (length items)) n) as [<-|]; [|done].
    cbn [type_fields]. rewrite Nat2Z.id. eapply oconcat_length; [|done].
    intros x y Hx. apply IH; [done|]. eapply fits_array; [done|].
    destruct items; [set_solver|simpl; lia].
  - destruct value as [| | | |s| |]; try done. cbn [encode_value] in He.
    destruct (Z.ltb_spec n (str_len s)); [done|]. injection He as <-.
    rewrite length_app, length_fmap, length_replicate, length_as_bytes.
    unfold str_len in *. cbn [type_fields]. lia.
  - by eapply encode_struct_length.
  - destruct value as [| | | | | |vs]; try done. cbn [encode_value] in He.
    case_decide as Hl; [|done]. cbn [type_fields].
    eapply encode_elements_length; [|exact Hl|done].
    intros t v o Ht. rewrite Forall_forall in IH. apply IH; [done| |by eapply fits_tuple].
    simpl in Hc. rewrite forallb_forall in Hc. by apply Hc, list_elem_of_In.
Qed.
End encode_length.

(** ** What a value decodes to

    [abi_view typ value] is the value the decoder answers for the encoding of
    [value], on the values the decoder can represent: integers that fit the
    declared signed width, strings of non-zero ASCII bytes, and special structs
    whose inner values are fields or integers. *)

Section abi_view.
Context {FR : PrimeField fr_modulus}.

Definition in_i128 (i : Z) : bool := (- 2 ^ 127 <=? i) && (i <? 2 ^ 127).

Definition representable (sign : string) (width i : Z) : bool :=
  in_i128 i &&
  (negb (String.eqb sign "signed") || (128 <=? width) ||
   ((1 <=? width) && (- 2 ^ (width - 1) <=? i) && (i <? 2 ^ (width - 1)))).

Definition as_field (value : AbiValue) : option Fr :=
  match value with AbiValue.Field f => Some f | _ => None end.

Definition address_field (value : AbiValue) : option Fr :=
  match value with
  | AbiValue.Field f => Some f
  | AbiValue.Struct mp =>
      match bt_get "inner"%string mp with
      | Some f => as_field f
      | None => bt_get "address"%string mp ≫= as_field
      end
  | _ => None
  end.

Definition wrapped_field (value : AbiValue) : option Fr :=
  match value with
  | AbiValue.Field f => Some f
  | AbiValue.Struct mp => bt_get "inner"%string mp ≫= as_field
  | _ => None
  end.

Definition selector_inner (value : AbiValue) : option AbiValue :=
  match value with
  | AbiValue.Struct mp =>
      match bt_get "value"%string mp with Some v => Some v | None => bt_get "inner"%string mp end
  | _ => Some value
  end.

(** The member type and the value of a selector. *)
Definition selector_view (ty : AbiType) (value : AbiValue) : option AbiDecoded :=
  match ty, selector_inner value with
  | AbiType.Integer sign _, Some (AbiValue.Integer i) =>
      if negb (String.eqb sign "signed") && (0 <=? i) && (i <? 2 ^ 64)
      then Some (AbiDecoded.Integer i) else None
  | AbiType.Field, Some (AbiValue.Field f) => Some (AbiDecoded.Field f)
  | _, _ => None
  end.

Definition view_fields (view : AbiType → AbiValue → option AbiDecoded)
    (values : list (string * AbiValue))
    : list AbiParameter → list (string * AbiDecoded) → option (list (string * AbiDecoded)) :=
  fix go fs mp :=
    match fs with
    | [] => Some mp
    | MkAbiParameter name ty _ :: fs' =>
        v ← bt_get name values; d ← view ty v; go fs' (bt_insert name d mp)
    end.

Definition view_elements (view : AbiType → AbiValue → option AbiDecoded)
    : list AbiType → list AbiValue → option (list AbiDecoded) :=
  fix go ts vs :=
    match ts, vs with
    | [], [] => Some []
    | t :: ts', v :: vs' => d ← view t v; ds ← go ts' vs'; Some (d :: ds)
    | _, _ => None
    end.

Fixpoint abi_view (typ : AbiType) (value : AbiValue) {struct typ} : option AbiDecoded :=
  match typ with
  | AbiType.Field => AbiDecoded.Field <$> as_field value
  | AbiType.Boolean =>
      match value with AbiValue.Boolean b => Some (AbiDecoded.Boolean b) | _ => None end
  | AbiType.Integer sign width =>
      match value with
      | AbiValue.Integer i =>
          if representable sign width i then Some (AbiDecoded.Integer i) else None
      | _ => None
      end
  | AbiType.Array element _ =>
      match value with
      | AbiValue.Array items => AbiDecoded.Array <$> mapM (abi_view element) items
      | _ => None
      end
  | AbiType.String _ =>
      match value with
      | AbiValue.String s =>
          if forallb (λ b, (0 <? byte_Z b) && (byte_Z b <? 128)) (as_bytes s)
          then Some (AbiDecoded.String s) else None
      | _ => None
      end
  | AbiType.Struct _ fields =>
      if is_aztec_address_struct typ then AbiDecoded.Address <$> address_field value
      else if is_eth_address_struct typ then AbiDecoded.Field <$> address_field value
      else if is_function_selector_struct typ then
        match fields with
        | [MkAbiParameter n ty _] => (λ d, AbiDecoded.Struct [(n, d)]) <$> selector_view ty value
        | _ => None
        end
      else if is_wrapped_field_struct typ then
        (λ f, AbiDecoded.Struct [("inner"%string, AbiDecoded.Field f)]) <$> wrapped_field value
      else if is_bounded_vec_struct typ then
        match fields, bounded_vec_items value with
        | MkAbiParameter _ (AbiType.Array element _) _ :: _, Ok items =>
            AbiDecoded.Array <$> mapM (abi_view element) items
        | _, _ => None
        end
      else if is_option_struct typ then
        match fields with
        | MkAbiParameter _ ty0 _ :: MkAbiParameter _ ty1 _ :: _ =>
            match value with
            | AbiValue.Struct mp =>
                match ty0, bt_get "_is_some"%string mp, bt_get "_value"%string mp with
                | AbiType.Boolean, Some (AbiValue.Boolean b), Some v =>
                    if b then abi_view ty1 v else Some AbiDecoded.None
                | _, _, _ => None
                end
            | _ => abi_view ty1 value
            end
        | _ => None
        end
      else
        match value with
        | AbiValue.Struct values => AbiDecoded.Struct <$> view_fields abi_view values fields []
        | _ => None
        end
  | AbiType.Tuple elements =>
      match value with
      | AbiValue.Tuple values => AbiDecoded.Tuple <$> view_elements abi_view elements values
      | _ => None
      end
  end.

(** *** Integers *)

Lemma in_i128_small i : in_i128 i = true → as_i128 i = i.
Proof. unfold in_i128. rewrite andb_true_iff. intros. apply as_signed_small; [lia|]. simpl. lia. Qed.

Lemma low_16_bytes (f : Fr) : be_Z (drop 16 (Fr_to_be_bytes f)) = pf_val f mod 2 ^ 128.
Proof.
  rewrite Fr_to_be_bytes_eq. unfold pf_val.
  pose proof (pf_length_to_bytes f) as Hl.
  rewrite <- (take_drop 16 (pf_to_bytes_be f)) at 2. rewrite be_Z_app.
  pose proof (be_Z_range (drop 16 (pf_to_bytes_be f))) as Hr.
  rewrite length_drop, Hl in *. change (256 ^ Z.of_nat (32 - 16)) with (2 ^ 128) in *.
  rewrite Z.add_comm, Z.mod_add by lia. symmetry. by apply Z.mod_small.
Qed.

Lemma raw_from_u128 u : be_Z (drop 16 (Fr_to_be_bytes (Fr_from_u128 u))) = u mod 2 ^ 128.
Proof. rewrite low_16_bytes, Fr_val_from_u128. by rewrite Z.mod_mod by lia. Qed.

Lemma shl1_pow k : 0 ≤ k → Z.shiftl 1 k = 2 ^ k.
Proof. intros. by rewrite Z.shiftl_mul_pow2, Z.mul_1_l. Qed.

Lemma u128_shl1_pow width : 1 ≤ width < 128 → u128_shl1 (u16_wrap (width - 1)) = 2 ^ (width - 1).
Proof.
  intros Hw. unfold u128_shl1. rewrite (wrap_small 16) by (unfold in_u; lia).
  rewrite Z.mod_small, shl1_pow by lia. apply wrap_small. unfold in_u.
  split; [lia|]. apply Z.pow_lt_mono_r; lia.
Qed.

Lemma decode_negative width i :
  1 ≤ width < 128 → - 2 ^ (width - 1) ≤ i < 0 →
  as_i128 (as_i128 (i + 2 ^ width) - i128_shl1 width) = i.
Proof.
  intros Hw Hi. unfold i128_shl1. rewrite shl1_pow by lia.
  assert (2 ^ (width - 1) ≤ 2 ^ 127) by (apply Z.pow_le_mono_r; lia).
  rewrite (as_signed_cong 128 _ i).
  - apply as_signed_small; simpl; lia.
  - rewrite Zminus_mod, !as_signed_mod, <- Zminus_mod. f_equal. lia.
Qed.

Lemma decode_encode_integer sign width i :
  representable sign width i = true →
  decode_integer sign width (encode_integer sign width i) = i.
Proof.
  unfold representable. rewrite andb_true_iff. intros [H128 Hr].
  pose proof (in_i128_small i H128) as Hs.
  assert (as_i128 (u128_wrap i mod 2 ^ 128) = i) as Hw.
  { rewrite <- Hs at 2. apply as_signed_cong. unfold wrap. by rewrite !Z.mod_mod by lia. }
  unfold decode_integer, encode_integer. cbv zeta.
  destruct (String.eqb sign "signed") eqn:E; cbv [andb]; [|by rewrite raw_from_u128].
  simpl in Hr. unfold in_i128 in H128. rewrite andb_true_iff in H128.
  destruct (Z.leb_spec 128 width) as [Hge|Hlt].
  { destruct (i <? 0); by rewrite raw_from_u128. }
  simpl in Hr. rewrite !andb_true_iff in Hr. destruct Hr as [[H1 H2] H3].
  rewrite u128_shl1_pow by lia.
  assert (2 ^ width = 2 * 2 ^ (width - 1)) as Hp.
  { rewrite <- Z.pow_succ_r by lia. f_equal. lia. }
  assert (2 ^ width ≤ 2 ^ 127) by (apply Z.pow_le_mono_r; lia).
  destruct (Z.ltb_spec i 0) as [Hneg|Hpos]; rewrite raw_from_u128.
  - assert (u128_wrap (as_i128 (i + i128_shl1 width)) mod 2 ^ 128 = i + 2 ^ width) as ->.
    { unfold wrap, i128_shl1. rewrite Z.mod_mod, as_signed_mod, Zplus_mod, as_signed_mod by lia.
      rewrite <- Zplus_mod, shl1_pow by lia. apply Z.mod_small. lia. }
    destruct (Z.leb_spec (2 ^ (width - 1)) (i + 2 ^ width)); [|lia].
    apply decode_negative; lia.
  - unfold wrap. rewrite Z.mod_mod, (Z.mod_small i) by lia.
    destruct (Z.leb_spec (2 ^ (width - 1)) i); [lia|done].
Qed.

Lemma decode_unsigned_u64 sign width i :
  String.eqb sign "signed" = false → in_u 64 i →
  decode_integer sign width (Fr_from_u64 (u64_wrap i)) = i.
Proof.
  intros Hs Hi. unfold decode_integer. rewrite Hs, low_16_bytes, (wrap_small 64) by done.
  rewrite Fr_val_from_u64 by done. unfold in_u in Hi.
  rewrite Z.mod_small by lia. apply as_signed_small; simpl; lia.
Qed.
End abi_view.

(** ** Decoding an encoding *)

Section codec_roundtrip.
Context {FR : PrimeField fr_modulus}.
Variable fields : list Fr.
Let Q (t : AbiType) := ∀ value d fs,
  conventional t = true → fits t → abi_view t value = Some d →
  encode_value t value = Ok fs → reads fields (decode_next fields t) fs (eq d).

(** The items of an array or a [BoundedVec]. *)
Lemma reads_items e items ds fs :
  (∀ v d fs, v ∈ items → abi_view e v = Some d → encode_value e v = Ok fs →
     reads fields (decode_next fields e) fs (eq d)) →
  mapM (abi_view e) items = Some ds → oconcat (encode_value e) items = Ok fs →
  reads fields (drepeat (length items) (decode_next fields e)) fs (eq ds).
Proof.
  intros He Hd. unfold oconcat. destruct (omapM _ _) as [fss| |] eqn:E; try done.
  intros [= <-]. apply omapM_Forall2 in E. apply mapM_Some in Hd.
  assert (length items = length ds) as -> by (by eapply Forall2_length).
  apply reads_repeat. revert ds Hd.
  induction E as [|v f items fss Hv E IH]; intros ds Hd; inversion Hd; subst; constructor.
  - eapply (He v); [set_solver|done..].
  - apply IH; [|done]. intros; eapply He; [|eassumption..]; set_solver.
Qed.

Lemma reads_fields values fs mp mp' out :
  (∀ p v d o, p ∈ fs → abi_view (AbiType.p_typ p) v = Some d →
     encode_value (AbiType.p_typ p) v = Ok o →
     reads fields (decode_next fields (AbiType.p_typ p)) o (eq d)) →
  view_fields abi_view values fs mp = Some mp' → encode_fields encode_value values fs = Ok out →
  reads fields (decode_fields (decode_next fields) fs mp) out (eq mp').
Proof.
  revert mp out. induction fs as [|[n ty vis] fs IH]; intros mp out Hp Hv He; simpl in *.
  - simplify_eq. by apply reads_ret.
  - apply bind_Some in Hv as (v & Hget & Hv). rewrite Hget in He. simpl in He.
    apply bind_Some in Hv as (d & Hd & Hv).
    apply obind_ok in He as (e & He & (es & Hes & [= <-])%obind_ok).
    eapply reads_bind.
    + apply (Hp (MkAbiParameter n ty vis) v d); [set_solver|done..].
    + intros ? <-. apply IH; [|done..]. intros; eapply Hp; [|eassumption..]; set_solver.
Qed.

Lemma reads_elements ts vs ds out :
  (∀ t v d o, t ∈ ts → abi_view t v = Some d → encode_value t v = Ok o →
     reads fields (decode_next fields t) o (eq d)) →
  view_elements abi_view ts vs = Some ds → encode_elements encode_value ts vs = Ok out →
  reads fields (decode_elements (decode_next fields) ts) out (eq ds).
Proof.
  revert vs ds out. induction ts as [|t ts IH]; intros vs ds out Hp Hv He;
    destruct vs as [|v vs]; simpl in *; simplify_eq; [by apply reads_ret|].
  apply bind_Some in Hv as (d & Hd & (ds' & Hds & [= <-])%bind_Some).
  apply obind_ok in He as (e & He & (es & Hes & [= <-])%obind_ok).
  eapply reads_bind; [by apply (Hp t v d); [set_solver|..]|]. intros ? <-.
  eapply reads_map; [eapply IH; [|done..]|by intros ? <-].
  intros; eapply Hp; [|eassumption..]; set_solver.
Qed.

Lemma reads_string s n :
  forallb (λ b, 0 <? byte_Z b) s = true →
  ∀ pre, reads fields (decode_chars fields (length s + n) pre)
           (((λ b, Fr_from_u64 (byte_Z b)) <$> s) ++ replicate n Fr_zero) (eq (pre ++ s)).
Proof.
  induction s as [|b s IH]; intros Hs pre; simpl.
  - destruct n as [|n]; simpl; [apply reads_ret; by rewrite app_nil_r|].
    apply (reads_bind fields _ _ [Fr_zero] (replicate n Fr_zero) _ _ (reads_take fields _)).
    intros ? <-. rewrite Fr_to_usize_val, Fr_val_zero. simpl.
    rewrite app_nil_r. eapply reads_map; [|done].
    eapply sized_reads; [apply sized_skip|]. by rewrite length_replicate.
  - simpl in Hs. rewrite andb_true_iff in Hs. destruct Hs as [H0 Hs].
    pose proof (byte_Z_range b).
    apply (reads_bind fields _ _ [Fr_from_u64 (byte_Z b)] _ _ _ (reads_take fields _)).
    intros ? <-. rewrite Fr_to_usize_from_u64 by (unfold in_u; lia).
    rewrite wrap_small by (unfold in_u; lia).
    destruct (Z.eqb_spec (byte_Z b) 0); [lia|]. rewrite Z_byte_Z.
    replace (pre ++ b :: s) with ((pre ++ [b]) ++ s) by by rewrite <- app_assoc.
    by apply IH.
Qed.

Lemma encode_address_view value f fs :
  address_field value = Some f → encode_address value = Ok fs → fs = [f].
Proof.
  destruct value as [| | | | |mp|]; simpl; try done; [congruence|].
  destruct (bt_get "inner" mp) as [[]|]; simpl; try congruence.
  destruct (bt_get "address" mp) as [[]|]; simpl; congruence.
Qed.

Lemma encode_wrapped_view value f fs :
  wrapped_field value = Some f → encode_wrapped_field value = Ok fs → fs = [f].
Proof.
  destruct value as [| | | | |mp|]; simpl; try done; [congruence|].
  destruct (bt_get "inner" mp) as [[]|]; simpl; congruence.
Qed.

Lemma encode_selector_inner value fs v :
  encode_function_selector value = Ok fs → selector_inner value = Some v →
  (∀ f, v = AbiValue.Field f → fs = [f]) ∧
  (∀ i, v = AbiValue.Integer i → fs = [Fr_from_u64 (u64_wrap i)]).
Proof.
  destruct value as [| | | | |mp|]; simpl; intros He Hv; try (simplify_eq; naive_solver).
  destruct (bt_get "value" mp) as [w|].
  - simplify_eq/=. destruct v; naive_solver.
  - rewrite Hv in He. simpl in He. destruct v; naive_solver.
Qed.

Lemma reads_selector ty value d fs :
  selector_view ty value = Some d → encode_function_selector value = Ok fs →
  reads fields (decode_next fields ty) fs (eq d).
Proof.
  unfold selector_view. intros Hv He.
  destruct (selector_inner value) as [v|] eqn:Ei; [|by destruct ty].
  destruct (encode_selector_inner _ _ _ He Ei) as [Hf Hi].
  destruct ty as [| |s w| | | |], v as [f| |i| | | |]; try done; simpl.
  - rewrite (Hf f eq_refl). simplify_eq. eapply reads_map; [apply reads_take|]. by intros ? <-.
  - rewrite (Hi i eq_refl).
    destruct (String.eqb s "signed") eqn:Es; [done|]. simpl in Hv.
    destruct (Z.leb_spec 0 i); [|done]. destruct (Z.ltb_spec i (2 ^ 64)); [|done].
    simplify_eq/=. eapply reads_map; [apply reads_take|]. intros ? <-.
    by rewrite decode_unsigned_u64.
Qed.
(** The items read by a [BoundedVec], padding included. *)
Lemma reads_bounded_vec e mx items ds enc :
  Q e → conventional e = true → fits (AbiType.Array e mx) → Z.of_nat (length items) ≤ mx →
  mapM (abi_view e) items = Some ds → oconcat (encode_value e) items = Ok enc →
  reads fields (drepeat (Z.to_nat mx) (decode_next fields e))
    (enc ++ replicate (Z.to_nat (usize_wrap ((mx - Z.of_nat (length items)) * abi_type_size e))) Fr_zero)
    (λ ys, take (length ds) ys = ds).
Proof.
  intros He Hc Hf Hmx Hd Henc.
  assert (items ≠ [] → fits e) as Hfe.
  { intros Hi. eapply fits_array; [done|]. destruct items; [done|simpl in Hmx; lia]. }
  replace (Z.to_nat mx) with (length items + (Z.to_nat mx - length items))%nat by lia.
  apply reads_repeat_app.
  - eapply reads_items; [|done..]. intros v d o Hv. apply He; [done|].
    apply Hfe. by destruct items; [set_solver|].
  - eapply sized_reads.
    + apply sized_repeat. intros Hn. apply decode_sized; [done|]. eapply fits_array; [done|lia].
    + rewrite length_replicate.
      destruct (decide (Z.of_nat (length items) = mx)) as [<-|Hne].
      { by rewrite Z.sub_diag, Z.mul_0_l, Nat2Z.id, Nat.sub_diag. }
      assert (fits e) as Hfe' by (eapply fits_array; [done|lia]).
      rewrite (fits_size _ Hfe'). destruct Hf as [_ Hf]. cbn [type_fields] in Hf.
      rewrite wrap_small by (unfold in_u; nia). nia.
Qed.

Lemma decode_encode_bounded_vec nm n0 e mx v0 n1 ty v1 items ds enc :
  Q e → conventional e = true → fits (AbiType.Array e mx) → Z.of_nat (length items) ≤ mx →
  mapM (abi_view e) items = Some ds → oconcat (encode_value e) items = Ok enc →
  let t := AbiType.Struct nm [MkAbiParameter n0 (AbiType.Array e mx) v0; MkAbiParameter n1 ty v1] in
  is_address_struct t = false → is_bounded_vec_struct t = true →
  reads fields (decode_next fields t)
    (enc ++ replicate (Z.to_nat (usize_wrap ((mx - Z.of_nat (length items)) * abi_type_size e))) Fr_zero
     ++ [Fr_from_u64 (Z.of_nat (length items))]) (eq (AbiDecoded.Array ds)).
Proof.
  intros He Hc Hf Hmx Hd Henc t Ha Hb. subst t. cbn [decode_next].
  apply orb_false_iff in Ha as [-> ->]. rewrite (bounded_vec_not_option _ Hb), Hb.
  rewrite app_assoc. eapply reads_bind; [by apply reads_bounded_vec|].
  intros ys Hys. cbn beta in Hys.
  apply (reads_map fields _ _ _ _ _ (reads_take fields _)). intros ? <-.
  destruct Hf as [Hl _]. simpl in Hl. rewrite !andb_true_iff in Hl.
  assert (length ds = length items) as El
    by (symmetry; eapply Forall2_length, mapM_Some, Hd).
  rewrite Fr_to_usize_from_u64 by (unfold in_u; lia).
  rewrite <- Hys at 1. f_equal. f_equal.
  apply (f_equal length) in Hys. rewrite length_take in Hys. lia.
Qed.

Lemma decode_encode_option nm n0 ty0 v0 n1 ty1 v1 value d fs :
  let t := AbiType.Struct nm [MkAbiParameter n0 ty0 v0; MkAbiParameter n1 ty1 v1] in
  Q ty1 → conventional ty1 = true → fits ty1 →
  is_address_struct t = false → is_function_selector_struct t = false →
  is_bounded_vec_struct t = false → is_option_struct t = true →
  abi_view t value = Some d → encode_value t value = Ok fs →
  reads fields (decode_next fields t) fs (eq d).
Proof.
  intros t H1 Hc1 Hf1 Ha Hs Hb Ho Hv He. subst t.
  cbn [encode_value] in He. rewrite Ha, Hs, wrapped_field_two, Hb, Ho in He.
  apply orb_false_iff in Ha as [Ha1 Ha2].
  cbn [abi_view] in Hv. rewrite Ha1, Ha2, Hs, wrapped_field_two, Hb, Ho in Hv.
  cbn [decode_next]. rewrite Ha1, Ha2, Ho.
  assert (∀ v d o, abi_view ty1 v = Some d → encode_value ty1 v = Ok o →
            reads fields (decode_next fields ty1) o (eq d)) as Hty1
    by (intros; by eapply H1).
  assert (∀ v d e1, abi_view ty1 v = Some d → encode_value ty1 v = Ok e1 →
            reads fields (let@ is_some_fr := take_field fields in
              if Fr_is_zero is_some_fr
              then let@ _ := skip_fields fields (Z.to_nat (abi_type_size ty1)) in dret AbiDecoded.None
              else decode_next fields ty1) (Fr_one :: e1) (eq d)) as Hsome.
  { intros v d' e1 Hv' He'.
    apply (reads_bind fields _ _ [Fr_one] e1 _ _ (reads_take fields _)). intros ? <-.
    unfold Fr_is_zero. rewrite bool_decide_eq_false_2 by apply Fr_one_ne_zero.
    by eapply Hty1. }
  destruct value as [| | | | |mp|];
    try (apply obind_ok in He as (e1 & He1 & [= <-]); by eapply Hsome).
  destruct ty0; try done. destruct (bt_get "_is_some" mp) as [[|b| | | | |]|]; try done.
  destruct (bt_get "_value" mp) as [v|]; [|done]. simpl in He.
  apply obind_ok in He as (e1 & He1 & [= <-]).
  destruct b; [by eapply Hsome|]. simplify_eq.
  apply (reads_bind fields _ _ [Fr_zero] e1 _ _ (reads_take fields _)). intros ? <-.
  unfold Fr_is_zero. rewrite bool_decide_eq_true_2 by done.
  eapply reads_map; [|done]. eapply sized_reads; [apply sized_skip|].
  rewrite fits_size, Nat2Z.id by done. by eapply encode_value_length.
Qed.

Lemma decode_encode_struct nm fs :
  Forall (λ p, with_element Q (AbiType.p_typ p)) fs → Q (AbiType.Struct nm fs).
Proof.
  intros IH value d out Hc Hf Hv He.
  assert (∀ p, p ∈ fs → fits (AbiType.p_typ p)) as Hfit by (intros p; by apply (fits_struct nm)).
  rewrite Forall_forall in IH.
  destruct (conventional_struct nm fs Hc)
    as [Ha Hs | n ty v -> Ha Hfs Hs Hcy | v -> Ha Hfs | n0 e mx v0 n1 ty v1 -> Ha Hfs Hb Ho Hs Hcy
       | n0 ty0 v0 n1 ty1 v1 -> Ha Hfs Hb Ho Hs Hc0 Hc1 | Ha Hfs Hw Hb Ho Hall].
  - cbn [encode_value abi_view decode_next] in *. rewrite Ha in He.
    unfold is_address_struct in Ha.
    destruct (is_aztec_address_struct _); [|destruct (is_eth_address_struct _); [|done]];
      apply fmap_Some in Hv as (f & Hv & ->);
      rewrite (encode_address_view _ _ _ Hv He);
      (eapply reads_map; [apply reads_take|]; by intros ? <-).
  - cbn [encode_value abi_view decode_next] in *. rewrite Ha, Hfs in He.
    apply orb_false_iff in Ha as [Ha1 Ha2]. rewrite Ha1, Ha2, Hfs in Hv. rewrite Ha1, Ha2.
    apply fmap_Some in Hv as (d' & Hv & ->). simpl.
    eapply (reads_map _ _ _ _ (eq [(n, d')])); [|by intros ? <-]. rewrite <- (app_nil_r out).
    eapply reads_bind; [by eapply reads_selector|]. intros ? <-. by apply reads_ret.
  - cbn [encode_value abi_view decode_next] in *. rewrite Ha, Hfs in He.
    apply orb_false_iff in Ha as [Ha1 Ha2]. rewrite Ha1, Ha2, Hfs in Hv. rewrite Ha1, Ha2.
    simpl in Hv, He |- *. apply fmap_Some in Hv as (f & Hv & ->).
    rewrite (encode_wrapped_view _ _ _ Hv He).
    eapply (reads_map _ _ _ _ (eq [("inner"%string, AbiDecoded.Field f)])); [|by intros ? <-].
    rewrite <- (app_nil_r [f]).
    eapply (reads_bind _ _ _ [f] [] (eq (AbiDecoded.Field f)));
      [eapply reads_map; [apply reads_take|by intros ? <-]|].
    intros ? <-. by apply reads_ret.
  - assert (MkAbiParameter n0 (AbiType.Array e mx) v0 ∈
             [MkAbiParameter n0 (AbiType.Array e mx) v0; MkAbiParameter n1 ty v1]) as Hin by set_solver.
    cbn [encode_value abi_view] in *. rewrite Ha, Hfs, Hb, wrapped_field_two in He.
    pose proof Ha as Ha'. apply orb_false_iff in Ha as [Ha1 Ha2].
    rewrite Ha1, Ha2, Hfs, Hb, wrapped_field_two in Hv.
    apply obind_ok in He as (items & Hi & He). rewrite Hi in Hv.
    destruct (Z.ltb_spec mx (Z.of_nat (length items))) as [|Hmx]; [done|].
    apply obind_ok in He as (enc & Henc & [= <-]).
    apply fmap_Some in Hv as (ds & Hv & ->).
    apply decode_encode_bounded_vec; try done.
    + by apply (IH _ Hin).
    + by apply (Hfit _ Hin).
  - assert (MkAbiParameter n1 ty1 v1 ∈ [MkAbiParameter n0 ty0 v0; MkAbiParameter n1 ty1 v1])
      as Hin by set_solver.
    eapply decode_encode_option; try done; [by apply (IH _ Hin)|by apply (Hfit _ Hin)].
  - cbn [encode_value abi_view decode_next] in *. rewrite Ha, Hfs, Hw, Hb, Ho in He.
    apply orb_false_iff in Ha as [Ha1 Ha2]. rewrite Ha1, Ha2, Hfs, Hw, Hb, Ho in Hv.
    rewrite Ha1, Ha2, Hb, Ho. destruct value as [| | | | |values|]; try done.
    apply fmap_Some in Hv as (mp & Hv & ->).
    eapply reads_map; [eapply reads_fields; [|exact Hv|exact He]|by intros ? <-].
    intros p v d o Hp. apply (IH p Hp); [|by apply Hfit].
    rewrite forallb_forall in Hall. by apply Hall, list_elem_of_In.
Qed.

Lemma decode_encode t : Q t.
Proof.
  induction t as [| | s w | e n IH | n | nm fs IH | es IH] using type_ind_element;
    intros value d fs' Hc Hf Hv He.
  - destruct value; try done. simplify_eq/=. eapply reads_map; [apply reads_take|]. by intros ? <-.
  - destruct value as [|b| | | | |]; try done. simplify_eq/=.
    eapply reads_map; [apply reads_take|]. intros ? <-. f_equal. unfold Fr_is_zero.
    destruct b; [by rewrite bool_decide_eq_false_2 by apply Fr_one_ne_zero|].
    by rewrite bool_decide_eq_true_2.
  - destruct value as [| |i| | | |]; try done. simpl in Hv, He.
    destruct (representable s w i) eqn:Hr; [|done]. simplify_eq.
    eapply reads_map; [apply reads_take|]. intros ? <-. by rewrite decode_encode_integer.
  - destruct value as [| | |items| | |]; try done. cbn [encode_value abi_view decode_next] in *.
    apply fmap_Some in Hv as (ds & Hv & ->).
    destruct (Z.eqb_spec (Z.of_nat (length items)) n) as [<-|]; [|done]. rewrite Nat2Z.id.
    eapply reads_map; [eapply reads_items; [|done..]|by intros ? <-].
    intros v d o Hin. apply IH; [done|]. eapply fits_array; [done|].
    destruct items; [set_solver|simpl; lia].
  - destruct value as [| | | |s| |]; try done. cbn [encode_value abi_view decode_next] in *.
    destruct (Z.ltb_spec n (str_len s)); [done|]. injection He as <-.
    destruct (forallb _ _) eqn:Hs; [|done]. injection Hv as <-.
    assert (chars_to_string (as_bytes s) = s) as Ea.
    { rewrite chars_to_string_ascii, from_as_bytes; [done|]. unfold is_ascii.
      rewrite forallb_forall in *. intros b Hb. specialize (Hs b Hb). lia. }
    replace (Z.to_nat n) with (length (as_bytes s) + Z.to_nat (n - str_len s))%nat
      by (unfold str_len in *; rewrite length_as_bytes; lia).
    assert (forallb (λ b, 0 <? byte_Z b) (as_bytes s) = true) as Hs0.
    { rewrite forallb_forall in *. intros b Hb. specialize (Hs b Hb). lia. }
    eapply reads_map; [by apply (reads_string _ _ Hs0 [])|]. intros ? <-. simpl. by rewrite Ea.
  - by eapply decode_encode_struct.
  - destruct value as [| | | | | |vs]; try done. cbn [encode_value abi_view decode_next] in *.
    apply fmap_Some in Hv as (ds & Hv & ->). case_decide; [|done].
    eapply reads_map; [eapply reads_elements; [|exact Hv|exact He]|by intros ? <-].
    intros t v d o Ht. rewrite Forall_forall in IH. apply IH; [done| |by eapply fits_tuple].
    simpl in Hc. rewrite forallb_forall in Hc. by apply Hc, list_elem_of_In.
Qed.
End codec_roundtrip.

(** ** Strings and buffers *)

Lemma chars_to_string_length bs :
  length (as_bytes (chars_to_string bs)) = length bs → is_ascii bs = true.
Proof.
  assert (∀ bs, (length bs ≤ length (as_bytes (chars_to_string bs)))%nat ∧
                (length (as_bytes (chars_to_string bs)) = length bs → is_ascii bs = true)) as H;
    [|apply H].
  clear. intros bs. induction bs as [|b bs [IH1 IH2]]; [done|].
  unfold chars_to_string in *. cbn [foldr]. rewrite as_bytes_app, length_app.
  unfold char_from_u8 at 1 3. unfold is_ascii. cbn [forallb].
  destruct (Z.ltb_spec (byte_Z b) 128); simpl; [|split; [lia|intros; lia]].
  split; [lia|]. intros E. apply IH2. lia.
Qed.

Section buffer_roundtrip.
Context {FR : PrimeField fr_modulus}.

Lemma Fr_to_from_be bs :
  length bs = 32%nat → be_Z bs < fr_modulus → Fr_to_be_bytes (Fr_from_be bs) = bs.
Proof.
  intros Hl Hv. apply be_Z_inj; [by rewrite Fr_to_be_bytes_length|].
  rewrite Fr_to_be_bytes_eq. fold (pf_val (Fr_from_be bs)). rewrite Fr_val_from_be.
  apply Z.mod_small. pose proof (be_Z_range bs). lia.
Qed.

Lemma chunk_field_bytes chunk :
  drop 1 (Fr_to_be_bytes (chunk_to_field chunk)) = vec_resize 31 zero_byte chunk.
Proof.
  unfold chunk_to_field.
  change (vec_resize 32 zero_byte (zero_byte :: chunk))
    with (zero_byte :: vec_resize 31 zero_byte chunk).
  assert (length (vec_resize 31 zero_byte chunk) = 31%nat) as Hl by apply length_resize.
  rewrite Fr_to_from_be; [done|by rewrite length_cons, Hl|].
  change (be_Z ([zero_byte] ++ vec_resize 31 zero_byte chunk) < fr_modulus). rewrite be_Z_app.
  pose proof (be_Z_range (vec_resize 31 zero_byte chunk)) as Hr. rewrite Hl in *.
  change (be_Z [zero_byte]) with 0. pose proof fr_modulus_bounds.
  change (256 ^ Z.of_nat 31) with (2 ^ 248) in *. assert (2 ^ 248 < 2 ^ 253) by done. lia.
Qed.

Lemma resized_chunks (bs : list byte) :
  ∃ pad, mjoin (vec_resize 31 zero_byte <$> chunks 31 bs) = bs ++ pad.
Proof.
  induction bs as [|bs Hne IH] using (chunks_ind 31 ltac:(lia)); [by exists []|].
  rewrite chunks_unfold by (lia || done). rewrite fmap_cons, mjoin_cons. unfold vec_resize at 1.
  destruct (decide (31 ≤ length bs)%nat).
  - destruct IH as [pad ->]. exists pad. rewrite resize_all_alt by (rewrite length_take; lia).
    by rewrite app_assoc, take_drop.
  - rewrite take_ge, drop_ge, resize_ge by lia. simpl. rewrite app_nil_r. by eexists.
Qed.

Lemma buffer_fields_prefix bs n :
  ∃ pad, mjoin ((λ field, drop 1 (Fr_to_be_bytes field)) <$>
                ((chunk_to_field <$> chunks 31 bs) ++ replicate n Fr_zero)) = bs ++ pad.
Proof.
  destruct (resized_chunks bs) as [pad Hp].
  rewrite fmap_app, join_app, <- list_fmap_compose.
  rewrite (list_fmap_ext _ (vec_resize 31 zero_byte)) by (intros; apply chunk_field_bytes).
  rewrite Hp, <- app_assoc. by eexists.
Qed.

Lemma buffer_roundtrip_lemma bs target fs :
  Z.of_nat (length bs) < 2 ^ 64 →
  buffer_as_fields bs target = Ok fs →
  buffer_from_fields fs = Ok bs ∧ length fs = Z.to_nat target.
Proof.
  intros Hl. unfold buffer_as_fields. destruct (Z.ltb_spec target (Z.of_nat (length (Fr_from_u64
    (u64_wrap (Z.of_nat (length bs))) :: (chunk_to_field <$> chunks 31 bs))))) as [|Ht]; [done|].
  intros [= <-]. split; [|apply length_resize].
  unfold vec_resize. rewrite resize_ge by lia. simpl.
  rewrite wrap_small by (unfold in_u; lia). rewrite Fr_to_usize_from_u64 by (unfold in_u; lia).
  destruct (buffer_fields_prefix bs (Z.to_nat target - S (length (chunk_to_field <$> chunks 31 bs))))
    as [pad ->].
  rewrite length_app, Z.min_l by lia. by rewrite Nat2Z.id, take_app_length.
Qed.
End buffer_roundtrip.

(** ** Properties *)

Import Concrete.Instances.

(** C14: decoding the encoding of a value gives the value back: for every
    conventional type and every value the decoder can represent (integers of the
    declared signed width, ASCII strings, addresses, selectors, bounded vectors,
    options, structs, arrays and tuples, nested), whatever follows the encoding. *)
Theorem abi_codec_roundtrip `{PrimeField fr_modulus} (typ : AbiType) (value : AbiValue)
    (d : AbiDecoded) (fs : list Fr) :
  conventional typ = true → fits typ → abi_view typ value = Some d →
  encode_value typ value = Ok fs →
  decode_from_abi fs [typ] = Ok d ∧
  ∀ before after, decode_next (before ++ fs ++ after) typ (length before) =
    Ok (d, (length before + length fs)%nat).
Proof.
  intros Hc Hf Hv He.
  assert (∀ before after, decode_next (before ++ fs ++ after) typ (length before) =
            Ok (d, (length before + length fs)%nat)) as Hd.
  { intros before after.
    destruct (decode_encode (before ++ fs ++ after) typ value d fs Hc Hf Hv He (length before) after)
      as (d' & <- & Hd); [rewrite length_app; lia|by rewrite drop_app_length|done]. }
  split; [|done]. specialize (Hd [] []). rewrite app_nil_r in Hd. unfold decode_from_abi. simpl in *.
  by rewrite Hd.
Qed.

Definition example_type : AbiType :=
  AbiType.Tuple
    [AbiType.Integer "signed" 8;
     AbiType.Struct "std::option::Option"
       [MkAbiParameter "_is_some" AbiType.Boolean None;
        MkAbiParameter "_value" (AbiType.Array AbiType.Field 2) None];
     AbiType.Struct "std::bounded_vec::BoundedVec"
       [MkAbiParameter "storage" (AbiType.Array (AbiType.String 3) 2) None;
        MkAbiParameter "len" (AbiType.Integer "unsigned" 32) None]].

Definition example_value `{PrimeField fr_modulus} : AbiValue :=
  AbiValue.Tuple
    [AbiValue.Integer (-5);
     AbiValue.Array [AbiValue.Field (Fr_from_u64 1); AbiValue.Field (Fr_from_u64 2)];
     AbiValue.Array [AbiValue.String "ok"]].

Lemma abi_codec_roundtrip_witness :
  ∃ fs, encode_value example_type example_value = Ok fs ∧ length fs = 11%nat ∧
  ∃ d, abi_view example_type example_value = Some d ∧ decode_from_abi fs [example_type] = Ok d.
Proof.
  eexists. split; [reflexivity|]. split; [reflexivity|].
  eexists. split; [reflexivity|].
  refine (proj1 (abi_codec_roundtrip example_type example_value _ _ _ _ _ _)).
  - reflexivity.
  - split; [reflexivity|vm_compute; reflexivity].
  - reflexivity.
  - reflexivity.
Defined.

(** Decoding a conventional type never panics: with enough fields it answers
    a value and moves the cursor by the size of the type, with fewer it is an
    error. *)
Theorem abi_decode_total `{PrimeField fr_modulus} (typ : AbiType) (fields : list Fr) (c : nat) :
  conventional typ = true → fits typ → (c ≤ length fields)%nat →
  if decide (c + Z.to_nat (abi_type_size typ) ≤ length fields)%nat
  then ∃ d, decode_next fields typ c = Ok (d, (c + Z.to_nat (abi_type_size typ))%nat)
  else ∃ e, decode_next fields typ c = Err e.
Proof.
  intros Hc Hf Hl. rewrite (fits_size _ Hf), Nat2Z.id.
  destruct (decode_sized fields typ Hc Hf c Hl) as [Hok Herr].
  case_decide; [auto|]. apply Herr. lia.
Qed.

Lemma abi_decode_total_witness :
  ∃ e, decode_next [Fr_from_u64 1] example_type 0%nat = Err e.
Proof.
  apply (abi_decode_total example_type [Fr_from_u64 1] 0%nat);
    [reflexivity|split; [reflexivity|vm_compute; reflexivity]|simpl; lia].
Defined.

(** The arguments of a function encode to exactly [count_arguments_size]
    fields, and the number of arguments is checked. *)
Theorem encode_arguments_length `{PrimeField fr_modulus, JsonCrate}
    (function : FunctionArtifact _ _) (args : list AbiValue) (fs : list Fr) :
  forallb (λ p, conventional (AbiType.p_typ p)) (parameters function) = true →
  fits (AbiType.Struct "" (parameters function)) →
  encode_arguments function args = Ok fs →
  length args = length (parameters function) ∧
  Z.of_nat (length fs) = count_arguments_size function.
Proof.
  unfold encode_arguments. intros Hc Hf He. case_decide as Hl; [|done]. split; [done|].
  pose proof (fits_size _ Hf) as Hs. cbn [abi_type_size type_fields] in Hs.
  rewrite fields_fmap_typ, sum_fields_typ in Hs. unfold count_arguments_size. rewrite Hs. f_equal.
  assert (∀ p, p ∈ parameters function → fits (AbiType.p_typ p)) as Hfit
    by (intros p; apply (fits_struct ""); done).
  rewrite forallb_forall in Hc. clear Hf Hs. revert args fs Hl He.
  unfold oconcat. induction (parameters function) as [|p ps IH]; intros [|a args] fs Hl He; simpl in *;
    try done; [by simplify_eq|].
  destruct (encode_value (AbiType.p_typ p) a) as [e| |] eqn:Ee; try done. simpl in He.
  destruct (omapM _ (zip ps args)) as [es| |] eqn:Ees; try done. simplify_eq/=.
  rewrite length_app. f_equal.
  - eapply encode_value_length; [apply Hc; by left|apply Hfit; set_solver|done].
  - apply (IH (λ q Hq, Hc q (or_intror Hq)) (λ q Hq, Hfit q (list_elem_of_further _ _ _ Hq)) args);
      [done|by rewrite Ees].
Qed.

Definition example_function `{PrimeField fr_modulus, JsonCrate} : FunctionArtifact _ _ :=
  {| fa_name := "f"; function_type := Private; is_initializer := false; fa_is_static := false;
     is_only_self := None; parameters := [MkAbiParameter "a" (AbiType.String 4) None];
     return_types := []; error_types := None; fa_selector := None; bytecode := None;
     verification_key_hash := None; verification_key := None; custom_attributes := None;
     is_unconstrained := None; debug_symbols := None |}.

Lemma encode_arguments_length_witness :
  ∃ fs, encode_arguments example_function [AbiValue.String "ok"] = Ok fs ∧
    Z.of_nat (length fs) = count_arguments_size example_function.
Proof.
  eexists. split; [reflexivity|].
  refine (proj2 (encode_arguments_length example_function [AbiValue.String "ok"] _ _ _ _)).
  - reflexivity.
  - split; [reflexivity|vm_compute; reflexivity].
  - reflexivity.
Defined.

(** A string without zero bytes decodes to its bytes read as Latin-1
    characters, so it comes back unchanged exactly when it is ASCII. *)
Theorem decode_string_latin1 `{PrimeField fr_modulus} (s : string) (n : Z) (fs : list Fr) :
  forallb (λ b, 0 <? byte_Z b) (as_bytes s) = true →
  encode_value (AbiType.String n) (AbiValue.String s) = Ok fs →
  ∃ s', decode_from_abi fs [AbiType.String n] = Ok (AbiDecoded.String s') ∧
    s' = chars_to_string (as_bytes s) ∧ (s' = s ↔ is_ascii (as_bytes s) = true).
Proof.
  intros Hs He. exists (chars_to_string (as_bytes s)). split_and!; [|done|split].
  - cbn [encode_value] in He. destruct (Z.ltb_spec n (str_len s)); [done|].
    assert (Z.to_nat n = length (as_bytes s) + Z.to_nat (n - str_len s))%nat as Hn
      by (unfold str_len in *; rewrite length_as_bytes; lia).
    injection He as <-.
    unfold decode_from_abi. cbn [decode_next]. rewrite Hn.
    edestruct reads_string as (chars & <- & Hd); [exact Hs| | |].
    3: { unfold dbind. rewrite Hd. done. }
    + apply Nat.le_0_l.
    + by rewrite drop_0, app_nil_r.
  - intros E. apply chars_to_string_length. by rewrite E.
  - intros Ha. by rewrite chars_to_string_ascii, from_as_bytes.
Qed.

Lemma decode_string_latin1_witness :
  ∃ s', decode_from_abi (Fr_from_u64 <$> [195; 169]) [AbiType.String 2] = Ok (AbiDecoded.String s') ∧
    s' ≠ from_bytes [Z_byte 195; Z_byte 169].
Proof.
  destruct (decode_string_latin1 (from_bytes [Z_byte 195; Z_byte 169]) 2 (Fr_from_u64 <$> [195; 169]))
    as (s' & Hd & _ & Ha); [reflexivity|reflexivity|].
  exists s'. split; [exact Hd|]. intros E. apply Ha in E. vm_compute in E. discriminate E.
Defined.

(** Reading back a packed buffer gives the bytes, whatever the padding, and
    packing fails exactly when the length field and the chunks of 31 bytes do not
    fit the target. *)
Theorem buffer_fields_roundtrip `{PrimeField fr_modulus} (bs : list byte) (target : Z) (fs : list Fr) :
  Z.of_nat (length bs) < 2 ^ 64 →
  (buffer_as_fields bs target = Ok fs → buffer_from_fields fs = Ok bs ∧ length fs = Z.to_nat target) ∧
  (is_ok (buffer_as_fields bs target) = true ↔ 1 + Z.of_nat (length (chunks 31 bs)) ≤ target).
Proof.
  intros Hl. split; [by apply buffer_roundtrip_lemma|].
  unfold buffer_as_fields. simpl. rewrite length_fmap.
  destruct (Z.ltb_spec target (Z.of_nat (S (length (chunks 31 bs))))); simpl; split; (done || lia).
Qed.

Lemma buffer_fields_roundtrip_witness :
  ∃ fs, buffer_as_fields (replicate 40 (Z_byte 7)) 5 = Ok fs ∧
    buffer_from_fields fs = Ok (replicate 40 (Z_byte 7)).
Proof.
  eexists. split; [reflexivity|].
  refine (proj1 (proj1 (buffer_fields_roundtrip (replicate 40 (Z_byte 7)) 5 _ _) _)); reflexivity.
Defined.
