(* ===== verification/KernelTypes.v ===== *)
(** [crates/core/src/{fee,kernel_types}.rs]: gas, the public inputs of the private
    kernel's tail circuit, their flattening into fields (what the transaction hash
    commits to) and their wire buffer.

    [write_fields] and [write_*] return what the source appends to [out]. *)

From S2P Require Import Prelude Bytes Ordered Deps Concrete Types Constants Poseidon.

(** ** [fee.rs] *)

Record Gas := MkGas { da_gas : Z; l2_gas : Z }.
Record GasFees := MkGasFees { fee_per_da_gas : Z; fee_per_l2_gas : Z }.
Record GasSettings := {
  gas_limits : option Gas;
  teardown_gas_limits : option Gas;
  max_fee_per_gas : option GasFees;
  max_priority_fee_per_gas : option GasFees;
}.

Definition Gas_default : Gas := MkGas 0 0.
Definition GasFees_default : GasFees := MkGasFees 0 0.
Definition Gas_new (da l2 : Z) : Gas := MkGas da l2.
Definition Gas_empty : Gas := Gas_default.
Definition Gas_add (g other : Gas) : Gas :=
  MkGas (u64_wrap (da_gas g + da_gas other)) (u64_wrap (l2_gas g + l2_gas other)).

Definition GasSettings_default : GasSettings :=
  {| gas_limits := Some (MkGas DEFAULT_DA_GAS_LIMIT DEFAULT_L2_GAS_LIMIT);
     teardown_gas_limits :=
       Some (MkGas DEFAULT_TEARDOWN_DA_GAS_LIMIT DEFAULT_TEARDOWN_L2_GAS_LIMIT);
     max_fee_per_gas := Some (MkGasFees 1 1);
     max_priority_fee_per_gas := Some GasFees_default |}.

#[global] Instance Gas_eq_dec : EqDecision Gas.
Proof. solve_decision. Defined.
#[global] Instance GasFees_eq_dec : EqDecision GasFees.
Proof. solve_decision. Defined.
#[global] Instance GasSettings_eq_dec : EqDecision GasSettings.
Proof. solve_decision. Defined.

(** ** [kernel_types.rs]: the data *)

Section kernel_data.
Context {FR : PrimeField fr_modulus}.

Record NoteHash := { nh_value : Fr; nh_counter : Z }.
Record ScopedNoteHash := { snh_note_hash : NoteHash; snh_contract_address : AztecAddress }.
Record Nullifier := { nf_value : Fr; nf_note_hash : Fr; nf_counter : Z }.
Record ScopedNullifier := { snf_nullifier : Nullifier; snf_contract_address : AztecAddress }.
Record L2ToL1Message := { msg_recipient : EthAddress; msg_content : Fr }.
Record ScopedL2ToL1Message :=
  { smsg_message : L2ToL1Message; smsg_contract_address : AztecAddress }.
Record LogHash := { lh_value : Fr; lh_length : Z }.
Record ScopedLogHash := { slh_log_hash : LogHash; slh_contract_address : AztecAddress }.
Record PrivateLog := { pl_fields : list Fr; pl_emitted_length : Z }.
Record PublicCallRequest := {
  pcr_msg_sender : AztecAddress;
  pcr_contract_address : AztecAddress;
  pcr_is_static_call : bool;
  pcr_calldata_hash : Fr;
}.
Record CountedPublicCallRequest := { cpcr_inner : PublicCallRequest; cpcr_counter : Z }.

Record PrivateToPublicAccumulatedData := {
  pp_note_hashes : list Fr;
  pp_nullifiers : list Fr;
  pp_l2_to_l1_msgs : list ScopedL2ToL1Message;
  pp_private_logs : list PrivateLog;
  pp_contract_class_logs_hashes : list ScopedLogHash;
  pp_public_call_requests : list PublicCallRequest;
}.
Record PrivateToRollupAccumulatedData := {
  pr_note_hashes : list Fr;
  pr_nullifiers : list Fr;
  pr_l2_to_l1_msgs : list ScopedL2ToL1Message;
  pr_private_logs : list PrivateLog;
  pr_contract_class_logs_hashes : list ScopedLogHash;
}.

Record AppendOnlyTreeSnapshot := { ts_root : Fr; next_available_leaf_index : Z }.
Record PartialStateReference := {
  note_hash_tree : AppendOnlyTreeSnapshot;
  nullifier_tree : AppendOnlyTreeSnapshot;
  public_data_tree : AppendOnlyTreeSnapshot;
}.
Record StateReference := {
  l1_to_l2_message_tree : AppendOnlyTreeSnapshot;
  st_partial : PartialStateReference;
}.
Record GlobalVariables := {
  gv_chain_id : Fr;
  gv_version : Fr;
  gv_block_number : Z;
  gv_slot_number : Z;
  gv_timestamp : Z;
  gv_coinbase : EthAddress;
  gv_fee_recipient : AztecAddress;
  gv_gas_fees : GasFees;
}.
Record BlockHeader := {
  last_archive : AppendOnlyTreeSnapshot;
  bh_state : StateReference;
  sponge_blob_hash : Fr;
  global_variables : GlobalVariables;
  total_fees : Fr;
  total_mana_used : Fr;
}.
(** Also the [TxContext] of [tx.rs], a separate type with the same fields. *)
Record TxContext := { tc_chain_id : Fr; tc_version : Fr; tc_gas_settings : GasSettings }.
Record TxConstantData := {
  anchor_block_header : BlockHeader;
  tx_context : TxContext;
  vk_tree_root : Fr;
  protocol_contracts_hash : Fr;
}.
Record PartialPrivateTailPublicInputsForPublic := {
  non_revertible_accumulated_data : PrivateToPublicAccumulatedData;
  revertible_accumulated_data : PrivateToPublicAccumulatedData;
  public_teardown_call_request : PublicCallRequest;
}.
Record PartialPrivateTailPublicInputsForRollup := { fr_end : PrivateToRollupAccumulatedData }.
Record PrivateKernelTailPublicInputs := {
  pi_constants : TxConstantData;
  pi_gas_used : Gas;
  pi_fee_payer : AztecAddress;
  pi_expiration_timestamp : Z;
  pi_for_public : option PartialPrivateTailPublicInputsForPublic;
  pi_for_rollup : option PartialPrivateTailPublicInputsForRollup;
}.
Record CallContext := {
  cc_msg_sender : AztecAddress;
  cc_contract_address : AztecAddress;
  cc_function_selector : Fr;
  cc_is_static_call : bool;
}.
Record ContractClassLog := {
  ccl_contract_address : AztecAddress;
  ccl_fields : list Fr;
  ccl_emitted_length : Z;
}.
Record ReadRequest := { rr_value : Fr; rr_counter : Z }.
Record ScopedReadRequest := { srr_read_request : ReadRequest; srr_contract_address : AztecAddress }.
Record NoteAndSlot := {
  ns_contract_address : AztecAddress;
  ns_owner : AztecAddress;
  ns_storage_slot : Fr;
  ns_randomness : Fr;
  ns_note_type_id : Fr;
  ns_note_items : list Fr;
  ns_note_hash : Fr;
  ns_counter : Z;
}.

Definition is_zero_fr (f : Fr) : bool := bool_decide (f = Fr_zero).

Definition NoteHash_is_empty (n : NoteHash) : bool := is_zero_fr (nh_value n).
Definition ScopedNoteHash_is_empty (n : ScopedNoteHash) : bool := NoteHash_is_empty (snh_note_hash n).
Definition Nullifier_is_empty (n : Nullifier) : bool := is_zero_fr (nf_value n).
Definition ScopedNullifier_is_empty (n : ScopedNullifier) : bool :=
  Nullifier_is_empty (snf_nullifier n).
Definition ScopedL2ToL1Message_is_empty (m : ScopedL2ToL1Message) : bool :=
  is_zero_fr (msg_content (smsg_message m)).
Definition LogHash_is_empty (l : LogHash) : bool := is_zero_fr (lh_value l).
Definition ScopedLogHash_is_empty (l : ScopedLogHash) : bool := LogHash_is_empty (slh_log_hash l).
Definition PrivateLog_is_empty (l : PrivateLog) : bool := forallb is_zero_fr (pl_fields l).
Definition PublicCallRequest_is_empty (r : PublicCallRequest) : bool :=
  bool_decide (pcr_contract_address r = AztecAddress_zero).

Definition ScopedL2ToL1Message_empty : ScopedL2ToL1Message :=
  {| smsg_message := {| msg_recipient := replicate 20 zero_byte; msg_content := Fr_zero |};
     smsg_contract_address := AztecAddress_zero |}.
Definition ScopedLogHash_empty : ScopedLogHash :=
  {| slh_log_hash := {| lh_value := Fr_zero; lh_length := 0 |};
     slh_contract_address := AztecAddress_zero |}.
Definition PrivateLog_empty : PrivateLog :=
  {| pl_fields := replicate (Z.to_nat PRIVATE_LOG_SIZE_IN_FIELDS) Fr_zero; pl_emitted_length := 0 |}.
Definition PublicCallRequest_empty : PublicCallRequest :=
  {| pcr_msg_sender := AztecAddress_zero; pcr_contract_address := AztecAddress_zero;
     pcr_is_static_call := false; pcr_calldata_hash := Fr_zero |}.
Definition PrivateToPublicAccumulatedData_empty : PrivateToPublicAccumulatedData :=
  {| pp_note_hashes := replicate (Z.to_nat MAX_NOTE_HASHES_PER_TX) Fr_zero;
     pp_nullifiers := replicate (Z.to_nat MAX_NULLIFIERS_PER_TX) Fr_zero;
     pp_l2_to_l1_msgs := replicate (Z.to_nat MAX_L2_TO_L1_MSGS_PER_TX) ScopedL2ToL1Message_empty;
     pp_private_logs := replicate (Z.to_nat MAX_PRIVATE_LOGS_PER_TX) PrivateLog_empty;
     pp_contract_class_logs_hashes :=
       replicate (Z.to_nat MAX_CONTRACT_CLASS_LOGS_PER_TX) ScopedLogHash_empty;
     pp_public_call_requests :=
       replicate (Z.to_nat MAX_ENQUEUED_CALLS_PER_TX) PublicCallRequest_empty |}.
Definition PrivateToRollupAccumulatedData_empty : PrivateToRollupAccumulatedData :=
  {| pr_note_hashes := replicate (Z.to_nat MAX_NOTE_HASHES_PER_TX) Fr_zero;
     pr_nullifiers := replicate (Z.to_nat MAX_NULLIFIERS_PER_TX) Fr_zero;
     pr_l2_to_l1_msgs := replicate (Z.to_nat MAX_L2_TO_L1_MSGS_PER_TX) ScopedL2ToL1Message_empty;
     pr_private_logs := replicate (Z.to_nat MAX_PRIVATE_LOGS_PER_TX) PrivateLog_empty;
     pr_contract_class_logs_hashes :=
       replicate (Z.to_nat MAX_CONTRACT_CLASS_LOGS_PER_TX) ScopedLogHash_empty |}.

(** [pad_to] and [pad_fields] extend a vector and never shorten it. *)
Definition pad_to {T} (vec : list T) (len : Z) (dflt : T) : list T :=
  if Z.of_nat (length vec) <? len then vec_resize (Z.to_nat len) dflt vec else vec.
Definition pad_fields (vec : list Fr) (len : Z) : list Fr :=
  if Z.of_nat (length vec) <? len then vec_resize (Z.to_nat len) Fr_zero vec else vec.
End kernel_data.

(** ** Queries on the public inputs *)

Section kernel_queries.
Context {FR : PrimeField fr_modulus}.
Implicit Types p : PrivateKernelTailPublicInputs.

Definition is_for_public p : bool := if pi_for_public p then true else false.

Definition get_non_empty_contract_class_logs_hashes p : list ScopedLogHash :=
  match pi_for_public p with
  | Some for_public =>
      List.filter (λ h, negb (ScopedLogHash_is_empty h))
        (pp_contract_class_logs_hashes (non_revertible_accumulated_data for_public)
         ++ pp_contract_class_logs_hashes (revertible_accumulated_data for_public))
  | None =>
      match pi_for_rollup p with
      | Some for_rollup =>
          List.filter (λ h, negb (ScopedLogHash_is_empty h))
            (pr_contract_class_logs_hashes (fr_end for_rollup))
      | None => []
      end
  end.

Definition non_empty_requests (l : list PublicCallRequest) : list PublicCallRequest :=
  List.filter (λ r, negb (PublicCallRequest_is_empty r)) l.

Definition number_of_public_calls p : Z :=
  match pi_for_public p with
  | Some for_public =>
      let nr := Z.of_nat (length (non_empty_requests
                  (pp_public_call_requests (non_revertible_accumulated_data for_public)))) in
      let r := Z.of_nat (length (non_empty_requests
                  (pp_public_call_requests (revertible_accumulated_data for_public)))) in
      let td := if PublicCallRequest_is_empty (public_teardown_call_request for_public)
                then 0 else 1 in
      usize_wrap (usize_wrap (nr + r) + td)
  | None => 0
  end.

Definition get_all_public_call_requests p : list PublicCallRequest :=
  match pi_for_public p with
  | Some for_public =>
      non_empty_requests (pp_public_call_requests (non_revertible_accumulated_data for_public))
      ++ non_empty_requests (pp_public_call_requests (revertible_accumulated_data for_public))
      ++ (if PublicCallRequest_is_empty (public_teardown_call_request for_public) then []
          else [public_teardown_call_request for_public])
  | None => []
  end.
End kernel_queries.

(** ** Flattening into fields *)

Section write_fields.
Context {FR : PrimeField fr_modulus}.

Definition eth_address_to_fr (address : EthAddress) : Fr :=
  Fr_from_be (replicate 12 zero_byte ++ address).

Definition L2ToL1Message_write_fields (m : L2ToL1Message) : list Fr :=
  [eth_address_to_fr (msg_recipient m)] ++ [msg_content m].
Definition ScopedL2ToL1Message_write_fields (m : ScopedL2ToL1Message) : list Fr :=
  L2ToL1Message_write_fields (smsg_message m) ++ [smsg_contract_address m].
Definition LogHash_write_fields (l : LogHash) : list Fr :=
  [lh_value l] ++ [Fr_from_u64 (lh_length l)].
Definition ScopedLogHash_write_fields (l : ScopedLogHash) : list Fr :=
  LogHash_write_fields (slh_log_hash l) ++ [slh_contract_address l].
Definition PrivateLog_write_fields (l : PrivateLog) : list Fr :=
  pl_fields l ++ [Fr_from_u64 (pl_emitted_length l)].
Definition PublicCallRequest_write_fields (r : PublicCallRequest) : list Fr :=
  [pcr_msg_sender r] ++ [pcr_contract_address r]
  ++ [Fr_from_bool (pcr_is_static_call r)] ++ [pcr_calldata_hash r].
Definition PrivateToPublicAccumulatedData_write_fields (d : PrivateToPublicAccumulatedData)
    : list Fr :=
  pp_note_hashes d ++ pp_nullifiers d
  ++ mjoin (ScopedL2ToL1Message_write_fields <$> pp_l2_to_l1_msgs d)
  ++ mjoin (PrivateLog_write_fields <$> pp_private_logs d)
  ++ mjoin (ScopedLogHash_write_fields <$> pp_contract_class_logs_hashes d)
  ++ mjoin (PublicCallRequest_write_fields <$> pp_public_call_requests d).
Definition PrivateToRollupAccumulatedData_write_fields (d : PrivateToRollupAccumulatedData)
    : list Fr :=
  pr_note_hashes d ++ pr_nullifiers d
  ++ mjoin (ScopedL2ToL1Message_write_fields <$> pr_l2_to_l1_msgs d)
  ++ mjoin (PrivateLog_write_fields <$> pr_private_logs d)
  ++ mjoin (ScopedLogHash_write_fields <$> pr_contract_class_logs_hashes d).
Definition AppendOnlyTreeSnapshot_write_fields (s : AppendOnlyTreeSnapshot) : list Fr :=
  [ts_root s] ++ [Fr_from_u64 (next_available_leaf_index s)].
Definition PartialStateReference_write_fields (s : PartialStateReference) : list Fr :=
  AppendOnlyTreeSnapshot_write_fields (note_hash_tree s)
  ++ AppendOnlyTreeSnapshot_write_fields (nullifier_tree s)
  ++ AppendOnlyTreeSnapshot_write_fields (public_data_tree s).
Definition StateReference_write_fields (s : StateReference) : list Fr :=
  AppendOnlyTreeSnapshot_write_fields (l1_to_l2_message_tree s)
  ++ PartialStateReference_write_fields (st_partial s).
Definition Gas_write_fields (g : Gas) : list Fr :=
  [Fr_from_u64 (da_gas g)] ++ [Fr_from_u64 (l2_gas g)].
Definition GasFees_write_fields (g : GasFees) : list Fr :=
  [Fr_from_u128 (fee_per_da_gas g)] ++ [Fr_from_u128 (fee_per_l2_gas g)].
Definition GasSettings_write_fields (g : GasSettings) : list Fr :=
  Gas_write_fields (default Gas_default (gas_limits g))
  ++ Gas_write_fields (default Gas_default (teardown_gas_limits g))
  ++ GasFees_write_fields (default GasFees_default (max_fee_per_gas g))
  ++ GasFees_write_fields (default GasFees_default (max_priority_fee_per_gas g)).
Definition GlobalVariables_write_fields (g : GlobalVariables) : list Fr :=
  [gv_chain_id g] ++ [gv_version g] ++ [Fr_from_u64 (gv_block_number g)]
  ++ [Fr_from_u64 (gv_slot_number g)] ++ [Fr_from_u64 (gv_timestamp g)]
  ++ [eth_address_to_fr (gv_coinbase g)] ++ [gv_fee_recipient g]
  ++ GasFees_write_fields (gv_gas_fees g).
Definition BlockHeader_write_fields (h : BlockHeader) : list Fr :=
  AppendOnlyTreeSnapshot_write_fields (last_archive h)
  ++ StateReference_write_fields (bh_state h) ++ [sponge_blob_hash h]
  ++ GlobalVariables_write_fields (global_variables h) ++ [total_fees h] ++ [total_mana_used h].
Definition BlockHeader_to_fields (h : BlockHeader) : list Fr := BlockHeader_write_fields h.
Definition TxContext_write_fields (c : TxContext) : list Fr :=
  [tc_chain_id c] ++ [tc_version c] ++ GasSettings_write_fields (tc_gas_settings c).
Definition TxContext_to_fields (c : TxContext) : list Fr := TxContext_write_fields c.
Definition TxConstantData_write_fields (c : TxConstantData) : list Fr :=
  BlockHeader_write_fields (anchor_block_header c) ++ TxContext_write_fields (tx_context c)
  ++ [vk_tree_root c] ++ [protocol_contracts_hash c].
Definition ForPublic_write_fields (d : PartialPrivateTailPublicInputsForPublic) : list Fr :=
  PrivateToPublicAccumulatedData_write_fields (non_revertible_accumulated_data d)
  ++ PrivateToPublicAccumulatedData_write_fields (revertible_accumulated_data d)
  ++ PublicCallRequest_write_fields (public_teardown_call_request d).
Definition CallContext_to_fields (c : CallContext) : list Fr :=
  [cc_msg_sender c; cc_contract_address c; cc_function_selector c;
   Fr_from_bool (cc_is_static_call c)].

Definition PrivateKernelTailPublicInputs_to_fields (p : PrivateKernelTailPublicInputs) : list Fr :=
  TxConstantData_write_fields (pi_constants p)
  ++ match pi_for_public p with
     | Some for_public =>
         ForPublic_write_fields for_public ++ Gas_write_fields (pi_gas_used p)
         ++ [pi_fee_payer p] ++ [Fr_from_u64 (pi_expiration_timestamp p)]
     | None =>
         match pi_for_rollup p with
         | Some for_rollup =>
             PrivateToRollupAccumulatedData_write_fields (fr_end for_rollup)
             ++ Gas_write_fields (pi_gas_used p)
             ++ [pi_fee_payer p] ++ [Fr_from_u64 (pi_expiration_timestamp p)]
         | None => []
         end
     end.

Definition PrivateKernelTailPublicInputs_hash `{!Poseidon2Crate}
    (p : PrivateKernelTailPublicInputs) : Fr :=
  let separator := if is_for_public p then domain_separator.PUBLIC_TX_HASH
                   else domain_separator.PRIVATE_TX_HASH in
  poseidon2_hash_with_separator (PrivateKernelTailPublicInputs_to_fields p) separator.
End write_fields.

(** ** The wire buffer *)

Section to_buffer.
Context {FR : PrimeField fr_modulus}.

Definition write_fr (fr : Fr) : list byte := Fr_to_be_bytes fr.
Definition write_bool (v : bool) : list byte := [Z_byte (if v then 1 else 0)].
Definition write_u32 (v : Z) : list byte := be_bytes 4 v.
Definition write_u64 (v : Z) : list byte := be_bytes 8 v.
Definition write_u128 (v : Z) : list byte := be_bytes 16 v.
Definition write_eth_address (addr : EthAddress) : list byte := addr.

Definition write_tree_snapshot (snap : AppendOnlyTreeSnapshot) : list byte :=
  write_fr (ts_root snap) ++ write_u32 (next_available_leaf_index snap).

Definition write_gas_u32 (g : Gas) : list byte :=
  write_u32 (u32_wrap (da_gas g)) ++ write_u32 (u32_wrap (l2_gas g)).
Definition write_gas_fees (g : GasFees) : list byte :=
  write_u128 (fee_per_da_gas g) ++ write_u128 (fee_per_l2_gas g).

Definition write_block_header (h : BlockHeader) : list byte :=
  write_tree_snapshot (last_archive h)
  ++ write_tree_snapshot (l1_to_l2_message_tree (bh_state h))
  ++ write_tree_snapshot (note_hash_tree (st_partial (bh_state h)))
  ++ write_tree_snapshot (nullifier_tree (st_partial (bh_state h)))
  ++ write_tree_snapshot (public_data_tree (st_partial (bh_state h)))
  ++ write_fr (sponge_blob_hash h)
  ++ write_fr (gv_chain_id (global_variables h))
  ++ write_fr (gv_version (global_variables h))
  ++ write_u32 (u32_wrap (gv_block_number (global_variables h)))
  ++ write_u32 (u32_wrap (gv_slot_number (global_variables h)))
  ++ write_u64 (gv_timestamp (global_variables h))
  ++ write_eth_address (gv_coinbase (global_variables h))
  ++ write_fr (gv_fee_recipient (global_variables h))
  ++ write_gas_fees (gv_gas_fees (global_variables h))
  ++ write_fr (total_fees h)
  ++ write_fr (total_mana_used h).

(** The header, the context with the gas settings ([map_or(0, ..)] of an absent
    limit is the default), and the two roots. *)
Definition write_tx_constant_data (c : TxConstantData) : list byte :=
  write_block_header (anchor_block_header c)
  ++ write_fr (tc_chain_id (tx_context c))
  ++ write_fr (tc_version (tx_context c))
  ++ write_gas_u32 (default Gas_default (gas_limits (tc_gas_settings (tx_context c))))
  ++ write_gas_u32 (default Gas_default (teardown_gas_limits (tc_gas_settings (tx_context c))))
  ++ write_gas_fees (default GasFees_default (max_fee_per_gas (tc_gas_settings (tx_context c))))
  ++ write_gas_fees
       (default GasFees_default (max_priority_fee_per_gas (tc_gas_settings (tx_context c))))
  ++ write_fr (vk_tree_root c)
  ++ write_fr (protocol_contracts_hash c).

Definition write_message (msg : ScopedL2ToL1Message) : list byte :=
  write_eth_address (msg_recipient (smsg_message msg))
  ++ write_fr (msg_content (smsg_message msg)) ++ write_fr (smsg_contract_address msg).
Definition write_private_log (log : PrivateLog) : list byte :=
  mjoin (write_fr <$> pl_fields log) ++ write_u32 (pl_emitted_length log).
Definition write_log_hash (lh : ScopedLogHash) : list byte :=
  write_fr (lh_value (slh_log_hash lh)) ++ write_u32 (lh_length (slh_log_hash lh))
  ++ write_fr (slh_contract_address lh).
Definition write_public_call_request (req : PublicCallRequest) : list byte :=
  write_fr (pcr_msg_sender req) ++ write_fr (pcr_contract_address req)
  ++ write_bool (pcr_is_static_call req) ++ write_fr (pcr_calldata_hash req).

Definition write_rollup_accumulated_data (d : PrivateToRollupAccumulatedData) : list byte :=
  mjoin (write_fr <$> pr_note_hashes d) ++ mjoin (write_fr <$> pr_nullifiers d)
  ++ mjoin (write_message <$> pr_l2_to_l1_msgs d)
  ++ mjoin (write_private_log <$> pr_private_logs d)
  ++ mjoin (write_log_hash <$> pr_contract_class_logs_hashes d).
Definition write_public_accumulated_data (d : PrivateToPublicAccumulatedData) : list byte :=
  mjoin (write_fr <$> pp_note_hashes d) ++ mjoin (write_fr <$> pp_nullifiers d)
  ++ mjoin (write_message <$> pp_l2_to_l1_msgs d)
  ++ mjoin (write_private_log <$> pp_private_logs d)
  ++ mjoin (write_log_hash <$> pp_contract_class_logs_hashes d)
  ++ mjoin (write_public_call_request <$> pp_public_call_requests d).

Definition PrivateKernelTailPublicInputs_to_buffer (p : PrivateKernelTailPublicInputs)
    : list byte :=
  write_bool (is_for_public p)
  ++ write_tx_constant_data (pi_constants p)
  ++ write_gas_u32 (pi_gas_used p)
  ++ write_fr (pi_fee_payer p)
  ++ write_u64 (pi_expiration_timestamp p)
  ++ match pi_for_public p with
     | Some for_public =>
         write_public_accumulated_data (non_revertible_accumulated_data for_public)
         ++ write_public_accumulated_data (revertible_accumulated_data for_public)
         ++ write_public_call_request (public_teardown_call_request for_public)
     | None =>
         match pi_for_rollup p with
         | Some for_rollup => write_rollup_accumulated_data (fr_end for_rollup)
         | None => []
         end
     end.
End to_buffer.

Arguments L2ToL1Message_write_fields : simpl never.
Arguments ScopedL2ToL1Message_write_fields : simpl never.
Arguments LogHash_write_fields : simpl never.
Arguments ScopedLogHash_write_fields : simpl never.
Arguments PrivateLog_write_fields : simpl never.
Arguments PublicCallRequest_write_fields : simpl never.
Arguments PrivateToPublicAccumulatedData_write_fields : simpl never.
Arguments PrivateToRollupAccumulatedData_write_fields : simpl never.
Arguments AppendOnlyTreeSnapshot_write_fields : simpl never.
Arguments PartialStateReference_write_fields : simpl never.
Arguments StateReference_write_fields : simpl never.
Arguments Gas_write_fields : simpl never.
Arguments GasFees_write_fields : simpl never.
Arguments GasSettings_write_fields : simpl never.
Arguments GlobalVariables_write_fields : simpl never.
Arguments BlockHeader_write_fields : simpl never.
Arguments TxContext_write_fields : simpl never.
Arguments TxConstantData_write_fields : simpl never.
Arguments ForPublic_write_fields : simpl never.
Arguments write_fr : simpl never.
Arguments write_bool : simpl never.
Arguments write_u32 : simpl never.
Arguments write_u64 : simpl never.
Arguments write_u128 : simpl never.
Arguments write_eth_address : simpl never.
Arguments write_tree_snapshot : simpl never.
Arguments write_gas_u32 : simpl never.
Arguments write_gas_fees : simpl never.
Arguments write_block_header : simpl never.
Arguments write_tx_constant_data : simpl never.
Arguments write_message : simpl never.
Arguments write_private_log : simpl never.
Arguments write_log_hash : simpl never.
Arguments write_public_call_request : simpl never.
Arguments write_rollup_accumulated_data : simpl never.
Arguments write_public_accumulated_data : simpl never.
Arguments MAX_NOTE_HASHES_PER_TX : simpl never.
Arguments MAX_NULLIFIERS_PER_TX : simpl never.
Arguments MAX_L2_TO_L1_MSGS_PER_TX : simpl never.
Arguments MAX_PRIVATE_LOGS_PER_TX : simpl never.
Arguments MAX_CONTRACT_CLASS_LOGS_PER_TX : simpl never.
Arguments MAX_ENQUEUED_CALLS_PER_TX : simpl never.
Arguments PRIVATE_LOG_SIZE_IN_FIELDS : simpl never.

(** ** Well-formed public inputs

    Vectors have the protocol's lengths, integers their widths and addresses
    twenty bytes.  [w] is the width assumed of gas amounts and of the block and
    slot numbers: the fields carry all 64 bits, the buffer only 32. *)

Section kernel_ok.
Context {FR : PrimeField fr_modulus}.

Definition Gas_ok (w : Z) (g : Gas) : Prop := in_u w (da_gas g) ∧ in_u w (l2_gas g).
Definition GasFees_ok (g : GasFees) : Prop :=
  in_u 128 (fee_per_da_gas g) ∧ in_u 128 (fee_per_l2_gas g).
Definition present {A} (P : A → Prop) (o : option A) : Prop :=
  match o with Some x => P x | None => False end.
Definition GasSettings_ok (w : Z) (g : GasSettings) : Prop :=
  present (Gas_ok w) (gas_limits g) ∧ present (Gas_ok w) (teardown_gas_limits g) ∧
  present GasFees_ok (max_fee_per_gas g) ∧ present GasFees_ok (max_priority_fee_per_gas g).

Definition Message_ok (m : ScopedL2ToL1Message) : Prop :=
  length (msg_recipient (smsg_message m)) = 20%nat.
Definition LogHash_ok (l : ScopedLogHash) : Prop := in_u 32 (lh_length (slh_log_hash l)).
Definition PrivateLog_ok (l : PrivateLog) : Prop :=
  length (pl_fields l) = Z.to_nat PRIVATE_LOG_SIZE_IN_FIELDS ∧ in_u 32 (pl_emitted_length l).

Definition Public_ok (d : PrivateToPublicAccumulatedData) : Prop :=
  length (pp_note_hashes d) = Z.to_nat MAX_NOTE_HASHES_PER_TX ∧
  length (pp_nullifiers d) = Z.to_nat MAX_NULLIFIERS_PER_TX ∧
  (length (pp_l2_to_l1_msgs d) = Z.to_nat MAX_L2_TO_L1_MSGS_PER_TX ∧
   Forall Message_ok (pp_l2_to_l1_msgs d)) ∧
  (length (pp_private_logs d) = Z.to_nat MAX_PRIVATE_LOGS_PER_TX ∧
   Forall PrivateLog_ok (pp_private_logs d)) ∧
  (length (pp_contract_class_logs_hashes d) = Z.to_nat MAX_CONTRACT_CLASS_LOGS_PER_TX ∧
   Forall LogHash_ok (pp_contract_class_logs_hashes d)) ∧
  length (pp_public_call_requests d) = Z.to_nat MAX_ENQUEUED_CALLS_PER_TX.
Definition Rollup_ok (d : PrivateToRollupAccumulatedData) : Prop :=
  length (pr_note_hashes d) = Z.to_nat MAX_NOTE_HASHES_PER_TX ∧
  length (pr_nullifiers d) = Z.to_nat MAX_NULLIFIERS_PER_TX ∧
  (length (pr_l2_to_l1_msgs d) = Z.to_nat MAX_L2_TO_L1_MSGS_PER_TX ∧
   Forall Message_ok (pr_l2_to_l1_msgs d)) ∧
  (length (pr_private_logs d) = Z.to_nat MAX_PRIVATE_LOGS_PER_TX ∧
   Forall PrivateLog_ok (pr_private_logs d)) ∧
  (length (pr_contract_class_logs_hashes d) = Z.to_nat MAX_CONTRACT_CLASS_LOGS_PER_TX ∧
   Forall LogHash_ok (pr_contract_class_logs_hashes d)).

Definition Tree_ok (s : AppendOnlyTreeSnapshot) : Prop := in_u 32 (next_available_leaf_index s).
Definition State_ok (s : StateReference) : Prop :=
  Tree_ok (l1_to_l2_message_tree s) ∧ Tree_ok (note_hash_tree (st_partial s)) ∧
  Tree_ok (nullifier_tree (st_partial s)) ∧ Tree_ok (public_data_tree (st_partial s)).
Definition Globals_ok (w : Z) (g : GlobalVariables) : Prop :=
  in_u w (gv_block_number g) ∧ in_u w (gv_slot_number g) ∧ in_u 64 (gv_timestamp g) ∧
  length (gv_coinbase g) = 20%nat ∧ GasFees_ok (gv_gas_fees g).
Definition Header_ok (w : Z) (h : BlockHeader) : Prop :=
  Tree_ok (last_archive h) ∧ State_ok (bh_state h) ∧ Globals_ok w (global_variables h).
Definition Constants_ok (w : Z) (c : TxConstantData) : Prop :=
  Header_ok w (anchor_block_header c) ∧ GasSettings_ok w (tc_gas_settings (tx_context c)).

(** Exactly one of the two variants is present. *)
Definition PublicInputs_ok (w : Z) (p : PrivateKernelTailPublicInputs) : Prop :=
  Constants_ok w (pi_constants p) ∧ Gas_ok w (pi_gas_used p) ∧
  in_u 64 (pi_expiration_timestamp p) ∧
  match pi_for_public p, pi_for_rollup p with
  | Some d, None =>
      Public_ok (non_revertible_accumulated_data d) ∧ Public_ok (revertible_accumulated_data d)
  | None, Some d => Rollup_ok (fr_end d)
  | _, _ => False
  end.
End kernel_ok.

(** ** The serializers are prefix codes *)

(** Splits the hypotheses built by [_ok] predicates, and reads the values off an
    equation between encodings one after the other. *)
Ltac ok_split :=
  unfold Message_ok, LogHash_ok, PrivateLog_ok, Tree_ok, State_ok, Globals_ok, Header_ok,
    Constants_ok, GasSettings_ok, GasFees_ok, Gas_ok in *; cbn in *; destruct_and?.

Ltac peel_side := first [done | by apply Forall_true].

Ltac peel :=
  rewrite <- ?app_assoc in *;
  repeat match goal with
  | E : (?a :: _) ++ _ = (?b :: _) ++ _ |- _ => apply cons_inv in E as [? E]
  | E : ?a :: _ = ?b :: _ |- _ => apply cons_inv in E as [? E]
  | E : mjoin (?f <$> _) ++ _ = mjoin (?f <$> _) ++ _ |- _ =>
      apply (prefix_code_join _ f) in E as [? E]; [|congruence|peel_side..]
  | E : ?f _ ++ _ = ?f _ ++ _ |- _ => apply (prefix_code (f:=f)) in E as [? E]; [|peel_side..]
  | E : ?l1 ++ _ = ?l2 ++ _ |- _ => apply app_inj_1 in E as [? E]; [|congruence]
  | E : Fr_from_u64 _ = Fr_from_u64 _ |- _ =>
      apply Fr_from_u64_inj in E; [|unfold in_u in *; lia..]
  end; subst.

Section prefix_codes.
Context {FR : PrimeField fr_modulus}.

Lemma eth_address_to_fr_inj a b :
  length a = 20%nat → length b = 20%nat → eth_address_to_fr a = eth_address_to_fr b → a = b.
Proof.
  assert (∀ a, length a = 20%nat → pf_val (eth_address_to_fr a) = be_Z a) as Hv.
  { intros c Hc. unfold eth_address_to_fr. rewrite Fr_val_from_be, be_Z_app, be_Z_replicate_zero.
    pose proof (be_Z_range c) as Hr. rewrite Hc in Hr.
    apply pf_val_fr_small. assert (256 ^ Z.of_nat 20 < 2 ^ 253) by done. lia. }
  intros Ha Hb E%(f_equal pf_val). rewrite !Hv in E by done. apply be_Z_inj; [congruence|done].
Qed.

Lemma Fr_from_u128_inj a b : in_u 128 a → in_u 128 b → Fr_from_u128 a = Fr_from_u128 b → a = b.
Proof.
  intros Ha Hb E%(f_equal pf_val). rewrite !Fr_val_from_u128 in E. unfold in_u in *.
  by rewrite !Z.mod_small in E by lia.
Qed.

Lemma Fr_from_bool_inj a b : Fr_from_bool a = Fr_from_bool b → a = b.
Proof.
  pose proof Fr_one_ne_zero. destruct a, b; simpl; intros E; congruence.
Qed.

#[global] Instance message_fields_code : PrefixCode Message_ok ScopedL2ToL1Message_write_fields.
Proof.
  intros [[] ?] [[] ?] r s Hx Hy E. ok_split.
  unfold ScopedL2ToL1Message_write_fields, L2ToL1Message_write_fields in E; cbn in E. peel.
  match goal with H : eth_address_to_fr _ = _ |- _ => apply eth_address_to_fr_inj in H as ->; done end.
Qed.

#[global] Instance log_hash_fields_code : PrefixCode LogHash_ok ScopedLogHash_write_fields.
Proof.
  intros [[] ?] [[] ?] r s Hx Hy E. ok_split.
  unfold ScopedLogHash_write_fields, LogHash_write_fields in E; cbn in E. by peel.
Qed.

#[global] Instance private_log_fields_code : PrefixCode PrivateLog_ok PrivateLog_write_fields.
Proof.
  intros [] [] r s Hx Hy E. ok_split. unfold PrivateLog_write_fields in E; cbn in E. by peel.
Qed.

#[global] Instance request_fields_code : PrefixCode (λ _, True) PublicCallRequest_write_fields.
Proof.
  intros [] [] r s Hx Hy E. unfold PublicCallRequest_write_fields in E; cbn in E. peel.
  match goal with H : Fr_from_bool _ = _ |- _ => by apply Fr_from_bool_inj in H as -> end.
Qed.

#[global] Instance tree_fields_code : PrefixCode Tree_ok AppendOnlyTreeSnapshot_write_fields.
Proof.
  intros [] [] r s Hx Hy E. ok_split. unfold AppendOnlyTreeSnapshot_write_fields in E; cbn in E.
  by peel.
Qed.

#[global] Instance gas_fields_code : PrefixCode (Gas_ok 64) Gas_write_fields.
Proof. intros [] [] r s Hx Hy E. ok_split. unfold Gas_write_fields in E; cbn in E. by peel. Qed.

#[global] Instance gas_fees_fields_code : PrefixCode GasFees_ok GasFees_write_fields.
Proof.
  intros [] [] r s Hx Hy E. ok_split. unfold GasFees_write_fields in E; cbn in E. peel.
  repeat match goal with H : Fr_from_u128 _ = _ |- _ => apply Fr_from_u128_inj in H as ->; [|done..] end.
  done.
Qed.
#[global] Instance gas_settings_fields_code :
  PrefixCode (GasSettings_ok 64) GasSettings_write_fields.
Proof.
  intros [[g1|] [g2|] [g3|] [g4|]] [[h1|] [h2|] [h3|] [h4|]] r s Hx Hy E;
    unfold GasSettings_ok in *; cbn in *; destruct_and?; try done.
  unfold GasSettings_write_fields in E; cbn in E. by peel.
Qed.

#[global] Instance state_fields_code : PrefixCode State_ok StateReference_write_fields.
Proof.
  intros [? []] [? []] r s Hx Hy E. unfold State_ok in *; cbn in *; destruct_and?.
  unfold StateReference_write_fields, PartialStateReference_write_fields in E; cbn in E. by peel.
Qed.

#[global] Instance globals_fields_code : PrefixCode (Globals_ok 64) GlobalVariables_write_fields.
Proof.
  intros [] [] r s Hx Hy E. unfold Globals_ok in *; cbn in *; destruct_and?.
  unfold GlobalVariables_write_fields in E; cbn in E. peel.
  match goal with H : eth_address_to_fr _ = _ |- _ => apply eth_address_to_fr_inj in H as ->; done end.
Qed.

#[global] Instance header_fields_code : PrefixCode (Header_ok 64) BlockHeader_write_fields.
Proof.
  intros [] [] r s Hx Hy E. unfold Header_ok in *; cbn in *; destruct_and?.
  unfold BlockHeader_write_fields in E; cbn [last_archive bh_state sponge_blob_hash
    global_variables total_fees total_mana_used] in E. by peel.
Qed.

#[global] Instance constants_fields_code : PrefixCode (Constants_ok 64) TxConstantData_write_fields.
Proof.
  intros [? [] ? ?] [? [] ? ?] r s Hx Hy E. unfold Constants_ok in *; cbn in *; destruct_and?.
  unfold TxConstantData_write_fields, TxContext_write_fields in E;
    cbn [anchor_block_header tx_context vk_tree_root protocol_contracts_hash
         tc_chain_id tc_version tc_gas_settings] in E. by peel.
Qed.

#[global] Instance public_fields_code : PrefixCode Public_ok PrivateToPublicAccumulatedData_write_fields.
Proof.
  intros [] [] r s Hx Hy E. unfold Public_ok in *; cbn in *; destruct_and?.
  unfold PrivateToPublicAccumulatedData_write_fields in E; cbn in E. by peel.
Qed.

#[global] Instance rollup_fields_code : PrefixCode Rollup_ok PrivateToRollupAccumulatedData_write_fields.
Proof.
  intros [] [] r s Hx Hy E. unfold Rollup_ok in *; cbn in *; destruct_and?.
  unfold PrivateToRollupAccumulatedData_write_fields in E; cbn in E. by peel.
Qed.

Lemma public_inputs_fields_inj p q :
  PublicInputs_ok 64 p → PublicInputs_ok 64 q → is_for_public p = is_for_public q →
  PrivateKernelTailPublicInputs_to_fields p = PrivateKernelTailPublicInputs_to_fields q → p = q.
Proof.
  destruct p as [? ? ? ? [[]|] [[]|]], q as [? ? ? ? [[]|] [[]|]];
    unfold PublicInputs_ok, is_for_public; cbn; intros Hp Hq Hv E; destruct_and?; try done;
    unfold PrivateKernelTailPublicInputs_to_fields, ForPublic_write_fields in E; cbn in E.
  all: apply (f_equal (λ l, l ++ [])) in E.
  all: peel; done.
Qed.
End prefix_codes.

(** ** The buffer is a prefix code too *)

Section buffer_codes.
Context {FR : PrimeField fr_modulus}.

#[global] Instance write_fr_code : PrefixCode (λ _, True) write_fr.
Proof.
  apply (prefix_code_length _ _ 32).
  - intros x _. apply Fr_to_be_bytes_length.
  - intros x y _ _. unfold write_fr. rewrite !Fr_to_be_bytes_eq. apply pf_to_bytes_inj.
Qed.

Lemma be_bytes_code n w : 2 ^ w = 256 ^ Z.of_nat n → PrefixCode (in_u w) (be_bytes n).
Proof.
  intros Hw. apply (prefix_code_length _ _ n).
  - intros x _. apply length_be_bytes.
  - intros x y. unfold in_u. rewrite Hw. apply be_bytes_inj.
Qed.
#[global] Instance write_u32_code : PrefixCode (in_u 32) write_u32.
Proof. by apply be_bytes_code. Qed.
#[global] Instance write_u64_code : PrefixCode (in_u 64) write_u64.
Proof. by apply be_bytes_code. Qed.
#[global] Instance write_u128_code : PrefixCode (in_u 128) write_u128.
Proof. by apply be_bytes_code. Qed.
#[global] Instance write_bool_code : PrefixCode (λ _, True) write_bool.
Proof. intros [] [] r s _ _ [= ->]; done. Qed.
#[global] Instance write_eth_code : PrefixCode (λ a, length a = 20%nat) write_eth_address.
Proof. apply (prefix_code_length _ _ 20); [done|]. intros; done. Qed.

#[global] Instance write_tree_code : PrefixCode Tree_ok write_tree_snapshot.
Proof.
  intros [] [] r s Hx Hy E. ok_split. unfold write_tree_snapshot in E; cbn in E. by peel.
Qed.

#[global] Instance write_gas_code : PrefixCode (Gas_ok 32) write_gas_u32.
Proof.
  intros [] [] r s Hx Hy E. ok_split. unfold write_gas_u32 in E; cbn in E.
  rewrite !wrap_small in E by done. by peel.
Qed.

#[global] Instance write_gas_fees_code : PrefixCode GasFees_ok write_gas_fees.
Proof. intros [] [] r s Hx Hy E. ok_split. unfold write_gas_fees in E; cbn in E. by peel. Qed.

#[global] Instance write_header_code : PrefixCode (Header_ok 32) write_block_header.
Proof.
  intros [? [? []] ? [] ? ?] [? [? []] ? [] ? ?] r s Hx Hy E.
  unfold Header_ok, State_ok, Globals_ok in *; cbn in *; destruct_and?.
  unfold write_block_header in E; cbn in E. rewrite !wrap_small in E by done. by peel.
Qed.

#[global] Instance write_constants_code : PrefixCode (Constants_ok 32) write_tx_constant_data.
Proof.
  intros [? [? ? [[] [] [] []]] ? ?] [? [? ? [[] [] [] []]] ? ?] r s Hx Hy E;
    unfold Constants_ok, GasSettings_ok in *; cbn in *; destruct_and?; try done.
  unfold write_tx_constant_data in E; cbn in E. by peel.
Qed.

#[global] Instance write_message_code : PrefixCode Message_ok write_message.
Proof.
  intros [[] ?] [[] ?] r s Hx Hy E. unfold Message_ok in *; cbn in *.
  unfold write_message in E; cbn in E. by peel.
Qed.

#[global] Instance write_private_log_code : PrefixCode PrivateLog_ok write_private_log.
Proof.
  intros [] [] r s Hx Hy E. ok_split. unfold write_private_log in E; cbn in E. by peel.
Qed.

#[global] Instance write_log_hash_code : PrefixCode LogHash_ok write_log_hash.
Proof.
  intros [[] ?] [[] ?] r s Hx Hy E. ok_split. unfold write_log_hash in E; cbn in E. by peel.
Qed.

#[global] Instance write_request_code : PrefixCode (λ _, True) write_public_call_request.
Proof.
  intros [] [] r s Hx Hy E. unfold write_public_call_request in E; cbn in E. by peel.
Qed.

#[global] Instance write_public_code : PrefixCode Public_ok write_public_accumulated_data.
Proof.
  intros [] [] r s Hx Hy E. unfold Public_ok in *; cbn in *; destruct_and?.
  unfold write_public_accumulated_data in E; cbn in E. by peel.
Qed.

#[global] Instance write_rollup_code : PrefixCode Rollup_ok write_rollup_accumulated_data.
Proof.
  intros [] [] r s Hx Hy E. unfold Rollup_ok in *; cbn in *; destruct_and?.
  unfold write_rollup_accumulated_data in E; cbn in E. by peel.
Qed.

Lemma public_inputs_buffer_inj p q :
  PublicInputs_ok 32 p → PublicInputs_ok 32 q →
  PrivateKernelTailPublicInputs_to_buffer p = PrivateKernelTailPublicInputs_to_buffer q → p = q.
Proof.
  unfold PrivateKernelTailPublicInputs_to_buffer. intros Hp Hq E.
  apply (f_equal (λ l, l ++ [])) in E. rewrite <- !app_assoc in E.
  apply (prefix_code (f:=write_bool)) in E as [Ev E]; [|done..].
  destruct p as [? ? ? ? [[]|] [[]|]], q as [? ? ? ? [[]|] [[]|]];
    unfold PublicInputs_ok, is_for_public in *; cbn in Hp, Hq, Ev, E; destruct_and?; try done.
  all: peel; done.
Qed.
End buffer_codes.

(** ** The length of the buffer *)

Ltac unfold_limits :=
  unfold MAX_NOTE_HASHES_PER_TX, MAX_NULLIFIERS_PER_TX, MAX_L2_TO_L1_MSGS_PER_TX,
    MAX_PRIVATE_LOGS_PER_TX, MAX_CONTRACT_CLASS_LOGS_PER_TX, MAX_ENQUEUED_CALLS_PER_TX in *.

Section buffer_length.
Context {FR : PrimeField fr_modulus}.

Lemma write_fr_length f : length (write_fr f) = 32%nat.
Proof. apply Fr_to_be_bytes_length. Qed.
Lemma write_u32_length v : length (write_u32 v) = 4%nat.
Proof. apply length_be_bytes. Qed.
Lemma write_u64_length v : length (write_u64 v) = 8%nat.
Proof. apply length_be_bytes. Qed.
Lemma write_u128_length v : length (write_u128 v) = 16%nat.
Proof. apply length_be_bytes. Qed.
Lemma write_bool_length v : length (write_bool v) = 1%nat.
Proof. done. Qed.

Hint Rewrite @length_app write_fr_length write_u32_length write_u64_length write_u128_length
  write_bool_length : buffer_length.

Lemma write_frs_length l : length (mjoin (write_fr <$> l)) = (length l * 32)%nat.
Proof. apply mjoin_fmap_length, Forall_true. intros f. apply write_fr_length. Qed.

Lemma write_messages_length l :
  Forall Message_ok l → length (mjoin (write_message <$> l)) = (length l * 84)%nat.
Proof.
  intros Hl. apply mjoin_fmap_length. eapply Forall_impl; [exact Hl|].
  intros m Hm. unfold write_message, write_eth_address. autorewrite with buffer_length.
  by rewrite Hm.
Qed.

Lemma write_private_logs_length l :
  Forall PrivateLog_ok l → length (mjoin (write_private_log <$> l)) = (length l * 516)%nat.
Proof.
  intros Hl. apply mjoin_fmap_length. eapply Forall_impl; [exact Hl|].
  intros m [Hm _]. unfold write_private_log. autorewrite with buffer_length.
  by rewrite write_frs_length, Hm.
Qed.

Lemma write_log_hashes_length l : length (mjoin (write_log_hash <$> l)) = (length l * 68)%nat.
Proof.
  apply mjoin_fmap_length, Forall_true. intros m. unfold write_log_hash.
  by autorewrite with buffer_length.
Qed.

Lemma write_request_length r : length (write_public_call_request r) = 97%nat.
Proof. unfold write_public_call_request. by autorewrite with buffer_length. Qed.

Lemma write_requests_length l :
  length (mjoin (write_public_call_request <$> l)) = (length l * 97)%nat.
Proof. apply mjoin_fmap_length, Forall_true. intros r. apply write_request_length. Qed.

Lemma write_public_length d :
  Public_ok d → Z.of_nat (length (write_public_accumulated_data d)) = 40964.
Proof.
  intros (H1 & H2 & [H3 H3'] & [H4 H4'] & [H5 _] & H6). unfold write_public_accumulated_data.
  autorewrite with buffer_length.
  rewrite !write_frs_length, write_messages_length, write_private_logs_length,
    write_log_hashes_length, write_requests_length by done.
  rewrite H1, H2, H3, H4, H5, H6. unfold_limits. lia.
Qed.

Lemma write_rollup_length d :
  Rollup_ok d → Z.of_nat (length (write_rollup_accumulated_data d)) = 37860.
Proof.
  intros (H1 & H2 & [H3 H3'] & [H4 H4'] & [H5 _]). unfold write_rollup_accumulated_data.
  autorewrite with buffer_length.
  rewrite !write_frs_length, write_messages_length, write_private_logs_length,
    write_log_hashes_length by done.
  rewrite H1, H2, H3, H4, H5. unfold_limits. lia.
Qed.

Lemma write_constants_length w c : Constants_ok w c → length (write_tx_constant_data c) = 648%nat.
Proof.
  intros [(_ & _ & (_ & _ & _ & Hc & _)) _].
  unfold write_tx_constant_data, write_block_header, write_tree_snapshot, write_gas_fees,
    write_gas_u32, write_eth_address.
  autorewrite with buffer_length. by rewrite Hc.
Qed.

Lemma buffer_length w p :
  PublicInputs_ok w p →
  Z.of_nat (length (PrivateKernelTailPublicInputs_to_buffer p)) =
  if is_for_public p then 82722 else 38557.
Proof.
  unfold PrivateKernelTailPublicInputs_to_buffer, PublicInputs_ok, is_for_public, write_gas_u32.
  intros (Hc & _ & _ & Hv). autorewrite with buffer_length.
  rewrite (write_constants_length w) by done.
  destruct (pi_for_public p) as [d|], (pi_for_rollup p) as [d'|]; try done.
  - destruct Hv as [H1%write_public_length H2%write_public_length].
    autorewrite with buffer_length. rewrite write_request_length. lia.
  - apply write_rollup_length in Hv. lia.
Qed.
End buffer_length.

(** ** What the transaction hash commits to *)

Section hash_input.
Context {FR : PrimeField fr_modulus}.

(** The sponge input of [hash]. *)
Definition tx_hash_input (p : PrivateKernelTailPublicInputs) : list Fr :=
  Fr_from_u64 (if is_for_public p then domain_separator.PUBLIC_TX_HASH
               else domain_separator.PRIVATE_TX_HASH)
  :: PrivateKernelTailPublicInputs_to_fields p.

Lemma tx_separator_u64 (b : bool) :
  in_u 64 (if b then domain_separator.PUBLIC_TX_HASH else domain_separator.PRIVATE_TX_HASH).
Proof.
  unfold in_u, domain_separator.PUBLIC_TX_HASH, domain_separator.PRIVATE_TX_HASH.
  destruct b; lia.
Qed.

Lemma tx_hash_input_inj p q :
  PublicInputs_ok 64 p → PublicInputs_ok 64 q → tx_hash_input p = tx_hash_input q → p = q.
Proof.
  intros Hp Hq [Es E]%cons_inv. apply public_inputs_fields_inj; [done..| |done].
  apply Fr_from_u64_inj in Es; [|apply tx_separator_u64..].
  by destruct (is_for_public p), (is_for_public q).
Qed.
End hash_input.

(** ** Properties *)

Import Concrete.Instances.

Definition example_tree : AppendOnlyTreeSnapshot :=
  {| ts_root := Fr_zero; next_available_leaf_index := 7 |}.
Definition example_constants : TxConstantData :=
  {| anchor_block_header :=
       {| last_archive := example_tree;
          bh_state := {| l1_to_l2_message_tree := example_tree;
                         st_partial := {| note_hash_tree := example_tree;
                                          nullifier_tree := example_tree;
                                          public_data_tree := example_tree |} |};
          sponge_blob_hash := Fr_one;
          global_variables :=
            {| gv_chain_id := Fr_one; gv_version := Fr_one; gv_block_number := 3;
               gv_slot_number := 4; gv_timestamp := 5; gv_coinbase := replicate 20 zero_byte;
               gv_fee_recipient := Fr_zero; gv_gas_fees := MkGasFees 6 7 |};
          total_fees := Fr_zero; total_mana_used := Fr_zero |};
     tx_context := {| tc_chain_id := Fr_one; tc_version := Fr_one;
                      tc_gas_settings := GasSettings_default |};
     vk_tree_root := Fr_zero; protocol_contracts_hash := Fr_zero |}.
Definition example_inputs (gas : Gas) : PrivateKernelTailPublicInputs :=
  {| pi_constants := example_constants; pi_gas_used := gas; pi_fee_payer := Fr_one;
     pi_expiration_timestamp := 9; pi_for_public := None;
     pi_for_rollup := Some {| fr_end := PrivateToRollupAccumulatedData_empty |} |}.

Lemma rollup_empty_ok : Rollup_ok PrivateToRollupAccumulatedData_empty.
Proof.
  unfold Rollup_ok, PrivateToRollupAccumulatedData_empty; cbn [pr_note_hashes pr_nullifiers
    pr_l2_to_l1_msgs pr_private_logs pr_contract_class_logs_hashes].
  rewrite !length_replicate. split_and!; try done; apply Forall_replicate; done.
Qed.

Lemma example_inputs_ok w gas :
  (32 ≤ w) → Gas_ok w gas → PublicInputs_ok w (example_inputs gas).
Proof.
  intros Hw Hg. assert (2 ^ 32 ≤ 2 ^ w) by (apply Z.pow_le_mono_r; lia).
  unfold PublicInputs_ok, Constants_ok, Header_ok, State_ok, Globals_ok, Tree_ok, GasSettings_ok,
    GasFees_ok, present, Gas_ok, in_u in *. cbn -[Z.pow Rollup_ok].
  unfold DEFAULT_DA_GAS_LIMIT, DEFAULT_L2_GAS_LIMIT, DEFAULT_TEARDOWN_DA_GAS_LIMIT,
    DEFAULT_TEARDOWN_L2_GAS_LIMIT.
  split_and!; try lia; try done. apply rollup_empty_ok.
Qed.

(** C21: the transaction hash is a Poseidon2 hash whose input determines the
    public inputs: two well-formed ones with the same input are equal, and a
    public and a private-only transaction never share it. *)
Theorem tx_hash_commits `{PrimeField fr_modulus} `{!Poseidon2Crate}
    (p q : PrivateKernelTailPublicInputs) :
  PublicInputs_ok 64 p → PublicInputs_ok 64 q →
  PrivateKernelTailPublicInputs_hash p = poseidon2_hash (tx_hash_input p) ∧
  (tx_hash_input p = tx_hash_input q ↔ p = q).
Proof.
  intros Hp Hq. split; [done|]. split; [by apply tx_hash_input_inj|by intros ->].
Qed.

Lemma tx_hash_commits_witness :
  example_inputs (MkGas 1 2) ≠ example_inputs (MkGas 1 3) ∧
  tx_hash_input (example_inputs (MkGas 1 2)) ≠ tx_hash_input (example_inputs (MkGas 1 3)).
Proof.
  assert (example_inputs (MkGas 1 2) ≠ example_inputs (MkGas 1 3)) as Hne
    by (intros E; by injection E).
  split; [exact Hne|]. intros E. apply Hne.
  refine (proj1 (proj2 (tx_hash_commits _ _ _ _)) E);
    apply example_inputs_ok; (lia || (split; done)).
Defined.

(** The wire buffer has one length per variant and determines the public
    inputs when gas amounts, block and slot numbers fit 32 bits. *)
Theorem tx_buffer_injective `{PrimeField fr_modulus} (p q : PrivateKernelTailPublicInputs) :
  PublicInputs_ok 32 p → PublicInputs_ok 32 q →
  Z.of_nat (length (PrivateKernelTailPublicInputs_to_buffer p)) =
    (if is_for_public p then 82722 else 38557) ∧
  (PrivateKernelTailPublicInputs_to_buffer p = PrivateKernelTailPublicInputs_to_buffer q → p = q).
Proof. intros Hp Hq. split; [by apply (buffer_length 32)|by apply public_inputs_buffer_inj]. Qed.

Lemma tx_buffer_injective_witness :
  let buffer g := PrivateKernelTailPublicInputs_to_buffer (example_inputs g) in
  Z.of_nat (length (buffer (MkGas 1 2))) = 38557 ∧ buffer (MkGas 1 2) ≠ buffer (MkGas 1 3).
Proof.
  cbn zeta beta.
  assert (∀ g, g = MkGas 1 2 ∨ g = MkGas 1 3 → PublicInputs_ok 32 (example_inputs g)) as Hok
    by (intros g [-> | ->]; apply example_inputs_ok; (lia || (split; done))).
  destruct (tx_buffer_injective (example_inputs (MkGas 1 2)) (example_inputs (MkGas 1 3))
    (Hok _ (or_introl eq_refl)) (Hok _ (or_intror eq_refl))) as [L I].
  split; [exact L|]. intros E. specialize (I E). by injection I.
Defined.

(** The buffer drops the upper half of a gas amount: adding [2^32] to the
    gas used gives the same buffer, although the hash input differs. *)
Theorem tx_buffer_truncates_gas `{PrimeField fr_modulus} (p : PrivateKernelTailPublicInputs) :
  let more := {| pi_constants := pi_constants p;
                 pi_gas_used := MkGas (da_gas (pi_gas_used p) + 2 ^ 32) (l2_gas (pi_gas_used p));
                 pi_fee_payer := pi_fee_payer p;
                 pi_expiration_timestamp := pi_expiration_timestamp p;
                 pi_for_public := pi_for_public p; pi_for_rollup := pi_for_rollup p |} in
  PublicInputs_ok 64 p → PublicInputs_ok 64 more →
  PrivateKernelTailPublicInputs_to_buffer more = PrivateKernelTailPublicInputs_to_buffer p ∧
  tx_hash_input more ≠ tx_hash_input p.
Proof.
  intros more Hp Hm. split.
  - unfold PrivateKernelTailPublicInputs_to_buffer, more, is_for_public; cbn [pi_constants pi_gas_used
      pi_fee_payer pi_expiration_timestamp pi_for_public pi_for_rollup].
    do 2 f_equal. f_equal. unfold write_gas_u32, wrap; cbn [da_gas l2_gas].
    replace (da_gas (pi_gas_used p) + 2 ^ 32) with (da_gas (pi_gas_used p) + 1 * 2 ^ 32) by lia.
    by rewrite Z.mod_add.
  - intros E%tx_hash_input_inj; [|done..]. apply (f_equal (λ x, da_gas (pi_gas_used x))) in E.
    cbn in E. lia.
Qed.

Lemma tx_buffer_truncates_gas_witness :
  PrivateKernelTailPublicInputs_to_buffer (example_inputs (MkGas 4294967301 2)) =
    PrivateKernelTailPublicInputs_to_buffer (example_inputs (MkGas 5 2)) ∧
  tx_hash_input (example_inputs (MkGas 4294967301 2)) ≠ tx_hash_input (example_inputs (MkGas 5 2)).
Proof.
  refine ((tx_buffer_truncates_gas (example_inputs (MkGas 5 2)) _ _));
    apply example_inputs_ok; (lia || (split; done)).
Defined.
