(* ===== verification/Tx.v ===== *)
(** [crates/core/src/{tx,validation}.rs]: receipts, function calls, execution
    payloads, hashed values, contract class logs and the checks the node makes on
    a typed transaction. *)

From Stdlib Require Import Ascii String.
From S2P Require Import Prelude Bytes Ordered Deps Concrete Types Constants Poseidon AbiTypes KernelTypes.

(** ** Receipts *)

Inductive TxStatus := Dropped | Pending | Proposed | Checkpointed | Proven | Finalized.
Inductive TxExecutionResult := Success | AppLogicReverted | TeardownReverted | BothReverted.

#[global] Instance TxStatus_eq_dec : EqDecision TxStatus.
Proof. solve_decision. Defined.
#[global] Instance TxExecutionResult_eq_dec : EqDecision TxExecutionResult.
Proof. solve_decision. Defined.

Record TxReceipt := {
  tx_hash : TxHash;
  tx_status : TxStatus;
  execution_result : option TxExecutionResult;
  tx_error : option string;
  transaction_fee : option Z;
  block_hash : option (list byte);
  rc_block_number : option Z;
  epoch_number : option Z;
}.

Definition is_mined (r : TxReceipt) : bool :=
  match tx_status r with
  | Proposed | Checkpointed | Proven | Finalized => true
  | _ => false
  end.
Definition is_pending (r : TxReceipt) : bool := bool_decide (tx_status r = Pending).
Definition is_dropped (r : TxReceipt) : bool := bool_decide (tx_status r = Dropped).
Definition has_execution_succeeded (r : TxReceipt) : bool :=
  bool_decide (execution_result r = Some Success).
Definition has_execution_reverted (r : TxReceipt) : bool :=
  (if execution_result r then true else false) && negb (has_execution_succeeded r).

Section tx.
Context {FR : PrimeField fr_modulus}.

(** ** Calls, witnesses, capsules and hashed values *)

Record FunctionCall := {
  fc_to : AztecAddress;
  fc_selector : FunctionSelector;
  fc_args : list AbiValue;
  fc_function_type : FunctionType;
  fc_is_static : bool;
  fc_hide_msg_sender : bool;
}.

Definition FunctionCall_empty : FunctionCall :=
  {| fc_to := AztecAddress_zero; fc_selector := FunctionSelector_empty; fc_args := [];
     fc_function_type := Private; fc_is_static := false; fc_hide_msg_sender := false |}.
Definition FunctionCall_is_empty (c : FunctionCall) : bool :=
  bool_decide (fc_to c = AztecAddress_zero)
  && bool_decide (fc_selector c = FunctionSelector_empty).

Record AuthWitness := { aw_request_hash : Fr; aw_fields : list Fr }.
Record Capsule := {
  cap_contract_address : AztecAddress;
  cap_storage_slot : Fr;
  cap_data : list Fr;
}.

(** [to_fields] of [tx.rs]'s [TxContext]. *)
Definition tx_TxContext_to_fields (c : TxContext) : list Fr :=
  let gs := tc_gas_settings c in
  let limits := default Gas_default (gas_limits gs) in
  let teardown := default Gas_default (teardown_gas_limits gs) in
  let max_fee := default GasFees_default (max_fee_per_gas gs) in
  let max_priority := default GasFees_default (max_priority_fee_per_gas gs) in
  [tc_chain_id c; tc_version c;
   Fr_from_u64 (da_gas limits); Fr_from_u64 (l2_gas limits);
   Fr_from_u64 (da_gas teardown); Fr_from_u64 (l2_gas teardown);
   Fr_from_u128 (fee_per_da_gas max_fee); Fr_from_u128 (fee_per_l2_gas max_fee);
   Fr_from_u128 (fee_per_da_gas max_priority); Fr_from_u128 (fee_per_l2_gas max_priority)].

(** The fields of a transaction request, in the order they are pushed. *)
Definition tx_request_fields (origin : AztecAddress) (args_hash : Fr) (tx_context : TxContext)
    (function_selector : FunctionSelector) (is_private : bool) (salt : Fr) : list Fr :=
  [origin; args_hash] ++ tx_TxContext_to_fields tx_context
  ++ [FunctionSelector_to_field function_selector; Fr_from_bool is_private; salt].

Definition compute_tx_request_hash `{!Poseidon2Crate} (origin : AztecAddress) (args_hash : Fr)
    (tx_context : TxContext) (function_selector : FunctionSelector) (is_private : bool)
    (salt : Fr) : Fr :=
  poseidon2_hash_with_separator
    (tx_request_fields origin args_hash tx_context function_selector is_private salt)
    domain_separator.TX_REQUEST.

Record HashedValues := { hv_values : list Fr; hv_hash : Fr }.

Definition HashedValues_from_args `{!Poseidon2Crate} (args : list Fr) : HashedValues :=
  {| hv_values := args; hv_hash := compute_var_args_hash args |}.
Definition HashedValues_from_calldata `{!Poseidon2Crate} (calldata : list Fr) : HashedValues :=
  {| hv_values := calldata; hv_hash := compute_calldata_hash calldata |}.

(** ** Contract class logs *)

Record ContractClassLogFields := { cclf_fields : list Fr }.

Definition from_emitted_fields (emitted_fields : list Fr) : ContractClassLogFields :=
  {| cclf_fields :=
       if Z.of_nat (length emitted_fields) <? CONTRACT_CLASS_LOG_SIZE_IN_FIELDS
       then vec_resize (Z.to_nat CONTRACT_CLASS_LOG_SIZE_IN_FIELDS) Fr_zero emitted_fields
       else emitted_fields |}.

(** [iter().rposition(|f| *f != Fr::zero())]: the index of the last one. *)
Fixpoint last_nonzero (l : list Fr) : option nat :=
  match l with
  | [] => None
  | f :: l' =>
      match last_nonzero l' with
      | Some i => Some (S i)
      | None => if bool_decide (f = Fr_zero) then None else Some 0%nat
      end
  end.

Definition emitted_fields (c : ContractClassLogFields) : list Fr :=
  match last_nonzero (cclf_fields c) with
  | Some index => take (S index) (cclf_fields c)
  | None => []
  end.

(** ** Transactions *)

Record TypedTx := {
  ttx_tx_hash : TxHash;
  ttx_data : PrivateKernelTailPublicInputs;
  ttx_chonk_proof : list byte;
  ttx_contract_class_log_fields : list ContractClassLogFields;
  ttx_public_function_calldata : list HashedValues;
}.

(** The stdlib buffers of a node-facing transaction. *)
Record PrivateKernelTailCircuitPublicInputs := { pki_bytes : list byte }.
Record ChonkProof := { chonk_bytes : list byte }.

Record NodeTx := {
  ntx_data : PrivateKernelTailCircuitPublicInputs;
  ntx_chonk_proof : ChonkProof;
  ntx_contract_class_log_fields : list ContractClassLogFields;
  ntx_public_function_calldata : list HashedValues;
}.

(** [Tx::to_json_value]. *)
Definition to_json_value `{JS : JsonCrate} `{!ToValue NodeTx} (tx : NodeTx) : Outcome json_value :=
  match to_value tx with inr v => Ok v | inl e => Err (Json e) end.

Definition get_total_public_calldata_count (tx : TypedTx) : Z :=
  usize_sum ((λ hv, Z.of_nat (length (hv_values hv))) <$> ttx_public_function_calldata tx).

Definition get_public_call_requests_with_calldata (tx : TypedTx)
    : list (PublicCallRequest * HashedValues) :=
  zip (get_all_public_call_requests (ttx_data tx)) (ttx_public_function_calldata tx).

Record ExecutionPayload := {
  ep_calls : list FunctionCall;
  ep_auth_witnesses : list AuthWitness;
  ep_capsules : list Capsule;
  ep_extra_hashed_args : list HashedValues;
  ep_fee_payer : option AztecAddress;
}.

Definition ExecutionPayload_default : ExecutionPayload :=
  {| ep_calls := []; ep_auth_witnesses := []; ep_capsules := []; ep_extra_hashed_args := [];
     ep_fee_payer := None |}.

Section merge.
Context {HX : HexCrate}.

Definition fee_payer_conflict (existing payer : AztecAddress) : Error :=
  InvalidData ("conflicting fee payers: " +:+ Fr_to_string existing +:+ " vs "
               +:+ Fr_to_string payer).

(** One iteration of the loop of [merge], on the five accumulators. *)
Definition merge_step (acc payload : ExecutionPayload) : Outcome ExecutionPayload :=
  let extended :=
    {| ep_calls := ep_calls acc ++ ep_calls payload;
       ep_auth_witnesses := ep_auth_witnesses acc ++ ep_auth_witnesses payload;
       ep_capsules := ep_capsules acc ++ ep_capsules payload;
       ep_extra_hashed_args := ep_extra_hashed_args acc ++ ep_extra_hashed_args payload;
       ep_fee_payer :=
         match ep_fee_payer payload with
         | Some payer => Some payer
         | None => ep_fee_payer acc
         end |} in
  match ep_fee_payer payload, ep_fee_payer acc with
  | Some payer, Some existing =>
      if bool_decide (existing = payer) then Ok extended
      else Err (fee_payer_conflict existing payer)
  | _, _ => Ok extended
  end.

Definition merge (payloads : list ExecutionPayload) : Outcome ExecutionPayload :=
  ofoldl merge_step ExecutionPayload_default payloads.
End merge.

(** ** [validation.rs] *)

Section validation.
Context {HX : HexCrate} `{!Poseidon2Crate}.

Definition calldata_hash_error (request : PublicCallRequest) : Error :=
  InvalidData ("TX_ERROR_INCORRECT_CALLDATA: calldata hash mismatch for call to "
               +:+ Fr_to_string (pcr_contract_address request)).

Definition check_calldata_hash (rc : PublicCallRequest * HashedValues) : Outcome unit :=
  let computed_hash := compute_calldata_hash (hv_values rc.2) in
  if bool_decide (computed_hash = pcr_calldata_hash rc.1) then Ok ()
  else Err (calldata_hash_error rc.1).

Definition validate_calldata (tx : TypedTx) : Outcome unit :=
  let expected_count := number_of_public_calls (ttx_data tx) in
  let actual_count := Z.of_nat (length (ttx_public_function_calldata tx)) in
  if negb (actual_count =? expected_count) then
    Err (InvalidData ("TX_ERROR_CALLDATA_COUNT_MISMATCH: expected " +:+ pretty expected_count
                      +:+ " calldata entries, got " +:+ pretty actual_count))
  else
    let total_fields := get_total_public_calldata_count tx in
    if MAX_FR_CALLDATA_TO_ALL_ENQUEUED_CALLS <? total_fields then
      Err (InvalidData ("TX_ERROR_CALLDATA_COUNT_TOO_LARGE: total calldata fields "
                        +:+ pretty total_fields +:+ " exceeds max "
                        +:+ pretty MAX_FR_CALLDATA_TO_ALL_ENQUEUED_CALLS))
    else
      let? _ := omapM check_calldata_hash (get_public_call_requests_with_calldata tx) in Ok ().
End validation.

Definition expected_min_length (fields : ContractClassLogFields) : Z :=
  1 + Z.of_nat (default 0%nat (last_nonzero (cclf_fields fields))).

Definition check_class_log (log_hashes : list ScopedLogHash)
    (i_fields : nat * ContractClassLogFields) : Outcome unit :=
  match log_hashes !! i_fields.1 with
  | Some hash_entry =>
      let len := lh_length (slh_log_hash hash_entry) in
      if len <? expected_min_length i_fields.2 then
        Err (InvalidData ("TX_ERROR_CONTRACT_CLASS_LOG_LENGTH: log " +:+ pretty i_fields.1
                          +:+ " has length " +:+ pretty len +:+ " but minimum is "
                          +:+ pretty (expected_min_length i_fields.2)))
      else Ok ()
  | None => Ok ()
  end.

Definition validate_contract_class_logs (public_inputs : PrivateKernelTailPublicInputs)
    (log_fields : list ContractClassLogFields) : Outcome unit :=
  let log_hashes := get_non_empty_contract_class_logs_hashes public_inputs in
  if decide (length log_hashes = length log_fields) then
    let? _ := omapM (check_class_log log_hashes) (imap pair log_fields) in Ok ()
  else
    Err (InvalidData ("TX_ERROR_CONTRACT_CLASS_LOG_COUNT: expected "
                      +:+ pretty (length log_hashes) +:+ " log field entries, got "
                      +:+ pretty (length log_fields))).
End tx.

(** ** Lemmas *)

Section tx_lemmas.
Context {FR : PrimeField fr_modulus}.

Lemma TxContext_to_fields_agree (c : TxContext) : tx_TxContext_to_fields c = TxContext_to_fields c.
Proof. done. Qed.

#[global] Instance tx_context_fields_code :
  PrefixCode (λ c, GasSettings_ok 64 (tc_gas_settings c)) TxContext_to_fields.
Proof.
  intros [] [] r s Hx Hy E. unfold TxContext_to_fields, TxContext_write_fields in E; cbn in *.
  by peel.
Qed.

(** The context of a request takes ten fields, so the rest of the list is
    determined too. *)
Lemma tx_request_fields_inj o1 a1 c1 f1 p1 s1 o2 a2 c2 f2 p2 s2 :
  GasSettings_ok 64 (tc_gas_settings c1) → GasSettings_ok 64 (tc_gas_settings c2) →
  length f1 = 4%nat → length f2 = 4%nat →
  tx_request_fields o1 a1 c1 f1 p1 s1 = tx_request_fields o2 a2 c2 f2 p2 s2 →
  o1 = o2 ∧ a1 = a2 ∧ c1 = c2 ∧ f1 = f2 ∧ p1 = p2 ∧ s1 = s2.
Proof.
  unfold tx_request_fields. rewrite !TxContext_to_fields_agree. intros H1 H2 Hf1 Hf2 E.
  simpl in E. apply cons_inv in E as [-> E]. apply cons_inv in E as [-> E].
  apply (prefix_code (f:=TxContext_to_fields)) in E as [-> E]; [|done..].
  apply cons_inv in E as [Ef E]. apply cons_inv in E as [Ep E]. apply cons_inv in E as [-> _].
  apply Fr_from_bool_inj in Ep as ->.
  apply (f_equal field_to_selector_bytes) in Ef. unfold FunctionSelector_to_field in Ef.
  rewrite !selector_field_roundtrip in Ef by done. by subst.
Qed.

Lemma last_nonzero_None l : last_nonzero l = None ↔ Forall (λ f, f = Fr_zero) l.
Proof.
  induction l as [|f l IH]; simpl; [done|]. rewrite Forall_cons, <- IH.
  destruct (last_nonzero l); [naive_solver|].
  destruct (decide (f = Fr_zero)); [rewrite bool_decide_eq_true_2|rewrite bool_decide_eq_false_2];
    naive_solver.
Qed.

Lemma last_nonzero_snoc l f pad :
  f ≠ Fr_zero → last_nonzero (l ++ [f] ++ replicate pad Fr_zero) = Some (length l).
Proof.
  intros Hf. induction l as [|x l IH]; [simpl|rewrite <- app_comm_cons; cbn [last_nonzero]; by rewrite IH].
  assert (last_nonzero (replicate pad Fr_zero) = None) as ->
    by (apply last_nonzero_None, Forall_replicate; done).
  by rewrite bool_decide_eq_false_2.
Qed.

Lemma last_nonzero_Some l i :
  last_nonzero l = Some i →
  ∃ f, l !! i = Some f ∧ f ≠ Fr_zero ∧ Forall (λ f, f = Fr_zero) (drop (S i) l).
Proof.
  revert i. induction l as [|f l IH]; intros i; simpl; [done|].
  destruct (last_nonzero l) as [j|] eqn:E.
  - intros [= <-]. simpl. by apply IH.
  - destruct (decide (f = Fr_zero)); [by rewrite bool_decide_eq_true_2|].
    rewrite bool_decide_eq_false_2 by done. intros [= <-]. exists f. simpl. rewrite drop_0.
    split_and!; [done..|]. by apply last_nonzero_None.
Qed.

Lemma emitted_from_emitted l f :
  f ≠ Fr_zero → emitted_fields (from_emitted_fields (l ++ [f])) = l ++ [f].
Proof.
  intros Hf. unfold emitted_fields, from_emitted_fields. cbn [cclf_fields].
  assert (∃ pad, (if Z.of_nat (length (l ++ [f])) <? CONTRACT_CLASS_LOG_SIZE_IN_FIELDS
                  then vec_resize (Z.to_nat CONTRACT_CLASS_LOG_SIZE_IN_FIELDS) Fr_zero (l ++ [f])
                  else l ++ [f]) = l ++ [f] ++ replicate pad Fr_zero) as [pad ->].
  { destruct (Z.ltb_spec (Z.of_nat (length (l ++ [f]))) CONTRACT_CLASS_LOG_SIZE_IN_FIELDS).
    - unfold vec_resize. rewrite resize_ge by lia. rewrite <- app_assoc. by eexists.
    - exists 0%nat. done. }
  rewrite last_nonzero_snoc by done. rewrite app_assoc.
  apply take_app_length'. rewrite length_app. simpl. lia.
Qed.

(** *** Merging *)

Definition payers (l : list ExecutionPayload) : list AztecAddress := omap ep_fee_payer l.

Definition merged (acc : ExecutionPayload) (l : list ExecutionPayload) (p : option AztecAddress)
    : ExecutionPayload :=
  {| ep_calls := ep_calls acc ++ mjoin (ep_calls <$> l);
     ep_auth_witnesses := ep_auth_witnesses acc ++ mjoin (ep_auth_witnesses <$> l);
     ep_capsules := ep_capsules acc ++ mjoin (ep_capsules <$> l);
     ep_extra_hashed_args := ep_extra_hashed_args acc ++ mjoin (ep_extra_hashed_args <$> l);
     ep_fee_payer := p |}.

Lemma merge_loop `{HexCrate} l acc :
  let known := option_list (ep_fee_payer acc) ++ payers l in
  (∃ p, known ⊆ option_list p ∧ option_list p ⊆ known ∧
     ofoldl merge_step acc l = Ok (merged acc l p)) ∨
  (∃ e p, e ∈ known ∧ p ∈ known ∧ e ≠ p ∧
     ofoldl merge_step acc l = Err (fee_payer_conflict e p)).
Proof.
  revert acc. induction l as [|x l IH]; intros acc; cbn [ofoldl].
  { left. exists (ep_fee_payer acc). unfold payers, merged. simpl. rewrite !app_nil_r.
    split_and!; [done|done|by destruct acc]. }
  destruct (merge_step acc x) as [acc'|err|] eqn:E.
  2: { right. unfold merge_step in E. unfold payers. simpl.
       destruct (ep_fee_payer x) as [p|]; [|done]. destruct (ep_fee_payer acc) as [e|]; [|done].
       case_bool_decide; [done|]. simplify_eq. exists e, p. simpl. set_solver. }
  2: { unfold merge_step in E. destruct (ep_fee_payer x), (ep_fee_payer acc);
         [case_bool_decide|..]; done. }
  cbn [obind].
  assert (∀ p, merged acc' l p = merged acc (x :: l) p) as Hm.
  { intros p. unfold merge_step in E. unfold merged. rewrite !fmap_cons, !mjoin_cons, !app_assoc.
    destruct (ep_fee_payer x), (ep_fee_payer acc); [case_bool_decide|..]; by simplify_eq. }
  assert (∀ a, a ∈ option_list (ep_fee_payer acc') ++ payers l ↔
               a ∈ option_list (ep_fee_payer acc) ++ payers (x :: l)) as Hk.
  { unfold merge_step in E. unfold payers; cbn [omap list_omap].
    destruct (ep_fee_payer x) as [p|] eqn:Ex, (ep_fee_payer acc) as [e|] eqn:Ea;
      [case_bool_decide|..]; simplify_eq/=; rewrite ?Ex, ?Ea; set_solver. }
  destruct (IH acc') as [(p & H1 & H2 & ->)|(e & p & H1 & H2 & H3 & ->)].
  - left. exists p. rewrite Hm. split_and!; [| |done]; intros a Ha.
    + by apply H1, Hk.
    + by apply Hk, H2.
  - right. exists e, p. split_and!; [by apply Hk..|done|done].
Qed.

Lemma number_of_public_calls_length p :
  PublicInputs_ok 64 p →
  number_of_public_calls p = Z.of_nat (length (get_all_public_call_requests p)).
Proof.
  unfold number_of_public_calls, get_all_public_call_requests, PublicInputs_ok.
  intros (_ & _ & _ & Hv). destruct (pi_for_public p) as [d|]; [|done].
  destruct (pi_for_rollup p); [done|]. destruct Hv as [(_ & _ & _ & _ & _ & H1) (_ & _ & _ & _ & _ & H2)].
  assert (∀ l, (length (non_empty_requests l) ≤ length l)%nat) as Hf
    by (intros l; apply filter_length_le).
  pose proof (Hf (pp_public_call_requests (non_revertible_accumulated_data d))).
  pose proof (Hf (pp_public_call_requests (revertible_accumulated_data d))).
  rewrite H1, H2 in *. unfold_limits. rewrite !length_app.
  assert (length (if PublicCallRequest_is_empty (public_teardown_call_request d) then []
                  else [public_teardown_call_request d]) =
          if PublicCallRequest_is_empty (public_teardown_call_request d) then 0%nat else 1%nat) as ->
    by (by destruct (PublicCallRequest_is_empty _)).
  rewrite (wrap_small 64 (Z.of_nat _ + Z.of_nat _)) by (unfold in_u; lia).
  rewrite wrap_small; [destruct (PublicCallRequest_is_empty _); lia|].
  unfold in_u. destruct (PublicCallRequest_is_empty _); lia.
Qed.

Lemma omapM_unit {A} (f : A → Outcome unit) (P : A → Prop) l :
  (∀ x, f x = Ok () ↔ P x) → (let? _ := omapM f l in Ok ()) = Ok () ↔ Forall P l.
Proof.
  intros Hf. rewrite obind_ok. split.
  - intros (ys & Hys%omapM_Forall2 & _). induction Hys as [|x [] l ys Hx]; constructor; [|done].
    by apply Hf.
  - intros Hl. exists (replicate (length l) ()). split; [|done]. apply omapM_Forall2.
    induction Hl; simpl; constructor; [by apply Hf|done].
Qed.

Lemma check_calldata_hash_ok `{HexCrate} `{!Poseidon2Crate} rc :
  check_calldata_hash rc = Ok () ↔ compute_calldata_hash (hv_values rc.2) = pcr_calldata_hash rc.1.
Proof. unfold check_calldata_hash. case_bool_decide; naive_solver. Qed.

Lemma Forall_zip {A B} (P : A → B → Prop) (l : list A) (k : list B) :
  length l = length k → Forall (λ xy, P xy.1 xy.2) (zip l k) ↔ Forall2 P l k.
Proof.
  revert k. induction l as [|x l IH]; intros [|y k] Hl; try done; simpl.
  by rewrite Forall_cons, Forall2_cons, IH by (by injection Hl).
Qed.

Lemma check_class_log_ok hs i l :
  check_class_log hs (i, l) = Ok () ↔
  match hs !! i with
  | Some h => expected_min_length l ≤ lh_length (slh_log_hash h)
  | None => True
  end.
Proof.
  unfold check_class_log. simpl. destruct (hs !! i) as [h|]; [|done].
  destruct (Z.ltb_spec (lh_length (slh_log_hash h)) (expected_min_length l)); split; (done || lia).
Qed.
End tx_lemmas.

(** ** Properties *)

Import Concrete.Instances.

(** Merging concatenates the parts of the payloads in order and keeps the
    one fee payer the payloads name, if any; it fails exactly when two of them
    name different payers, with the error that reports such a pair. *)
Theorem merge_spec `{PrimeField fr_modulus} `{HexCrate} (l : list ExecutionPayload) :
  ((∀ a b, a ∈ payers l → b ∈ payers l → a = b) ∧
   merge l = Ok {| ep_calls := mjoin (ep_calls <$> l);
                   ep_auth_witnesses := mjoin (ep_auth_witnesses <$> l);
                   ep_capsules := mjoin (ep_capsules <$> l);
                   ep_extra_hashed_args := mjoin (ep_extra_hashed_args <$> l);
                   ep_fee_payer := head (payers l) |}) ∨
  (∃ a b, a ∈ payers l ∧ b ∈ payers l ∧ a ≠ b ∧ merge l = Err (fee_payer_conflict a b)).
Proof.
  unfold merge. destruct (merge_loop l ExecutionPayload_default) as [(p & H1 & H2 & ->)|Herr];
    [left|right; exact Herr].
  simpl in H1, H2. split.
  - intros a b Ha%H1 Hb%H1. destruct p; set_solver.
  - unfold merged. simpl. do 2 f_equal. destruct (payers l) as [|a ps] eqn:E; simpl.
    + destruct p as [a|]; [|done]. specialize (H2 a). set_solver.
    + specialize (H1 a (list_elem_of_here _ _)). destruct p; set_solver.
Qed.

(** A typed transaction passes the calldata check exactly when there is one
    calldata entry per non-empty public call request, each hashing to the
    request's [calldata_hash], and the total does not exceed the protocol's
    maximum. *)
Theorem validate_calldata_spec `{PrimeField fr_modulus} `{HexCrate} `{!Poseidon2Crate} (tx : TypedTx) :
  PublicInputs_ok 64 (ttx_data tx) →
  validate_calldata tx = Ok () ↔
  Forall2 (λ r c, compute_calldata_hash (hv_values c) = pcr_calldata_hash r)
    (get_all_public_call_requests (ttx_data tx)) (ttx_public_function_calldata tx) ∧
  get_total_public_calldata_count tx ≤ MAX_FR_CALLDATA_TO_ALL_ENQUEUED_CALLS.
Proof.
  intros Hok. unfold validate_calldata. rewrite number_of_public_calls_length by done.
  set (rs := get_all_public_call_requests (ttx_data tx)).
  set (cs := ttx_public_function_calldata tx).
  destruct (Z.eqb_spec (Z.of_nat (length cs)) (Z.of_nat (length rs))) as [Hl|Hl]; simpl negb; cbv iota.
  2: { split; [done|]. intros [Hf%Forall2_length _]. lia. }
  destruct (Z.ltb_spec MAX_FR_CALLDATA_TO_ALL_ENQUEUED_CALLS (get_total_public_calldata_count tx)).
  { split; [done|lia]. }
  rewrite (omapM_unit _ _ _ check_calldata_hash_ok).
  unfold get_public_call_requests_with_calldata. fold rs cs.
  rewrite (Forall_zip (λ r c, compute_calldata_hash (hv_values c) = pcr_calldata_hash r)) by lia.
  naive_solver.
Qed.

Definition example_typed_tx (calldata : list HashedValues) : TypedTx :=
  {| ttx_tx_hash := TxHash_zero; ttx_data := example_inputs (MkGas 1 2); ttx_chonk_proof := [];
     ttx_contract_class_log_fields := []; ttx_public_function_calldata := calldata |}.

Lemma validate_calldata_spec_witness :
  validate_calldata (example_typed_tx []) = Ok () ∧
  validate_calldata (example_typed_tx [{| hv_values := []; hv_hash := Fr_zero |}]) ≠ Ok ().
Proof.
  assert (∀ c, PublicInputs_ok 64 (ttx_data (example_typed_tx c))) as Hok
    by (intros; apply example_inputs_ok; [lia|split; done]).
  split.
  - apply (validate_calldata_spec _ (Hok [])). split; [constructor|vm_compute; discriminate].
  - intros E. apply (validate_calldata_spec _ (Hok _)) in E as [E _]. inversion E.
Defined.

(** The contract class log check compares only counts and lengths: any log
    fields of the right number whose last non-zero index is below the committed
    length pass, whatever the committed hash. *)
Theorem validate_class_logs_spec `{PrimeField fr_modulus} (p : PrivateKernelTailPublicInputs)
    (logs : list ContractClassLogFields) :
  validate_contract_class_logs p logs = Ok () ↔
  Forall2 (λ h l, expected_min_length l ≤ lh_length (slh_log_hash h))
    (get_non_empty_contract_class_logs_hashes p) logs.
Proof.
  unfold validate_contract_class_logs. set (hs := get_non_empty_contract_class_logs_hashes p).
  case_decide as Hl; [|split; [done|by intros ?%Forall2_length]].
  rewrite (omapM_unit _ (λ il, match hs !! il.1 with
             | Some h => expected_min_length il.2 ≤ lh_length (slh_log_hash h)
             | None => True end)) by (intros [i l]; apply check_class_log_ok).
  rewrite Forall_lookup, Forall2_lookup. split.
  - intros Hf i. destruct (hs !! i) as [h|] eqn:Eh, (logs !! i) as [l|] eqn:El; try constructor.
    + specialize (Hf i (i, l)). rewrite list_lookup_imap, El in Hf. specialize (Hf eq_refl).
      simpl in Hf. by rewrite Eh in Hf.
    + apply lookup_lt_Some in Eh. apply lookup_ge_None in El. lia.
    + apply lookup_lt_Some in El. apply lookup_ge_None in Eh. lia.
  - intros Hf i il. rewrite list_lookup_imap. intros (l & El & ->)%fmap_Some. simpl.
    specialize (Hf i). rewrite El in Hf. destruct (hs !! i); [|done]. by inversion Hf.
Qed.

(** The emitted fields of a class log survive the padding to the protocol
    width: the prefix up to the last non-zero field is what was emitted. *)
Theorem emitted_fields_roundtrip `{PrimeField fr_modulus} (l : list Fr) (f : Fr) :
  f ≠ Fr_zero →
  emitted_fields (from_emitted_fields (l ++ [f])) = l ++ [f] ∧
  (CONTRACT_CLASS_LOG_SIZE_IN_FIELDS ≤
   Z.of_nat (length (cclf_fields (from_emitted_fields (l ++ [f]))))).
Proof.
  intros Hf. split; [by apply emitted_from_emitted|].
  unfold from_emitted_fields; cbn [cclf_fields].
  destruct (Z.ltb_spec (Z.of_nat (length (l ++ [f]))) CONTRACT_CLASS_LOG_SIZE_IN_FIELDS); [|done].
  unfold vec_resize. rewrite length_resize. lia.
Qed.

Lemma emitted_fields_roundtrip_witness :
  emitted_fields (from_emitted_fields ([Fr_zero; Fr_one; Fr_zero] ++ [Fr_one])) =
  [Fr_zero; Fr_one; Fr_zero; Fr_one].
Proof.
  refine (proj1 (emitted_fields_roundtrip [Fr_zero; Fr_one; Fr_zero] Fr_one _)).
  apply Fr_one_ne_zero.
Defined.

(** A transaction request hash commits to the origin, the argument hash, the
    context, the selector, the privacy flag and the salt: requests with the same
    hash input are equal part by part. *)
Theorem tx_request_commits `{PrimeField fr_modulus} `{!Poseidon2Crate}
    (o1 a1 s1 o2 a2 s2 : Fr) (c1 c2 : TxContext) (f1 f2 : FunctionSelector) (p1 p2 : bool) :
  GasSettings_ok 64 (tc_gas_settings c1) → GasSettings_ok 64 (tc_gas_settings c2) →
  length f1 = 4%nat → length f2 = 4%nat →
  compute_tx_request_hash o1 a1 c1 f1 p1 s1 =
    poseidon2_hash (Fr_from_u64 domain_separator.TX_REQUEST :: tx_request_fields o1 a1 c1 f1 p1 s1) ∧
  (tx_request_fields o1 a1 c1 f1 p1 s1 = tx_request_fields o2 a2 c2 f2 p2 s2 →
   o1 = o2 ∧ a1 = a2 ∧ c1 = c2 ∧ f1 = f2 ∧ p1 = p2 ∧ s1 = s2).
Proof. intros. split; [done|]. by apply tx_request_fields_inj. Qed.

Lemma tx_request_commits_witness :
  let c := tx_context example_constants in
  GasSettings_ok 64 (tc_gas_settings c) ∧
  tx_request_fields Fr_one Fr_zero c (be_bytes 4 1) true Fr_zero ≠
  tx_request_fields Fr_one Fr_zero c (be_bytes 4 2) true Fr_zero.
Proof.
  intros c.
  assert (GasSettings_ok 64 (tc_gas_settings c)) as Hc
    by (apply (example_inputs_ok 64 (MkGas 1 2)); [lia|split; done]).
  split; [exact Hc|]. intros E.
  destruct (tx_request_commits Fr_one Fr_zero Fr_zero Fr_one Fr_zero Fr_zero c c (be_bytes 4 1)
    (be_bytes 4 2) true true Hc Hc eq_refl eq_refl) as [_ I].
  destruct (I E) as (_ & _ & _ & Hf & _). discriminate Hf.
Defined.
