(* ===== verification/Hash.v ===== *)
(** [crates/core/src/hash.rs], the hashes of the protocol over field elements: the
    siloing and nonce hashes of the kernel, the authorization hashes, the
    flattening of ABI values, and the separation of their hash inputs. *)

From Stdlib Require Import Ascii String.
From S2P Require Import Prelude Bytes Ordered Deps Concrete Types Constants Poseidon Merkle AbiTypes AbiCodec KernelTypes Tx.

Section kernel_hashes.
Context `{FR : PrimeField fr_modulus} `{P2 : !Poseidon2Crate}.

Definition silo_note_hash (contract_address : AztecAddress) (note_hash : Fr) : Fr :=
  poseidon2_hash_with_separator [contract_address; note_hash] domain_separator.SILOED_NOTE_HASH.

Definition silo_nullifier (contract_address : AztecAddress) (inner_nullifier : Fr) : Fr :=
  poseidon2_hash_with_separator [contract_address; inner_nullifier]
    domain_separator.SILOED_NULLIFIER.

Definition compute_l1_to_l2_message_nullifier (contract : AztecAddress) (message_hash secret : Fr)
    : Fr :=
  let inner := poseidon2_hash_with_separator [message_hash; secret]
                 domain_separator.MESSAGE_NULLIFIER in
  silo_nullifier contract inner.

Definition compute_protocol_nullifier `{!HexCrate} (tx_request_hash : Fr) : Outcome Fr :=
  let? sender := protocol_contract_address.null_msg_sender in
  Ok (silo_nullifier sender tx_request_hash).

Definition compute_unique_note_hash (nonce siloed_note_hash : Fr) : Fr :=
  poseidon2_hash_with_separator [nonce; siloed_note_hash] domain_separator.UNIQUE_NOTE_HASH.

Definition compute_note_hash_nonce (first_nullifier : Fr) (note_hash_index : Z) : Fr :=
  poseidon2_hash_with_separator [first_nullifier; Fr_from_u64 note_hash_index]
    domain_separator.NOTE_HASH_NONCE.

Definition compute_siloed_private_log_first_field (contract_address : AztecAddress) (field : Fr)
    : Fr :=
  poseidon2_hash_with_separator [contract_address; field] domain_separator.PRIVATE_LOG_FIRST_FIELD.

Definition compute_inner_auth_wit_hash (args : list Fr) : Fr :=
  poseidon2_hash_with_separator args domain_separator.AUTHWIT_INNER.

Definition compute_outer_auth_wit_hash (consumer : AztecAddress) (chain_id version inner_hash : Fr)
    : Fr :=
  poseidon2_hash_with_separator [consumer; chain_id; version; inner_hash]
    domain_separator.AUTHWIT_OUTER.

(** The message content is laid out as five words of 32 bytes. *)
Definition compute_l2_to_l1_message_hash `{!HashCrates} (l2_sender : AztecAddress)
    (l1_recipient : EthAddress) (content rollup_version chain_id : Fr) : Fr :=
  sha256_to_field
    (Fr_to_be_bytes l2_sender ++ Fr_to_be_bytes rollup_version
     ++ (replicate 12 zero_byte ++ l1_recipient)
     ++ Fr_to_be_bytes chain_id ++ Fr_to_be_bytes content).

Definition compute_protocol_contracts_hash `{!HexCrate} : Outcome Fr :=
  let? derived := omapM (λ s, expect (Fr_from_hex s))
    ["0x139f8eb6d6e7e7a7c0322c3b7558687a7e24201f11bf2c4cb2fe56c18d363695";
     "0x1254246c88aca5a66fa66f3aa78c408a698ebca3b713120497c7555dfc718592";
     "0x14d670efa326a07b99777b01fb706427ca776095246569150f2a3f17a7d4dc66";
     "0x230d0b47ba6d5ed99afb89d584f32ff33438b64f51000f252a140cf995781628";
     "0x204913186c0dd70015d05bf9100a12e31ccb7cc2527aacdfae0c19ad6439fcf4";
     "0x1198142fd84a58c0ab22d5fde371ce527042db49487e05206a326ad154952ac8"]%string in
  Ok (poseidon2_hash_with_separator (derived ++ replicate 5 Fr_zero)
        domain_separator.PROTOCOL_CONTRACTS).
End kernel_hashes.

(** ** Authorization witnesses *)

Section authwit.
Context `{FR : PrimeField fr_modulus} `{P2 : !Poseidon2Crate}.

(** Without its type a negative integer is taken for an [i64], or else for an
    [i128]; the values of a struct come in the order of its keys. *)
Definition flatten_integer (i : Z) : Fr :=
  Fr_from_u128
    (if 0 <=? i then u128_wrap i
     else if - 2 ^ 63 <=? i then u128_wrap (i + 2 ^ 64)
     else u128_wrap i).

Fixpoint flatten_abi_value (value : AbiValue) : list Fr :=
  match value with
  | AbiValue.Field f => [f]
  | AbiValue.Boolean b => [Fr_from_bool b]
  | AbiValue.Integer i => [flatten_integer i]
  | AbiValue.Array items => mjoin (flatten_abi_value <$> items)
  | AbiValue.String s => (λ b, Fr_from_u64 (byte_Z b)) <$> as_bytes s
  | AbiValue.Struct map => mjoin ((λ kv, flatten_abi_value kv.2) <$> map)
  | AbiValue.Tuple items => mjoin (flatten_abi_value <$> items)
  end.

Definition abi_values_to_fields (args : list AbiValue) : list Fr :=
  mjoin (flatten_abi_value <$> args).

Definition compute_inner_auth_wit_hash_from_action (caller : AztecAddress) (call : FunctionCall)
    : Fr :=
  let args_as_fields := abi_values_to_fields (fc_args call) in
  let args_hash := compute_var_args_hash args_as_fields in
  compute_inner_auth_wit_hash [caller; FunctionSelector_to_field (fc_selector call); args_hash].

Record ChainInfo := { chain_id : Fr; version : Fr }.

Inductive MessageHashOrIntent :=
  | HashOnly (hash : Fr)
  | Intent (caller : AztecAddress) (call : FunctionCall)
  | InnerHash (consumer : AztecAddress) (inner_hash : Fr).

Definition compute_auth_wit_message_hash (intent : MessageHashOrIntent) (chain_info : ChainInfo)
    : Fr :=
  match intent with
  | HashOnly hash => hash
  | Intent caller call =>
      let inner_hash := compute_inner_auth_wit_hash_from_action caller call in
      compute_outer_auth_wit_hash (fc_to call) (chain_id chain_info) (version chain_info) inner_hash
  | InnerHash consumer inner_hash =>
      compute_outer_auth_wit_hash consumer (chain_id chain_info) (version chain_info) inner_hash
  end.
End authwit.

(** ** Separation of the hash inputs

    One constructor per use of Poseidon2 in the protocol hashes.  [preimage] is the
    list each use hashes. *)

Section separation.
Context `{FR : PrimeField fr_modulus} `{P2 : !Poseidon2Crate}.

Inductive HashQuery :=
  | QSiloNoteHash (contract note_hash : Fr)
  | QSiloNullifier (contract nullifier : Fr)
  | QUniqueNoteHash (nonce siloed : Fr)
  | QNoteHashNonce (first_nullifier : Fr) (index : Z)
  | QPrivateLogField (contract field : Fr)
  | QInnerAuthWit (args : list Fr)
  | QOuterAuthWit (consumer chain version inner : Fr)
  | QVarArgs (args : list Fr)
  | QCalldata (calldata : list Fr)
  | QSecret (secret : Fr).

Definition query_separator (q : HashQuery) : Z :=
  match q with
  | QSiloNoteHash _ _ => domain_separator.SILOED_NOTE_HASH
  | QSiloNullifier _ _ => domain_separator.SILOED_NULLIFIER
  | QUniqueNoteHash _ _ => domain_separator.UNIQUE_NOTE_HASH
  | QNoteHashNonce _ _ => domain_separator.NOTE_HASH_NONCE
  | QPrivateLogField _ _ => domain_separator.PRIVATE_LOG_FIRST_FIELD
  | QInnerAuthWit _ => domain_separator.AUTHWIT_INNER
  | QOuterAuthWit _ _ _ _ => domain_separator.AUTHWIT_OUTER
  | QVarArgs _ => domain_separator.FUNCTION_ARGS
  | QCalldata _ => domain_separator.PUBLIC_CALLDATA
  | QSecret _ => domain_separator.SECRET_HASH
  end.

Definition query_fields (q : HashQuery) : list Fr :=
  match q with
  | QSiloNoteHash a b | QSiloNullifier a b | QUniqueNoteHash a b
  | QPrivateLogField a b => [a; b]
  | QNoteHashNonce a i => [a; Fr_from_u64 i]
  | QInnerAuthWit l | QVarArgs l | QCalldata l => l
  | QOuterAuthWit a b c d => [a; b; c; d]
  | QSecret s => [s]
  end.

Definition query_preimage (q : HashQuery) : list Fr :=
  Fr_from_u64 (query_separator q) :: query_fields q.

(** The function of the code that answers the query. *)
Definition query_hash (q : HashQuery) : Fr :=
  match q with
  | QSiloNoteHash contract note_hash => silo_note_hash contract note_hash
  | QSiloNullifier contract nullifier => silo_nullifier contract nullifier
  | QUniqueNoteHash nonce siloed => compute_unique_note_hash nonce siloed
  | QNoteHashNonce first_nullifier index => compute_note_hash_nonce first_nullifier index
  | QPrivateLogField contract field => compute_siloed_private_log_first_field contract field
  | QInnerAuthWit args => compute_inner_auth_wit_hash args
  | QOuterAuthWit consumer chain version inner =>
      compute_outer_auth_wit_hash consumer chain version inner
  | QVarArgs args => compute_var_args_hash args
  | QCalldata calldata => compute_calldata_hash calldata
  | QSecret secret => compute_secret_hash secret
  end.

(** The index of a note hash is a [usize]; no arguments hash to zero. *)
Definition query_ok (q : HashQuery) : Prop :=
  match q with
  | QNoteHashNonce _ i => in_u 64 i
  | QVarArgs args => args ≠ []
  | _ => True
  end.

Lemma query_separator_u64 q : in_u 64 (query_separator q).
Proof. destruct q; unfold in_u; simpl; vm_compute; split; congruence. Qed.

Lemma query_preimage_inj q1 q2 :
  query_ok q1 → query_ok q2 → query_preimage q1 = query_preimage q2 → q1 = q2.
Proof.
  intros H1 H2 [E F]%cons_inv.
  apply Fr_from_u64_inj in E; [|apply query_separator_u64..].
  destruct q1, q2; try discriminate E; simpl in *; simplify_eq; try done.
  f_equal. by eapply Fr_from_u64_inj.
Qed.
End separation.

(** ** Where the untyped flattening agrees with the ABI encoder

    [plain typ value]: negative integers are [i64] values, strings fill their
    length, special structs are passed as fields, and the other structs declare
    their fields in the order of the keys of the map. *)

Section flatten.
Context `{FR : PrimeField fr_modulus}.

Definition plain_integer (sign : string) (width i : Z) : bool :=
  if 0 <=? i then true
  else if - 2 ^ 63 <=? i then String.eqb sign "signed" && (width =? 64)
  else negb (String.eqb sign "signed") || (128 <=? width).

Definition plain_fields (plain : AbiType → AbiValue → bool)
    : list AbiParameter → list (string * AbiValue) → bool :=
  fix go fs map :=
    match fs, map with
    | [], [] => true
    | MkAbiParameter name ty _ :: fs', (key, value) :: map' =>
        String.eqb name key && plain ty value && go fs' map'
    | _, _ => false
    end.

Definition plain_elements (plain : AbiType → AbiValue → bool)
    : list AbiType → list AbiValue → bool :=
  fix go ts vs :=
    match ts, vs with
    | t :: ts', v :: vs' => plain t v && go ts' vs'
    | [], [] => true
    | _, _ => false
    end.

Fixpoint plain (typ : AbiType) (value : AbiValue) : bool :=
  match typ, value with
  | AbiType.Field, AbiValue.Field _ | AbiType.Boolean, AbiValue.Boolean _ => true
  | AbiType.Integer sign width, AbiValue.Integer i => plain_integer sign width i
  | AbiType.Integer _ _, AbiValue.Field _ => true
  | AbiType.Array element _, AbiValue.Array items => forallb (plain element) items
  | AbiType.String length, AbiValue.String s => str_len s =? length
  | AbiType.Struct _ fields, _ =>
      if is_address_struct typ || is_function_selector_struct typ || is_wrapped_field_struct typ
      then match value with AbiValue.Field _ => true | _ => false end
      else if is_bounded_vec_struct typ || is_option_struct typ then false
      else match value with
           | AbiValue.Struct map => bool_decide (NoDup map.*1) && plain_fields plain fields map
           | _ => false
           end
  | AbiType.Tuple elements, AbiValue.Tuple values => plain_elements plain elements values
  | _, _ => false
  end.

Let Q (t : AbiType) := ∀ value fs,
  plain t value = true → encode_value t value = Ok fs → flatten_abi_value value = fs.

Lemma flatten_integer_plain sign width i :
  plain_integer sign width i = true → flatten_integer i = encode_integer sign width i.
Proof.
  unfold plain_integer, flatten_integer, encode_integer.
  destruct (Z.leb_spec 0 i) as [H0|H0].
  { intros _. by replace (i <? 0) with false by (symmetry; apply Z.ltb_ge; lia); rewrite andb_false_r. }
  replace (i <? 0) with true by (symmetry; by apply Z.ltb_lt). rewrite andb_true_r.
  destruct (Z.leb_spec (- 2 ^ 63) i) as [H1|H1].
  - intros [-> ->%Z.eqb_eq]%andb_true_iff. simpl Z.leb. cbv iota. do 2 f_equal.
    unfold i128_shl1. rewrite Z.shiftl_mul_pow2 by lia.
    rewrite (as_signed_small 128 (1 * 2 ^ 64)), as_signed_small by lia. lia.
  - intros [Hs%negb_true_iff | ->]%orb_true_iff; [by rewrite Hs|]. by destruct (String.eqb sign _).
Qed.

Lemma bt_get_NoDup (k : string) (v : AbiValue) m : NoDup m.*1 → (k, v) ∈ m → bt_get k m = Some v.
Proof.
  induction m as [|[k' v'] m IH]; simpl; [by rewrite elem_of_nil|].
  intros [Hk Hm]%NoDup_cons. rewrite elem_of_cons. intros [[= -> ->]|Hin]; [by rewrite ord_cmp_refl|].
  destruct (ord_cmp k k') eqn:E; [|by apply IH..].
  apply ord_cmp_eq in E as ->. destruct Hk. by apply (list_elem_of_fmap_2 fst) in Hin.
Qed.

Lemma flatten_fields values fs map out :
  NoDup values.*1 → map ⊆ values → Forall (λ p, Q (AbiType.p_typ p)) fs →
  plain_fields plain fs map = true → encode_fields encode_value values fs = Ok out →
  mjoin ((λ kv, flatten_abi_value kv.2) <$> map) = out.
Proof.
  intros Hnd. revert map out. induction fs as [|[n ty vis] fs IH]; intros map out Hsub HQ Hp He;
    destruct map as [|[k v] map]; try done; simpl in *; [by injection He|].
  rewrite !andb_true_iff in Hp. destruct Hp as [[->%String.eqb_eq Hv] Hp].
  apply Forall_cons in HQ as [HQ HQs].
  rewrite (bt_get_NoDup k v) in He by (done || set_solver). simpl in He. ok_inv.
  f_equal; [by apply HQ|]. apply IH; [set_solver|done..].
Qed.

Lemma flatten_elements ts vs out :
  Forall Q ts → plain_elements plain ts vs = true → encode_elements encode_value ts vs = Ok out →
  mjoin (flatten_abi_value <$> vs) = out.
Proof.
  revert vs out. induction ts as [|t ts IH]; intros vs out HQ Hp He;
    destruct vs as [|v vs]; try done; simpl in *; [by injection He|].
  apply andb_true_iff in Hp as [Hv Hp]. apply Forall_cons in HQ as [HQ HQs]. ok_inv.
  f_equal; [by apply HQ|by apply IH].
Qed.

Lemma flatten_items t items out :
  Q t → forallb (plain t) items = true → oconcat (encode_value t) items = Ok out →
  mjoin (flatten_abi_value <$> items) = out.
Proof.
  intros HQ. unfold oconcat. destruct (omapM _ items) as [yss| |] eqn:E; try done.
  intros Hp [= <-]. apply omapM_Forall2 in E.
  induction E as [|x ys items yss Hx E IH]; simpl in *; [done|].
  apply andb_true_iff in Hp as [Hv Hp]. f_equal; [by apply HQ|by apply IH].
Qed.

Lemma flatten_struct nm fs : Forall (λ p, Q (AbiType.p_typ p)) fs → Q (AbiType.Struct nm fs).
Proof.
  intros HQ value out Hp He. cbn [plain encode_value] in Hp, He.
  destruct (is_address_struct (AbiType.Struct nm fs)); cbn [orb] in Hp.
  { destruct value; try done. by injection He. }
  destruct (is_function_selector_struct (AbiType.Struct nm fs)); cbn [orb] in Hp.
  { destruct value; try done. by injection He. }
  destruct (is_wrapped_field_struct (AbiType.Struct nm fs)).
  { destruct value; try done. by injection He. }
  destruct (is_bounded_vec_struct (AbiType.Struct nm fs)); cbn [orb] in Hp; [done|].
  destruct (is_option_struct (AbiType.Struct nm fs)); [done|].
  destruct value as [| | | | |map|]; try done.
  apply andb_true_iff in Hp as [Hnd%bool_decide_eq_true Hp]. by eapply flatten_fields.
Qed.

Lemma flatten_encode t : Q t.
Proof.
  induction t as [| | s w | e n IH | n | nm fs IH | es IH] using AbiType.nested_ind;
    intros value out Hp He; cbn [plain encode_value] in Hp, He.
  - destruct value; try done. by injection He.
  - destruct value; try done. by injection He.
  - destruct value; try done; injection He as <-; [done|]. simpl. by rewrite (flatten_integer_plain s w).
  - destruct value as [| | |items| | |]; try done.
    destruct (Z.of_nat (length items) =? n); [|done]. by eapply flatten_items.
  - destruct value as [| | | |s| |]; try done. apply Z.eqb_eq in Hp as <-.
    rewrite Z.ltb_irrefl, Z.sub_diag in He. injection He as <-. by rewrite app_nil_r.
  - by eapply flatten_struct.
  - destruct value as [| | | | | |vs]; try done. case_decide; [|done]. by eapply flatten_elements.
Qed.

Lemma flatten_arguments {JS : JsonCrate} (function : FunctionArtifact FR JS) args fs :
  Forall2 (λ p v, plain (AbiType.p_typ p) v = true) (parameters function) args →
  encode_arguments function args = Ok fs → abi_values_to_fields args = fs.
Proof.
  unfold encode_arguments, abi_values_to_fields. intros Hp. case_decide as Hl; [|done].
  unfold oconcat. destruct (omapM _ _) as [yss| |] eqn:E; try done. intros [= <-].
  apply omapM_Forall2 in E. clear Hl. revert yss E.
  induction Hp as [|p v ps vs Hv Hp IH]; intros yss E; simpl in *.
  - by inversion E.
  - inversion E as [|? ys ? yss' Hys E']; subst. simpl in *. f_equal; [by eapply flatten_encode|by apply IH].
Qed.
End flatten.

(** ** Properties *)

Import Concrete.Instances.

(** Each protocol hash is Poseidon2 of its separator followed by its parts, and
    these inputs are injective over all the uses together: hashes of different
    kinds, or of different parts, never have the same hash input. *)
Theorem hash_domains_separated `{PrimeField fr_modulus} `{!Poseidon2Crate} (q1 q2 : HashQuery) :
  query_ok q1 → query_ok q2 →
  query_hash q1 = poseidon2_hash (query_preimage q1) ∧
  (query_preimage q1 = query_preimage q2 ↔ q1 = q2).
Proof.
  intros H1 H2. split; [|split; [by apply query_preimage_inj|by intros ->]].
  destruct q1; try done. simpl. unfold compute_var_args_hash. by rewrite decide_False.
Qed.

Lemma hash_domains_separated_witness :
  let q1 := QSiloNoteHash Fr_one Fr_zero in
  let q2 := QSiloNullifier Fr_one Fr_zero in
  query_hash q1 = poseidon2_hash (query_preimage q1) ∧ query_preimage q1 ≠ query_preimage q2.
Proof.
  intros q1 q2. destruct (hash_domains_separated q1 q2 I I) as [E I].
  split; [exact E|]. intros P%I. discriminate P.
Defined.

(** The untyped flattening behind the authorization hash gives the fields of
    the ABI encoder on plain arguments.  It is not the encoder in general: a struct
    declared in another order than that of its field names flattens differently. *)
Theorem flatten_agrees_with_encoder `{PrimeField fr_modulus} `{!Poseidon2Crate} `{JsonCrate}
    (function : FunctionArtifact _ _) (args : list AbiValue) (fs : list Fr) :
  Forall2 (λ p v, plain (AbiType.p_typ p) v = true) (parameters function) args →
  encode_arguments function args = Ok fs →
  abi_values_to_fields args = fs ∧
  compute_var_args_hash (abi_values_to_fields args) = compute_var_args_hash fs ∧
  ∃ typ value gs, encode_value typ value = Ok gs ∧ flatten_abi_value value ≠ gs.
Proof.
  intros Hp He. rewrite (flatten_arguments function args fs Hp He). split_and!; [done..|].
  exists (AbiType.Struct "Pair" [MkAbiParameter "b" AbiType.Field None;
                                 MkAbiParameter "a" AbiType.Field None]),
         (AbiValue.Struct [("a", AbiValue.Field Fr_zero); ("b", AbiValue.Field Fr_one)]),
         [Fr_one; Fr_zero].
  split; [done|]. intros [E _]%cons_inv. by apply Fr_one_ne_zero.
Qed.

Definition flatten_example : FunctionArtifact _ _ :=
  {| fa_name := "f"; function_type := Private; is_initializer := false; fa_is_static := false;
     is_only_self := None;
     parameters := [MkAbiParameter "t" (AbiType.Tuple [AbiType.Boolean;
                      AbiType.Integer "signed" 64]) None;
                    MkAbiParameter "p" (AbiType.Struct "Pair"
                      [MkAbiParameter "a" AbiType.Field None;
                       MkAbiParameter "b" (AbiType.String 2) None]) None];
     return_types := []; error_types := None; fa_selector := None; bytecode := None;
     verification_key_hash := None; verification_key := None; custom_attributes := None;
     is_unconstrained := None; debug_symbols := None |}.

Lemma flatten_agrees_with_encoder_witness :
  ∃ fs, encode_arguments flatten_example
          [AbiValue.Tuple [AbiValue.Boolean true; AbiValue.Integer (-3)];
           AbiValue.Struct [("a", AbiValue.Field Fr_one); ("b", AbiValue.String "ok")]] = Ok fs ∧
    List.length fs = 5%nat ∧
    abi_values_to_fields
          [AbiValue.Tuple [AbiValue.Boolean true; AbiValue.Integer (-3)];
           AbiValue.Struct [("a", AbiValue.Field Fr_one); ("b", AbiValue.String "ok")]] = fs.
Proof.
  eexists. split; [reflexivity|]. split; [reflexivity|].
  refine (proj1 (flatten_agrees_with_encoder flatten_example _ _ _ _)); [|reflexivity].
  repeat (constructor; [vm_compute; reflexivity|]). constructor.
Defined.
