(* ===== verification/Deploy.v ===== *)
(** Contract classes, instances and addresses: the deployment hashes of
    [crates/core/src/hash.rs], the membership witness of a private function in
    [crates/pxe/src/kernel/oracle.rs] and [crates/crypto/src/address.rs]. *)

From Stdlib Require Import Ascii String.
From S2P Require Import Prelude Bytes Ordered Deps Concrete Types Constants Poseidon Merkle Grumpkin Crypto AbiTypes AbiCodec KernelTypes Tx Hash.

(** ** The text that is hashed for JSON metadata *)

Section canonical_json.
Context `{JT : JsonText}.

(** The entries of an object are printed before the sort: the sort looks at the
    keys alone. *)
Fixpoint canonical_json_string (value : JsonTree) : string :=
  match value with
  | TNull => "null"
  | TBool boolean => if boolean then "true" else "false"
  | TNumber number => number
  | TString s => json_quote s
  | TArray items => "[" +:+ join "," (canonical_json_string <$> items) +:+ "]"
  | TObject map =>
      let entries := (λ kv, (kv.1, json_quote kv.1 +:+ ":" +:+ canonical_json_string kv.2)) <$> map in
      "{" +:+ join "," (snd <$> sort_by_key fst entries) +:+ "}"
  end.

(** Objects with the same members in another order have the same text. *)
Inductive same_json : JsonTree → JsonTree → Prop :=
  | same_null : same_json TNull TNull
  | same_bool b : same_json (TBool b) (TBool b)
  | same_number n : same_json (TNumber n) (TNumber n)
  | same_string s : same_json (TString s) (TString s)
  | same_array l1 l2 : Forall2 same_json l1 l2 → same_json (TArray l1) (TArray l2)
  | same_object m1 m2 m2' :
      NoDup m1.*1 → m1.*1 = m2'.*1 → Forall2 same_json m1.*2 m2'.*2 → m2' ≡ₚ m2 →
      same_json (TObject m1) (TObject m2).

Fixpoint same_json_nested (P : JsonTree → JsonTree → Prop)
    (Hn : P TNull TNull) (Hb : ∀ b, P (TBool b) (TBool b)) (Hu : ∀ n, P (TNumber n) (TNumber n))
    (Hs : ∀ s, P (TString s) (TString s))
    (Ha : ∀ l1 l2, Forall2 P l1 l2 → P (TArray l1) (TArray l2))
    (Ho : ∀ m1 m2 m2', NoDup m1.*1 → m1.*1 = m2'.*1 → Forall2 P m1.*2 m2'.*2 → m2' ≡ₚ m2 →
          P (TObject m1) (TObject m2))
    x y (H : same_json x y) {struct H} : P x y :=
  let all := fix go l1 l2 (HF : Forall2 same_json l1 l2) : Forall2 P l1 l2 :=
    match HF with
    | List.Forall2_nil _ => List.Forall2_nil P
    | List.Forall2_cons a b Hab HF' =>
        List.Forall2_cons a b (same_json_nested P Hn Hb Hu Hs Ha Ho a b Hab) (go _ _ HF')
    end in
  match H with
  | same_null => Hn
  | same_bool b => Hb b
  | same_number n => Hu n
  | same_string s => Hs s
  | same_array l1 l2 HF => Ha l1 l2 (all _ _ HF)
  | same_object m1 m2 m2' Hnd Hk HF Hp => Ho m1 m2 m2' Hnd Hk (all _ _ HF) Hp
  end.

Lemma canonical_json_same x y : same_json x y → canonical_json_string x = canonical_json_string y.
Proof.
  induction 1 as [| | | |l1 l2 HF|m1 m2 m2' Hnd Ek HF Hp] using same_json_nested; try done; simpl.
  - f_equal. by rewrite (fmap_Forall2_eq _ _ _ _ HF).
  - f_equal.
    set (f := λ kv : string * JsonTree, (kv.1, json_quote kv.1 +:+ ":" +:+ canonical_json_string kv.2)).
    assert (f <$> m1 = f <$> m2') as ->.
    { clear Hnd Hp. revert m2' Ek HF. induction m1 as [|[k v] m1 IH]; intros [|[k' v'] m2'] Ek HF;
        try done; cbn in Ek, HF.
      injection Ek as -> Ek. apply Forall2_cons in HF as [E HF].
      rewrite !fmap_cons, (IH m2' Ek HF). unfold f. cbn [fst snd]. by rewrite E. }
    do 3 f_equal.
    apply sort_by_key_perm_eq; [by rewrite Hp|].
    rewrite <- list_fmap_compose. by rewrite Ek in Hnd.
Qed.
End canonical_json.

(** ** Initialization hashes *)

Section initialization.
Context {FR : PrimeField fr_modulus} {HX : HexCrate} {P2 : Poseidon2Crate} {JS : JsonCrate}.
Notation FunctionArtifact := (FunctionArtifact FR JS).

(** [func.selector.unwrap_or_else(..)]. *)
Definition artifact_selector (func : FunctionArtifact) : FunctionSelector :=
  match fa_selector func with
  | Some selector => selector
  | None => FunctionSelector_from_name_and_parameters (fa_name func) (parameters func)
  end.

Definition compute_initialization_hash (init_fn : option FunctionArtifact) (args : list AbiValue)
    : Outcome Fr :=
  match init_fn with
  | None => Ok Fr_zero
  | Some func =>
      let selector := artifact_selector func in
      let? encoded_args := encode_arguments func args in
      let args_hash := compute_var_args_hash encoded_args in
      Ok (poseidon2_hash_with_separator [FunctionSelector_to_field selector; args_hash]
            domain_separator.INITIALIZER)
  end.

Definition compute_initialization_hash_from_encoded (selector : Fr) (encoded_args : list Fr) : Fr :=
  let args_hash := compute_var_args_hash encoded_args in
  poseidon2_hash_with_separator [selector; args_hash] domain_separator.INITIALIZER.
End initialization.

(** ** The tree of private functions *)

Section private_functions.
Context {FR : PrimeField fr_modulus} {HX : HexCrate} {P2 : Poseidon2Crate} {JS : JsonCrate}.
Notation FunctionArtifact := (FunctionArtifact FR JS).
Notation ContractArtifact := (ContractArtifact FR JS).

Definition num_leaves : nat := Z.to_nat (Z.shiftl 1 FUNCTION_TREE_HEIGHT).

Definition zero_leaf : Fr := poseidon2_hash [Fr_zero; Fr_zero].

Definition private_function_leaf (f : FunctionSelector * Fr) : Fr :=
  poseidon2_hash_with_separator [FunctionSelector_to_field f.1; f.2]
    domain_separator.PRIVATE_FUNCTION_LEAF.

Definition selector_key (f : FunctionSelector * Fr) : Z := be_Z f.1.

(** The root of the empty tree is computed once and kept, which a pure function
    does not show. *)
Definition compute_private_functions_root (private_functions : list (FunctionSelector * Fr)) : Fr :=
  if decide (private_functions = []) then poseidon_merkle_root (replicate num_leaves zero_leaf)
  else
    let private_functions := sort_by_key selector_key private_functions in
    let leaves := private_function_leaf <$> private_functions in
    poseidon_merkle_root (vec_resize num_leaves zero_leaf leaves).

Definition private_functions_of (artifact : ContractArtifact) : list (FunctionSelector * Fr) :=
  (λ f, (artifact_selector f, default Fr_zero (verification_key_hash f))) <$>
    filter (λ f, function_type f = Private) (functions artifact).

Definition compute_private_functions_root_from_artifact (artifact : ContractArtifact) : Outcome Fr :=
  Ok (compute_private_functions_root (private_functions_of artifact)).

(** [iter().position(..)]. *)
Definition position {A} (p : A → bool) (l : list A) : option nat :=
  fst <$> list_find (λ x, p x = true) l.

(** [private_function_membership_witness], in [oracle.rs]. *)
Definition private_function_membership_witness (artifact : ContractArtifact)
    (selector : FunctionSelector) : Outcome (nat * list Fr) :=
  let private_fns := sort_by_key selector_key (private_functions_of artifact) in
  let? leaf_index :=
    ok_or (position (λ f, bool_decide (f.1 = selector)) private_fns)
      (InvalidData ("private function selector " +:+ FunctionSelector_to_string selector
                    +:+ " not found in artifact " +:+ art_name artifact)) in
  let leaves := vec_resize num_leaves zero_leaf (private_function_leaf <$> private_fns) in
  let? path := sibling_path_from_leaves leaves leaf_index in
  Ok (leaf_index, path).
End private_functions.

(** ** Artifact hashes and class ids

    [return_types_value] is the [Serialize] implementation that serde derives for
    the return types, [serde_json::to_value] of them. *)

Class AbiSerde := { return_types_value : list AbiType → Outcome JsonTree }.

Section class_id.
Context {FR : PrimeField fr_modulus} {HX : HexCrate} {P2 : Poseidon2Crate} {HC : HashCrates}.
Context {JS : JsonCrate} {JT : JsonText} {B64 : Base64Crate} {AS : AbiSerde}.
Notation FunctionArtifact := (FunctionArtifact FR JS).
Notation ContractArtifact := (ContractArtifact FR JS).

Definition decode_artifact_bytes (encoded : string) : list byte :=
  match strip_prefix "0x" encoded with
  | Some hex => match hex_decode hex with inr bs => bs | inl _ => as_bytes encoded end
  | None => match base64_decode encoded with inr bs => bs | inl _ => as_bytes encoded end
  end.

Definition compute_function_metadata_hash (func : FunctionArtifact) : Fr :=
  let metadata := default TNull (ok_opt (return_types_value (return_types func))) in
  sha256_to_field (as_bytes (canonical_json_string metadata)).

Definition compute_function_bytecode_hash (func : FunctionArtifact) : Fr :=
  match bytecode func with
  | Some bc => if String.eqb bc "" then Fr_zero else sha256_to_field (decode_artifact_bytes bc)
  | None => Fr_zero
  end.

Definition in_function_tree (unconstrained : bool) (f : FunctionArtifact) : bool :=
  if unconstrained
  then bool_decide (function_type f = Utility) || bool_decide (is_unconstrained f = Some true)
  else bool_decide (function_type f = Private).

Definition artifact_function_leaf (func : FunctionArtifact) : Fr :=
  sha256_to_field
    ([Z_byte 1] ++ artifact_selector func
     ++ Fr_to_be_bytes (compute_function_metadata_hash func)
     ++ Fr_to_be_bytes (compute_function_bytecode_hash func)).

(** The height is the logarithm of the number of leaves, rounded up; the code
    computes it in an [f64], which is exact for the sizes of artifacts. *)
Definition compute_artifact_function_tree_root (artifact : ContractArtifact)
    (unconstrained : bool) : Fr :=
  let fs := List.filter (in_function_tree unconstrained) (functions artifact) in
  if decide (fs = []) then Fr_zero
  else
    let leaves := artifact_function_leaf <$> fs in
    let height := if (List.length leaves <=? 1)%nat then 0%nat else Nat.log2_up (List.length leaves) in
    sha256_merkle_root (vec_resize (max (2 ^ height) 1) Fr_zero leaves).

Definition compute_artifact_metadata_hash (artifact : ContractArtifact) : Fr :=
  let metadata := bt_insert "name" (TString (art_name artifact)) [] in
  let metadata := match outputs artifact with
                  | Some o => bt_insert "outputs" (json_tree o) metadata
                  | None => metadata
                  end in
  sha256_to_field (as_bytes (canonical_json_string (TObject metadata))).

Definition compute_artifact_hash (artifact : ContractArtifact) : Fr :=
  let private_fn_tree_root := compute_artifact_function_tree_root artifact false in
  let unconstrained_fn_tree_root := compute_artifact_function_tree_root artifact true in
  let metadata_hash := compute_artifact_metadata_hash artifact in
  sha256_to_field
    ([Z_byte 1] ++ Fr_to_be_bytes private_fn_tree_root
     ++ Fr_to_be_bytes unconstrained_fn_tree_root ++ Fr_to_be_bytes metadata_hash).

(** The sum of the separator and the shifted length is in [u64]. *)
Definition bytecode_separator (byte_length : Z) : Fr :=
  Fr_from_u64 (u64_wrap (domain_separator.PUBLIC_BYTECODE + u64_wrap (Z.shiftl byte_length 32))).

Definition compute_public_bytecode_commitment (packed_bytecode : list byte) : Outcome Fr :=
  let byte_length := Z.of_nat (List.length packed_bytecode) in
  let length_in_fields := (byte_length + 30) / 31 in
  if length_in_fields <? MAX_PACKED_PUBLIC_BYTECODE_SIZE_IN_FIELDS then
    let fields := chunk_to_field <$> chunks 31 packed_bytecode in
    Ok (poseidon2_hash_with_separator_field fields (bytecode_separator byte_length))
  else Panic.

Definition compute_contract_class_id
    (artifact_hash private_functions_root public_bytecode_commitment : Fr) : Fr :=
  poseidon2_hash_with_separator
    [artifact_hash; private_functions_root; public_bytecode_commitment]
    domain_separator.CONTRACT_CLASS_ID.

Definition extract_packed_public_bytecode (artifact : ContractArtifact) : list byte :=
  match find_first (λ f, bool_decide (function_type f = Public)
                         && String.eqb (fa_name f) "public_dispatch") (functions artifact) with
  | Some f => match bytecode f with Some bc => decode_artifact_bytes bc | None => [] end
  | None => []
  end.

Definition compute_contract_class_id_from_artifact (artifact : ContractArtifact) : Outcome Fr :=
  let artifact_hash := compute_artifact_hash artifact in
  let? private_fns_root := compute_private_functions_root_from_artifact artifact in
  let public_bytecode := extract_packed_public_bytecode artifact in
  let? public_bytecode_commitment := compute_public_bytecode_commitment public_bytecode in
  Ok (compute_contract_class_id artifact_hash private_fns_root public_bytecode_commitment).
End class_id.

(** ** Addresses *)

Section address.
Context {FR : PrimeField fr_modulus} {FQ : PrimeField fq_modulus} {P2 : Poseidon2Crate}.
Context {HC : HashCrates} {AG : GrumpkinCrate}.

Definition point_fields (p : Point) : list Fr :=
  [pt_x p; pt_y p; if pt_is_infinite p then Fr_one else Fr_zero].

Definition PublicKeys_hash (k : PublicKeys) : Fr :=
  if PublicKeys_is_empty k then Fr_zero
  else
    poseidon2_hash_with_separator
      (point_fields (master_nullifier_public_key k)
       ++ point_fields (master_incoming_viewing_public_key k)
       ++ point_fields (master_outgoing_viewing_public_key k)
       ++ point_fields (master_tagging_public_key k))
      domain_separator.PUBLIC_KEYS_HASH.

Definition compute_salted_initialization_hash (salt initialization_hash : Fr)
    (deployer : AztecAddress) : Fr :=
  poseidon2_hash_with_separator [salt; initialization_hash; deployer]
    domain_separator.PARTIAL_ADDRESS.

Definition compute_partial_address (original_contract_class_id salted_initialization_hash : Fr) : Fr :=
  poseidon2_hash_with_separator [original_contract_class_id; salted_initialization_hash]
    domain_separator.PARTIAL_ADDRESS.

(** The scalar of [compute_address]. *)
Definition preaddress_fq (public_keys : PublicKeys) (partial_address : Fr) : GrumpkinScalar :=
  let public_keys_hash := PublicKeys_hash public_keys in
  let preaddress := poseidon2_hash_with_separator [public_keys_hash; partial_address]
                      domain_separator.CONTRACT_ADDRESS_V1 in
  Fq_from_be_bytes_mod_order (Fr_to_be_bytes preaddress).

Definition compute_address (public_keys : PublicKeys) (partial_address : Fr)
    : Outcome AztecAddress :=
  let g := generator in
  let preaddress_point := scalar_mul (preaddress_fq public_keys partial_address) g in
  let ivpk_m := master_incoming_viewing_public_key public_keys in
  let address_point :=
    if Point_is_zero ivpk_m then preaddress_point else point_add preaddress_point ivpk_m in
  if pt_is_infinite address_point then
    Err (InvalidData "address derivation resulted in point at infinity")
  else Ok (pt_x address_point).

Definition compute_contract_address_from_instance (instance : ContractInstance)
    : Outcome AztecAddress :=
  let salted_init_hash := compute_salted_initialization_hash (ci_salt instance)
                            (ci_initialization_hash instance) (ci_deployer instance) in
  let partial_address := compute_partial_address (ci_original_contract_class_id instance)
                           salted_init_hash in
  compute_address (ci_public_keys instance) partial_address.

Definition complete_address_from_secret_key_and_partial_address (secret_key partial_address : Fr)
    : Outcome CompleteAddress :=
  let derived := derive_keys secret_key in
  let? address := compute_address (dk_public_keys derived) partial_address in
  Ok {| ca_address := address; ca_public_keys := dk_public_keys derived;
        ca_partial_address := partial_address |}.

(** ** Lemmas *)

(** The origin is not a point of the curve. *)
Lemma on_curve_not_zero p : on_curve p → Point_is_zero p = false.
Proof.
  intros (P & HP & ->). unfold from_ark_affine.
  destruct (ag_is_zero P) eqn:E; [unfold Point_is_zero; simpl; by rewrite andb_false_r|].
  assert (P ≠ ag_zero) as Hne by (intros ->; rewrite (proj2 (ag_is_zero_spec ag_zero)) in E; done).
  unfold Point_is_zero. simpl. rewrite andb_true_r.
  destruct (bool_decide (ag_x P = Fr_zero)) eqn:Ex; [|done].
  destruct (bool_decide (ag_y P = Fr_zero)) eqn:Ey; [|done].
  apply bool_decide_eq_true in Ex, Ey. by destruct (ag_coords_nonzero P HP Hne).
Qed.

Lemma compute_address_on_curve keys partial :
  on_curve (master_incoming_viewing_public_key keys) →
  let p := point_add (scalar_mul (preaddress_fq keys partial) generator)
             (master_incoming_viewing_public_key keys) in
  compute_address keys partial =
  if pt_is_infinite p then Err (InvalidData "address derivation resulted in point at infinity")
  else Ok (pt_x p).
Proof. intros Hk p. unfold compute_address. by rewrite (on_curve_not_zero _ Hk). Qed.

(** The address point of derived keys is a multiple of the generator. *)
Lemma address_point_derived secret_key partial :
  let keys := derive_keys secret_key in
  point_add (scalar_mul (preaddress_fq (dk_public_keys keys) partial) generator)
    (master_incoming_viewing_public_key (dk_public_keys keys)) =
  scalar_mul (pf_add (preaddress_fq (dk_public_keys keys) partial)
                (master_incoming_viewing_secret_key keys)) generator.
Proof. intros keys. symmetry. apply scalar_mul_add_distr, on_curve_generator. Qed.
End address.

(** ** Private function witnesses and commitments *)

Section deploy_lemmas.
Context {FR : PrimeField fr_modulus} {HX : HexCrate} {P2 : Poseidon2Crate} {JS : JsonCrate}.

Lemma num_leaves_eq : num_leaves = (2 ^ 7)%nat.
Proof. done. Qed.

Lemma position_Some {A} (p : A → bool) l i :
  position p l = Some i → ∃ x, l !! i = Some x ∧ p x = true.
Proof.
  unfold position. destruct (list_find _ l) as [[j x]|] eqn:E; [|done].
  intros [= <-]. apply list_find_Some in E as (? & ? & _). by exists x.
Qed.

Lemma position_elem {A} (p : A → bool) l x : x ∈ l → p x = true → is_Some (position p l).
Proof.
  intros Hx Hp. unfold position.
  destruct (list_find_elem_of (λ x, p x = true) l x Hx Hp) as [[i y] ->]. by eexists.
Qed.

Lemma vec_resize_lookup {A} n (d : A) l i x :
  (i < n)%nat → l !! i = Some x → vec_resize n d l !! i = Some x.
Proof.
  intros Hi Hx. unfold vec_resize. destruct (decide (n ≤ length l)%nat).
  - rewrite resize_le by done. by rewrite lookup_take_lt.
  - rewrite resize_ge by lia. rewrite lookup_app_l; [done|by eapply lookup_lt_Some].
Qed.

Lemma root_eq_leaves fs :
  compute_private_functions_root fs =
  poseidon_merkle_root
    (vec_resize num_leaves zero_leaf (private_function_leaf <$> sort_by_key selector_key fs)).
Proof.
  unfold compute_private_functions_root. case_decide as E; [|done]. subst fs.
  unfold vec_resize. change (private_function_leaf <$> sort_by_key selector_key []) with (@nil Fr).
  by rewrite resize_nil.
Qed.

(** What an [Ok] answer of the witness is: the leaf of a function of the artifact
    that has the selector, below the root, at the height of the tree. *)
Lemma witness_sound artifact selector i path :
  private_function_membership_witness artifact selector = Ok (i, path) →
  ∃ vk, (selector, vk) ∈ private_functions_of artifact ∧ length path = 7%nat ∧
    root_from_path (λ l r, poseidon2_hash [l; r]) (private_function_leaf (selector, vk)) i path =
    compute_private_functions_root (private_functions_of artifact).
Proof.
  unfold private_function_membership_witness. set (fns := private_functions_of artifact).
  intros H. apply obind_ok in H as (j & Hj & H). apply obind_ok in H as (pa & Hpa & [= <- <-]).
  destruct (position _ _) as [k|] eqn:Ek; [|done]. injection Hj as <-.
  apply position_Some in Ek as ([s vk] & Hk & Hs%bool_decide_eq_true). simpl in Hs. subst s.
  set (leaves := vec_resize num_leaves zero_leaf (private_function_leaf <$> sort_by_key selector_key fns))
    in *.
  assert (length leaves = (2 ^ 7)%nat) as Hlen by apply length_resize.
  assert (k < num_leaves)%nat as Hlt.
  { unfold sibling_path_from_leaves in Hpa.
    destruct (bool_decide _ || (length leaves <=? k)%nat) eqn:E; [done|].
    apply orb_false_iff in E as [_ E%Nat.leb_gt]. by rewrite Hlen in E. }
  assert (leaves !! k = Some (private_function_leaf (selector, vk))) as Hleaf.
  { apply vec_resize_lookup; [done|]. by rewrite list_lookup_fmap, Hk. }
  exists vk. split_and!.
  - rewrite <- (sort_by_key_perm selector_key fns). by eapply list_elem_of_lookup_2.
  - rewrite sibling_path_ok in Hpa by (by eapply lookup_lt_Some). injection Hpa as <-.
    by apply sibling_loop_length.
  - rewrite root_eq_leaves. by apply sibling_path_root.
Qed.

Lemma witness_complete artifact selector :
  (length (private_functions_of artifact) ≤ num_leaves)%nat →
  selector ∈ (private_functions_of artifact).*1 →
  is_ok (private_function_membership_witness artifact selector) = true.
Proof.
  unfold private_function_membership_witness. set (fns := private_functions_of artifact).
  intros Hn ([s vk] & -> & Hin)%list_elem_of_fmap.
  rewrite <- (sort_by_key_perm selector_key fns) in Hin.
  destruct (position_elem (λ f, bool_decide (f.1 = s)) _ _ Hin) as [k Hk];
    [by apply bool_decide_eq_true|]. cbn [fst]. rewrite Hk. cbn [ok_or obind].
  apply position_Some in Hk as (x & Hx & _). apply lookup_lt_Some in Hx.
  rewrite (Permutation_length (sort_by_key_perm selector_key fns)) in Hx.
  rewrite sibling_path_ok; [done|]. unfold vec_resize. rewrite length_resize. lia.
Qed.

Lemma private_functions_root_perm l1 l2 :
  l1 ≡ₚ l2 → Forall (λ f, length f.1 = 4%nat) l1 → NoDup l1.*1 →
  compute_private_functions_root l1 = compute_private_functions_root l2.
Proof.
  intros E Hl Hnd. rewrite !root_eq_leaves. do 3 f_equal. apply sort_by_key_perm_eq; [done|].
  replace (selector_key <$> l1) with (be_Z <$> l1.*1) by (by rewrite <- list_fmap_compose).
  assert (Forall (λ bs, length bs = 4%nat) l1.*1) as Hl' by (by rewrite Forall_fmap).
  clear E Hl. induction Hl' as [|bs l Hb Hl IH]; [constructor|].
  apply NoDup_cons in Hnd as [Hbs Hnd]. rewrite fmap_cons. apply NoDup_cons.
  split; [|by apply IH]. intros (bs' & E & Hin)%list_elem_of_fmap. apply Hbs.
  rewrite Forall_forall in Hl. by rewrite (be_Z_inj bs bs'); [|rewrite (Hl bs')|].
Qed.

(** The packed bytecode is determined by its length and its fields. *)
Lemma bytecode_fields_inj bs1 bs2 :
  length bs1 = length bs2 → chunk_to_field <$> chunks 31 bs1 = chunk_to_field <$> chunks 31 bs2 →
  bs1 = bs2.
Proof.
  intros Hl E. destruct (buffer_fields_prefix bs1 0) as [p1 H1].
  destruct (buffer_fields_prefix bs2 0) as [p2 H2]. rewrite E, H2 in H1.
  by apply app_inj_1 in H1 as [? _].
Qed.

Lemma bytecode_separator_inj n1 n2 :
  in_u 31 n1 → in_u 31 n2 → bytecode_separator n1 = bytecode_separator n2 → n1 = n2.
Proof.
  unfold bytecode_separator. rewrite !Z.shiftl_mul_pow2 by lia.
  intros H1 H2 E. unfold in_u in *. unfold domain_separator.PUBLIC_BYTECODE in E.
  rewrite !(wrap_small 64 (_ * _)), !wrap_small in E by (unfold in_u; lia).
  apply Fr_from_u64_inj in E; unfold in_u; lia.
Qed.
End deploy_lemmas.

(** ** Properties *)

Import Concrete.Instances.

(** C37: for an artifact that fits the tree, a membership witness is found exactly
    for the selectors of its private functions; the witness has the seven siblings
    of the tree, and hashing the function's leaf up along them gives the root that
    enters the contract class id. *)
Theorem function_witness_verifies {FR : PrimeField fr_modulus} {HX : HexCrate}
    {P2 : Poseidon2Crate} {JS : JsonCrate}
    (artifact : ContractArtifact FR JS) (selector : FunctionSelector) :
  (List.length (private_functions_of artifact) ≤ num_leaves)%nat →
  (is_ok (private_function_membership_witness artifact selector) = true ↔
   selector ∈ (private_functions_of artifact).*1) ∧
  ∀ i path, private_function_membership_witness artifact selector = Ok (i, path) →
    ∃ vk, (selector, vk) ∈ private_functions_of artifact ∧ List.length path = 7%nat ∧
      compute_private_functions_root_from_artifact artifact =
      Ok (root_from_path (λ l r, poseidon2_hash [l; r]) (private_function_leaf (selector, vk)) i path).
Proof.
  intros Hn. split; [split|].
  - destruct (private_function_membership_witness artifact selector) as [[i path]| |] eqn:E; try done.
    intros _. apply witness_sound in E as (vk & Hin & _). by apply (list_elem_of_fmap_2 fst) in Hin.
  - by apply witness_complete.
  - intros i path (vk & Hin & Hl & E)%witness_sound. exists vk.
    unfold compute_private_functions_root_from_artifact. by rewrite <- E.
Qed.

Definition example_function_named (name : string) (sel : Z) : FunctionArtifact _ _ :=
  {| fa_name := name; function_type := Private; is_initializer := true; fa_is_static := false;
     is_only_self := None; parameters := []; return_types := []; error_types := None;
     fa_selector := Some (be_bytes 4 sel); bytecode := None; verification_key_hash := Some Fr_one;
     verification_key := None; custom_attributes := None; is_unconstrained := None;
     debug_symbols := None |}.

Definition example_artifact : ContractArtifact _ _ :=
  {| art_name := "Example";
     functions := [example_function_named "b" 258; example_function_named "a" 7];
     outputs := None; file_map := None; context_inputs_sizes := None |}.

Lemma function_witness_verifies_witness :
  is_ok (private_function_membership_witness example_artifact (be_bytes 4 7)) = true ∧
  is_ok (private_function_membership_witness example_artifact (be_bytes 4 8)) ≠ true.
Proof.
  assert (List.length (private_functions_of example_artifact) ≤ num_leaves)%nat as Hn
    by (vm_compute; lia).
  split.
  - refine (proj2 (proj1 (function_witness_verifies example_artifact (be_bytes 4 7) Hn)) _).
    apply (bool_decide_unpack _). vm_compute. exact I.
  - intros E.
    pose proof (proj1 (proj1 (function_witness_verifies example_artifact (be_bytes 4 8) Hn)) E) as Hin.
    apply (bool_decide_pack _) in Hin. vm_compute in Hin. exact Hin.
Defined.

(** The root of the private functions does not depend on their order in the
    artifact, when their selectors are distinct. *)
Theorem private_functions_root_order {FR : PrimeField fr_modulus} {HX : HexCrate}
    {P2 : Poseidon2Crate} {JS : JsonCrate} (a1 a2 : ContractArtifact FR JS) :
  functions a1 ≡ₚ functions a2 →
  Forall (λ f, List.length f.1 = 4%nat) (private_functions_of a1) →
  NoDup (private_functions_of a1).*1 →
  compute_private_functions_root_from_artifact a1 = compute_private_functions_root_from_artifact a2.
Proof.
  intros E Hl Hnd. unfold compute_private_functions_root_from_artifact. f_equal.
  apply private_functions_root_perm; [|done|done].
  unfold private_functions_of. by rewrite E.
Qed.

Lemma private_functions_root_order_witness :
  compute_private_functions_root_from_artifact example_artifact =
  compute_private_functions_root_from_artifact
    {| art_name := "Other"; functions := [example_function_named "a" 7; example_function_named "b" 258];
       outputs := None; file_map := None; context_inputs_sizes := None |}.
Proof.
  apply private_functions_root_order.
  - apply Permutation_swap.
  - repeat constructor.
  - apply (bool_decide_unpack _). vm_compute. exact I.
Defined.

(** The address of a complete address is the [x] coordinate of the public point
    of the address secret, the sum of the preaddress scalar and the incoming
    viewing secret key; derivation fails only when that point is infinity. *)
Theorem complete_address_secret {FR : PrimeField fr_modulus} {FQ : PrimeField fq_modulus}
    {P2 : Poseidon2Crate} {HC : HashCrates} {AG : GrumpkinCrate} (secret_key partial : Fr) :
  let keys := derive_keys secret_key in
  let address_secret := pf_add (preaddress_fq (dk_public_keys keys) partial)
                          (master_incoming_viewing_secret_key keys) in
  let address_point := derive_public_key_from_secret_key address_secret in
  complete_address_from_secret_key_and_partial_address secret_key partial =
  if pt_is_infinite address_point
  then Err (InvalidData "address derivation resulted in point at infinity")
  else Ok {| ca_address := pt_x address_point; ca_public_keys := dk_public_keys keys;
             ca_partial_address := partial |}.
Proof.
  intros keys address_secret address_point.
  unfold complete_address_from_secret_key_and_partial_address.
  rewrite compute_address_on_curve by apply derive_public_key_on_curve.
  rewrite address_point_derived. fold keys address_secret.
  change (scalar_mul address_secret generator) with address_point.
  by destruct (pt_is_infinite address_point).
Qed.

(** The commitment to a packed bytecode is computed exactly below 3000 fields,
    and its hash input determines the bytecode, trailing zero bytes included. *)
Theorem bytecode_commitment_commits {FR : PrimeField fr_modulus} {P2 : Poseidon2Crate}
    (bs1 bs2 : list byte) :
  (Z.of_nat (List.length bs1) ≤ 31 * 2999 →
   compute_public_bytecode_commitment bs1 =
     Ok (poseidon2_hash (bytecode_separator (Z.of_nat (List.length bs1))
                         :: (chunk_to_field <$> chunks 31 bs1)))) ∧
  (31 * 2999 < Z.of_nat (List.length bs1) → compute_public_bytecode_commitment bs1 = Panic) ∧
  (Z.of_nat (List.length bs1) ≤ 31 * 2999 → Z.of_nat (List.length bs2) ≤ 31 * 2999 →
   bytecode_separator (Z.of_nat (List.length bs1)) :: (chunk_to_field <$> chunks 31 bs1) =
   bytecode_separator (Z.of_nat (List.length bs2)) :: (chunk_to_field <$> chunks 31 bs2) →
   bs1 = bs2).
Proof.
  unfold compute_public_bytecode_commitment, MAX_PACKED_PUBLIC_BYTECODE_SIZE_IN_FIELDS.
  split_and!.
  - intros H. destruct (Z.ltb_spec ((Z.of_nat (List.length bs1) + 30) / 31) 3000) as [|Hge]; [done|].
    exfalso. pose proof (Z.div_lt_upper_bound (Z.of_nat (List.length bs1) + 30) 31 3000). lia.
  - intros H. destruct (Z.ltb_spec ((Z.of_nat (List.length bs1) + 30) / 31) 3000) as [Hlt|]; [|done].
    exfalso. pose proof (Z.div_le_lower_bound (Z.of_nat (List.length bs1) + 30) 31 3000). lia.
  - intros H1 H2 [E F]%cons_inv. apply bytecode_separator_inj in E; [|unfold in_u; lia..].
    apply bytecode_fields_inj; [lia|done].
Qed.

Lemma bytecode_commitment_commits_witness :
  compute_public_bytecode_commitment [Z_byte 1; Z_byte 0] =
    Ok (poseidon2_hash [bytecode_separator 2; chunk_to_field [Z_byte 1; Z_byte 0]]) ∧
  bytecode_separator 2 :: (chunk_to_field <$> chunks 31 [Z_byte 1; Z_byte 0]) ≠
  bytecode_separator 1 :: (chunk_to_field <$> chunks 31 [Z_byte 1]).
Proof.
  destruct (bytecode_commitment_commits [Z_byte 1; Z_byte 0] [Z_byte 1]) as (E & _ & I).
  split; [apply E; vm_compute; discriminate|].
  intros P. assert ([Z_byte 1; Z_byte 0] = [Z_byte 1]) as Q
    by (apply I; [vm_compute; discriminate..|exact P]).
  discriminate Q.
Defined.
