(* ===== verification/Kv.v ===== *)
(** [crates/pxe/src/stores/kv.rs]: the key-value interface of the local stores as a
    class, its laws, the in-memory implementation, and the triples in which the
    stores above it are specified. *)

From Stdlib Require Import Ascii String.
From S2P Require Import Prelude Bytes Ordered Deps Concrete.

(** ** Computations over a store

    The methods of a store run one after the other: an [await] between two of them
    yields to nothing that is modelled. *)

Definition M (St A : Type) : Type := St → St * Outcome A.

Section monad.
Context {St : Type}.

Definition mok {A} (a : A) : M St A := λ s, (s, Ok a).
Definition mlift {A} (m : Outcome A) : M St A := λ s, (s, m).
Definition mthen {A B} (m : M St A) (f : A → M St B) : M St B := λ s,
  match m s with
  | (s', Ok a) => f a s'
  | (s', Err e) => (s', Err e)
  | (s', Panic) => (s', Panic)
  end.

(** A [for] loop whose body may fail. *)
Fixpoint for_each {A} (f : A → M St ()) (l : list A) : M St () :=
  match l with
  | [] => mok ()
  | x :: l' => mthen (f x) (λ _, for_each f l')
  end.

Fixpoint for_fold {A B} (f : B → A → M St B) (b : B) (l : list A) : M St B :=
  match l with
  | [] => mok b
  | x :: l' => mthen (f b x) (λ b', for_fold f b' l')
  end.

(** A computation beside a component [S] that it leaves alone, and one on [S] only. *)
Definition in_fst {S A : Type} (m : M St A) : M (St * S) A := λ s,
  let (w, r) := m s.1 in ((w, s.2), r).
Definition in_snd {S A : Type} (f : S → S * A) : M (St * S) A := λ s,
  let (c, a) := f s.2 in ((s.1, c), Ok a).
End monad.

Notation "'let!' x ':=' m 'in' k" := (mthen m (λ x, k))
  (at level 200, x pattern, m at level 100, k at level 200,
   format "'[v' 'let!'  x  ':='  m  'in'  '/' k ']'") : rust_scope.
Notation "m ';;!' k" := (mthen m (λ _, k))
  (at level 199, k at level 200, right associativity, only parsing) : rust_scope.

(** A computation that may run out of fuel, then another. *)
Definition mthen_opt {St A B : Type} (m : M St (option A)) (f : A → M St (option B))
    : M St (option B) :=
  let! r := m in match r with Some a => f a | None => mok None end.
Notation "'let?!' x ':=' m 'in' k" := (mthen_opt m (λ x, k))
  (at level 200, x pattern, m at level 100, k at level 200,
   format "'[v' 'let?!'  x  ':='  m  'in'  '/' k ']'") : rust_scope.

(** A [for] loop whose body may run out of fuel. *)
Fixpoint for_each_opt {St A : Type} (f : A → M St (option ())) (l : list A) : M St (option ()) :=
  match l with
  | [] => mok (Some ())
  | x :: l' => let?! _ := f x in for_each_opt f l'
  end.

(** ** [trait KvStore] *)

Class KvStore (St : Type) := {
  kv_get : list byte → M St (option (list byte));
  kv_put : list byte → list byte → M St ();
  kv_delete : list byte → M St ();
  kv_list_prefix : list byte → M St (list (list byte * list byte));
}.
#[global] Hint Mode KvStore ! : typeclass_instances.

(** What the stores rely on: the answers are those of a map, and a listing is in
    the order of the keys.  A back end that fails is not covered. *)
Class KvStoreLaws (St : Type) `{KvStore St} := {
  kv_wf : St → Prop;
  kv_view : St → gmap (list byte) (list byte);
  kv_get_ok s k : kv_wf s → kv_get k s = (s, Ok (kv_view s !! k));
  kv_put_ok s k v : kv_wf s → ∃ s', kv_put k v s = (s', Ok ()) ∧ kv_wf s' ∧
    kv_view s' = <[k:=v]> (kv_view s);
  kv_delete_ok s k : kv_wf s → ∃ s', kv_delete k s = (s', Ok ()) ∧ kv_wf s' ∧
    kv_view s' = delete k (kv_view s);
  kv_list_prefix_ok s p : kv_wf s → ∃ l, kv_list_prefix p s = (s, Ok l) ∧
    StronglySorted entry_lt l ∧
    ∀ k v, (k, v) ∈ l ↔ kv_view s !! k = Some v ∧ p `prefix_of` k;
}.

(** ** [InMemoryKvStore]

    The lock is never poisoned: no code panics while it holds it. *)

Definition InMemoryKvStore : Type := list (list byte * list byte).

Definition InMemoryKvStore_new : InMemoryKvStore := [].

Definition memory_get (key : list byte) : M InMemoryKvStore (option (list byte)) :=
  λ data, (data, Ok (bt_get key data)).
Definition memory_put (key value : list byte) : M InMemoryKvStore () :=
  λ data, (bt_insert key value data, Ok ()).
Definition memory_delete (key : list byte) : M InMemoryKvStore () :=
  λ data, (bt_remove key data, Ok ()).

Fixpoint take_while {A} (p : A → bool) (l : list A) : list A :=
  match l with [] => [] | x :: l' => if p x then x :: take_while p l' else [] end.

Definition starts_with (prefix key : list byte) : bool := bool_decide (prefix `prefix_of` key).

Definition memory_list_prefix (prefix : list byte)
    : M InMemoryKvStore (list (list byte * list byte)) := λ data,
  (data, Ok (take_while (λ kv, starts_with prefix kv.1) (bt_range_from prefix data))).

#[global] Instance memory_kv : KvStore InMemoryKvStore := {|
  kv_get := memory_get; kv_put := memory_put; kv_delete := memory_delete;
  kv_list_prefix := memory_list_prefix |}.

(** Between the prefix and a key that it starts, every key starts with it. *)
Lemma prefix_convex (p k1 k2 : list byte) :
  ord_cmp k1 p ≠ Lt → ord_cmp k1 k2 = Lt → p `prefix_of` k2 → p `prefix_of` k1.
Proof.
  intros H1 H2 [t ->]. revert k1 H1 H2. unfold ord_cmp, list_ord.
  induction p as [|x p IH]; intros [|y k1] H1 H2; simpl in *; try done; [apply prefix_nil..|].
  unfold ord_cmp in *. destruct (byte_ord y x) eqn:E; simpl in *; try done.
  apply (ord_cmp_eq y x) in E as ->. by apply prefix_cons, IH.
Qed.

Lemma take_while_elem {A} (p : A → bool) l x : x ∈ take_while p l → x ∈ l ∧ p x = true.
Proof. induction l as [|y l IH]; simpl; [set_solver|]. destruct (p y) eqn:E; set_solver. Qed.

Lemma take_while_sorted {A} (R : A → A → Prop) (p : A → bool) l :
  StronglySorted R l → StronglySorted R (take_while p l).
Proof.
  induction 1 as [|x l Hl IH Hx]; simpl; [constructor|]. destruct (p x); constructor; [done|].
  rewrite Forall_forall in *. intros y [Hy _]%take_while_elem. auto.
Qed.

Lemma bt_range_from_wf {V} k (m : list (list byte * V)) : bt_wf m → bt_wf (bt_range_from k m).
Proof.
  induction 1 as [|[k' v] m Hm IH Hk]; simpl; [constructor|].
  destruct (ord_cmp k' k); [|done|]; by constructor.
Qed.

Lemma memory_prefix_elem (data : InMemoryKvStore) p k v :
  bt_wf data →
  (k, v) ∈ take_while (λ kv, starts_with p kv.1) (bt_range_from p data) ↔
  (k, v) ∈ data ∧ p `prefix_of` k.
Proof.
  intros Hd. unfold starts_with. split.
  - intros [Hin Hp%bool_decide_eq_true]%take_while_elem.
    by apply bt_range_from_elem in Hin as [? _].
  - intros [Hin Hp]. pose proof (bt_range_from_wf p data Hd) as Hs.
    assert ((k, v) ∈ bt_range_from p data) as Hr.
    { apply bt_range_from_elem; [done|]. split; [done|]. simpl. destruct Hp as [t ->].
      clear. unfold ord_cmp, list_ord. induction p as [|x p IH]; simpl; [by destruct t|].
      by rewrite (ord_cmp_refl x). }
    assert (∀ q, q ∈ bt_range_from p data → ord_cmp q.1 p ≠ Lt) as Hge
      by (intros q Hq; by apply bt_range_from_elem in Hq as [_ ?]).
    clear Hin Hd. revert Hr Hge. induction Hs as [|q m Hm IH Hq]; intros Hr Hge; [set_solver|].
    apply elem_of_cons in Hr as [<-|Hr]; simpl.
    { rewrite bool_decide_true by done. set_solver. }
    rewrite Forall_forall in Hq. rewrite bool_decide_true.
    + apply elem_of_cons. right. apply IH; [done|]. set_solver.
    + apply (prefix_convex p q.1 k); [apply Hge; set_solver| |done]. by apply (Hq (k, v)).
Qed.

#[global] Instance memory_kv_laws : KvStoreLaws InMemoryKvStore.
Proof.
  refine {| kv_wf (s : InMemoryKvStore) := bt_wf s; kv_view := bt_view |}.
  - intros s k _. simpl. unfold memory_get. by rewrite bt_view_lookup.
  - intros s k v Hs. eexists. split_and!; [done|by apply bt_insert_wf|apply bt_view_insert].
  - intros s k Hs. eexists. split_and!; [done|by apply bt_remove_wf|by apply bt_view_remove].
  - intros s p Hs. eexists. split_and!; [done|by apply take_while_sorted, bt_range_from_wf|].
    intros k v. rewrite bt_view_elem by done. by apply memory_prefix_elem.
Defined.

(** ** Triples

    [spec P m Q]: from a store whose map satisfies [P], the computation returns a
    value, without an error or a panic, and [Q] holds of it and of the final map. *)

Section triples.
Context {St : Type} `{KvStoreLaws St}.
Notation view := (gmap (list byte) (list byte)).
Implicit Types (P : view → Prop) (k b p : list byte).

Definition spec {A : Type} (P : view → Prop) (m : M St A) (Q : A → view → Prop) : Prop :=
  ∀ s, kv_wf s → P (kv_view s) → ∃ s' a, m s = (s', Ok a) ∧ kv_wf s' ∧ Q a (kv_view s').

Lemma spec_ok {A : Type} (P : view → Prop) (a : A) (Q : A → view → Prop) :
  (∀ v, P v → Q a v) → spec P (mok a) Q.
Proof. intros HQ s Hs HP. exists s, a. auto. Qed.

Lemma spec_lift {A : Type} (P : view → Prop) (m : Outcome A) (a : A) (Q : A → view → Prop) :
  m = Ok a → (∀ v, P v → Q a v) → spec P (mlift m) Q.
Proof. intros -> HQ s Hs HP. exists s, a. auto. Qed.

Lemma spec_then {A B : Type} P (m : M St A) (f : A → M St B) R Q :
  spec P m R → (∀ a, spec (R a) (f a) Q) → spec P (mthen m f) Q.
Proof.
  intros Hm Hf s Hs HP. destruct (Hm s Hs HP) as (s1 & a & E & Hs1 & HR).
  unfold mthen. rewrite E. by apply Hf.
Qed.

(** A computation that only reads, with a known answer. *)
Lemma spec_then_reads {A B : Type} P (m : M St A) (f : A → M St B) (a : A) Q :
  (∀ s, kv_wf s → P (kv_view s) → m s = (s, Ok a)) → spec P (f a) Q → spec P (mthen m f) Q.
Proof.
  intros Hm Hf s Hs HP. destruct (Hf s Hs HP) as (s' & b & E & ?). exists s', b. split; [|done].
  unfold mthen. by rewrite Hm.
Qed.

Lemma spec_assoc {A B C : Type} P (m : M St A) (f : A → M St B) (g : B → M St C) Q :
  spec P (mthen (mthen m f) g) Q → spec P (mthen m (λ a, mthen (f a) g)) Q.
Proof.
  intros Hm s Hs HP. destruct (Hm s Hs HP) as (s' & a & E & HQ). exists s', a. split; [|done].
  rewrite <- E. unfold mthen. by destruct (m s) as [? []].
Qed.

Lemma spec_weaken {A : Type} (P P' : view → Prop) (m : M St A) (Q Q' : A → view → Prop) :
  spec P' m Q' → (∀ v, P v → P' v) → (∀ a v, Q' a v → Q a v) → spec P m Q.
Proof. intros Hm HP HQ s Hs Hv. destruct (Hm s Hs (HP _ Hv)) as (s' & a & ? & ? & ?). eauto 10. Qed.

Lemma spec_get P k (Q : option (list byte) → view → Prop) :
  (∀ v, P v → Q (v !! k) v) → spec P (kv_get k) Q.
Proof. intros HQ s Hs HP. do 2 eexists. rewrite kv_get_ok by done. split_and!; [done..|auto]. Qed.

Lemma spec_put P k b (Q : () → view → Prop) :
  (∀ v, P v → Q () (<[k:=b]> v)) → spec P (kv_put k b) Q.
Proof.
  intros HQ s Hs HP. destruct (kv_put_ok s k b Hs) as (s' & E & Hs' & Hv).
  exists s', (). split_and!; [done..|]. rewrite Hv. auto.
Qed.

Lemma spec_delete P k (Q : () → view → Prop) :
  (∀ v, P v → Q () (delete k v)) → spec P (kv_delete k) Q.
Proof.
  intros HQ s Hs HP. destruct (kv_delete_ok s k Hs) as (s' & E & Hs' & Hv).
  exists s', (). split_and!; [done..|]. rewrite Hv. auto.
Qed.

Lemma spec_list_prefix P p (Q : list (list byte * list byte) → view → Prop) :
  (∀ v l, P v → StronglySorted entry_lt l →
     (∀ k b, (k, b) ∈ l ↔ v !! k = Some b ∧ p `prefix_of` k) → Q l v) →
  spec P (kv_list_prefix p) Q.
Proof.
  intros HQ s Hs HP. destruct (kv_list_prefix_ok s p Hs) as (l & E & Hl & Hin).
  exists s, l. split_and!; [done..|]. eauto.
Qed.

(** The invariant of a loop speaks of the elements already visited. *)
Lemma spec_for_each {A : Type} (f : A → M St ()) (l : list A) (I : list A → view → Prop) :
  (∀ done x rest, l = done ++ x :: rest → spec (I done) (f x) (λ _, I (done ++ [x]))) →
  spec (I []) (for_each f l) (λ _, I l).
Proof.
  intros Hf. enough (∀ rest done, l = done ++ rest →
    spec (I done) (for_each f rest) (λ _, I l)) as HH by by apply (HH l []).
  induction rest as [|x rest IH]; intros dn E; simpl.
  - apply spec_ok. intros v. by rewrite E, app_nil_r.
  - eapply spec_then; [by eapply Hf|]. intros []. simpl. apply IH. by rewrite <- app_assoc.
Qed.
(** [safe P m Q E]: the computation may also end in an error, and then [E] holds; it
    does not panic. *)
Definition safe {A : Type} (P : view → Prop) (m : M St A) (Q : A → view → Prop)
    (E : view → Prop) : Prop :=
  ∀ s, kv_wf s → P (kv_view s) → ∃ s' r, m s = (s', r) ∧ kv_wf s' ∧
    match r with Ok a => Q a (kv_view s') | Err _ => E (kv_view s') | Panic => False end.

Lemma safe_spec {A : Type} P (m : M St A) Q E : spec P m Q → safe P m Q E.
Proof. intros Hm s Hs HP. destruct (Hm s Hs HP) as (s' & a & ? & ? & ?). by exists s', (Ok a). Qed.

Lemma safe_err {A : Type} P (e : Error) (Q : A → view → Prop) (E : view → Prop) :
  (∀ v, P v → E v) → safe P (mlift (Err e)) Q E.
Proof. intros HE s Hs HP. exists s, (Err e). auto. Qed.

Lemma safe_then {A B : Type} P (m : M St A) (f : A → M St B) R Q E :
  safe P m R E → (∀ a, safe (R a) (f a) Q E) → safe P (mthen m f) Q E.
Proof.
  intros Hm Hf s Hs HP. destruct (Hm s Hs HP) as (s1 & r & Er & Hs1 & HR).
  unfold mthen. rewrite Er. destruct r as [a|e|]; [by apply Hf| |done]. by exists s1, (Err e).
Qed.

Lemma safe_weaken {A : Type} (P P' : view → Prop) (m : M St A) (Q Q' : A → view → Prop)
    (E E' : view → Prop) :
  safe P' m Q' E' → (∀ v, P v → P' v) → (∀ a v, Q' a v → Q a v) → (∀ v, E' v → E v) →
  safe P m Q E.
Proof.
  intros Hm HP HQ HE s Hs Hv. destruct (Hm s Hs (HP _ Hv)) as (s' & r & ? & ? & Hr).
  exists s', r. split_and!; [done..|]. destruct r; auto.
Qed.

Lemma safe_for_each {A : Type} (f : A → M St ()) (l : list A) (I : view → Prop) :
  (∀ x, x ∈ l → safe I (f x) (λ _, I) I) → safe I (for_each f l) (λ _, I) I.
Proof.
  induction l as [|x l IH]; intros Hf; simpl; [by apply safe_spec, spec_ok|].
  eapply safe_then; [apply Hf; set_solver|]. intros []. apply IH. set_solver.
Qed.
End triples.

(** ** JSON values under encoded keys *)

Section json_values.
Context {St : Type} `{KvStore St}.

(** [match kv.get(&key).await? { Some(bytes) => from_slice(&bytes)?, None => .. }]. *)
Definition read_json {T : Type} `{SerdeJson T} (key : list byte) : M St (option T) :=
  let! found := kv_get key in
  match found with
  | Some bytes => let! x := mlift (from_slice bytes) in mok (Some x)
  | None => mok None
  end.

(** [kv.put(&key, &serde_json::to_vec(&x)?)]. *)
Definition write_json {T : Type} `{SerdeJson T} (key : list byte) (x : T) : M St () :=
  let! bytes := mlift (to_vec x) in kv_put key bytes.
End json_values.

(** The map [m] is what the view holds under the keys of [enc]. *)
Definition table {K V : Type} `{Countable K, SerdeJson V} (enc : K → list byte)
    (v : gmap (list byte) (list byte)) (m : gmap K V) : Prop :=
  ∀ k, match v !! enc k with
       | None => m !! k = None
       | Some b => ∃ x, from_slice b = Ok x ∧ m !! k = Some x
       end.

Section tables.
Context {K V : Type} `{Countable K, SerdeJson V} (enc : K → list byte) `{!Inj (=) (=) enc}.
Implicit Types (v : gmap (list byte) (list byte)) (m : gmap K V).

Lemma table_insert v m k b x :
  table enc v m → from_slice b = Ok x → table enc (<[enc k:=b]> v) (<[k:=x]> m).
Proof.
  intros Ht Hb k'. destruct (decide (k = k')) as [->|Hne].
  - rewrite !lookup_insert_eq. by exists x.
  - rewrite !lookup_insert_ne by (done || intros E; by apply (inj enc) in E). apply Ht.
Qed.

Lemma table_insert_other v m key b :
  table enc v m → (∀ k, enc k ≠ key) → table enc (<[key:=b]> v) m.
Proof. intros Ht Hk k. rewrite lookup_insert_ne by done. apply Ht. Qed.

Lemma table_delete v m k : table enc v m → table enc (delete (enc k) v) (delete k m).
Proof.
  intros Ht k'. destruct (decide (k = k')) as [->|Hne].
  - by rewrite !lookup_delete_eq.
  - rewrite !lookup_delete_ne by (done || intros E; by apply (inj enc) in E). apply Ht.
Qed.

Lemma table_delete_other v m key :
  table enc v m → (∀ k, enc k ≠ key) → table enc (delete key v) m.
Proof. intros Ht Hk k. rewrite lookup_delete_ne by done. apply Ht. Qed.

Lemma table_lookup v m k x :
  table enc v m → m !! k = Some x → ∃ b, v !! enc k = Some b ∧ from_slice b = Ok x.
Proof.
  intros Ht Hx. specialize (Ht k). destruct (v !! enc k) as [b|]; [|congruence].
  destruct Ht as (y & Hy & E). exists b. split; [done|congruence].
Qed.

Lemma table_bytes v m k b :
  table enc v m → v !! enc k = Some b → ∃ x, from_slice b = Ok x ∧ m !! k = Some x.
Proof. intros Ht Hb. specialize (Ht k). by rewrite Hb in Ht. Qed.

Lemma table_empty : table enc ∅ (∅ : gmap K V).
Proof. intros k. by rewrite !lookup_empty. Qed.

Context {St : Type} `{KvStoreLaws St}.

Lemma read_json_table s m (k : K) :
  kv_wf s → table enc (kv_view s) m → read_json (enc k) s = (s, Ok (m !! k)).
Proof.
  intros Hs Ht. unfold read_json, mthen. rewrite kv_get_ok by done. specialize (Ht k).
  destruct (kv_view s !! enc k) as [b|] eqn:E; [|by rewrite Ht].
  destruct Ht as (x & Hx & Hm). unfold mlift. by rewrite Hx, Hm.
Qed.

Lemma spec_read_json (P : gmap (list byte) (list byte) → Prop) m (k : K)
    (Q : option V → gmap (list byte) (list byte) → Prop) :
  (∀ v, P v → table enc v m) → (∀ v, P v → Q (m !! k) v) → spec P (read_json (enc k)) Q.
Proof.
  intros Ht HQ s Hs HP. rewrite (read_json_table s m k) by auto. do 2 eexists. eauto.
Qed.

(** Reading a table returns what the map holds. *)
Lemma spec_read_then (P : gmap (list byte) (list byte) → Prop) m (k : K) {A : Type}
    (f : option V → M St A) (Q : A → gmap (list byte) (list byte) → Prop) :
  (∀ v, P v → table enc v m) → spec P (f (m !! k)) Q →
  spec P (mthen (read_json (enc k)) f) Q.
Proof.
  intros Ht Hf. eapply spec_then; [by apply (spec_read_json P m k (λ o v, P v ∧ o = m !! k))|].
  intros o s Hs [Hv ->]. by apply Hf.
Qed.

Lemma safe_read_then (P : gmap (list byte) (list byte) → Prop) m (k : K) {A : Type}
    (f : option V → M St A) (Q : A → gmap (list byte) (list byte) → Prop)
    (E : gmap (list byte) (list byte) → Prop) :
  (∀ v, P v → table enc v m) → safe P (f (m !! k)) Q E →
  safe P (mthen (read_json (enc k)) f) Q E.
Proof.
  intros Ht Hf. eapply safe_then.
  - apply safe_spec. by apply (spec_read_json P m k (λ o v, P v ∧ o = m !! k)).
  - intros o s Hs [Hv ->]. by apply Hf.
Qed.

Lemma spec_write_json (P : gmap (list byte) (list byte) → Prop) (k : K) (x : V)
    (Q : () → gmap (list byte) (list byte) → Prop) :
  (∀ v b, P v → from_slice b = Ok x → Q () (<[enc k:=b]> v)) →
  spec P (write_json (enc k) x) Q.
Proof.
  intros HQ. unfold write_json. destruct (serde_roundtrip x) as (b & Hb & Hx).
  eapply spec_then; [by eapply (spec_lift P _ _ (λ a v, a = b ∧ P v))|].
  intros b'. simpl. apply spec_put. intros v [-> HP]. auto.
Qed.
End tables.

(** A loop whose body simulates a step of an abstract state, over elements that
    encode abstract ones, ends in the fold of the steps. *)
Lemma spec_for_each_fold {St : Type} `{KvStoreLaws St} {A B D : Type}
    (rep : gmap (list byte) (list byte) → D → Prop) (f : A → M St ()) (R : A → B → Prop)
    (step : D → B → D) (l : list A) (l' : list B) (d : D) :
  Forall2 R l l' →
  (∀ x y d, R x y → spec (λ v, rep v d) (f x) (λ _ v, rep v (step d y))) →
  spec (λ v, rep v d) (for_each f l) (λ _ v, rep v (foldl step d l')).
Proof.
  intros HR Hf. revert d. induction HR as [|x y l l' Hxy HR IH]; intros d; simpl.
  - by apply spec_ok.
  - eapply spec_then; [by eapply Hf|]. intros []. apply IH.
Qed.

(** The entries of a table that a prefix lists, decoded. *)
Lemma listed_entries {K V : Type} `{Countable K, SerdeJson V} (enc : K → list byte)
    `{!Inj (=) (=) enc} (ok : K → Prop) (p : list byte) (v : gmap (list byte) (list byte))
    (m : gmap K V) (l : list (list byte * list byte)) :
  table enc v m → (∀ k, p `prefix_of` enc k) →
  (∀ key b, v !! key = Some b → p `prefix_of` key → ∃ k, ok k ∧ key = enc k) →
  (∀ key b, (key, b) ∈ l ↔ v !! key = Some b ∧ p `prefix_of` key) →
  ∃ es : list (K * V), Forall2 (λ kb kx, ok kx.1 ∧ kb.1 = enc kx.1 ∧ from_slice kb.2 = Ok kx.2) l es ∧
    ∀ k x, (k, x) ∈ es ↔ m !! k = Some x.
Proof.
  intros Ht Hp Hok Hl.
  assert (∀ l', l' ⊆ l → ∃ es : list (K * V), Forall2 (λ kb kx, ok kx.1 ∧ kb.1 = enc kx.1 ∧
            from_slice kb.2 = Ok kx.2) l' es) as Hes.
  { induction l' as [|[key b] l' IH]; intros Hsub; [by exists []|].
    destruct IH as [es IH]; [set_solver|].
    destruct (proj1 (Hl key b)) as [Hkey Hpre]; [set_solver|].
    destruct (Hok key b Hkey Hpre) as (k & Hk & ->).
    destruct (table_bytes enc v m k b Ht Hkey) as (x & Hx & _).
    exists ((k, x) :: es). by constructor. }
  destruct (Hes l) as [es HF]; [done|]. exists es. split; [done|]. intros k x. split.
  - intros (i & Hi)%list_elem_of_lookup. destruct (Forall2_lookup_r _ _ _ _ _ HF Hi)
      as ([key b] & Hkb & _ & Hkey & Hx). simpl in *. subst key.
    apply list_elem_of_lookup_2, Hl in Hkb as [Hv _].
    destruct (table_bytes enc v m k b Ht Hv) as (y & Hy & Hm). congruence.
  - intros Hm. destruct (table_lookup enc v m k x Ht Hm) as (b & Hb & Hx).
    assert ((enc k, b) ∈ l) as (i & Hi)%list_elem_of_lookup by (apply Hl; split; [done|apply Hp]).
    destruct (Forall2_lookup_l _ _ _ _ _ HF Hi) as ([k' y] & Hky & _ & Hkey & Hy). simpl in *.
    apply (inj enc) in Hkey as <-. assert (x = y) as -> by congruence.
    by eapply list_elem_of_lookup_2.
Qed.

(** A listing is, up to its order, the list of the entries of the map. *)
Lemma listed_table {K V : Type} `{Countable K, SerdeJson V} (enc : K → list byte)
    `{!Inj (=) (=) enc} (p : list byte) (v : gmap (list byte) (list byte))
    (m : gmap K V) (l : list (list byte * list byte)) :
  table enc v m → (∀ k, p `prefix_of` enc k) →
  (∀ key b, v !! key = Some b → p `prefix_of` key → ∃ k, True ∧ key = enc k) →
  StronglySorted entry_lt l →
  (∀ key b, (key, b) ∈ l ↔ v !! key = Some b ∧ p `prefix_of` key) →
  ∃ es : list (K * V), Forall2 (λ kb kx, kb.1 = enc kx.1 ∧ from_slice kb.2 = Ok kx.2) l es ∧
    es ≡ₚ map_to_list m.
Proof.
  intros Ht Hp Hok Hs Hl.
  destruct (listed_entries enc (λ _, True) p v m l Ht Hp Hok Hl) as (es & HF & Hes).
  exists es. split; [by eapply Forall2_impl; [exact HF|]; intros x y (_ & ? & ?)|].
  assert (NoDup es.*1) as Hnd.
  { apply (NoDup_fmap_1 enc). assert (l.*1 = enc <$> es.*1) as <-.
    { clear - HF. induction HF as [|x y l es (_ & Hx & _) _ IH]; [done|]. by rewrite !fmap_cons, Hx, IH. }
    by apply bt_wf_keys_NoDup. }
  apply NoDup_Permutation; [by eapply NoDup_fmap_1|apply NoDup_map_to_list|].
  intros [k x]. by rewrite Hes, elem_of_map_to_list.
Qed.
