(* ===== verification/Simulated.v ===== *)
(** [crates/pxe/src/execution/execution_result.rs], [field_conversion.rs] and
    [crates/pxe/src/kernel/simulated.rs]: the tree of private calls, the side effects
    collected from it, and the public inputs the simulated kernel assembles. *)

From S2P Require Import Prelude Bytes Ordered Deps Concrete Types Constants Poseidon KernelTypes Tx Hash.

(** ** [field_conversion.rs] *)

Section field_conversion.
Context {FR : PrimeField fr_modulus} {HX : HexCrate} {AC : AcirCrate}.

Definition fe_to_fr (e : fe) : Fr :=
  match Fr_from_hex ("0x" +:+ fe_to_hex e) with Ok x => x | _ => Fr_zero end.

Definition fr_to_fe (x : Fr) : fe := fe_from_be_bytes_reduce (Fr_to_be_bytes x).

(** A witness map and a set of witnesses, both in the order of the indices. *)
Definition witness_map_to_frs (witness : list (Z * fe)) (return_witnesses : list Z) : list Fr :=
  omap (λ w, fe_to_fr <$> bt_get w witness) return_witnesses.

Lemma fe_to_fr_of x : fe_to_fr (fr_to_fe x) = x.
Proof.
  unfold fe_to_fr, fr_to_fe. rewrite Fr_to_be_bytes_eq, fe_to_hex_from, <- Fr_to_be_bytes_eq.
  change (match Fr_from_hex (Fr_to_string x) with Ok x => x | _ => Fr_zero end = x).
  by rewrite Fr_from_to_string.
Qed.
End field_conversion.

(** ** [execution_result.rs] *)

Section execution_result.
Context {FR : PrimeField fr_modulus} {HX : HexCrate} {AC : AcirCrate}.

Record CountedContractClassLog := { cccl_log : ContractClassLog; cccl_counter : Z }.

Record PrivateLogData := {
  pld_fields : list Fr;
  pld_emitted_length : Z;
  pld_note_hash_counter : Z;
  pld_counter : Z;
  pld_contract_address : AztecAddress;
}.

Record PublicCallRequestData := {
  pcd_contract_address : AztecAddress;
  pcd_msg_sender : AztecAddress;
  pcd_is_static_call : bool;
  pcd_calldata_hash : Fr;
  pcd_counter : Z;
}.

Inductive PrivateCallExecutionResult := {
  ce_acir : list byte;
  ce_vk : list byte;
  ce_partial_witness : list (Z * fe);
  ce_contract_address : AztecAddress;
  ce_call_context : CallContext;
  ce_return_values : list Fr;
  ce_public_inputs_fields : list Fr;
  ce_new_notes : list NoteAndSlot;
  ce_note_hash_nullifier_counter_map : gmap Z Z;
  ce_offchain_effects : list (list Fr);
  ce_pre_tags : list Fr;
  ce_nested_execution_results : list PrivateCallExecutionResult;
  ce_contract_class_logs : list CountedContractClassLog;
  ce_note_hashes : list ScopedNoteHash;
  ce_nullifiers : list ScopedNullifier;
  ce_note_hash_read_requests : list ScopedReadRequest;
  ce_nullifier_read_requests : list ScopedReadRequest;
  ce_private_logs : list PrivateLogData;
  ce_public_call_requests : list PublicCallRequestData;
  ce_public_teardown_call_request : option PublicCallRequestData;
  ce_start_side_effect_counter : Z;
  ce_end_side_effect_counter : Z;
  ce_min_revertible_side_effect_counter : Z;
}.

Definition PRIVATE_CIRCUIT_PUBLIC_INPUTS_LENGTH : Z := 870.

(** The witness index is a [usize] sum cut to 32 bits. *)
Definition extract_public_inputs_fields (witness : list (Z * fe)) (params_size : Z) : list Fr :=
  (λ offset, default Fr_zero (fe_to_fr <$> bt_get (wrap 32 (wrap 64 (params_size + offset))) witness))
    <$> seqZ 0 PRIVATE_CIRCUIT_PUBLIC_INPUTS_LENGTH.

Record PrivateExecutionResult := {
  er_entrypoint : PrivateCallExecutionResult;
  er_first_nullifier : Fr;
  er_expiration_timestamp : Z;
  er_public_function_calldata : list HashedValues;
}.

(** Depth first, a call before the calls it made. *)
Fixpoint collect_calls (call : PrivateCallExecutionResult) : list PrivateCallExecutionResult :=
  call :: List.flat_map collect_calls (ce_nested_execution_results call).

Definition iter_all_calls (r : PrivateExecutionResult) : list PrivateCallExecutionResult :=
  collect_calls (er_entrypoint r).

(** The loop [by_counter.entry(counter).or_insert(x)] and its [into_values]. *)
Definition by_counter {A : Type} (counter : A → Z) (l : list A) : list A :=
  bt_values (foldl (λ m x, bt_or_insert (counter x) x m) [] l).

Definition collect_by_counter {A : Type} (effects : PrivateCallExecutionResult → list A)
    (counter : A → Z) (r : PrivateExecutionResult) : list A :=
  by_counter counter (List.flat_map effects (iter_all_calls r)).

Definition snh_counter (n : ScopedNoteHash) : Z := nh_counter (snh_note_hash n).
Definition snf_counter (n : ScopedNullifier) : Z := nf_counter (snf_nullifier n).
Definition srr_counter (r : ScopedReadRequest) : Z := rr_counter (srr_read_request r).

Definition all_note_hashes : PrivateExecutionResult → list ScopedNoteHash :=
  collect_by_counter ce_note_hashes snh_counter.
Definition all_nullifiers : PrivateExecutionResult → list ScopedNullifier :=
  collect_by_counter ce_nullifiers snf_counter.
Definition all_note_hash_read_requests : PrivateExecutionResult → list ScopedReadRequest :=
  collect_by_counter ce_note_hash_read_requests srr_counter.
Definition all_nullifier_read_requests : PrivateExecutionResult → list ScopedReadRequest :=
  collect_by_counter ce_nullifier_read_requests srr_counter.
Definition all_private_logs : PrivateExecutionResult → list PrivateLogData :=
  collect_by_counter ce_private_logs pld_counter.
Definition all_contract_class_logs_sorted : PrivateExecutionResult → list CountedContractClassLog :=
  collect_by_counter ce_contract_class_logs cccl_counter.
Definition all_public_call_requests : PrivateExecutionResult → list PublicCallRequestData :=
  collect_by_counter ce_public_call_requests pcd_counter.

Definition get_teardown_call_request (r : PrivateExecutionResult) : option PublicCallRequestData :=
  head (omap ce_public_teardown_call_request (iter_all_calls r)).

(** [map.extend]: the entries of a later call replace those of an earlier one. *)
Definition all_note_hash_nullifier_counter_maps (r : PrivateExecutionResult) : gmap Z Z :=
  foldl (λ map call, ce_note_hash_nullifier_counter_map call ∪ map) ∅ (iter_all_calls r).
End execution_result.

(** ** [simulated.rs] *)

Section simulated_kernel.
Context {FR : PrimeField fr_modulus} {HX : HexCrate} {AC : AcirCrate} {P2 : Poseidon2Crate}.

Definition squash_transient_side_effects (note_hashes : list ScopedNoteHash)
    (nullifiers : list ScopedNullifier) (private_logs : list PrivateLogData)
    (note_hash_nullifier_counter_map : gmap Z Z)
    : list ScopedNoteHash * list ScopedNullifier * list PrivateLogData :=
  let squashed_note_hash_counters := (map_to_list note_hash_nullifier_counter_map).*1 in
  let squashed_nullifier_counters := (map_to_list note_hash_nullifier_counter_map).*2 in
  (filter (λ nh, snh_counter nh ∉ squashed_note_hash_counters) note_hashes,
   filter (λ n, snf_counter n ∉ squashed_nullifier_counters) nullifiers,
   filter (λ log, pld_note_hash_counter log ∉ squashed_note_hash_counters) private_logs).

Definition siloed_note_hash (nh : ScopedNoteHash) : Fr :=
  if ScopedNoteHash_is_empty nh then Fr_zero
  else silo_note_hash (snh_contract_address nh) (nh_value (snh_note_hash nh)).

Definition siloed_nullifier (n : ScopedNullifier) : Fr :=
  if ScopedNullifier_is_empty n then Fr_zero
  else silo_nullifier (snf_contract_address n) (nf_value (snf_nullifier n)).

Definition siloed_private_log (log : PrivateLogData) : PrivateLog :=
  let fields := match pld_fields log with
                | f :: rest =>
                    if bool_decide (f = Fr_zero) then f :: rest
                    else compute_siloed_private_log_first_field (pld_contract_address log) f :: rest
                | [] => []
                end in
  {| pl_fields := pad_fields fields PRIVATE_LOG_SIZE_IN_FIELDS;
     pl_emitted_length := pld_emitted_length log |}.

Definition class_log_hash (ccl : CountedContractClassLog) : ScopedLogHash :=
  let log := cccl_log ccl in
  {| slh_log_hash :=
       {| lh_value := poseidon2_hash (cclf_fields (from_emitted_fields (ccl_fields log)));
          lh_length := ccl_emitted_length log |};
     slh_contract_address := ccl_contract_address log |}.

Definition unique_note_hash (nonce_generator : Fr) (i : nat) (siloed_hash : Fr) : Fr :=
  if bool_decide (siloed_hash = Fr_zero) then Fr_zero
  else compute_unique_note_hash (compute_note_hash_nonce nonce_generator (Z.of_nat i)) siloed_hash.

(** The loop shared by the three splits: an element goes by the counter of its original. *)
Definition split_by_counter {A B : Type} (counter : B → Z) (siloed : list A) (originals : list B)
    (min_revertible : Z) : list A * list A :=
  let pairs := zip siloed originals in
  ((List.filter (λ p, counter p.2 <? min_revertible) pairs).*1,
   (List.filter (λ p, negb (counter p.2 <? min_revertible)) pairs).*1).

Definition split_note_hashes_by_counter : list Fr → list ScopedNoteHash → Z → list Fr * list Fr :=
  split_by_counter snh_counter.
Definition split_nullifiers_by_counter : list Fr → list ScopedNullifier → Z → list Fr * list Fr :=
  split_by_counter snf_counter.
Definition split_private_logs : list PrivateLog → list PrivateLogData → Z → list PrivateLog * list PrivateLog :=
  split_by_counter pld_counter.

Definition to_public_call_request (req : PublicCallRequestData) : PublicCallRequest :=
  {| pcr_msg_sender := pcd_msg_sender req; pcr_contract_address := pcd_contract_address req;
     pcr_is_static_call := pcd_is_static_call req; pcr_calldata_hash := pcd_calldata_hash req |}.

Definition count {A : Type} (p : A → bool) (l : list A) : Z := Z.of_nat (length (List.filter p l)).
Definition non_zero (f : Fr) : bool := negb (bool_decide (f = Fr_zero)).

Definition meter_gas_rollup (data : PrivateToRollupAccumulatedData) : Gas :=
  let note_hash_count := count non_zero (pr_note_hashes data) in
  let nullifier_count := count non_zero (pr_nullifiers data) in
  let l2_to_l1_count := count (λ m, negb (ScopedL2ToL1Message_is_empty m)) (pr_l2_to_l1_msgs data) in
  let log_count := count (λ l, negb (PrivateLog_is_empty l)) (pr_private_logs data) in
  let class_log_count :=
    count (λ h, negb (ScopedLogHash_is_empty h)) (pr_contract_class_logs_hashes data) in
  let l2_gas := wrap 64 (PRIVATE_TX_L2_GAS_OVERHEAD + note_hash_count * L2_GAS_PER_NOTE_HASH
    + nullifier_count * L2_GAS_PER_NULLIFIER + l2_to_l1_count * L2_GAS_PER_L2_TO_L1_MSG
    + log_count * L2_GAS_PER_PRIVATE_LOG + class_log_count * L2_GAS_PER_CONTRACT_CLASS_LOG) in
  let da_fields := note_hash_count + nullifier_count + log_count * PRIVATE_LOG_SIZE_IN_FIELDS in
  let da_gas := wrap 64 (TX_DA_GAS_OVERHEAD + da_fields * DA_GAS_PER_FIELD) in
  Gas_new da_gas l2_gas.

Definition meter_gas_public (non_revertible revertible : PrivateToPublicAccumulatedData) : Gas :=
  let note_hashes := count non_zero (pp_note_hashes non_revertible)
                     + count non_zero (pp_note_hashes revertible) in
  let nullifiers := count non_zero (pp_nullifiers non_revertible)
                    + count non_zero (pp_nullifiers revertible) in
  let non_empty l := negb (PrivateLog_is_empty l) in
  let logs := count non_empty (pp_private_logs non_revertible)
              + count non_empty (pp_private_logs revertible) in
  let l2_gas := wrap 64 (PUBLIC_TX_L2_GAS_OVERHEAD + note_hashes * L2_GAS_PER_NOTE_HASH
    + nullifiers * L2_GAS_PER_NULLIFIER + logs * L2_GAS_PER_PRIVATE_LOG) in
  let da_fields := note_hashes + nullifiers + logs * PRIVATE_LOG_SIZE_IN_FIELDS in
  let da_gas := wrap 64 (TX_DA_GAS_OVERHEAD + da_fields * DA_GAS_PER_FIELD) in
  Gas_new da_gas l2_gas.

(** [while v.len() < n { v.push(empty) }]. *)
Definition pad_to_scoped_l2_to_l1 (v : list ScopedL2ToL1Message) : list ScopedL2ToL1Message :=
  pad_to v MAX_L2_TO_L1_MSGS_PER_TX ScopedL2ToL1Message_empty.
Definition pad_private_logs (v : list PrivateLog) : list PrivateLog :=
  pad_to v MAX_PRIVATE_LOGS_PER_TX PrivateLog_empty.
Definition pad_scoped_log_hashes (v : list ScopedLogHash) : list ScopedLogHash :=
  pad_to v MAX_CONTRACT_CLASS_LOGS_PER_TX ScopedLogHash_empty.
Definition pad_public_call_requests (v : list PublicCallRequest) : list PublicCallRequest :=
  pad_to v MAX_ENQUEUED_CALLS_PER_TX PublicCallRequest_empty.

(** Steps 1 and 2: the collected side effects without the squashed ones, by counter. *)
Definition filtered_note_hashes (r : PrivateExecutionResult) : list ScopedNoteHash :=
  sort_by_key snh_counter
    (squash_transient_side_effects (all_note_hashes r) (all_nullifiers r) (all_private_logs r)
       (all_note_hash_nullifier_counter_maps r)).1.1.
Definition filtered_nullifiers (r : PrivateExecutionResult) : list ScopedNullifier :=
  sort_by_key snf_counter
    (squash_transient_side_effects (all_note_hashes r) (all_nullifiers r) (all_private_logs r)
       (all_note_hash_nullifier_counter_maps r)).1.2.
Definition filtered_private_logs (r : PrivateExecutionResult) : list PrivateLogData :=
  sort_by_key pld_counter
    (squash_transient_side_effects (all_note_hashes r) (all_nullifiers r) (all_private_logs r)
       (all_note_hash_nullifier_counter_maps r)).2.

Definition process_rollup (r : PrivateExecutionResult) : PrivateToRollupAccumulatedData :=
  let siloed_note_hashes := siloed_note_hash <$> filtered_note_hashes r in
  let rollup_nullifiers := er_first_nullifier r :: (siloed_nullifier <$> filtered_nullifiers r) in
  let unique_note_hashes := imap (unique_note_hash (er_first_nullifier r)) siloed_note_hashes in
  {| pr_note_hashes := pad_fields unique_note_hashes MAX_NOTE_HASHES_PER_TX;
     pr_nullifiers := pad_fields rollup_nullifiers MAX_NULLIFIERS_PER_TX;
     pr_l2_to_l1_msgs := pad_to_scoped_l2_to_l1 [];
     pr_private_logs := pad_private_logs (siloed_private_log <$> filtered_private_logs r);
     pr_contract_class_logs_hashes :=
       pad_scoped_log_hashes (class_log_hash <$> all_contract_class_logs_sorted r) |}.

Definition process_public (r : PrivateExecutionResult) : PartialPrivateTailPublicInputsForPublic :=
  let min_revertible_counter := ce_min_revertible_side_effect_counter (er_entrypoint r) in
  let public_calls := sort_by_key pcd_counter (all_public_call_requests r) in
  let note_hashes := filtered_note_hashes r in
  let nullifiers := filtered_nullifiers r in
  let private_logs := filtered_private_logs r in
  let '(nr_note_hashes, r_note_hashes) :=
    split_note_hashes_by_counter (siloed_note_hash <$> note_hashes) note_hashes min_revertible_counter in
  let '(nr_nullifiers, r_nullifiers) :=
    split_nullifiers_by_counter (siloed_nullifier <$> nullifiers) nullifiers min_revertible_counter in
  let '(nr_private_logs, r_private_logs) :=
    split_private_logs (siloed_private_log <$> private_logs) private_logs
      min_revertible_counter in
  let nr_nullifiers := er_first_nullifier r :: nr_nullifiers in
  let nr_unique_note_hashes := imap (unique_note_hash (er_first_nullifier r)) nr_note_hashes in
  let '(nr_public_calls, r_public_calls) :=
    split_by_counter pcd_counter (to_public_call_request <$> public_calls) public_calls
      min_revertible_counter in
  let teardown := match get_teardown_call_request r with
                  | Some req => to_public_call_request req | None => PublicCallRequest_empty end in
  let contract_class_log_hashes := class_log_hash <$> all_contract_class_logs_sorted r in
  {| non_revertible_accumulated_data :=
       {| pp_note_hashes := pad_fields nr_unique_note_hashes MAX_NOTE_HASHES_PER_TX;
          pp_nullifiers := pad_fields nr_nullifiers MAX_NULLIFIERS_PER_TX;
          pp_l2_to_l1_msgs := pad_to_scoped_l2_to_l1 [];
          pp_private_logs := pad_private_logs nr_private_logs;
          pp_contract_class_logs_hashes := pad_scoped_log_hashes contract_class_log_hashes;
          pp_public_call_requests := pad_public_call_requests nr_public_calls |};
     revertible_accumulated_data :=
       {| pp_note_hashes := pad_fields r_note_hashes MAX_NOTE_HASHES_PER_TX;
          pp_nullifiers := pad_fields r_nullifiers MAX_NULLIFIERS_PER_TX;
          pp_l2_to_l1_msgs := pad_to_scoped_l2_to_l1 [];
          pp_private_logs := pad_private_logs r_private_logs;
          pp_contract_class_logs_hashes := pad_scoped_log_hashes [];
          pp_public_call_requests := pad_public_call_requests r_public_calls |};
     public_teardown_call_request := teardown |}.

Definition is_private_only (r : PrivateExecutionResult) : bool :=
  match all_public_call_requests r, get_teardown_call_request r with
  | [], None => true
  | _, _ => false
  end.

Definition process (r : PrivateExecutionResult) (constants : TxConstantData) (fee_payer : Fr)
    (expiration_timestamp : Z) : PrivateKernelTailPublicInputs :=
  if is_private_only r then
    let end_ := process_rollup r in
    {| pi_constants := constants; pi_gas_used := meter_gas_rollup end_; pi_fee_payer := fee_payer;
       pi_expiration_timestamp := expiration_timestamp; pi_for_public := None;
       pi_for_rollup := Some {| fr_end := end_ |} |}
  else
    let public := process_public r in
    {| pi_constants := constants;
       pi_gas_used := meter_gas_public (non_revertible_accumulated_data public)
                        (revertible_accumulated_data public);
       pi_fee_payer := fee_payer; pi_expiration_timestamp := expiration_timestamp;
       pi_for_public := Some public; pi_for_rollup := None |}.
End simulated_kernel.
