(* ===== verification/SimulatedSpec.v ===== *)
(** What the simulated kernel does with the side effects of a transaction: which
    survive, in which order, and how they are divided. *)

From S2P Require Import Prelude Bytes Ordered Deps Concrete Types Constants Poseidon KernelTypes Tx Hash Simulated.

Section split_facts.
Context {A B : Type} (counter : B → Z) (f : B → A).

(** A list sorted by counter is divided at one point. *)
Lemma split_sorted (l : list B) (m : Z) :
  StronglySorted (λ x y, counter x ≤ counter y) l →
  ∃ k, split_by_counter counter (f <$> l) l m = (f <$> take k l, f <$> drop k l) ∧
       Forall (λ x, counter x < m) (take k l) ∧ Forall (λ x, m ≤ counter x) (drop k l).
Proof.
  unfold split_by_counter. induction 1 as [|x l Hl (k & E & H1 & H2) Hx].
  - by exists 0%nat.
  - cbn [fmap list_fmap zip zip_with List.filter snd]. fold (fmap (M := list) f).
    destruct (Z.ltb_spec (counter x) m) as [Hlt|Hge]; cbn [negb].
    + exists (S k). injection E as E1 E2. simpl. split_and!; [|by constructor|done].
      f_equal; [f_equal; exact E1|exact E2].
    + exists 0%nat. simpl. split_and!; [|constructor|].
      * assert (Forall (λ y, m ≤ counter y) l) as Hm.
        { eapply Forall_impl; [exact Hx|]. simpl. intros y Hy. lia. }
        assert (List.filter (λ p, counter p.2 <? m) (zip (f <$> l) l) = [] ∧
                (List.filter (λ p, negb (counter p.2 <? m)) (zip (f <$> l) l)).*1 = f <$> l) as [-> E2].
        { clear - Hm. induction Hm as [|y l Hy Hm [IH1 IH2]]; [done|]. cbn.
          destruct (Z.ltb_spec (counter y) m); [lia|]. cbn. split; [exact IH1|]. f_equal. exact IH2. }
        f_equal. f_equal. exact E2.
      * constructor; [done|]. eapply Forall_impl; [exact Hx|]. simpl. intros y Hy. lia.
Qed.
End split_facts.

Section collection.
Context {A : Type} (counter : A → Z).

(** The first element of [l] with its counter. *)
Definition first_of (l : list A) (x : A) : Prop :=
  List.find (λ y, counter y =? counter x) l = Some x.

Lemma collect_get (l : list A) (m : list (Z * A)) k :
  bt_get k (foldl (λ m x, bt_or_insert (counter x) x m) m l) =
  match bt_get k m with Some y => Some y | None => List.find (λ y, counter y =? k) l end.
Proof.
  revert m. induction l as [|x l IH]; intros m; simpl; [by destruct (bt_get k m)|].
  rewrite IH. unfold bt_or_insert. destruct (Z.eqb_spec (counter x) k) as [<-|Hne].
  - destruct (bt_get (counter x) m) eqn:E; [by rewrite E|]. by rewrite bt_get_insert.
  - destruct (bt_get (counter x) m); [done|]. by rewrite bt_get_insert_ne.
Qed.

Lemma collect_wf (l : list A) (m : list (Z * A)) :
  bt_wf m → bt_wf (foldl (λ m x, bt_or_insert (counter x) x m) m l).
Proof.
  revert m. induction l as [|x l IH]; intros m Hm; simpl; [done|]. by apply IH, bt_or_insert_wf.
Qed.

Lemma by_counter_elem l x : x ∈ by_counter counter l ↔ first_of l x.
Proof.
  unfold by_counter, bt_values, first_of. set (m := foldl _ _ _).
  assert (bt_wf m) as Hm by (apply collect_wf; constructor).
  assert (∀ k, bt_get k m = List.find (λ y, counter y =? k) l) as Hget
    by (intros k; unfold m; by rewrite collect_get).
  rewrite list_elem_of_fmap. split.
  - intros ([k y] & -> & Hin). simpl. apply bt_get_elem in Hin; [|done]. rewrite Hget in Hin.
    pose proof (List.find_some _ _ Hin) as [_ E]. apply Z.eqb_eq in E. by rewrite E.
  - intros Hx. rewrite <- Hget in Hx. exists (counter x, x). split; [done|].
    by apply bt_get_Some_elem.
Qed.

(** The collected elements are in the order of their counters, one for each. *)
Lemma by_counter_sorted l : StronglySorted (λ x y, counter x < counter y) (by_counter counter l).
Proof.
  unfold by_counter, bt_values. set (m := foldl _ _ _).
  assert (bt_wf m) as Hm by (apply collect_wf; constructor).
  assert (∀ k y, (k, y) ∈ m → counter y = k) as Hk.
  { intros k y Hin. apply bt_get_elem in Hin; [|done]. unfold m in Hin. rewrite collect_get in Hin.
    apply List.find_some in Hin as [_ E]. by apply Z.eqb_eq. }
  clearbody m. clear -Hm Hk. induction Hm as [|[k y] m Hm IH Hy]; [constructor|].
  rewrite fmap_cons. constructor.
  - apply IH. intros k' y' Hin. apply Hk. by apply elem_of_cons; right.
  - rewrite Forall_fmap. rewrite Forall_forall in Hy |- *. intros [k' y'] Hin. simpl.
    rewrite (Hk k y), (Hk k' y') by (apply elem_of_cons; auto).
    specialize (Hy _ Hin). by apply Z.compare_lt_iff.
Qed.

Lemma strongly_sorted_filter (R : A → A → Prop) (P : A → Prop) `{∀ x, Decision (P x)} (l : list A) :
  StronglySorted R l → StronglySorted R (filter P l).
Proof.
  induction 1 as [|x l Hl IH Hx]; [constructor|]. rewrite filter_cons. case_decide; [|done].
  constructor; [done|]. rewrite Forall_forall in *. intros y [_ Hy]%list_elem_of_filter. auto.
Qed.

Lemma strongly_sorted_impl (R R' : A → A → Prop) (l : list A) :
  (∀ x y, R x y → R' x y) → StronglySorted R l → StronglySorted R' l.
Proof.
  intros HR. induction 1 as [|x l Hl IH Hx]; constructor; [done|].
  by eapply Forall_impl; [exact Hx|]; auto.
Qed.

(** Sorting again by counter changes nothing. *)
Lemma sort_collected (P : A → Prop) `{∀ x, Decision (P x)} l :
  let l' := sort_by_key counter (filter P (by_counter counter l)) in
  StronglySorted (λ x y, counter x < counter y) l' ∧
  ∀ x, x ∈ l' ↔ P x ∧ first_of l x.
Proof.
  assert (StronglySorted (λ x y, counter x < counter y) (filter P (by_counter counter l))) as Hs
    by apply strongly_sorted_filter, by_counter_sorted.
  cbn zeta. unfold sort_by_key. rewrite sort_by_sorted_id.
  - split; [done|]. intros x. by rewrite list_elem_of_filter, by_counter_elem.
  - eapply strongly_sorted_impl; [|exact Hs].
    unfold cmp_le. intros x y Hxy E. apply Z.compare_gt_iff in E. lia.
Qed.
(** The collection is the only list with these elements in this order. *)
Lemma by_counter_unique l l' :
  StronglySorted (λ x y, counter x < counter y) l' → (∀ x, x ∈ l' ↔ first_of l x) → by_counter counter l = l'.
Proof.
  intros Hs Hl. apply (StronglySorted_unique_strong (λ x y, counter x < counter y)).
  - intros x y _ _ Hxy Hyx. lia.
  - apply by_counter_sorted.
  - done.
  - apply NoDup_Permutation.
    + assert (∀ k, StronglySorted (λ x y, counter x < counter y) k → NoDup k) as Hnd.
      { induction 1 as [|x k Hk IH Hx]; constructor; [|done]. intros Hin. rewrite Forall_forall in Hx.
        specialize (Hx _ Hin). simpl in Hx. lia. }
      apply Hnd, by_counter_sorted.
    + clear Hl. induction Hs as [|x k Hk IH Hx]; constructor; [|done]. intros Hin.
      rewrite Forall_forall in Hx. specialize (Hx _ Hin). simpl in Hx. lia.
    + intros x. by rewrite by_counter_elem, Hl.
Qed.

Lemma find_app (p : A → bool) (l1 l2 : list A) :
  List.find p (l1 ++ l2) = match List.find p l1 with Some x => Some x | None => List.find p l2 end.
Proof. induction l1 as [|x l1 IH]; simpl; [done|]. by destruct (p x). Qed.

Lemma find_none_other (k : Z) (l : list A) :
  Forall (λ y, counter y ≠ k) l → List.find (λ y, counter y =? k) l = None.
Proof.
  induction 1 as [|y l Hy Hl IH]; simpl; [done|]. by rewrite (proj2 (Z.eqb_neq _ _) Hy).
Qed.

Lemma first_of_in l x : first_of l x → x ∈ l.
Proof. intros [Hx _]%List.find_some. by apply list_elem_of_In. Qed.

(** Lists whose counters are apart are collected one after the other. *)
Lemma by_counter_app (m : Z) (l1 l2 : list A) :
  Forall (λ x, counter x ≤ m) l1 → Forall (λ x, m < counter x) l2 →
  by_counter counter (l1 ++ l2) = by_counter counter l1 ++ by_counter counter l2.
Proof.
  intros H1 H2. rewrite Forall_forall in H1, H2. apply by_counter_unique.
  - apply (StronglySorted_app _ _ _).
    split; [|split; apply by_counter_sorted].
    intros x y Hx%by_counter_elem%first_of_in Hy%by_counter_elem%first_of_in.
    specialize (H1 _ Hx). specialize (H2 _ Hy). simpl in *. lia.
  - intros x. rewrite elem_of_app, !by_counter_elem. unfold first_of. rewrite find_app. split.
    + intros [-> | Hx]; [done|]. rewrite find_none_other; [done|]. apply Forall_forall. intros y Hy E.
      specialize (H1 _ Hy). specialize (H2 _ (first_of_in _ _ Hx)). simpl in *. lia.
    + destruct (List.find (λ y, counter y =? counter x) l1); [by left|by right].
Qed.

(** Adding to every counter keeps the collection. *)
Lemma by_counter_shift (o : Z) (g : A → A) (l : list A) :
  Forall (λ x, counter (g x) = counter x + o) l →
  by_counter counter (g <$> l) = g <$> by_counter counter l.
Proof.
  intros Hg. rewrite Forall_forall in Hg.
  assert (∀ k l', l' ⊆ l → List.find (λ y, counter y =? k + o) (g <$> l')
                           = g <$> List.find (λ y, counter y =? k) l') as Hfind.
  { intros k l'. induction l' as [|y l' IH]; intros Hl'; [done|]. simpl.
    rewrite (Hg y) by (apply Hl', list_elem_of_here).
    replace (counter y + o =? k + o) with (counter y =? k) by lia.
    destruct (counter y =? k); [done|]. apply IH. intros z Hz. apply Hl'. by apply elem_of_cons; right. }
  apply by_counter_unique.
  - assert (∀ x, x ∈ by_counter counter l → x ∈ l) as Hin by (intros x Hx%by_counter_elem%first_of_in; done).
    pose proof (by_counter_sorted l) as Hs. revert Hs Hin. generalize (by_counter counter l). intros k Hs.
    induction Hs as [|x k Hk IH Hx]; intros Hin; [constructor|]. rewrite fmap_cons. constructor.
    + apply IH. intros y Hy. apply Hin. by apply elem_of_cons; right.
    + rewrite Forall_fmap. rewrite Forall_forall in Hx |- *. intros y Hy. simpl.
      rewrite !Hg by (apply Hin; apply elem_of_cons; auto). specialize (Hx _ Hy). simpl in Hx. lia.
  - intros x. rewrite list_elem_of_fmap. unfold first_of. split.
    + intros (y & -> & Hy%by_counter_elem). rewrite (Hg y) by (by apply first_of_in).
      rewrite Hfind by done. unfold first_of in Hy. by rewrite Hy.
    + intros Hx. assert (x ∈ g <$> l) as (y & -> & Hy)%list_elem_of_fmap.
      { apply List.find_some in Hx as [Hx _]. by apply list_elem_of_In. }
      rewrite (Hg y), Hfind in Hx by done.
      destruct (List.find _ l) as [z|] eqn:E; [|done]. injection Hx as Hz. exists z. split; [done|].
      apply by_counter_elem. unfold first_of. pose proof (List.find_some _ _ E) as [_ Ez].
      apply Z.eqb_eq in Ez. by rewrite Ez.
Qed.
End collection.

Section survivors.
Context {FR : PrimeField fr_modulus} {HX : HexCrate} {AC : AcirCrate} {P2 : Poseidon2Crate}.
Implicit Types r : PrivateExecutionResult.

(** The side effects of all the calls, in the order the calls ran. *)
Definition emitted {A : Type} (effects : PrivateCallExecutionResult → list A) r : list A :=
  List.flat_map effects (iter_all_calls r).

(** The side effects of one kind that survive the squashing: for every counter the
    first one emitted with it, when [P] holds, in the order of the counters. *)
Definition survivors {A : Type} (counter : A → Z) (P : A → Prop) (l l' : list A) : Prop :=
  StronglySorted (λ x y, counter x < counter y) l' ∧ ∀ x, x ∈ l' ↔ P x ∧ first_of counter l x.

Lemma survivors_iff {A : Type} (counter : A → Z) (P P' : A → Prop) (l l' : list A) :
  (∀ x, P x ↔ P' x) → survivors counter P l l' → survivors counter P' l l'.
Proof. intros HP [H1 H2]. split; [done|]. intros x. by rewrite H2, HP. Qed.

Lemma survivors_sorted {A : Type} (counter : A → Z) (P : A → Prop) (l l' : list A) :
  survivors counter P l l' → StronglySorted (λ x y, counter x ≤ counter y) l'.
Proof. intros [Hs _]. eapply strongly_sorted_impl; [|exact Hs]. simpl. lia. Qed.

Lemma key_of_map (m : gmap Z Z) k : k ∈ (map_to_list m).*1 ↔ is_Some (m !! k).
Proof.
  rewrite list_elem_of_fmap. split.
  - intros ([k' v] & -> & Hin%elem_of_map_to_list). by exists v.
  - intros [v Hv%elem_of_map_to_list]. by exists (k, v).
Qed.

Lemma value_of_map (m : gmap Z Z) v : v ∈ (map_to_list m).*2 ↔ ∃ k, m !! k = Some v.
Proof.
  rewrite list_elem_of_fmap. split.
  - intros ([k v'] & -> & Hin%elem_of_map_to_list). by exists k.
  - intros [k Hk%elem_of_map_to_list]. by exists (k, v).
Qed.

Lemma note_hash_survivors r :
  survivors snh_counter (λ nh, all_note_hash_nullifier_counter_maps r !! snh_counter nh = None)
    (emitted ce_note_hashes r) (filtered_note_hashes r).
Proof.
  eapply survivors_iff; [|apply sort_collected]. intros nh. simpl.
  by rewrite key_of_map, <- eq_None_not_Some.
Qed.

Lemma nullifier_survivors r :
  survivors snf_counter (λ n, ∀ k, all_note_hash_nullifier_counter_maps r !! k ≠ Some (snf_counter n))
    (emitted ce_nullifiers r) (filtered_nullifiers r).
Proof.
  eapply survivors_iff; [|apply sort_collected]. intros n. simpl. rewrite value_of_map. naive_solver.
Qed.

Lemma private_log_survivors r :
  survivors pld_counter
    (λ log, all_note_hash_nullifier_counter_maps r !! pld_note_hash_counter log = None)
    (emitted ce_private_logs r) (filtered_private_logs r).
Proof.
  eapply survivors_iff; [|apply sort_collected]. intros log. simpl.
  by rewrite key_of_map, <- eq_None_not_Some.
Qed.

Lemma public_call_survivors r :
  survivors pcd_counter (λ _, True) (emitted ce_public_call_requests r)
    (sort_by_key pcd_counter (all_public_call_requests r)).
Proof.
  assert (filter (λ _, True) (all_public_call_requests r) = all_public_call_requests r) as E.
  { induction (all_public_call_requests r) as [|x l IH]; [done|]. rewrite filter_cons. by rewrite decide_True, IH. }
  rewrite <- E. apply (sort_collected pcd_counter (λ _, True)).
Qed.
End survivors.

(** ** Properties *)

Import Concrete.Instances.


(** With public calls, every list of surviving side effects is cut at the first
    one whose counter reaches the minimum revertible counter: what comes before is
    non-revertible, the rest revertible, and nothing is lost or reordered.  The
    protocol nullifier comes first among the non-revertible nullifiers; only the
    non-revertible note hashes are made unique. *)
Theorem simulated_public_split {FR : PrimeField fr_modulus} {HX : HexCrate} {AC : AcirCrate}
    {P2 : Poseidon2Crate} (r : PrivateExecutionResult) :
  let m := ce_min_revertible_side_effect_counter (er_entrypoint r) in
  let nr := non_revertible_accumulated_data (process_public r) in
  let rv := revertible_accumulated_data (process_public r) in
  let public_calls := sort_by_key pcd_counter (all_public_call_requests r) in
  ∃ i j k l : nat,
    (pp_note_hashes nr = pad_fields (imap (unique_note_hash (er_first_nullifier r))
       (siloed_note_hash <$> take i (filtered_note_hashes r))) MAX_NOTE_HASHES_PER_TX ∧
     pp_note_hashes rv = pad_fields (siloed_note_hash <$> drop i (filtered_note_hashes r))
       MAX_NOTE_HASHES_PER_TX ∧
     Forall (λ x, snh_counter x < m) (take i (filtered_note_hashes r)) ∧
     Forall (λ x, m ≤ snh_counter x) (drop i (filtered_note_hashes r))) ∧
    (pp_nullifiers nr = pad_fields (er_first_nullifier r ::
       (siloed_nullifier <$> take j (filtered_nullifiers r))) MAX_NULLIFIERS_PER_TX ∧
     pp_nullifiers rv = pad_fields (siloed_nullifier <$> drop j (filtered_nullifiers r))
       MAX_NULLIFIERS_PER_TX ∧
     Forall (λ x, snf_counter x < m) (take j (filtered_nullifiers r)) ∧
     Forall (λ x, m ≤ snf_counter x) (drop j (filtered_nullifiers r))) ∧
    (pp_private_logs nr = pad_private_logs (siloed_private_log <$> take k (filtered_private_logs r)) ∧
     pp_private_logs rv = pad_private_logs (siloed_private_log <$> drop k (filtered_private_logs r)) ∧
     Forall (λ x, pld_counter x < m) (take k (filtered_private_logs r)) ∧
     Forall (λ x, m ≤ pld_counter x) (drop k (filtered_private_logs r))) ∧
    pp_public_call_requests nr = pad_public_call_requests (to_public_call_request <$> take l public_calls) ∧
    pp_public_call_requests rv = pad_public_call_requests (to_public_call_request <$> drop l public_calls).
Proof.
  cbn zeta. set (m := ce_min_revertible_side_effect_counter _).
  destruct (split_sorted snh_counter siloed_note_hash (filtered_note_hashes r) m)
    as (i & Ei & Hi & Hi'); [eapply survivors_sorted, note_hash_survivors|].
  destruct (split_sorted snf_counter siloed_nullifier (filtered_nullifiers r) m)
    as (j & Ej & Hj & Hj'); [eapply survivors_sorted, nullifier_survivors|].
  destruct (split_sorted pld_counter siloed_private_log (filtered_private_logs r) m)
    as (k & Ek & Hk & Hk'); [eapply survivors_sorted, private_log_survivors|].
  destruct (split_sorted pcd_counter to_public_call_request
    (sort_by_key pcd_counter (all_public_call_requests r)) m)
    as (l & El & _); [eapply survivors_sorted, public_call_survivors|].
  exists i, j, k, l. unfold process_public, split_note_hashes_by_counter, split_nullifiers_by_counter, split_private_logs.
  fold m. rewrite Ei, Ej, Ek, El. by split_and!.
Qed.
