(* ===== verification/KernelWf.v ===== *)
(** The type of what the simulated kernel makes: when the side effects of a transaction
    fit the vectors of the protocol, its public inputs are well formed, and only then. *)

From S2P Require Import Prelude Bytes Ordered Deps Concrete Types Constants Poseidon KernelTypes Tx Hash Simulated SimulatedSpec.

(** ** Padding *)

Section padding.
Context {A : Type}.

Lemma length_pad_to (v : list A) n d : length (pad_to v n d) = Nat.max (length v) (Z.to_nat n).
Proof.
  unfold pad_to, vec_resize. destruct (Z.ltb_spec (Z.of_nat (length v)) n); [rewrite length_resize|]; lia.
Qed.

Lemma pad_to_fits (v : list A) n d :
  0 ≤ n → length (pad_to v n d) = Z.to_nat n ↔ Z.of_nat (length v) ≤ n.
Proof. intros Hn. rewrite length_pad_to. lia. Qed.

Lemma Forall_pad_to (P : A → Prop) (v : list A) n d : P d → Forall P (pad_to v n d) ↔ Forall P v.
Proof.
  intros Hd. unfold pad_to, vec_resize. destruct (Z.ltb_spec (Z.of_nat (length v)) n); [|done].
  rewrite resize_ge by lia. rewrite Forall_app. split; [tauto|]. intros H1. split; [done|].
  by apply Forall_replicate.
Qed.
End padding.

Section counters.
Context {B : Type} (counter : B → Z).

Definition before (m : Z) (l : list B) : list B := List.filter (λ x, counter x <? m) l.
Definition from (m : Z) (l : list B) : list B := List.filter (λ x, negb (counter x <? m)) l.

Lemma split_filter {A : Type} (f : B → A) (l : list B) m :
  split_by_counter counter (f <$> l) l m = (f <$> before m l, f <$> from m l).
Proof.
  unfold split_by_counter, before, from. f_equal; induction l as [|x l IH]; try done;
    cbn; destruct (counter x <? m); cbn; [f_equal|..|f_equal]; exact IH.
Qed.

Lemma elem_of_parts x m l : x ∈ l ↔ x ∈ before m l ∨ x ∈ from m l.
Proof.
  unfold before, from. rewrite !list_elem_of_In, !filter_In. destruct (counter x <? m) eqn:E; naive_solver.
Qed.
End counters.

(** ** Transactions that fit *)

Section kernel.
Context {FR : PrimeField fr_modulus} {HX : HexCrate} {AC : AcirCrate} {P2 : Poseidon2Crate}.

(** The lengths in the logs of an execution are 32-bit integers. *)
Definition lengths_typed (r : PrivateExecutionResult) : Prop :=
  ∀ call, call ∈ iter_all_calls r →
    Forall (λ log, in_u 32 (pld_emitted_length log)) (ce_private_logs call) ∧
    Forall (λ log, in_u 32 (ccl_emitted_length (cccl_log log))) (ce_contract_class_logs call).

Definition at_most {A : Type} (l : list A) (n : Z) : Prop := Z.of_nat (length l) ≤ n.

(** The vectors of one half of a transaction, and the fields of its logs. *)
Definition half_fits (note_hashes : list ScopedNoteHash) (nullifiers : Z) (logs : list PrivateLogData)
    (class_logs : list CountedContractClassLog) (calls : list PublicCallRequestData) : Prop :=
  at_most note_hashes MAX_NOTE_HASHES_PER_TX ∧ nullifiers ≤ MAX_NULLIFIERS_PER_TX ∧
  at_most logs MAX_PRIVATE_LOGS_PER_TX ∧
  Forall (λ log, at_most (pld_fields log) PRIVATE_LOG_SIZE_IN_FIELDS) logs ∧
  at_most class_logs MAX_CONTRACT_CLASS_LOGS_PER_TX ∧ at_most calls MAX_ENQUEUED_CALLS_PER_TX.

Definition kernel_fits (r : PrivateExecutionResult) : Prop :=
  let m := ce_min_revertible_side_effect_counter (er_entrypoint r) in
  let calls := sort_by_key pcd_counter (all_public_call_requests r) in
  let size {A : Type} (l : list A) := Z.of_nat (length l) in
  if is_private_only r then
    half_fits (filtered_note_hashes r) (1 + size (filtered_nullifiers r)) (filtered_private_logs r)
      (all_contract_class_logs_sorted r) []
  else
    half_fits (before snh_counter m (filtered_note_hashes r))
      (1 + size (before snf_counter m (filtered_nullifiers r)))
      (before pld_counter m (filtered_private_logs r)) (all_contract_class_logs_sorted r)
      (before pcd_counter m calls) ∧
    half_fits (from snh_counter m (filtered_note_hashes r))
      (size (from snf_counter m (filtered_nullifiers r)))
      (from pld_counter m (filtered_private_logs r)) [] (from pcd_counter m calls).

(** *** The parts *)

Lemma siloed_log_ok log :
  in_u 32 (pld_emitted_length log) →
  PrivateLog_ok (siloed_private_log log) ↔ at_most (pld_fields log) PRIVATE_LOG_SIZE_IN_FIELDS.
Proof.
  intros Hl. unfold PrivateLog_ok, siloed_private_log, at_most. cbn [pl_fields pl_emitted_length].
  set (fields := match pld_fields log with [] => [] | _ :: _ => _ end).
  assert (length fields = length (pld_fields log)) as Hf.
  { unfold fields. destruct (pld_fields log) as [|x l]; [done|]. by destruct (bool_decide _). }
  change (pad_fields fields PRIVATE_LOG_SIZE_IN_FIELDS) with (pad_to fields PRIVATE_LOG_SIZE_IN_FIELDS Fr_zero).
  rewrite pad_to_fits, Hf by done. tauto.
Qed.

Lemma siloed_logs_ok logs :
  Forall (λ log, in_u 32 (pld_emitted_length log)) logs →
  (length (pad_private_logs (siloed_private_log <$> logs)) = Z.to_nat MAX_PRIVATE_LOGS_PER_TX ∧
   Forall PrivateLog_ok (pad_private_logs (siloed_private_log <$> logs))) ↔
  at_most logs MAX_PRIVATE_LOGS_PER_TX ∧
  Forall (λ log, at_most (pld_fields log) PRIVATE_LOG_SIZE_IN_FIELDS) logs.
Proof.
  intros Hl. unfold pad_private_logs. rewrite pad_to_fits, length_fmap by done.
  rewrite Forall_pad_to by (split; [apply length_replicate|done]). rewrite Forall_fmap.
  assert (Forall (PrivateLog_ok ∘ siloed_private_log) logs ↔
          Forall (λ log, at_most (pld_fields log) PRIVATE_LOG_SIZE_IN_FIELDS) logs) as ->; [|done].
  induction Hl as [|log logs Hx Hl IH]; [by rewrite !Forall_nil|]. rewrite !Forall_cons, IH. cbn.
  by rewrite siloed_log_ok.
Qed.

Lemma class_hashes_ok logs :
  Forall (λ log, in_u 32 (ccl_emitted_length (cccl_log log))) logs →
  (length (pad_scoped_log_hashes (class_log_hash <$> logs)) = Z.to_nat MAX_CONTRACT_CLASS_LOGS_PER_TX ∧
   Forall LogHash_ok (pad_scoped_log_hashes (class_log_hash <$> logs))) ↔
  at_most logs MAX_CONTRACT_CLASS_LOGS_PER_TX.
Proof.
  intros Hl. unfold pad_scoped_log_hashes. rewrite pad_to_fits, length_fmap by done.
  rewrite Forall_pad_to by done. rewrite Forall_fmap. unfold at_most. split; [tauto|]. by split.
Qed.

Lemma no_messages_ok :
  length (pad_to_scoped_l2_to_l1 []) = Z.to_nat MAX_L2_TO_L1_MSGS_PER_TX ∧
  Forall Message_ok (pad_to_scoped_l2_to_l1 []).
Proof.
  unfold pad_to_scoped_l2_to_l1. split; [by rewrite length_pad_to|]. by apply Forall_pad_to.
Qed.

Lemma padded_fields_fit (v : list Fr) n :
  0 ≤ n → length (pad_fields v n) = Z.to_nat n ↔ Z.of_nat (length v) ≤ n.
Proof. apply (pad_to_fits v n Fr_zero). Qed.

(** *** The two kinds of transactions *)

Lemma rollup_ok r :
  Forall (λ log, in_u 32 (pld_emitted_length log)) (filtered_private_logs r) →
  Forall (λ log, in_u 32 (ccl_emitted_length (cccl_log log))) (all_contract_class_logs_sorted r) →
  Rollup_ok (process_rollup r) ↔
  half_fits (filtered_note_hashes r) (1 + Z.of_nat (length (filtered_nullifiers r)))
    (filtered_private_logs r) (all_contract_class_logs_sorted r) [].
Proof.
  intros Hl Hc. unfold Rollup_ok, process_rollup, half_fits.
  cbn [pr_note_hashes pr_nullifiers pr_l2_to_l1_msgs pr_private_logs pr_contract_class_logs_hashes].
  rewrite !padded_fields_fit by done. rewrite siloed_logs_ok, class_hashes_ok by done.
  cbn [length]. rewrite length_imap, !length_fmap.
  pose proof no_messages_ok. unfold at_most. cbn [length]. split; intros; destruct_and?; split_and!; try done; lia.
Qed.

Lemma half_ok nhs (unique : list Fr) nfs logs cls calls :
  length unique = length (nhs : list ScopedNoteHash) →
  Forall (λ log, in_u 32 (pld_emitted_length log)) logs →
  Forall (λ log, in_u 32 (ccl_emitted_length (cccl_log log))) cls →
  Public_ok {| pp_note_hashes := pad_fields unique MAX_NOTE_HASHES_PER_TX;
               pp_nullifiers := pad_fields nfs MAX_NULLIFIERS_PER_TX;
               pp_l2_to_l1_msgs := pad_to_scoped_l2_to_l1 [];
               pp_private_logs := pad_private_logs (siloed_private_log <$> logs);
               pp_contract_class_logs_hashes := pad_scoped_log_hashes (class_log_hash <$> cls);
               pp_public_call_requests := pad_public_call_requests (to_public_call_request <$> calls) |} ↔
  half_fits nhs (Z.of_nat (length nfs)) logs cls calls.
Proof.
  intros Hu Hl Hc. unfold Public_ok, half_fits.
  cbn [pp_note_hashes pp_nullifiers pp_l2_to_l1_msgs pp_private_logs pp_contract_class_logs_hashes
       pp_public_call_requests].
  rewrite !padded_fields_fit by done. rewrite siloed_logs_ok, class_hashes_ok by done.
  unfold pad_public_call_requests. rewrite pad_to_fits by done. rewrite length_fmap, Hu.
  pose proof no_messages_ok. unfold at_most. tauto.
Qed.

Lemma public_ok r :
  let m := ce_min_revertible_side_effect_counter (er_entrypoint r) in
  let calls := sort_by_key pcd_counter (all_public_call_requests r) in
  Forall (λ log, in_u 32 (pld_emitted_length log)) (filtered_private_logs r) →
  Forall (λ log, in_u 32 (ccl_emitted_length (cccl_log log))) (all_contract_class_logs_sorted r) →
  (Public_ok (non_revertible_accumulated_data (process_public r)) ∧
   Public_ok (revertible_accumulated_data (process_public r))) ↔
  half_fits (before snh_counter m (filtered_note_hashes r))
    (1 + Z.of_nat (length (before snf_counter m (filtered_nullifiers r))))
    (before pld_counter m (filtered_private_logs r)) (all_contract_class_logs_sorted r)
    (before pcd_counter m calls) ∧
  half_fits (from snh_counter m (filtered_note_hashes r))
    (Z.of_nat (length (from snf_counter m (filtered_nullifiers r))))
    (from pld_counter m (filtered_private_logs r)) [] (from pcd_counter m calls).
Proof.
  intros m calls Hl Hc.
  assert (Forall (λ log, in_u 32 (pld_emitted_length log)) (before pld_counter m (filtered_private_logs r)) ∧
          Forall (λ log, in_u 32 (pld_emitted_length log)) (from pld_counter m (filtered_private_logs r))) as [Hb Hf].
  { rewrite Forall_forall in Hl. split; apply Forall_forall; intros x Hx; apply Hl, (elem_of_parts pld_counter x m); auto. }
  unfold process_public, split_note_hashes_by_counter, split_nullifiers_by_counter, split_private_logs.
  rewrite !split_filter. cbn [non_revertible_accumulated_data revertible_accumulated_data].
  change (pad_scoped_log_hashes []) with (pad_scoped_log_hashes (class_log_hash <$> [])).
  rewrite (half_ok (before snh_counter m (filtered_note_hashes r))) by (by rewrite ?length_imap, ?length_fmap).
  rewrite (half_ok (from snh_counter m (filtered_note_hashes r))) by (by rewrite ?length_fmap).
  cbn [length]. rewrite !length_fmap. by rewrite Nat2Z.inj_succ, Z.add_1_l.
Qed.

Lemma typed_lengths r :
  lengths_typed r →
  Forall (λ log, in_u 32 (pld_emitted_length log)) (filtered_private_logs r) ∧
  Forall (λ log, in_u 32 (ccl_emitted_length (cccl_log log))) (all_contract_class_logs_sorted r).
Proof.
  intros Ht. split; apply Forall_forall; intros x Hx.
  - apply private_log_survivors in Hx as [_ Hx%first_of_in]. unfold emitted in Hx.
    apply list_elem_of_In, in_flat_map in Hx as (call & Hcall%list_elem_of_In & Hin%list_elem_of_In).
    destruct (Ht call Hcall) as [H _]. rewrite Forall_forall in H. by apply H.
  - apply by_counter_elem, first_of_in in Hx.
    apply list_elem_of_In, in_flat_map in Hx as (call & Hcall%list_elem_of_In & Hin%list_elem_of_In).
    destruct (Ht call Hcall) as [_ H]. rewrite Forall_forall in H. by apply H.
Qed.

(** C16: the simulated kernel makes well-formed public inputs exactly when it is given
    effects that fit. For an execution whose log lengths are 32-bit integers, the public
    inputs have the protocol's vectors, widths and exactly one of the two kinds of
    accumulated data if and only if the constants are well formed, the expiration fits 64
    bits, and what survives (for a transaction with public calls, on each side of the
    revertible counter, the protocol's nullifier counted on the first) is no more than the
    protocol's limits, no log longer than a log may be. Nothing is checked, and nothing is
    cut: an execution beyond the limits gives public inputs that are too long. *)
Theorem kernel_output_typed (r : PrivateExecutionResult) (constants : TxConstantData) (fee_payer : Fr)
    (expiration_timestamp : Z) :
  lengths_typed r →
  PublicInputs_ok 64 (process r constants fee_payer expiration_timestamp) ↔
  Constants_ok 64 constants ∧ in_u 64 expiration_timestamp ∧ kernel_fits r.
Proof.
  intros [Hl Hc]%typed_lengths. unfold PublicInputs_ok, kernel_fits, process.
  assert (∀ a b, Gas_ok 64 (Gas_new (wrap 64 a) (wrap 64 b))) as Hgas
    by (intros a b; split; apply wrap_in_u; lia).
  destruct (is_private_only r);
    cbn [pi_constants pi_gas_used pi_expiration_timestamp pi_for_public pi_for_rollup fr_end].
  - rewrite rollup_ok by done. unfold meter_gas_rollup. pose proof Hgas. naive_solver.
  - rewrite public_ok by done. unfold meter_gas_public. pose proof Hgas. naive_solver.
Qed.
End kernel.

(** ** Examples: one class log fits, two do not *)

Section examples.
Import Concrete.Instances.

Definition counted_log (counter : Z) : CountedContractClassLog :=
  {| cccl_log := {| ccl_contract_address := Fr_one; ccl_fields := []; ccl_emitted_length := 0 |};
     cccl_counter := counter |}.
Definition publishing (logs : list CountedContractClassLog) : PrivateExecutionResult :=
  {| er_entrypoint :=
       {| ce_acir := []; ce_vk := []; ce_partial_witness := []; ce_contract_address := Fr_one;
          ce_call_context := {| cc_msg_sender := Fr_zero; cc_contract_address := Fr_one;
                                cc_function_selector := Fr_one; cc_is_static_call := false |};
          ce_return_values := []; ce_public_inputs_fields := []; ce_new_notes := [];
          ce_note_hash_nullifier_counter_map := ∅; ce_offchain_effects := []; ce_pre_tags := [];
          ce_nested_execution_results := []; ce_contract_class_logs := logs; ce_note_hashes := [];
          ce_nullifiers := []; ce_note_hash_read_requests := []; ce_nullifier_read_requests := [];
          ce_private_logs := []; ce_public_call_requests := []; ce_public_teardown_call_request := None;
          ce_start_side_effect_counter := 0; ce_end_side_effect_counter := 9;
          ce_min_revertible_side_effect_counter := 0 |};
     er_first_nullifier := Fr_one; er_expiration_timestamp := 9; er_public_function_calldata := [] |}.

Lemma publishing_typed counters : lengths_typed (publishing (counted_log <$> counters)).
Proof.
  intros call ->%list_elem_of_singleton. split; [constructor|]. cbn. apply Forall_fmap, Forall_true. done.
Qed.

Lemma publishing_fits counters :
  kernel_fits (publishing (counted_log <$> counters)) ↔
  at_most (all_contract_class_logs_sorted (publishing (counted_log <$> counters))) 1.
Proof.
  unfold kernel_fits, half_fits, at_most. change (is_private_only _) with true. cbn iota.
  change (filtered_note_hashes _) with (@nil ScopedNoteHash).
  change (filtered_nullifiers _) with (@nil ScopedNullifier).
  change (filtered_private_logs _) with (@nil PrivateLogData).
  cbn [length]. change MAX_CONTRACT_CLASS_LOGS_PER_TX with 1.
  unfold MAX_NOTE_HASHES_PER_TX, MAX_NULLIFIERS_PER_TX, MAX_PRIVATE_LOGS_PER_TX, MAX_ENQUEUED_CALLS_PER_TX.
  split; [tauto|]. intros H. split_and!; try done; lia.
Qed.

Lemma kernel_output_typed_witness :
  PublicInputs_ok 64 (process (publishing [counted_log 3]) example_constants Fr_one 9) ∧
  ¬ PublicInputs_ok 64 (process (publishing [counted_log 3; counted_log 4]) example_constants Fr_one 9).
Proof.
  split.
  - apply (kernel_output_typed (publishing [counted_log 3]) example_constants Fr_one 9); [apply (publishing_typed [3])|].
    split_and!; [|done|apply (publishing_fits [3]); unfold at_most; cbn; lia].
    apply (example_inputs_ok 64 (MkGas 0 0)); [lia|done].
  - intros H.
    apply (kernel_output_typed (publishing [counted_log 3; counted_log 4]) example_constants Fr_one 9) in H as (_ & _ & H);
      [|apply (publishing_typed [3; 4])].
    apply (publishing_fits [3; 4]) in H. unfold at_most in H. cbn in H. lia.
Defined.
End examples.
