(* ===== verification/LocalStores.v ===== *)
(** The small stores of [crates/pxe/src/stores/]: addresses, senders, keys, contracts,
    the anchor block and capsules. *)

From Stdlib Require Import Ascii String.
From S2P Require Import Prelude Bytes Ordered Deps Concrete Types AbiTypes Poseidon Crypto Deploy Kv.

(** [Vec::with_capacity(n)] of elements of [size] bytes panics when the capacity
    overflows; running out of memory is not modelled. *)
Definition vec_with_capacity (size n : Z) : Outcome () :=
  if size * n <=? 2 ^ 63 - 1 then Ok () else Panic.

(** [.ok_or_else(|| e)?] on what a computation returned. *)
Definition required {St A : Type} (o : option A) (e : Error) : M St A := mlift (ok_or o e).

(** ** [address_store.rs] *)

Module AddressStore.
Section store.
Context {FR : PrimeField fr_modulus} {HX : HexCrate} {SC : SerdeJson CompleteAddress}.
Context {St : Type} {KV : KvStore St}.

Definition address_key (address : AztecAddress) : list byte :=
  as_bytes ("address:" +:+ Fr_to_string address).

Definition add (complete : CompleteAddress) : M St () :=
  write_json (address_key (ca_address complete)) complete.

Definition get (address : AztecAddress) : M St (option CompleteAddress) :=
  read_json (address_key address).

Definition get_all : M St (list CompleteAddress) :=
  let! entries := kv_list_prefix (as_bytes "address:") in
  mlift (omapM (λ kv, from_slice kv.2) entries).
End store.
End AddressStore.

(** ** [sender_store.rs] *)

Module SenderStore.
Section store.
Context {FR : PrimeField fr_modulus} {HX : HexCrate} {St : Type} {KV : KvStore St}.

Definition sender_key (sender : AztecAddress) : list byte :=
  as_bytes ("sender:" +:+ Fr_to_string sender).

Definition add (sender : AztecAddress) : M St () := kv_put (sender_key sender) [Z_byte 1].

Definition remove (sender : AztecAddress) : M St () := kv_delete (sender_key sender).

Definition contains (sender : AztecAddress) : M St bool :=
  let! found := kv_get (sender_key sender) in mok (bool_decide (is_Some found)).

Definition parse_sender (kv : list byte * list byte) : Outcome AztecAddress :=
  let? hex_part := ok_or (strip_prefix "sender:" (from_bytes kv.1))
                     (InvalidData "invalid sender key prefix") in
  Fr_from_hex hex_part.

Definition get_all : M St (list AztecAddress) :=
  let! entries := kv_list_prefix (as_bytes "sender:") in
  mlift (omapM parse_sender entries).
End store.
End SenderStore.

(** ** [key_store.rs] *)

Module KeyStore.
Section store.
Context {FR : PrimeField fr_modulus} {FQ : PrimeField fq_modulus} {HX : HexCrate}.
Context {P2 : Poseidon2Crate} {HC : HashCrates} {AG : GrumpkinCrate}.
Context {St : Type} {KV : KvStore St}.

Definition account_key (pk_hash : Fr) : list byte :=
  as_bytes ("key:account:" +:+ Fr_to_string pk_hash).

Definition add_account (secret_key : Fr) : M St DerivedKeys :=
  let derived := derive_keys secret_key in
  let pk_hash := PublicKeys_hash (dk_public_keys derived) in
  kv_put (account_key pk_hash) (Fr_to_be_bytes secret_key) ;;!
  mok derived.

Definition get_secret_key (pk_hash : Fr) : M St (option Fr) :=
  let! found := kv_get (account_key pk_hash) in
  match found with
  | Some bytes =>
      if decide (length bytes = 32%nat) then mok (Some (Fr_from_be bytes))
      else mlift (Err (InvalidData "invalid secret key length"))
  | None => mok None
  end.

(** The getters that derive something from the secret key. *)
Definition with_secret_key {A : Type} (pk_hash : Fr) (f : Fr → A) : M St (option A) :=
  let! found := get_secret_key pk_hash in
  match found with Some sk => mok (Some (f sk)) | None => mok None end.

Definition get_master_nullifier_hiding_key (pk_hash : Fr) : M St (option GrumpkinScalar) :=
  with_secret_key pk_hash (λ sk, master_nullifier_hiding_key (derive_keys sk)).
Definition get_master_incoming_viewing_secret_key (pk_hash : Fr) : M St (option GrumpkinScalar) :=
  with_secret_key pk_hash (λ sk, master_incoming_viewing_secret_key (derive_keys sk)).
Definition get_master_outgoing_viewing_secret_key (pk_hash : Fr) : M St (option GrumpkinScalar) :=
  with_secret_key pk_hash (λ sk, master_outgoing_viewing_secret_key (derive_keys sk)).
Definition get_master_tagging_secret_key (pk_hash : Fr) : M St (option GrumpkinScalar) :=
  with_secret_key pk_hash (λ sk, master_tagging_secret_key (derive_keys sk)).
Definition get_public_keys (pk_hash : Fr) : M St (option PublicKeys) :=
  with_secret_key pk_hash (λ sk, dk_public_keys (derive_keys sk)).

Definition get_app_nullifier_hiding_key (pk_hash : Fr) (app : AztecAddress) : M St (option Fr) :=
  let! found := get_master_nullifier_hiding_key pk_hash in
  match found with
  | Some nhk_m => mok (Some (compute_app_nullifier_hiding_key nhk_m app))
  | None => mok None
  end.

Definition parse_account (kv : list byte * list byte) : Outcome Fr :=
  let? hex_part := ok_or (strip_prefix "key:account:" (from_bytes kv.1))
                     (InvalidData "invalid key prefix") in
  Fr_from_hex hex_part.

Definition get_accounts : M St (list Fr) :=
  let! entries := kv_list_prefix (as_bytes "key:account:") in
  mlift (omapM parse_account entries).

Definition keys_and_types (derived : DerivedKeys) : list (Point * GrumpkinScalar * KeyType) :=
  let pk := dk_public_keys derived in
  [(master_nullifier_public_key pk, master_nullifier_hiding_key derived, Nullifier);
   (master_incoming_viewing_public_key pk, master_incoming_viewing_secret_key derived, IncomingViewing);
   (master_outgoing_viewing_public_key pk, master_outgoing_viewing_secret_key derived, OutgoingViewing);
   (master_tagging_public_key pk, master_tagging_secret_key derived, Tagging)].

Definition pk_m_matches (pk_m_hash : Fr) (k : Point * GrumpkinScalar * KeyType) : bool :=
  let p := k.1.1 in
  bool_decide (poseidon2_hash [pt_x p; pt_y p; Fr_from_bool (pt_is_infinite p)] = pk_m_hash).

(** The loop over the accounts, which stops at the first key that matches. *)
Fixpoint find_validation_request (pk_m_hash : Fr) (app : AztecAddress) (accounts : list Fr)
    : M St (option (Point * Fr)) :=
  match accounts with
  | [] => mok None
  | account_pk_hash :: accounts' =>
      let! found := get_secret_key account_pk_hash in
      match found with
      | None => find_validation_request pk_m_hash app accounts'
      | Some sk =>
          match List.find (pk_m_matches pk_m_hash) (keys_and_types (derive_keys sk)) with
          | Some (pk_m, sk_m, key_type) =>
              mok (Some (pk_m, compute_app_secret_key sk_m app key_type))
          | None => find_validation_request pk_m_hash app accounts'
          end
      end
  end.

Definition get_key_validation_request (pk_m_hash : Fr) (app : AztecAddress)
    : M St (option (Point * Fr)) :=
  let! accounts := get_accounts in
  find_validation_request pk_m_hash app accounts.

Definition get_app_secret_key (pk_hash : Fr) (app : AztecAddress) (key_type : KeyType)
    : M St (option Fr) :=
  let! found := get_secret_key pk_hash in
  match found with
  | None => mok None
  | Some sk =>
      let derived := derive_keys sk in
      let master_key := match key_type with
                        | Nullifier => master_nullifier_hiding_key derived
                        | IncomingViewing => master_incoming_viewing_secret_key derived
                        | OutgoingViewing => master_outgoing_viewing_secret_key derived
                        | Tagging => master_tagging_secret_key derived
                        end in
      mok (Some (compute_app_secret_key master_key app key_type))
  end.

Definition get_app_ovsk (pk_hash : Fr) (app : AztecAddress) : M St (option GrumpkinScalar) :=
  let! found := get_master_outgoing_viewing_secret_key pk_hash in
  match found with
  | Some ovsk_m => mok (Some (compute_ovsk_app ovsk_m app))
  | None => mok None
  end.
End store.
End KeyStore.

(** ** [contract_store.rs] *)

Module ContractStore.
Section store.
Context {FR : PrimeField fr_modulus} {HX : HexCrate} {P2 : Poseidon2Crate} {HC : HashCrates}.
Context {JS : JsonCrate} {JT : JsonText} {B64 : Base64Crate} {AS : AbiSerde}.
Context {SI : SerdeJson ContractInstanceWithAddress} {SA : SerdeJson (ContractArtifact FR JS)}.
Context {SV : SerdeJson json_value} {St : Type} {KV : KvStore St}.
Notation ContractArtifact := (ContractArtifact FR JS).

Definition instance_key (address : AztecAddress) : list byte :=
  as_bytes ("contract:instance:" +:+ Fr_to_string address).
Definition artifact_key (class_id : Fr) : list byte :=
  as_bytes ("contract:artifact:" +:+ Fr_to_string class_id).
Definition class_preimage_key (class_id : Fr) : list byte :=
  as_bytes ("contract:class-preimage:" +:+ Fr_to_string class_id).

Definition add_instance (inst : ContractInstanceWithAddress) : M St () :=
  write_json (instance_key (instance_address inst)) inst.

Definition get_instance (address : AztecAddress) : M St (option ContractInstanceWithAddress) :=
  read_json (instance_key address).

Definition get_contract_addresses : M St (list AztecAddress) :=
  let! entries := kv_list_prefix (as_bytes "contract:instance:") in
  mlift (omapM (λ kv, omap_ok instance_address (from_slice kv.2)) entries).

Definition add_artifact (class_id : Fr) (artifact : ContractArtifact) : M St () :=
  write_json (artifact_key class_id) artifact.

Definition get_artifact (class_id : Fr) : M St (option ContractArtifact) :=
  read_json (artifact_key class_id).

Definition add_class_preimage (class_id : Fr) (preimage : json_value) : M St () :=
  write_json (class_preimage_key class_id) preimage.

Definition get_class_preimage (class_id : Fr) : M St (option json_value) :=
  read_json (class_preimage_key class_id).

Definition update_artifact (address : AztecAddress) (artifact : ContractArtifact) : M St () :=
  let! found := get_instance address in
  let! inst := required found (InvalidData ("contract not found at " +:+ Fr_to_string address)) in
  add_artifact (ci_current_contract_class_id (instance_inner inst)) artifact.

Definition add_class (artifact : ContractArtifact) : M St Fr :=
  let! class_id := mlift (compute_contract_class_id_from_artifact artifact) in
  add_artifact class_id artifact ;;!
  mok class_id.
End store.
End ContractStore.

(** ** [anchor_block_store.rs] *)

Module AnchorBlockStore.
Section header.
Context {JS : JsonCrate}.

Record AnchorBlockHeader := {
  ah_data : json_value;
  ah_block_number : Z;
  ah_block_hash : string;
}.

(** A block number in JSON is a number, a [0x] string or a decimal string. *)
Definition block_number_of_json (v : json_value) : option Z :=
  match json_as_u64 v with
  | Some n => Some n
  | None =>
      match json_as_str v with
      | Some s => match strip_prefix "0x" s with
                  | Some hex => parse_hex_u64 hex
                  | None => parse_u64 s
                  end
      | None => None
      end
  end.

Definition from_header_json (data : json_value) : AnchorBlockHeader :=
  let block_number := default 0 (json_pointer data "/globalVariables/blockNumber" ≫= block_number_of_json) in
  let block_hash :=
    default "0x0"
      (match json_pointer data "/blockHash" with Some v => Some v | None => json_get data "blockHash" end
         ≫= json_as_str) in
  {| ah_data := data; ah_block_number := block_number; ah_block_hash := block_hash |}.
End header.

Section store.
Context {JS : JsonCrate} {SH : SerdeJson AnchorBlockHeader} {St : Type} {KV : KvStore St}.

Definition ANCHOR_HEADER_KEY : list byte := as_bytes "anchor:header".

Definition set_header (header : AnchorBlockHeader) : M St () := write_json ANCHOR_HEADER_KEY header.

Definition get_block_header : M St (option AnchorBlockHeader) := read_json ANCHOR_HEADER_KEY.

Definition get_block_header_or_err : M St AnchorBlockHeader :=
  let! found := get_block_header in
  required found (InvalidData "anchor block header not set").

Definition get_block_number : M St Z :=
  let! found := get_block_header in
  match found with Some header => mok (ah_block_number header) | None => mok 0 end.
End store.
End AnchorBlockStore.

(** ** [capsule_store.rs] *)

Module CapsuleStore.
Section store.
Context {FR : PrimeField fr_modulus} {HX : HexCrate}.
Context {SF : SerdeJson (list Fr)} {SC : SerdeJson (list (list Fr))}.
Context {St : Type} {KV : KvStore St}.

Definition capsule_key (contract : Fr) : list byte :=
  as_bytes ("capsule:" +:+ Fr_to_string contract).

Definition db_slot_key (contract_address : AztecAddress) (slot : Fr) : list byte :=
  as_bytes ("capsule_db:" +:+ Fr_to_string contract_address +:+ ":" +:+ Fr_to_string slot).

(** Field arithmetic on the slot, wrapping arithmetic on the index. *)
Definition array_slot (base_slot : Fr) (index : Z) : Fr :=
  pf_add base_slot (Fr_from_u64 (wrap 64 (1 + index))).

Definition add (contract : Fr) (capsule : list (list Fr)) : M St () :=
  write_json (capsule_key contract) capsule.

Definition pop (contract : Fr) : M St (option (list (list Fr))) :=
  let key := capsule_key contract in
  let! found := kv_get key in
  match found with
  | Some bytes =>
      kv_delete key ;;!
      let! capsule := mlift (from_slice bytes) in mok (Some capsule)
  | None => mok None
  end.

Definition store_capsule (contract_address : AztecAddress) (slot : Fr) (capsule : list Fr)
    : M St () := write_json (db_slot_key contract_address slot) capsule.

Definition load_capsule (contract_address : AztecAddress) (slot : Fr) : M St (option (list Fr)) :=
  read_json (db_slot_key contract_address slot).

Definition delete_capsule (contract_address : AztecAddress) (slot : Fr) : M St () :=
  kv_delete (db_slot_key contract_address slot).

(** A numeric slot range of [copy_capsule]: integer arithmetic on the low 64 bits. *)
Definition offset_slot (slot : Fr) (i : Z) : Fr := Fr_from_u64 (wrap 64 (Fr_to_usize slot + i)).

Definition load_required (contract_address : AztecAddress) (slot : Fr) (what : string)
    : M St (list Fr) :=
  let! found := load_capsule contract_address slot in
  required found (InvalidData (what +:+ Fr_to_string slot +:+ " for contract "
                               +:+ Fr_to_string contract_address)).

Definition copy_capsule (contract_address : AztecAddress) (src_slot dst_slot : Fr)
    (num_entries : Z) : M St () :=
  if num_entries =? 0 then mok ()
  else
    mlift (vec_with_capacity 24 num_entries) ;;!
    let! copied := for_fold (λ copied i,
        let! data := load_required contract_address (offset_slot src_slot i)
                       "attempted to copy empty capsule slot " in
        mok (copied ++ [data])) [] (seqZ 0 num_entries) in
    for_each (λ e, store_capsule contract_address (offset_slot dst_slot e.1) e.2)
      (zip (seqZ 0 num_entries) copied).

(** The length a base slot records. *)
Definition array_length (contract_address : AztecAddress) (base_slot : Fr) : M St Z :=
  let! found := load_capsule contract_address base_slot in
  mok (Fr_to_usize (default Fr_zero (found ≫= head))).

Definition append_to_capsule_array (contract_address : AztecAddress) (base_slot : Fr)
    (content : list (list Fr)) : M St () :=
  let! current_length := array_length contract_address base_slot in
  for_each (λ e, store_capsule contract_address
                   (array_slot base_slot (wrap 64 (current_length + e.1))) e.2)
    (zip (seqZ 0 (Z.of_nat (length content))) content) ;;!
  store_capsule contract_address base_slot
    [Fr_from_u64 (wrap 64 (current_length + Z.of_nat (length content)))].

Definition read_capsule_array (contract_address : AztecAddress) (base_slot : Fr)
    : M St (list (list Fr)) :=
  let! length := array_length contract_address base_slot in
  mlift (vec_with_capacity 24 length) ;;!
  for_fold (λ values i,
      let! value := load_required contract_address (array_slot base_slot i)
                      "expected non-empty capsule array value at slot " in
      mok (values ++ [value])) [] (seqZ 0 length).

Definition set_capsule_array (contract_address : AztecAddress) (base_slot : Fr)
    (content : list (list Fr)) : M St () :=
  let! original_length := array_length contract_address base_slot in
  let n := Z.of_nat (length content) in
  store_capsule contract_address base_slot [Fr_from_u64 n] ;;!
  for_each (λ e, store_capsule contract_address (array_slot base_slot e.1) e.2)
    (zip (seqZ 0 n) content) ;;!
  for_each (λ i, delete_capsule contract_address (array_slot base_slot i))
    (seqZ n (original_length - n)).
End store.
End CapsuleStore.
