(* ===== verification/CapsuleSpec.v ===== *)
(** The capsule arrays of [capsule_store.rs] as lists: appending, replacing and reading
    act on the sequence of values that an array holds, over any lawful store. *)

From Stdlib Require Import Ascii String.
From S2P Require Import Prelude Bytes Ordered Deps Concrete Types Kv LocalStores.
Import CapsuleStore.

Notation view := (gmap (list byte) (list byte)) (only parsing).

Section capsule_facts.
Context {FR : PrimeField fr_modulus} {HX : HexCrate}.
Implicit Types (c slot base : Fr).

(** The key of a slot of a contract. *)
Definition slot_key (cs : Fr * Fr) : list byte := db_slot_key cs.1 cs.2.

#[global] Instance slot_key_inj : Inj (=) (=) slot_key.
Proof.
  intros [c s] [c' s'] E. unfold slot_key, db_slot_key in E.
  apply (inj as_bytes) in E. apply string_app_inj_length in E as [_ E]; [|done]. simpl fst in E. simpl snd in E.
  apply string_app_inj_length in E as [->%Fr_to_string_inj E]; [|by rewrite !length_Fr_to_string].
  apply string_app_inj_length in E as [_ ->%Fr_to_string_inj]; done.
Qed.

(** The slots of an array are distinct from each other and from its base. *)
Lemma array_slot_val base i : 0 ≤ i < 2 ^ 64 - 1 →
  pf_val (array_slot base i) = (pf_val base + (1 + i)) mod fr_modulus.
Proof.
  intros Hi. unfold array_slot, pf_val at 1. rewrite pf_val_add.
  fold (pf_val base) (pf_val (Fr_from_u64 (wrap 64 (1 + i)))).
  by rewrite wrap_small, Fr_val_from_u64 by (unfold in_u; lia).
Qed.

Lemma array_slot_inj base i j : 0 ≤ i < 2 ^ 64 - 1 → 0 ≤ j < 2 ^ 64 - 1 →
  array_slot base i = array_slot base j → i = j.
Proof.
  intros Hi Hj E. apply (f_equal pf_val) in E. rewrite !array_slot_val in E by done.
  assert (2 ^ 64 < fr_modulus) by done. assert ((1 + i) mod fr_modulus = (1 + j) mod fr_modulus) as E'.
  { replace (1 + i) with (pf_val base + (1 + i) - pf_val base) by lia.
    replace (1 + j) with (pf_val base + (1 + j) - pf_val base) by lia.
    by rewrite Zminus_mod, E, <- Zminus_mod. }
  rewrite !Z.mod_small in E' by lia. lia.
Qed.

Lemma array_slot_base base i : 0 ≤ i < 2 ^ 64 - 1 → array_slot base i ≠ base.
Proof.
  intros Hi E. apply (f_equal pf_val) in E. rewrite array_slot_val in E by done.
  pose proof (pf_val_range base). assert (2 ^ 64 < fr_modulus) by done.
  destruct (decide (pf_val base + (1 + i) < fr_modulus)).
  - rewrite Z.mod_small in E by lia. lia.
  - assert ((pf_val base + (1 + i)) mod fr_modulus = pf_val base + (1 + i) - fr_modulus) as E'.
    { symmetry. apply (Z.mod_unique_pos _ _ 1); lia. }
    lia.
Qed.
End capsule_facts.

Section capsules.
Context {FR : PrimeField fr_modulus} {HX : HexCrate}.
Context {SF : SerdeJson (list Fr)}.
Context {St : Type} `{KvStoreLaws St}.
Implicit Types (v : view) (m : gmap (Fr * Fr) (list Fr)) (c slot base : Fr) (x : list Fr).
Implicit Types (l content : list (list Fr)).

Definition slots_prefix : list byte := as_bytes "capsule_db:".

(** The view holds the slots [m], and [v0] outside the slots. *)
Definition holds_slots (v0 : view) m v : Prop :=
  table slot_key v m ∧ ∀ key, ¬ slots_prefix `prefix_of` key → v !! key = v0 !! key.

Lemma slot_key_prefix cs : slots_prefix `prefix_of` slot_key cs.
Proof. eexists. unfold slot_key, db_slot_key. by rewrite as_bytes_app. Qed.

Lemma store_capsule_spec v0 m c slot x :
  spec (holds_slots v0 m) (store_capsule c slot x) (λ _, holds_slots v0 (<[(c, slot):=x]> m)).
Proof.
  apply (spec_write_json slot_key _ (c, slot) x). intros v b [Ht Hf] Hb. split.
  - by apply (table_insert slot_key).
  - intros key Hk. rewrite lookup_insert_ne; [by apply Hf|].
    intros <-. apply Hk, slot_key_prefix.
Qed.

Lemma delete_capsule_spec v0 m c slot :
  spec (holds_slots v0 m) (delete_capsule c slot) (λ _, holds_slots v0 (delete (c, slot) m)).
Proof.
  apply spec_delete. intros v [Ht Hf]. split.
  - by apply (table_delete slot_key v m (c, slot)).
  - intros key Hk. rewrite lookup_delete_ne; [by apply Hf|].
    intros <-. apply Hk. apply (slot_key_prefix (c, slot)).
Qed.

Lemma spec_load_then v0 m c slot {A : Type} (f : option (list Fr) → M St A) (Q : A → view → Prop) :
  spec (holds_slots v0 m) (f (m !! (c, slot))) Q →
  spec (holds_slots v0 m) (mthen (load_capsule c slot) f) Q.
Proof. apply (spec_read_then slot_key _ m (c, slot)). by intros v []. Qed.

(** The length that a base slot records. *)
Definition recorded_length m c base : Z := Fr_to_usize (default Fr_zero (m !! (c, base) ≫= head)).

Lemma spec_length_then v0 m c base {A : Type} (f : Z → M St A) (Q : A → view → Prop) :
  spec (holds_slots v0 m) (f (recorded_length m c base)) Q →
  spec (holds_slots v0 m) (mthen (array_length c base) f) Q.
Proof.
  intros Hf. apply (spec_then _ _ _ (λ n v, holds_slots v0 m v ∧ n = recorded_length m c base)).
  - apply spec_load_then. by apply spec_ok.
  - intros n s Hs [Hv ->]. by apply Hf.
Qed.

(** The array at [base] holds the sequence [l]. *)
Definition is_array m c base l : Prop :=
  recorded_length m c base = Z.of_nat (length l) ∧
  ∀ (i : nat) x, l !! i = Some x → m !! (c, array_slot base (Z.of_nat i)) = Some x.

Definition write_slots c base m (es : list (Z * list Fr)) : gmap (Fr * Fr) (list Fr) :=
  foldl (λ m e, <[(c, array_slot base e.1) := e.2]> m) m es.

Definition clear_slots c base m (ixs : list Z) : gmap (Fr * Fr) (list Fr) :=
  foldl (λ m i, delete (c, array_slot base i) m) m ixs.

Lemma store_all_spec v0 m c base (f : Z → Z) (es : list (Z * list Fr)) :
  spec (holds_slots v0 m) (for_each (λ e, store_capsule c (array_slot base (f e.1)) e.2) es)
    (λ _, holds_slots v0 (write_slots c base m (prod_map f id <$> es))).
Proof.
  revert m. induction es as [|e es IH]; intros m; simpl; [by apply spec_ok|].
  eapply spec_then; [apply store_capsule_spec|]. intros []. apply IH.
Qed.

Lemma clear_all_spec v0 m c base (ixs : list Z) :
  spec (holds_slots v0 m) (for_each (λ i, delete_capsule c (array_slot base i)) ixs)
    (λ _, holds_slots v0 (clear_slots c base m ixs)).
Proof.
  revert m. induction ixs as [|i ixs IH]; intros m; simpl; [by apply spec_ok|].
  eapply spec_then; [apply delete_capsule_spec|]. intros []. apply IH.
Qed.

Lemma write_slots_other c base m es cs :
  (∀ e, e ∈ es → cs ≠ (c, array_slot base e.1)) → write_slots c base m es !! cs = m !! cs.
Proof.
  revert m. induction es as [|e es IH]; intros m Hes; simpl; [done|].
  rewrite IH by set_solver. rewrite lookup_insert_ne; [done|].
  intros E. apply (Hes e); [set_solver|done].
Qed.

Lemma clear_slots_other c base m ixs cs :
  (∀ i, i ∈ ixs → cs ≠ (c, array_slot base i)) → clear_slots c base m ixs !! cs = m !! cs.
Proof.
  revert m. induction ixs as [|i ixs IH]; intros m His; simpl; [done|].
  rewrite IH by set_solver. rewrite lookup_delete_ne; [done|].
  intros E. apply (His i); [set_solver|done].
Qed.

Lemma clear_slots_cleared c base m ixs i :
  i ∈ ixs → clear_slots c base m ixs !! (c, array_slot base i) = None.
Proof.
  revert m. induction ixs as [|j ixs IH]; intros m Hi; [set_solver|]. simpl.
  destruct (decide (i ∈ ixs)) as [?|Hni]; [by apply IH|].
  assert (i = j) as -> by set_solver.
  assert (∀ m, m !! (c, array_slot base j) = None →
    clear_slots c base m ixs !! (c, array_slot base j) = None) as Hn; [|apply Hn, lookup_delete_eq].
  clear. induction ixs as [|k ixs IH]; intros m Hm; simpl; [done|]. apply IH.
  by rewrite lookup_delete_None; right.
Qed.

(** The values [l] written from index [k] on. *)
Fixpoint write_from c base m (k : Z) l : gmap (Fr * Fr) (list Fr) :=
  match l with
  | [] => m
  | x :: l' => write_from c base (<[(c, array_slot base k) := x]> m) (k + 1) l'
  end.

Lemma write_slots_from c base m (f : Z → Z) (k a : Z) l :
  (∀ j, a ≤ j < a + Z.of_nat (length l) → f j = k + j) →
  write_slots c base m (prod_map f id <$> zip (seqZ a (Z.of_nat (length l))) l) =
  write_from c base m (k + a) l.
Proof.
  revert m a. induction l as [|x l IH]; intros m a Hf; [by destruct (seqZ _ _)|].
  simpl length in *. rewrite Nat2Z.inj_succ in *. rewrite seqZ_cons by lia.
  cbn [zip zip_with fmap list_fmap write_from prod_map fst snd]. unfold write_slots. cbn [foldl].
  simpl. rewrite (Hf a) by lia. rewrite Z.pred_succ.
  replace (k + a + 1) with (k + Z.succ a) by lia. apply IH. intros j Hj. apply Hf. lia.
Qed.

Lemma write_from_other c base m (k : Z) l cs :
  (∀ i, k ≤ i < k + Z.of_nat (length l) → cs ≠ (c, array_slot base i)) →
  write_from c base m k l !! cs = m !! cs.
Proof.
  revert m k. induction l as [|x l IH]; intros m k Hcs; cbn [write_from]; [done|].
  simpl length in Hcs. rewrite IH by (intros i Hi; apply Hcs; lia).
  apply lookup_insert_ne. intros E. by apply (Hcs k); [lia|].
Qed.

Lemma write_from_written c base m (k : Z) l (i : nat) x :
  0 ≤ k → k + Z.of_nat (length l) < 2 ^ 64 → l !! i = Some x →
  write_from c base m k l !! (c, array_slot base (k + Z.of_nat i)) = Some x.
Proof.
  revert m k i. induction l as [|y l IH]; intros m k i Hk Hl Hi; [done|]. cbn [write_from].
  simpl length in Hl. destruct i as [|i]; simpl in Hi.
  - injection Hi as ->. rewrite write_from_other; [by rewrite Z.add_0_r, lookup_insert_eq|].
    intros j Hj [= E]. apply array_slot_inj in E; lia.
  - replace (k + Z.of_nat (S i)) with (k + 1 + Z.of_nat i) by lia. apply IH; [lia..|done].
Qed.

(** Reading the slots of an array one after the other. *)
Lemma read_all_spec v0 m c base (what : string) l :
  (∀ (i : nat) x, l !! i = Some x → m !! (c, array_slot base (Z.of_nat i)) = Some x) →
  spec (holds_slots v0 m)
    (for_fold (λ values i,
       let! value := load_required c (array_slot base i) what in mok (values ++ [value]))
       [] (seqZ 0 (Z.of_nat (length l))))%rust
    (λ r v, holds_slots v0 m v ∧ r = l).
Proof.
  intros Hl. enough (∀ rest (k : nat) acc, drop k l = rest → acc = take k l →
    spec (holds_slots v0 m)
    (for_fold (λ values i,
       let! value := load_required c (array_slot base i) what in mok (values ++ [value]))
       acc (seqZ (Z.of_nat k) (Z.of_nat (length rest))))%rust
    (λ r v, holds_slots v0 m v ∧ r = l)) as HH by by apply (HH l 0%nat []).
  induction rest as [|x rest IH]; intros k acc Hd ->.
  - simpl. apply spec_ok. intros v Hv. split; [done|]. by rewrite <- (take_drop k l) at 2; rewrite Hd, app_nil_r.
  - assert (l !! k = Some x) as Hx by (by rewrite <- (Nat.add_0_r k), <- lookup_drop, Hd).
    simpl length. rewrite Nat2Z.inj_succ, seqZ_cons by lia. cbn [for_fold]. rewrite Z.pred_succ.
    apply (spec_then _ _ _ (λ r v, holds_slots v0 m v ∧ r = take (S k) l)).
    + unfold load_required. apply (spec_then _ _ _ (λ r v, holds_slots v0 m v ∧ r = x)).
      * apply spec_load_then. rewrite (Hl _ _ Hx). by apply spec_ok.
      * intros y. apply spec_ok. intros v [Hv ->]. by rewrite (take_S_r _ _ _ Hx).
    + intros r s Hs [Hv ->]. replace (Z.succ (Z.of_nat k)) with (Z.of_nat (S k)) by lia.
      apply (IH (S k)); [|done..]. pose proof (drop_S _ _ _ Hx) as E. rewrite Hd in E. by injection E.
Qed.
Lemma read_array_spec v0 m c base l :
  is_array m c base l → 24 * Z.of_nat (length l) < 2 ^ 63 →
  spec (holds_slots v0 m) (read_capsule_array c base) (λ r v, holds_slots v0 m v ∧ r = l).
Proof.
  intros [Hn Hl] Hcap. unfold read_capsule_array. apply spec_length_then. rewrite Hn.
  apply (spec_then _ _ _ (λ _, holds_slots v0 m)); [|intros []; by apply read_all_spec].
  apply (spec_lift _ _ ()); [|done]. unfold vec_with_capacity.
  by destruct (Z.leb_spec (24 * Z.of_nat (length l)) (2 ^ 63 - 1)); [|lia].
Qed.

Definition appended m c base (k : nat) content : gmap (Fr * Fr) (list Fr) :=
  <[(c, base) := [Fr_from_u64 (Z.of_nat (k + length content))]]>
    (write_from c base m (Z.of_nat k) content).

Lemma append_array_spec v0 m c base old content :
  is_array m c base old → Z.of_nat (length old + length content) < 2 ^ 64 →
  spec (holds_slots v0 m) (append_to_capsule_array c base content)
    (λ _, holds_slots v0 (appended m c base (length old) content)).
Proof.
  intros [Hn _] Hlen. unfold append_to_capsule_array. apply spec_length_then. rewrite Hn.
  eapply spec_then.
  - apply (store_all_spec v0 m c base (λ j, wrap 64 (Z.of_nat (length old) + j))).
  - intros []. rewrite (write_slots_from _ _ _ _ (Z.of_nat (length old)) 0).
    + rewrite Z.add_0_r, <- Nat2Z.inj_add, wrap_small by (unfold in_u; lia).
      apply store_capsule_spec.
    + intros j Hj. apply wrap_small. unfold in_u. lia.
Qed.

Lemma recorded_length_insert m c base n :
  in_u 64 n → recorded_length (<[(c, base) := [Fr_from_u64 n]]> m) c base = n.
Proof. intros Hn. unfold recorded_length. rewrite lookup_insert_eq. by apply Fr_to_usize_from_u64. Qed.

Lemma slot_ne_base c base i : 0 ≤ i < 2 ^ 64 - 1 → (c, base) ≠ (c, array_slot base i).
Proof. intros Hi [= E]. by apply (array_slot_base base i). Qed.

Lemma appended_is_array m c base old content :
  is_array m c base old → Z.of_nat (length old + length content) < 2 ^ 64 →
  is_array (appended m c base (length old) content) c base (old ++ content).
Proof.
  intros [_ Hold] Hlen. split.
  - rewrite length_app. apply recorded_length_insert. unfold in_u. lia.
  - intros i x Hi. assert (i < length (old ++ content))%nat as Hlt by by apply lookup_lt_is_Some_1.
    rewrite length_app in Hlt. unfold appended.
    rewrite lookup_insert_ne by (apply slot_ne_base; lia).
    destruct (decide (i < length old)%nat) as [Hi'|Hi'].
    + rewrite lookup_app_l in Hi by done. rewrite write_from_other; [by apply Hold|].
      intros j Hj [= E]. apply array_slot_inj in E; lia.
    + rewrite lookup_app_r in Hi by lia.
      replace (Z.of_nat i) with (Z.of_nat (length old) + Z.of_nat (i - length old)) by lia.
      apply write_from_written; [lia..|done].
Qed.

Definition replaced m c base (k : nat) content : gmap (Fr * Fr) (list Fr) :=
  let n := Z.of_nat (length content) in
  clear_slots c base (write_from c base (<[(c, base) := [Fr_from_u64 n]]> m) 0 content)
    (seqZ n (Z.of_nat k - n)).

Lemma set_array_spec v0 m c base old content :
  is_array m c base old →
  spec (holds_slots v0 m) (set_capsule_array c base content)
    (λ _, holds_slots v0 (replaced m c base (length old) content)).
Proof.
  intros [Hn _]. unfold set_capsule_array. apply spec_length_then. rewrite Hn. cbn zeta.
  eapply spec_then; [apply store_capsule_spec|]. intros [].
  eapply spec_then; [apply (store_all_spec v0 _ c base (λ j, j))|]. intros [].
  rewrite (write_slots_from _ _ _ _ 0 0) by lia. apply clear_all_spec.
Qed.

Lemma replaced_is_array m c base (k : nat) content :
  Z.of_nat k < 2 ^ 64 → Z.of_nat (length content) < 2 ^ 64 →
  is_array (replaced m c base k content) c base content.
Proof.
  intros Hk Hlen. unfold replaced. cbn zeta. split.
  - unfold recorded_length. rewrite clear_slots_other.
    + rewrite write_from_other by (intros i Hi; apply slot_ne_base; lia).
      apply recorded_length_insert. unfold in_u. lia.
    + intros i Hi%elem_of_seqZ. apply slot_ne_base. lia.
  - intros i x Hi. assert (i < length content)%nat as Hlt by by apply lookup_lt_is_Some_1.
    rewrite clear_slots_other.
    + by apply (write_from_written c base _ 0).
    + intros j Hj%elem_of_seqZ [= E]. apply array_slot_inj in E; lia.
Qed.

(** What an array operation leaves alone: other contracts, and slots that are not
    those of the array. *)
Definition same_elsewhere c base (n : nat) m m' : Prop :=
  ∀ cs, cs ≠ (c, base) → (∀ i, 0 ≤ i < Z.of_nat n → cs ≠ (c, array_slot base i)) → m' !! cs = m !! cs.

Lemma appended_elsewhere m c base (k : nat) content :
  same_elsewhere c base (k + length content) m (appended m c base k content).
Proof.
  intros cs Hb Hi. unfold appended. rewrite lookup_insert_ne by done.
  apply write_from_other. intros i ?. apply Hi. lia.
Qed.

Lemma replaced_elsewhere m c base (k : nat) content :
  same_elsewhere c base (k `max` length content) m (replaced m c base k content).
Proof.
  intros cs Hb Hi. unfold replaced. cbn zeta.
  rewrite clear_slots_other by (intros i ?%elem_of_seqZ; apply Hi; lia).
  rewrite write_from_other by (intros i ?; apply Hi; lia). by apply lookup_insert_ne.
Qed.
End capsules.

(** ** Properties *)

Import Concrete.Instances.

(** Appending to a capsule array and reading it back gives the old values
    followed by the new ones; slots of other contracts or outside the array, and
    every key that is not a capsule slot, keep their values.  The slots are computed
    in the field and never wrap onto the base slot or on each other. *)
Theorem capsule_append_read {FR : PrimeField fr_modulus} {HX : HexCrate}
    {SF : SerdeJson (list Fr)} {St : Type} `{KvStoreLaws St}
    (v0 : view) (m : gmap (Fr * Fr) (list Fr)) (c base : Fr) (old content : list (list Fr)) (s : St) :
  kv_wf s → holds_slots v0 m (kv_view s) → is_array m c base old →
  24 * Z.of_nat (length old + length content) < 2 ^ 63 →
  ∃ s' m', (append_to_capsule_array c base content ;;! read_capsule_array c base)%rust s =
             (s', Ok (old ++ content)) ∧ kv_wf s' ∧
    holds_slots v0 m' (kv_view s') ∧ is_array m' c base (old ++ content) ∧
    same_elsewhere c base (length old + length content) m m'.
Proof.
  intros Hs Hv Ha Hlen. set (m' := appended m c base (length old) content).
  assert (is_array m' c base (old ++ content)) as Ha' by (apply appended_is_array; [done|lia]).
  assert (spec (holds_slots v0 m) (append_to_capsule_array c base content ;;! read_capsule_array c base)%rust
    (λ r v, holds_slots v0 m' v ∧ r = old ++ content)) as Hspec.
  { eapply spec_then; [apply append_array_spec; [done|lia]|]. intros [].
    apply read_array_spec; [done|]. rewrite length_app. lia. }
  destruct (Hspec s Hs Hv) as (s' & r & E & Hs' & Hv' & ->). exists s', m'.
  split_and!; [done..|apply appended_elsewhere].
Qed.

(** Replacing a capsule array and reading it back gives the new values, and the
    slots of the old array beyond them are deleted. *)
Theorem capsule_set_read {FR : PrimeField fr_modulus} {HX : HexCrate}
    {SF : SerdeJson (list Fr)} {St : Type} `{KvStoreLaws St}
    (v0 : view) (m : gmap (Fr * Fr) (list Fr)) (c base : Fr) (old content : list (list Fr)) (s : St) :
  kv_wf s → holds_slots v0 m (kv_view s) → is_array m c base old →
  Z.of_nat (length old) < 2 ^ 64 → 24 * Z.of_nat (length content) < 2 ^ 63 →
  ∃ s' m', (set_capsule_array c base content ;;! read_capsule_array c base)%rust s =
             (s', Ok content) ∧ kv_wf s' ∧
    holds_slots v0 m' (kv_view s') ∧ is_array m' c base content ∧
    (∀ i, Z.of_nat (length content) ≤ i < Z.of_nat (length old) → m' !! (c, array_slot base i) = None) ∧
    same_elsewhere c base (length old `max` length content) m m'.
Proof.
  intros Hs Hv Ha Hold Hlen. set (m' := replaced m c base (length old) content).
  assert (is_array m' c base content) as Ha' by (apply replaced_is_array; lia).
  assert (spec (holds_slots v0 m) (set_capsule_array c base content ;;! read_capsule_array c base)%rust
    (λ r v, holds_slots v0 m' v ∧ r = content)) as Hspec.
  { eapply spec_then; [by apply set_array_spec|]. intros []. by apply read_array_spec. }
  destruct (Hspec s Hs Hv) as (s' & r & E & Hs' & Hv' & ->). exists s', m'.
  split_and!; [done..| |apply replaced_elsewhere].
  intros i Hi. apply clear_slots_cleared, elem_of_seqZ. lia.
Qed.

#[local] Instance capsule_serde : SerdeJson (list Fr) := countable_serde (list Fr).

Lemma empty_slots_hold : holds_slots ∅ ∅ (kv_view InMemoryKvStore_new).
Proof. split; [apply table_empty|done]. Qed.

Lemma empty_array c base : is_array ∅ c base [].
Proof.
  split; [|done]. unfold recorded_length. rewrite lookup_empty. change (Fr_to_usize Fr_zero = 0).
  by rewrite Fr_to_usize_val, Fr_val_zero.
Qed.

Lemma capsule_append_read_witness :
  ∃ s' m', (append_to_capsule_array Fr_one Fr_zero [[Fr_one]; []] ;;! read_capsule_array Fr_one Fr_zero)%rust
             InMemoryKvStore_new = (s', Ok [[Fr_one]; []]) ∧ kv_wf s' ∧
    holds_slots ∅ m' (kv_view s') ∧ is_array m' Fr_one Fr_zero [[Fr_one]; []] ∧
    same_elsewhere Fr_one Fr_zero 2 ∅ m'.
Proof.
  apply (capsule_append_read ∅ ∅ Fr_one Fr_zero [] [[Fr_one]; []] InMemoryKvStore_new);
    [constructor|apply empty_slots_hold|apply empty_array|done].
Defined.

Lemma capsule_set_read_witness :
  ∃ s' m', (set_capsule_array Fr_one Fr_zero [[Fr_one]] ;;! read_capsule_array Fr_one Fr_zero)%rust
             InMemoryKvStore_new = (s', Ok [[Fr_one]]) ∧ kv_wf s' ∧
    holds_slots ∅ m' (kv_view s') ∧ is_array m' Fr_one Fr_zero [[Fr_one]] ∧
    (∀ i, 1 ≤ i < 0 → m' !! (Fr_one, array_slot Fr_zero i) = None) ∧
    same_elsewhere Fr_one Fr_zero 1 ∅ m'.
Proof.
  apply (capsule_set_read ∅ ∅ Fr_one Fr_zero [] [[Fr_one]] InMemoryKvStore_new);
    [constructor|apply empty_slots_hold|apply empty_array|done..].
Defined.
