(* ===== verification/TaggingStores.v ===== *)
(** [sender_tagging_store.rs] and [recipient_tagging_store.rs]: the tag indexes used by
    senders and found by recipients, per directional secret. *)

From Stdlib Require Import Ascii String.
From S2P Require Import Prelude Bytes Ordered Deps Concrete Types Kv LocalStores.

(** ** [sender_tagging_store.rs] *)

Record PendingTagIndex := { pt_index : Z; pt_tx_hash : TxHash }.

Module SenderTaggingStore.
Section store.
Context {FR : PrimeField fr_modulus} {HX : HexCrate}.
Context {SZ : SerdeJson Z} {SP : SerdeJson (list PendingTagIndex)}.
Context {St : Type} {KV : KvStore St}.

Record PreTag := { tag_secret : Fr; tag_index : Z; tag_tx_hash : TxHash }.

Definition UNFINALIZED_TAGGING_INDEXES_WINDOW_LEN : Z := 20.

Definition pending_key (secret : Fr) : list byte :=
  as_bytes ("sender_tag:pending:" +:+ Fr_to_string secret).
Definition finalized_key (secret : Fr) : list byte :=
  as_bytes ("sender_tag:finalized:" +:+ Fr_to_string secret).

Definition get_last_finalized_index (secret : Fr) : M St Z :=
  let! found := read_json (finalized_key secret) in mok (default 0 found).

Definition get_pending_indexes (secret : Fr) : M St (list PendingTagIndex) :=
  let! found := read_json (pending_key secret) in mok (default [] found).

(** The loop over the pre-tags that fills [seen_secrets]. *)
Fixpoint check_secrets (seen : list Fr) (pre_tags : list PreTag) : Outcome () :=
  match pre_tags with
  | [] => Ok ()
  | tag :: rest =>
      if decide (tag_secret tag ∈ seen)
      then Err (InvalidData ("duplicate secret in pre-tags: " +:+ Fr_to_string (tag_secret tag)))
      else check_secrets (tag_secret tag :: seen) rest
  end.

Definition conflicts (tag : PreTag) (entry : PendingTagIndex) : bool :=
  bool_decide (pt_tx_hash entry = tag_tx_hash tag) && negb (pt_index entry =? tag_index tag).

Definition conflict_error (tag : PreTag) (entry : PendingTagIndex) : Error :=
  InvalidData ("conflicting pending index: secret=" +:+ Fr_to_string (tag_secret tag)
    +:+ " tx_hash=" +:+ TxHash_to_string (tag_tx_hash tag)
    +:+ " existing_index=" +:+ pretty (pt_index entry) +:+ " new_index=" +:+ pretty (tag_index tag)).

(** The validation and storage of one pre-tag; the sum with the window wraps. *)
Definition store_pending_index (tag : PreTag) : M St () :=
  let! finalized := get_last_finalized_index (tag_secret tag) in
  if wrap 64 (finalized + UNFINALIZED_TAGGING_INDEXES_WINDOW_LEN) <? tag_index tag then
    mlift (Err (InvalidData ("pending index " +:+ pretty (tag_index tag)
      +:+ " is too far ahead of finalized index " +:+ pretty finalized
      +:+ " (window=" +:+ pretty UNFINALIZED_TAGGING_INDEXES_WINDOW_LEN +:+ ")")))
  else if tag_index tag <=? finalized then
    mlift (Err (InvalidData ("pending index " +:+ pretty (tag_index tag)
      +:+ " is not greater than finalized index " +:+ pretty finalized)))
  else
    let! existing := get_pending_indexes (tag_secret tag) in
    match List.find (conflicts tag) existing with
    | Some entry => mlift (Err (conflict_error tag entry))
    | None =>
        let pending := filter (λ e, pt_tx_hash e ≠ tag_tx_hash tag) existing
          ++ [{| pt_index := tag_index tag; pt_tx_hash := tag_tx_hash tag |}] in
        write_json (pending_key (tag_secret tag)) pending
    end.

Definition store_pending_indexes (pre_tags : list PreTag) : M St () :=
  mlift (check_secrets [] pre_tags) ;;!
  for_each store_pending_index pre_tags.

Definition get_tx_hashes_of_pending_indexes (secret : Fr) (from_index to_index : Z)
    : M St (list TxHash) :=
  let! pending := get_pending_indexes secret in
  mok (pt_tx_hash <$>
    List.filter (λ e, (from_index <=? pt_index e) && (pt_index e <=? to_index)) pending).

(** [iter().map(|e| e.index).max().unwrap_or(0)]. *)
Definition max_index (pending : list PendingTagIndex) : Z :=
  match pending with
  | [] => 0
  | e :: rest => foldl (λ m e, Z.max m (pt_index e)) (pt_index e) rest
  end.

Definition get_last_used_index (secret : Fr) : M St Z :=
  let! finalized := get_last_finalized_index secret in
  let! pending := get_pending_indexes secret in
  mok (Z.max finalized (max_index pending)).

Definition get_next_index (secret : Fr) : M St Z :=
  let! last := get_last_used_index secret in
  let next := wrap 64 (last + 1) in
  let! pending := get_pending_indexes secret in
  write_json (pending_key secret) (pending ++ [{| pt_index := next; pt_tx_hash := TxHash_zero |}]) ;;!
  mok next.

(** One entry of [drop_pending_indexes]. *)
Definition drop_entry (tx_hashes : list TxHash) (entry : list byte * list byte) : M St () :=
  let '(key, value) := entry in
  let! pending := mlift (from_slice value) in
  let kept := filter (λ e, pt_tx_hash e ∉ tx_hashes) pending in
  if decide (length kept = length pending) then mok ()
  else if decide (kept = []) then kv_delete key
  else write_json key kept.

Definition drop_pending_indexes (tx_hashes : list TxHash) : M St () :=
  let! entries := kv_list_prefix (as_bytes "sender_tag:pending:") in
  for_each (drop_entry tx_hashes) entries.

Definition finalize_pending_indexes (secret : Fr) (up_to_index : Z) : M St () :=
  let! current := get_last_finalized_index secret in
  (if current <? up_to_index then write_json (finalized_key secret) up_to_index else mok ()) ;;!
  let! pending := get_pending_indexes secret in
  let pending := filter (λ e, up_to_index < pt_index e) pending in
  if decide (pending = []) then kv_delete (pending_key secret)
  else write_json (pending_key secret) pending.

(** One entry of [get_all_pending]; the [HashMap] is a [gmap]. *)
Definition collect_pending (result : gmap Fr (list PendingTagIndex)) (entry : list byte * list byte)
    : M St (gmap Fr (list PendingTagIndex)) :=
  let '(key, value) := entry in
  match strip_prefix "sender_tag:pending:" (from_bytes key) with
  | None => mok result
  | Some secret_str =>
      match Fr_from_hex secret_str with
      | Ok secret => let! pending := mlift (from_slice value) in mok (<[secret := pending]> result)
      | Err _ => mok result
      | Panic => mlift Panic
      end
  end.

Definition get_all_pending : M St (gmap Fr (list PendingTagIndex)) :=
  let! entries := kv_list_prefix (as_bytes "sender_tag:pending:") in
  for_fold collect_pending ∅ entries.
End store.
End SenderTaggingStore.

(** ** [recipient_tagging_store.rs] *)

Module RecipientTaggingStore.
Section store.
Context {FR : PrimeField fr_modulus} {HX : HexCrate} {SZ : SerdeJson Z}.
Context {St : Type} {KV : KvStore St}.

Definition aged_key (secret : Fr) : list byte :=
  as_bytes ("recipient_tag:aged:" +:+ Fr_to_string secret).
Definition finalized_key (secret : Fr) : list byte :=
  as_bytes ("recipient_tag:finalized:" +:+ Fr_to_string secret).

Definition get_highest_aged_index (secret : Fr) : M St Z :=
  let! found := read_json (aged_key secret) in mok (default 0 found).

Definition update_highest_aged_index (secret : Fr) (index : Z) : M St () :=
  let! current := get_highest_aged_index secret in
  if current <? index then write_json (aged_key secret) index else mok ().

Definition get_highest_finalized_index (secret : Fr) : M St Z :=
  let! found := read_json (finalized_key secret) in mok (default 0 found).

Definition update_highest_finalized_index (secret : Fr) (index : Z) : M St () :=
  let! current := get_highest_finalized_index secret in
  if index <? current then
    mlift (Err (InvalidData ("cannot lower finalized index from " +:+ pretty current
                             +:+ " to " +:+ pretty index)))
  else if current <? index then write_json (finalized_key secret) index
  else mok ().
End store.
End RecipientTaggingStore.
