(* ===== verification/TaggingSpec.v ===== *)
(** The invariant of the sender's tag indexes, over every sequence of operations,
    failing ones included. *)

From Stdlib Require Import Ascii String.
From S2P Require Import Prelude Bytes Ordered Deps Concrete Types Kv LocalStores TaggingStores.
Import SenderTaggingStore.

Notation view := (gmap (list byte) (list byte)) (only parsing).

Section sender_tags.
Context {FR : PrimeField fr_modulus} {HX : HexCrate}.
Context {SZ : SerdeJson Z} {SP : SerdeJson (list PendingTagIndex)}.
Implicit Types (v : view) (secret : Fr).
Implicit Types (F : gmap Fr Z) (P : gmap Fr (list PendingTagIndex)) (l : list PendingTagIndex).

#[global] Instance pending_key_inj : Inj (=) (=) pending_key.
Proof. intros n m E. unfold pending_key in E. rewrite !as_bytes_app in E. apply app_inv_head in E.
  by apply (inj as_bytes), Fr_to_string_inj in E. Qed.
#[global] Instance finalized_key_inj : Inj (=) (=) finalized_key.
Proof. intros n m E. unfold finalized_key in E. rewrite !as_bytes_app in E. apply app_inv_head in E.
  by apply (inj as_bytes), Fr_to_string_inj in E. Qed.

Lemma pending_finalized s s' : pending_key s ≠ finalized_key s'.
Proof. intros E. discriminate E. Qed.

Definition pending_prefix : list byte := as_bytes "sender_tag:pending:".

Record tags F P v : Prop := {
  tags_finalized : table finalized_key v F;
  tags_pending : table pending_key v P;
  tags_shape : ∀ key b, v !! key = Some b → pending_prefix `prefix_of` key →
    ∃ s, True ∧ key = pending_key s;
}.

Lemma tags_put_finalized F P v s n b :
  tags F P v → from_slice b = Ok n → tags (<[s:=n]> F) P (<[finalized_key s:=b]> v).
Proof.
  intros [H1 H2 H3] Hb. constructor.
  - by apply (table_insert finalized_key).
  - apply table_insert_other; [done|]. intros k. apply pending_finalized.
  - intros key c [[<- _]|[_ Hk]]%lookup_insert_Some; [|by eapply H3]. intros [t E]. discriminate E.
Qed.

Lemma tags_put_pending F P v s l b :
  tags F P v → from_slice b = Ok l → tags F (<[s:=l]> P) (<[pending_key s:=b]> v).
Proof.
  intros [H1 H2 H3] Hb. constructor.
  - apply table_insert_other; [done|]. intros k E. by apply (pending_finalized s k).
  - by apply (table_insert pending_key).
  - intros key c [[<- _]|[_ Hk]]%lookup_insert_Some; [by exists s|by eapply H3].
Qed.

Lemma tags_delete_pending F P v s :
  tags F P v → tags F (delete s P) (delete (pending_key s) v).
Proof.
  intros [H1 H2 H3]. constructor.
  - apply table_delete_other; [done|]. intros k E. by apply (pending_finalized s k).
  - by apply (table_delete pending_key).
  - intros key c [_ Hk]%lookup_delete_Some. by eapply H3.
Qed.

Definition finalized_of F secret : Z := default 0 (F !! secret).
Definition pending_of P secret : list PendingTagIndex := default [] (P !! secret).

(** Every pending index of a secret is above what is finalized for it. *)
Definition above F P secret : Prop :=
  0 ≤ finalized_of F secret < 2 ^ 64 ∧
  ∀ e, e ∈ pending_of P secret → finalized_of F secret < pt_index e < 2 ^ 64.

Definition tag_inv v : Prop := ∃ F P, tags F P v ∧ ∀ secret, above F P secret.

Lemma max_index_spec (l : list PendingTagIndex) :
  (∀ e, e ∈ l → pt_index e ≤ max_index l) ∧
  (l = [] ∧ max_index l = 0 ∨ ∃ e, e ∈ l ∧ max_index l = pt_index e).
Proof.
  destruct l as [|e0 l]; simpl; [split; [by intros e He%elem_of_nil|by left]|].
  enough (∀ m, m ≤ foldl (λ m e, Z.max m (pt_index e)) m l ∧
    (∀ e, e ∈ l → pt_index e ≤ foldl (λ m e, Z.max m (pt_index e)) m l) ∧
    (foldl (λ m e, Z.max m (pt_index e)) m l = m ∨
     ∃ e, e ∈ l ∧ foldl (λ m e, Z.max m (pt_index e)) m l = pt_index e)) as Hm.
  { destruct (Hm (pt_index e0)) as (H1 & H2 & H3). split.
    - intros e [->|He]%elem_of_cons; [done|by apply H2].
    - right. destruct H3 as [H3|(e & He & H3)]; [exists e0|exists e]; (split; [|done]); apply elem_of_cons; auto. }
  induction l as [|e l IH]; intros m; simpl.
  { split_and!; [done|by intros e He%elem_of_nil|by left]. }
  destruct (IH (Z.max m (pt_index e))) as (H1 & H2 & H3). split_and!; [lia| |].
  - intros e' [->|He]%elem_of_cons; [lia|by apply H2].
  - destruct H3 as [H3|(e' & He & H3)]; [|right; exists e'; (split; [|done]); apply elem_of_cons; auto].
    destruct (Z.max_spec m (pt_index e)) as [[_ E]|[_ E]];
      [right; exists e; (split; [apply elem_of_cons; auto|by rewrite H3])|left; by rewrite H3].
Qed.

Lemma above_insert_pending F P secret l :
  (∀ secret, above F P secret) → (∀ e, e ∈ l → finalized_of F secret < pt_index e < 2 ^ 64) →
  ∀ s, above F (<[secret:=l]> P) s.
Proof.
  intros Ha Hl s. destruct (Ha s) as [H1 H2]. split; [done|]. unfold pending_of.
  destruct (decide (s = secret)) as [->|Hs]; [by rewrite lookup_insert_eq|].
  by rewrite lookup_insert_ne.
Qed.

Lemma above_delete_pending F P secret :
  (∀ secret, above F P secret) → ∀ s, above F (delete secret P) s.
Proof.
  intros Ha s. destruct (Ha s) as [H1 H2]. split; [done|]. unfold pending_of.
  destruct (decide (s = secret)) as [->|Hs]; [rewrite lookup_delete_eq; by intros e He%elem_of_nil|].
  by rewrite lookup_delete_ne.
Qed.
End sender_tags.

(** ** Every operation keeps the invariant *)

Section sender_operations.
Context {FR : PrimeField fr_modulus} {HX : HexCrate}.
Context {SZ : SerdeJson Z} {SP : SerdeJson (list PendingTagIndex)}.
Context {St : Type} `{KvStoreLaws St}.
Implicit Types (v : view) (secret : Fr).
Implicit Types (F : gmap Fr Z) (P : gmap Fr (list PendingTagIndex)) (l : list PendingTagIndex).

Lemma safe_finalized_then F P secret {A : Type} (k : Z → M St A) (Q : A → view → Prop) (E : view → Prop) :
  safe (tags F P) (k (finalized_of F secret)) Q E →
  safe (tags F P) (mthen (get_last_finalized_index secret) k) Q E.
Proof.
  intros Hk. apply (safe_then _ _ _ (λ n v, tags F P v ∧ n = finalized_of F secret)).
  - apply (safe_read_then finalized_key _ F); [by intros v []|]. by apply safe_spec, spec_ok.
  - intros n s Hs [Hv ->]. by apply Hk.
Qed.

Lemma safe_pending_then F P secret {A : Type} (k : list PendingTagIndex → M St A)
    (Q : A → view → Prop) (E : view → Prop) :
  safe (tags F P) (k (pending_of P secret)) Q E →
  safe (tags F P) (mthen (get_pending_indexes secret) k) Q E.
Proof.
  intros Hk. apply (safe_then _ _ _ (λ l v, tags F P v ∧ l = pending_of P secret)).
  - apply (safe_read_then pending_key _ P); [by intros v []|]. by apply safe_spec, spec_ok.
  - intros n s Hs [Hv ->]. by apply Hk.
Qed.

Lemma write_pending_safe F P secret l :
  safe (tags F P) (write_json (pending_key secret) l) (λ _, tags F (<[secret:=l]> P)) tag_inv.
Proof.
  apply safe_spec, (spec_write_json pending_key). intros v b Hv Hb. by apply tags_put_pending.
Qed.

Lemma write_pending_inv F P secret l :
  (∀ secret, above F P secret) → (∀ e, e ∈ l → finalized_of F secret < pt_index e < 2 ^ 64) →
  safe (tags F P) (write_json (pending_key secret) l) (λ _, tag_inv) tag_inv.
Proof.
  intros Ha Hl. eapply safe_weaken; [apply write_pending_safe|done| |done].
  intros [] v Hv. exists F, (<[secret:=l]> P). split; [done|by apply above_insert_pending].
Qed.

Lemma store_pending_index_inv tag :
  in_u 64 (tag_index tag) →
  safe tag_inv (store_pending_index tag) (λ _, tag_inv) tag_inv.
Proof.
  intros Hu s Hs (F & P & Hv & Ha). revert s Hs Hv.
  change (safe (tags F P) (store_pending_index tag) (λ _, tag_inv) tag_inv).
  assert (∀ v, tags F P v → tag_inv v) as Hinv by (intros v Hv; by exists F, P).
  unfold store_pending_index. apply safe_finalized_then.
  destruct (_ <? tag_index tag); [by apply safe_err|].
  destruct (Z.leb_spec (tag_index tag) (finalized_of F (tag_secret tag))); [by apply safe_err|].
  apply safe_pending_then. destruct (List.find _ _); [by apply safe_err|].
  apply write_pending_inv; [done|]. intros e [He|He]%elem_of_app.
  - apply list_elem_of_filter in He as [_ He]. by apply (Ha (tag_secret tag)).
  - apply list_elem_of_singleton in He as ->. simpl. unfold in_u in Hu. lia.
Qed.

Lemma store_pending_indexes_inv pre_tags :
  Forall (λ tag, in_u 64 (tag_index tag)) pre_tags →
  safe tag_inv (store_pending_indexes pre_tags) (λ _, tag_inv) tag_inv.
Proof.
  intros Hu. unfold store_pending_indexes. apply (safe_then _ _ _ (λ _, tag_inv)).
  - assert (∀ seen, check_secrets seen pre_tags ≠ Panic) as Hn.
    { clear. induction pre_tags as [|tag l IH]; intros seen; simpl; [done|]. by case_decide. }
    specialize (Hn []). destruct (check_secrets [] pre_tags) as [[]|e|]; [|by apply safe_err|done].
    by apply safe_spec, spec_ok.
  - intros []. apply safe_for_each. intros tag Htag. apply store_pending_index_inv.
    rewrite Forall_forall in Hu. by apply Hu.
Qed.

Lemma drop_entry_inv F (tx_hashes : list TxHash) (l : list PendingTagIndex) secret (b : list byte) :
  from_slice b = Ok l → (∀ e, e ∈ l → finalized_of F secret < pt_index e < 2 ^ 64) →
  let I v := ∃ P, tags F P v ∧ ∀ secret, above F P secret in
  safe I (drop_entry tx_hashes (pending_key secret, b)) (λ _, I) I.
Proof.
  intros Hb Hl I. unfold drop_entry. rewrite Hb.
  change (safe I (if decide (length (filter (λ e, pt_tx_hash e ∉ tx_hashes) l) = length l) then mok ()
    else if decide (filter (λ e, pt_tx_hash e ∉ tx_hashes) l = []) then kv_delete (pending_key secret)
    else write_json (pending_key secret) (filter (λ e, pt_tx_hash e ∉ tx_hashes) l)) (λ _, I) I).
  case_decide; [by apply safe_spec, spec_ok|]. case_decide; apply safe_spec.
  - apply spec_delete. intros v (P & Hv & Ha). exists (delete secret P).
    split; [by apply tags_delete_pending|by apply above_delete_pending].
  - apply (spec_write_json pending_key). intros v c (P & Hv & Ha) Hc. eexists.
    split; [by eapply tags_put_pending|]. apply above_insert_pending; [done|].
    intros e [_ He]%list_elem_of_filter. auto.
Qed.

Lemma drop_pending_indexes_inv (tx_hashes : list TxHash) :
  safe tag_inv (drop_pending_indexes tx_hashes) (λ _, tag_inv) tag_inv.
Proof.
  intros s Hs (F & P & Hv & Ha). set (I v := ∃ P, tags F P v ∧ ∀ secret, above F P secret).
  assert (safe (tags F P) (drop_pending_indexes tx_hashes) (λ _, I) I) as Hd.
  { apply (safe_then _ _ _ (λ kbs v, I v ∧ ∀ key b, (key, b) ∈ kbs →
      ∃ secret l, key = pending_key secret ∧ from_slice b = Ok l ∧ l = pending_of P secret)).
    - apply safe_spec, spec_list_prefix. intros v kbs Hv' _ Hl. split; [by exists P|].
      intros key b [Hk Hp]%Hl. destruct (tags_shape _ _ _ Hv' key b Hk Hp) as (secret & _ & ->).
      pose proof (tags_pending _ _ _ Hv' secret) as Ht. rewrite Hk in Ht.
      destruct Ht as (l & Hb & Hl'). exists secret, l. unfold pending_of. by rewrite Hl'.
    - intros kbs s' Hs' [HI Hkbs]. revert s' Hs' HI. apply safe_for_each. intros [key b] Hin.
      destruct (Hkbs key b Hin) as (secret & l & -> & Hb & ->).
      apply (drop_entry_inv F tx_hashes (pending_of P secret)); [done|apply Ha]. }
  destruct (Hd s Hs Hv) as (s' & r & Er & Hs' & Hr). exists s', r. split_and!; [done..|].
  destruct r; [| |done]; destruct Hr as (P' & ? & ?); by exists F, P'.
Qed.

Lemma finalize_inv secret up_to :
  in_u 64 up_to → safe tag_inv (finalize_pending_indexes secret up_to) (λ _, tag_inv) tag_inv.
Proof.
  intros Hu s Hs (F & P & Hv & Ha). revert s Hs Hv.
  change (safe (tags F P) (finalize_pending_indexes secret up_to) (λ _, tag_inv) tag_inv).
  unfold finalize_pending_indexes. apply safe_finalized_then.
  set (F' := if finalized_of F secret <? up_to then <[secret:=up_to]> F else F).
  assert (finalized_of F' secret = Z.max (finalized_of F secret) up_to) as Ef.
  { unfold F'. destruct (Z.ltb_spec (finalized_of F secret) up_to); [|lia].
    unfold finalized_of at 1. rewrite lookup_insert_eq. simpl. lia. }
  assert (∀ s, s ≠ secret → finalized_of F' s = finalized_of F s) as En.
  { intros s Hne. unfold F'. destruct (_ <? _); [|done]. unfold finalized_of. by rewrite lookup_insert_ne. }
  apply (safe_then _ _ _ (λ _, tags F' P)).
  { unfold F'. destruct (finalized_of F secret <? up_to); apply safe_spec; [|by apply spec_ok].
    apply (spec_write_json finalized_key). intros v b Hv Hb. by apply tags_put_finalized. }
  intros []. apply safe_pending_then. cbn zeta.
  set (l := filter (λ e, up_to < pt_index e) (pending_of P secret)).
  assert (∀ P', pending_of P' secret = l → (∀ s, s ≠ secret → pending_of P' s = pending_of P s) →
    ∀ s, above F' P' s) as HP'.
  { intros P' H1 H2 s. destruct (decide (s = secret)) as [->|Hne].
    - destruct (Ha secret) as [Hf Hp]. unfold above. rewrite H1, Ef. unfold in_u in Hu. split; [lia|].
      intros e [He1 He2]%list_elem_of_filter. specialize (Hp e He2). lia.
    - unfold above. rewrite En, H2 by done. apply Ha. }
  case_decide as Hl; apply safe_spec.
  - apply spec_delete. intros v Hv. exists F', (delete secret P).
    split; [by apply tags_delete_pending|]. apply HP'.
    + unfold pending_of. by rewrite lookup_delete_eq, Hl.
    + intros s Hne. unfold pending_of. by rewrite lookup_delete_ne.
  - apply (spec_write_json pending_key). intros v b Hv Hb. exists F', (<[secret:=l]> P).
    split; [by apply tags_put_pending|]. apply HP'.
    + unfold pending_of. by rewrite lookup_insert_eq.
    + intros s Hne. unfold pending_of. by rewrite lookup_insert_ne.
Qed.
End sender_operations.

(** ** Reachable stores *)

Section reachable.
Context {FR : PrimeField fr_modulus} {HX : HexCrate}.
Context {SZ : SerdeJson Z} {SP : SerdeJson (list PendingTagIndex)}.
Context {St : Type} `{KvStoreLaws St}.
Implicit Types (s : St) (secret : Fr).
Implicit Types (F : gmap Fr Z) (P : gmap Fr (list PendingTagIndex)).

Inductive SenderOp :=
  | StorePending (pre_tags : list PreTag)
  | NextIndex (secret : Fr)
  | DropPending (tx_hashes : list TxHash)
  | FinalizePending (secret : Fr) (up_to_index : Z).

Definition run_sender (op : SenderOp) : M St () :=
  match op with
  | StorePending pre_tags => store_pending_indexes pre_tags
  | NextIndex secret => mthen (get_next_index secret) (λ _, mok ())
  | DropPending tx_hashes => drop_pending_indexes tx_hashes
  | FinalizePending secret up_to_index => finalize_pending_indexes secret up_to_index
  end.

(** The arguments are machine words, and the next index does not overflow one. *)
Definition sender_ok s (op : SenderOp) : Prop :=
  match op with
  | StorePending pre_tags => Forall (λ tag, in_u 64 (tag_index tag)) pre_tags
  | NextIndex secret => ∀ n, (get_last_used_index secret s).2 = Ok n → n < 2 ^ 64 - 1
  | DropPending _ => True
  | FinalizePending _ up_to_index => in_u 64 up_to_index
  end.

(** The stores reached from one without sender tags; an operation may fail halfway. *)
Inductive sender_reachable : St → Prop :=
  | reach_start s :
      kv_wf s → (∀ key, as_bytes "sender_tag:" `prefix_of` key → kv_view s !! key = None) →
      sender_reachable s
  | reach_step s op s' r :
      sender_reachable s → sender_ok s op → run_sender op s = (s', r) → sender_reachable s'.

Lemma get_finalized_eq F P secret s :
  kv_wf s → tags F P (kv_view s) →
  get_last_finalized_index secret s = (s, Ok (finalized_of F secret)).
Proof.
  intros Hs [HF _ _]. unfold get_last_finalized_index, mthen.
  by rewrite (read_json_table finalized_key s F secret).
Qed.

Lemma get_pending_eq F P secret s :
  kv_wf s → tags F P (kv_view s) → get_pending_indexes secret s = (s, Ok (pending_of P secret)).
Proof.
  intros Hs [_ HP _]. unfold get_pending_indexes, mthen.
  by rewrite (read_json_table pending_key s P secret).
Qed.

Definition last_used F P secret : Z :=
  Z.max (finalized_of F secret) (max_index (pending_of P secret)).

Lemma get_last_used_eq F P secret s :
  kv_wf s → tags F P (kv_view s) → get_last_used_index secret s = (s, Ok (last_used F P secret)).
Proof.
  intros Hs Ht. unfold get_last_used_index, mthen.
  by rewrite (get_finalized_eq F P), (get_pending_eq F P).
Qed.

Lemma get_next_spec F P secret s :
  kv_wf s → tags F P (kv_view s) → (∀ secret, above F P secret) → last_used F P secret < 2 ^ 64 - 1 →
  ∃ s', get_next_index secret s = (s', Ok (last_used F P secret + 1)) ∧ kv_wf s' ∧ tag_inv (kv_view s').
Proof.
  intros Hs Ht Ha Hlast. destruct (Ha secret) as [Hf Hp].
  destruct (max_index_spec (pending_of P secret)) as [Hmax _].
  assert (wrap 64 (last_used F P secret + 1) = last_used F P secret + 1) as Hw.
  { apply wrap_small. unfold in_u, last_used in *. lia. }
  assert (spec (tags F P) (get_next_index secret)
    (λ n v, n = last_used F P secret + 1 ∧ tag_inv v)) as Hn; [|destruct (Hn s Hs Ht) as (s' & n & E & ? & -> & ?); by exists s'].
  unfold get_next_index.
  apply (spec_then_reads _ _ _ (last_used F P secret)); [by intros; apply (get_last_used_eq F P)|].
  cbn zeta. rewrite Hw.
  apply (spec_then_reads _ _ _ (pending_of P secret)); [by intros; apply (get_pending_eq F P)|].
  apply (spec_then _ _ _ (λ _, tag_inv)).
  - apply (spec_write_json pending_key). intros v b Hv Hb. eexists F, _.
    split; [by eapply tags_put_pending|]. apply above_insert_pending; [done|].
    intros e [He|He]%elem_of_app; [by apply Hp|]. apply list_elem_of_singleton in He as ->. simpl.
    unfold last_used in *. lia.
  - intros []. by apply spec_ok.
Qed.

Lemma run_sender_inv s op :
  kv_wf s → tag_inv (kv_view s) → sender_ok s op →
  ∃ s' r, run_sender op s = (s', r) ∧ kv_wf s' ∧ r ≠ Panic ∧ tag_inv (kv_view s').
Proof.
  intros Hs Hi Hok.
  assert (∀ m : M St (), safe tag_inv m (λ _, tag_inv) tag_inv → ∃ s' r, m s = (s', r) ∧ kv_wf s' ∧
    r ≠ Panic ∧ tag_inv (kv_view s')) as Hsafe.
  { intros m Hm. destruct (Hm s Hs Hi) as (s' & r & E & Hs' & Hr). exists s', r.
    destruct r; split_and!; done. }
  destruct op as [pre_tags|secret|tx_hashes|secret up_to]; simpl in *.
  - by apply Hsafe, store_pending_indexes_inv.
  - destruct Hi as (F & P & Ht & Ha). rewrite (get_last_used_eq F P) in Hok by done.
    destruct (get_next_spec F P secret s Hs Ht Ha) as (s' & E & Hs' & Hi'); [by apply Hok|].
    unfold mthen. rewrite E. by exists s', (Ok ()).
  - apply Hsafe, drop_pending_indexes_inv.
  - by apply Hsafe, finalize_inv.
Qed.

Lemma reachable_inv s : sender_reachable s → kv_wf s ∧ tag_inv (kv_view s).
Proof.
  induction 1 as [s Hs Hv|s op s' r _ [Hs Hi] Hok E].
  - split; [done|]. exists ∅, ∅. split.
    + constructor.
      * intros k. rewrite Hv; [done|]. eexists. unfold finalized_key. by rewrite as_bytes_app.
      * intros k. rewrite Hv; [done|]. eexists. unfold pending_key. by rewrite as_bytes_app.
      * intros key b Hk Hp. rewrite Hv in Hk; [done|]. etrans; [|exact Hp]. by eexists.
    + intros secret. split; [done|]. intros e He. by apply elem_of_nil in He.
  - destruct (run_sender_inv s op Hs Hi Hok) as (s1 & r1 & E1 & Hs1 & _ & Hi1).
    rewrite E in E1. by injection E1 as -> ->.
Qed.
End reachable.

(** ** Properties *)

Import Concrete.Instances.

(** C20: in every store reached by the sender's operations, failed ones included, the
    pending indexes of a secret lie above its finalized index, so the next index
    handed out has not been used: it exceeds the finalized index and every pending
    one.  The operations return a value or an error and do not panic. *)
Theorem sender_tags_invariant {FR : PrimeField fr_modulus} {HX : HexCrate}
    {SZ : SerdeJson Z} {SP : SerdeJson (list PendingTagIndex)} {St : Type} `{KvStoreLaws St}
    (s : St) (secret : Fr) :
  sender_reachable s →
  ∃ f pending,
    get_last_finalized_index secret s = (s, Ok f) ∧ get_pending_indexes secret s = (s, Ok pending) ∧
    0 ≤ f ∧ (∀ e, e ∈ pending → f < pt_index e < 2 ^ 64) ∧
    (sender_ok s (NextIndex secret) →
       ∃ s' n, get_next_index secret s = (s', Ok n) ∧ f < n < 2 ^ 64 ∧ ∀ e, e ∈ pending → pt_index e < n) ∧
    ∀ op, sender_ok s op → (run_sender op s).2 ≠ Panic.
Proof.
  intros [Hs Hi]%reachable_inv. pose proof Hi as (F & P & Ht & Ha).
  exists (finalized_of F secret), (pending_of P secret). destruct (Ha secret) as [Hf Hp].
  destruct (max_index_spec (pending_of P secret)) as [Hmax _].
  split_and!; [by apply (get_finalized_eq F P)|by apply (get_pending_eq F P)|lia|done| |].
  - intros Hok. simpl in Hok. rewrite (get_last_used_eq F P) in Hok by done.
    pose proof (Hok _ eq_refl) as Hlast.
    destruct (get_next_spec F P secret s Hs Ht Ha Hlast) as (s' & E & _). do 2 eexists.
    split; [exact E|]. unfold last_used in *. split; [lia|]. intros e He%Hmax. lia.
  - intros op Hok. destruct (run_sender_inv s op Hs Hi Hok) as (s' & r & -> & _ & Hr & _). done.
Qed.

#[local] Instance pending_tag_eq_dec : EqDecision PendingTagIndex.
Proof. solve_decision. Defined.
#[local] Instance pending_tag_countable : Countable PendingTagIndex.
Proof.
  refine (inj_countable' (λ e, (pt_index e, pt_tx_hash e)) (λ '(i, h), Build_PendingTagIndex i h) _).
  by intros [].
Defined.
#[local] Instance u64_serde : SerdeJson Z := countable_serde Z.
#[local] Instance pending_serde : SerdeJson (list PendingTagIndex) := countable_serde _.

Lemma sender_tags_invariant_witness :
  ∃ (s : InMemoryKvStore) f pending,
    (run_sender (NextIndex Fr_one) InMemoryKvStore_new).1 = s ∧
    get_last_finalized_index Fr_one s = (s, Ok f) ∧
    get_pending_indexes Fr_one s = (s, Ok pending) ∧ 0 ≤ f ∧
    (∀ e, e ∈ pending → f < pt_index e < 2 ^ 64).
Proof.
  destruct (run_sender (NextIndex Fr_one) InMemoryKvStore_new) as [s r] eqn:E.
  assert (sender_reachable s) as Hr.
  { apply (reach_step InMemoryKvStore_new (NextIndex Fr_one) s r).
    - apply reach_start; [constructor|done].
    - intros n Hn. rewrite (get_last_used_eq ∅ ∅) in Hn; [|constructor|].
      + injection Hn as <-. unfold last_used, finalized_of, pending_of. by rewrite !lookup_empty.
      + constructor; [apply table_empty..|done].
    - exact E. }
  clear E. destruct (sender_tags_invariant s Fr_one Hr) as (f & pending & H1 & H2 & H3 & H4 & _).
  exists s, f, pending. split_and!; [reflexivity|exact H1|exact H2|exact H3|exact H4].
Defined.
