(* ===== verification/NoteStore.v ===== *)
(** [crates/pxe/src/stores/note_store.rs]: the store of discovered notes over a
    key-value store, its filters and its order. *)

From Stdlib Require Import Ascii String.
From S2P Require Import Prelude Bytes Ordered Deps Concrete Types Kv.

Inductive NoteStatus := Active | Nullified | ActiveOrNullified.

Section note_data.
Context {FR : PrimeField fr_modulus}.

Record StoredNote := {
  sn_contract_address : AztecAddress;
  sn_owner : AztecAddress;
  sn_storage_slot : Fr;
  sn_randomness : Fr;
  sn_note_nonce : Fr;
  sn_note_hash : Fr;
  sn_siloed_nullifier : Fr;
  sn_note_data : list Fr;
  sn_nullified : bool;
  sn_is_pending : bool;
  sn_nullification_block_number : option Z;
  sn_leaf_index : option Z;
  sn_block_number : option Z;
  sn_tx_index_in_block : option Z;
  sn_note_index_in_tx : option Z;
  sn_scopes : list AztecAddress;
}.

Record NoteFilter := {
  nf_contract_address : option AztecAddress;
  nf_storage_slot : option Fr;
  nf_owner : option AztecAddress;
  nf_status : NoteStatus;
  nf_scopes : list AztecAddress;
  nf_siloed_nullifier : option Fr;
}.

Definition NoteFilter_default : NoteFilter :=
  {| nf_contract_address := None; nf_storage_slot := None; nf_owner := None;
     nf_status := Active; nf_scopes := []; nf_siloed_nullifier := None |}.

Definition with_scopes (n : StoredNote) (scopes : list AztecAddress) : StoredNote :=
  {| sn_contract_address := sn_contract_address n; sn_owner := sn_owner n;
     sn_storage_slot := sn_storage_slot n; sn_randomness := sn_randomness n;
     sn_note_nonce := sn_note_nonce n; sn_note_hash := sn_note_hash n;
     sn_siloed_nullifier := sn_siloed_nullifier n; sn_note_data := sn_note_data n;
     sn_nullified := sn_nullified n; sn_is_pending := sn_is_pending n;
     sn_nullification_block_number := sn_nullification_block_number n;
     sn_leaf_index := sn_leaf_index n; sn_block_number := sn_block_number n;
     sn_tx_index_in_block := sn_tx_index_in_block n;
     sn_note_index_in_tx := sn_note_index_in_tx n; sn_scopes := scopes |}.

Definition with_nullified (n : StoredNote) (nullified : bool) (block : option Z) : StoredNote :=
  {| sn_contract_address := sn_contract_address n; sn_owner := sn_owner n;
     sn_storage_slot := sn_storage_slot n; sn_randomness := sn_randomness n;
     sn_note_nonce := sn_note_nonce n; sn_note_hash := sn_note_hash n;
     sn_siloed_nullifier := sn_siloed_nullifier n; sn_note_data := sn_note_data n;
     sn_nullified := nullified; sn_is_pending := sn_is_pending n;
     sn_nullification_block_number := block;
     sn_leaf_index := sn_leaf_index n; sn_block_number := sn_block_number n;
     sn_tx_index_in_block := sn_tx_index_in_block n;
     sn_note_index_in_tx := sn_note_index_in_tx n; sn_scopes := sn_scopes n |}.

(** [if !scopes.contains(scope) { scopes.push(scope) }]. *)
Definition push_scope (scope : AztecAddress) (n : StoredNote) : StoredNote :=
  if decide (scope ∈ sn_scopes n) then n else with_scopes n (sn_scopes n ++ [scope]).

(** The closure of [filter]. *)
Definition matches (filter : NoteFilter) (note : StoredNote) : bool :=
  match nf_status filter with
  | Active => negb (sn_nullified note)
  | Nullified => sn_nullified note
  | ActiveOrNullified => true
  end
  && match nf_storage_slot filter with
     | Some slot => bool_decide (sn_storage_slot note = slot) | None => true end
  && match nf_owner filter with
     | Some owner => bool_decide (sn_owner note = owner) | None => true end
  && (bool_decide (nf_scopes filter = [])
      || existsb (λ s, bool_decide (s ∈ nf_scopes filter)) (sn_scopes note))
  && match nf_siloed_nullifier filter with
     | Some nullifier => bool_decide (sn_siloed_nullifier note = nullifier) | None => true end.

(** The closure of [sort_by]. *)
Definition note_cmp (a b : StoredNote) : comparison :=
  cmp_then (ord_cmp (sn_block_number a) (sn_block_number b))
    (cmp_then (ord_cmp (sn_tx_index_in_block a) (sn_tx_index_in_block b))
       (ord_cmp (sn_note_index_in_tx a) (sn_note_index_in_tx b))).
End note_data.

(** ** Keys *)

Section keys.
Context {FR : PrimeField fr_modulus} {HX : HexCrate}.

Definition note_key_by_nullifier (nullifier : Fr) : list byte :=
  as_bytes ("note:" +:+ Fr_to_string nullifier).
Definition contract_index_key (contract : AztecAddress) : list byte :=
  as_bytes ("note_idx:contract:" +:+ Fr_to_string contract).
Definition block_index_key (block_number : Z) : list byte :=
  as_bytes ("note_idx:block:" +:+ pretty block_number).
Definition nullification_block_index_key (block_number : Z) : list byte :=
  as_bytes ("note_idx:nullify_block:" +:+ pretty block_number).
End keys.

(** ** [impl NoteStore] *)

Section note_store.
Context {FR : PrimeField fr_modulus} {HX : HexCrate}.
Context {SN : SerdeJson StoredNote} {SL : SerdeJson (list string)}.
Context {St : Type} {KV : KvStore St}.

(** [if let Ok(x) = m { .. }]. *)
Definition if_ok {A B : Type} (m : Outcome A) (f : A → M St B) (b : B) : M St B :=
  match m with Ok a => f a | Err _ => mok b | Panic => mlift Panic end.

(** The body shared by [add_to_contract_index], [add_to_block_index] and
    [add_to_nullification_block_index]. *)
Definition add_to_index (key : list byte) (nullifier : Fr) : M St () :=
  let! found := read_json key in
  let list := default [] found in
  let nullifier_str := Fr_to_string nullifier in
  if decide (nullifier_str ∈ list) then mok ()
  else write_json key (list ++ [nullifier_str]).

Definition add_to_contract_index (contract : AztecAddress) (nullifier : Fr) : M St () :=
  add_to_index (contract_index_key contract) nullifier.
Definition add_to_block_index (block_number : Z) (nullifier : Fr) : M St () :=
  add_to_index (block_index_key block_number) nullifier.
Definition add_to_nullification_block_index (block_number : Z) (nullifier : Fr) : M St () :=
  add_to_index (nullification_block_index_key block_number) nullifier.

Definition remove_from_contract_index (contract : AztecAddress) (nullifier : Fr) : M St () :=
  let key := contract_index_key contract in
  let! found := read_json key in
  match found with
  | None => mok ()
  | Some list =>
      let nullifier_str := Fr_to_string nullifier in
      let list := filter (λ s, s ≠ nullifier_str) list in
      if decide (list = []) then kv_delete key else write_json key list
  end.

Definition add_one (scope : AztecAddress) (note : StoredNote) : M St () :=
  let stored := push_scope scope note in
  let key := note_key_by_nullifier (sn_siloed_nullifier stored) in
  let! found := read_json key in
  match found with
  | Some existing => write_json key (push_scope scope existing)
  | None =>
      write_json key stored ;;!
      add_to_contract_index (sn_contract_address stored) (sn_siloed_nullifier stored) ;;!
      match sn_block_number stored with
      | Some bn => add_to_block_index bn (sn_siloed_nullifier stored)
      | None => mok ()
      end
  end.

Definition add_notes (notes : list StoredNote) (scope : AztecAddress) : M St () :=
  for_each (add_one scope) notes.

Definition add_note (note : StoredNote) : M St () :=
  let scope := default AztecAddress_zero (head (sn_scopes note)) in
  add_notes [note] scope.

(** The loop that reads the notes an index names. *)
Definition push_indexed (notes : list StoredNote) (nullifier_str : string)
    : M St (list StoredNote) :=
  if_ok (Fr_from_hex nullifier_str) (λ nullifier,
    let! found := read_json (note_key_by_nullifier nullifier) in
    match found with Some note => mok (notes ++ [note]) | None => mok notes end) notes.

Definition get_notes_for_contract (contract : AztecAddress) : M St (list StoredNote) :=
  let! found := read_json (contract_index_key contract) in
  match found with
  | None => mok []
  | Some nullifiers => for_fold push_indexed [] nullifiers
  end.

Definition get_all_notes : M St (list StoredNote) :=
  let! entries := kv_list_prefix (as_bytes "note:") in
  mlift (omapM (λ kv, from_slice kv.2) entries).

Definition get_notes (filter : NoteFilter) : M St (list StoredNote) :=
  let! notes := match nf_contract_address filter with
                | Some contract => get_notes_for_contract contract
                | None => get_all_notes
                end in
  mok (sort_by note_cmp (List.filter (matches filter) notes)).

Definition get_notes_by_slot (contract : AztecAddress) (storage_slot : Fr)
    : M St (list StoredNote) :=
  get_notes {| nf_contract_address := Some contract; nf_storage_slot := Some storage_slot;
               nf_owner := None; nf_status := Active; nf_scopes := [];
               nf_siloed_nullifier := None |}.

Definition apply_one (nb : Fr * Z) : M St () :=
  let '(nullifier, block_number) := nb in
  let key := note_key_by_nullifier nullifier in
  let! found := read_json key in
  match found with
  | None => mok ()
  | Some note =>
      if sn_nullified note then mok ()
      else
        write_json key (with_nullified note true (Some block_number)) ;;!
        add_to_nullification_block_index block_number nullifier
  end.

Definition apply_nullifiers (nullifiers : list (Fr * Z)) : M St () :=
  for_each apply_one nullifiers.

Definition nullify_note (contract : AztecAddress) (storage_slot note_hash : Fr) : M St () :=
  let! notes := get_notes_for_contract contract in
  match List.find (λ note, bool_decide (sn_storage_slot note = storage_slot)
                           && bool_decide (sn_note_hash note = note_hash)) notes with
  | Some note => apply_nullifiers [(sn_siloed_nullifier note, 0)]
  | None => mok ()
  end.

Definition has_note (contract : AztecAddress) (note_hash : Fr) : M St bool :=
  let! notes := get_notes_for_contract contract in
  mok (existsb (λ n, bool_decide (sn_note_hash n = note_hash) && negb (sn_nullified n)) notes).

(** The two loops of [rollback] over the entries of an index: [body] treats one
    nullifier of an entry above the block. *)
Definition rollback_entry (prefix : string) (block_number : Z) (body : Fr → M St ())
    (entry : list byte * list byte) : M St () :=
  let '(key, value) := entry in
  match strip_prefix prefix (from_bytes key) with
  | None => mok ()
  | Some bn_str =>
      match parse_u64 bn_str with
      | None => mok ()
      | Some bn =>
          if block_number <? bn then
            let! nullifiers := mlift (from_slice value) in
            for_each (λ nullifier_str, if_ok (Fr_from_hex nullifier_str) body ()) nullifiers ;;!
            kv_delete key
          else mok ()
      end
  end.

Definition un_nullify (nullifier : Fr) : M St () :=
  let note_key := note_key_by_nullifier nullifier in
  let! found := read_json note_key in
  match found with
  | Some note => write_json note_key (with_nullified note false None)
  | None => mok ()
  end.

Definition delete_note (nullifier : Fr) : M St () :=
  let note_key := note_key_by_nullifier nullifier in
  let! found := read_json note_key in
  match found with
  | Some note => remove_from_contract_index (sn_contract_address note) nullifier
  | None => mok ()
  end ;;!
  kv_delete note_key.

Definition rollback (block_number : Z) : M St () :=
  let! entries := kv_list_prefix (as_bytes "note_idx:nullify_block:") in
  for_each (rollback_entry "note_idx:nullify_block:" block_number un_nullify) entries ;;!
  let! block_entries := kv_list_prefix (as_bytes "note_idx:block:") in
  for_each (rollback_entry "note_idx:block:" block_number delete_note) block_entries.
End note_store.
