(* ===== verification/EventStore.v ===== *)
(** [crates/pxe/src/stores/private_event_store.rs]: the decrypted private events, with
    their indexes by contract and selector and by block. *)

From Stdlib Require Import Ascii String.
From S2P Require Import Prelude Bytes Ordered Deps Concrete Types Kv LocalStores NoteStore.

Section event_data.
Context {FR : PrimeField fr_modulus}.

Record StoredPrivateEvent := {
  ev_event_selector : Fr;
  ev_randomness : Fr;
  ev_msg_content : list Fr;
  ev_siloed_event_commitment : Fr;
  ev_contract_address : AztecAddress;
  ev_scopes : list AztecAddress;
  ev_tx_hash : TxHash;
  ev_l2_block_number : Z;
  ev_l2_block_hash : string;
  ev_tx_index_in_block : option Z;
  ev_event_index_in_tx : option Z;
}.

Record PrivateEventQueryFilter := {
  pf_contract_address : AztecAddress;
  pf_from_block : option Z;
  pf_to_block : option Z;
  pf_scopes : list AztecAddress;
  pf_tx_hash : option TxHash;
}.

(** [if !scopes.contains(scope) { scopes.push(scope) }]. *)
Definition event_push_scope (scope : AztecAddress) (e : StoredPrivateEvent) : StoredPrivateEvent :=
  if decide (scope ∈ ev_scopes e) then e
  else {| ev_event_selector := ev_event_selector e; ev_randomness := ev_randomness e;
          ev_msg_content := ev_msg_content e;
          ev_siloed_event_commitment := ev_siloed_event_commitment e;
          ev_contract_address := ev_contract_address e; ev_scopes := ev_scopes e ++ [scope];
          ev_tx_hash := ev_tx_hash e; ev_l2_block_number := ev_l2_block_number e;
          ev_l2_block_hash := ev_l2_block_hash e; ev_tx_index_in_block := ev_tx_index_in_block e;
          ev_event_index_in_tx := ev_event_index_in_tx e |}.

(** The tests of the query loop that [continue] past an event. *)
Definition event_matches (filter : PrivateEventQueryFilter) (event : StoredPrivateEvent) : bool :=
  match pf_from_block filter with
  | Some from => negb (ev_l2_block_number event <? from) | None => true end
  && match pf_to_block filter with
     | Some to => negb (to <? ev_l2_block_number event) | None => true end
  && (bool_decide (pf_scopes filter = [])
      || existsb (λ s, bool_decide (s ∈ pf_scopes filter)) (ev_scopes event))
  && match pf_tx_hash filter with
     | Some tx_hash => bool_decide (ev_tx_hash event = tx_hash) | None => true end.

Definition event_cmp (a b : StoredPrivateEvent) : comparison :=
  cmp_then (ord_cmp (ev_l2_block_number a) (ev_l2_block_number b))
    (cmp_then (ord_cmp (ev_tx_index_in_block a) (ev_tx_index_in_block b))
       (ord_cmp (ev_event_index_in_tx a) (ev_event_index_in_tx b))).
End event_data.

Module PrivateEventStore.
Section store.
Context {FR : PrimeField fr_modulus} {HX : HexCrate}.
Context {SE : SerdeJson StoredPrivateEvent} {SL : SerdeJson (list string)}.
Context {St : Type} {KV : KvStore St}.

Definition event_key (siloed_event_commitment : Fr) : list byte :=
  as_bytes ("event:" +:+ Fr_to_string siloed_event_commitment).
Definition contract_selector_index_key (contract : AztecAddress) (selector : Fr) : list byte :=
  as_bytes ("event_idx:cs:" +:+ Fr_to_string contract +:+ "_" +:+ Fr_to_string selector).
Definition block_index_key (block_number : Z) : list byte :=
  as_bytes ("event_idx:block:" +:+ pretty block_number).

Definition add_to_contract_selector_index (contract : AztecAddress) (selector event_id : Fr)
    : M St () := add_to_index (contract_selector_index_key contract selector) event_id.

Definition add_to_block_index (block_number : Z) (event_id : Fr) : M St () :=
  add_to_index (block_index_key block_number) event_id.

Definition remove_from_contract_selector_index (contract : AztecAddress) (selector event_id : Fr)
    : M St () :=
  let key := contract_selector_index_key contract selector in
  let! found := read_json key in
  match found with
  | None => mok ()
  | Some list =>
      let id_str := Fr_to_string event_id in
      let list := filter (λ s, s ≠ id_str) list in
      if decide (list = []) then kv_delete key else write_json key list
  end.

Definition store_private_event_log (event : StoredPrivateEvent) (scope : AztecAddress) : M St () :=
  let key := event_key (ev_siloed_event_commitment event) in
  let! found := read_json key in
  match found with
  | Some existing => write_json key (event_push_scope scope existing)
  | None =>
      let stored := event_push_scope scope event in
      write_json key stored ;;!
      add_to_contract_selector_index (ev_contract_address stored) (ev_event_selector stored)
        (ev_siloed_event_commitment stored) ;;!
      add_to_block_index (ev_l2_block_number stored) (ev_siloed_event_commitment stored)
  end.

Definition push_event (filter : PrivateEventQueryFilter) (events : list StoredPrivateEvent)
    (id_str : string) : M St (list StoredPrivateEvent) :=
  if_ok (Fr_from_hex id_str) (λ id,
    let! found := read_json (event_key id) in
    match found with
    | Some event => mok (if event_matches filter event then events ++ [event] else events)
    | None => mok events
    end) events.

Definition get_private_events (event_selector : Fr) (filter : PrivateEventQueryFilter)
    : M St (list StoredPrivateEvent) :=
  let! found := read_json (contract_selector_index_key (pf_contract_address filter) event_selector) in
  match found with
  | None => mok []
  | Some event_ids =>
      let! events := for_fold (push_event filter) [] event_ids in
      mok (sort_by event_cmp events)
  end.

Definition delete_event (id : Fr) : M St () :=
  let event_key := event_key id in
  (let! found := read_json event_key in
   match found with
   | Some event =>
       remove_from_contract_selector_index (ev_contract_address event) (ev_event_selector event) id
   | None => mok ()
   end) ;;!
  kv_delete event_key.

Definition rollback (block_number : Z) : M St () :=
  let! entries := kv_list_prefix (as_bytes "event_idx:block:") in
  for_each (rollback_entry "event_idx:block:" block_number delete_event) entries.
End store.
End PrivateEventStore.
