(* ===== verification/PickNotes.v ===== *)
(** [crates/pxe/src/execution/pick_notes.rs]: the select clauses of a note query, which
    compare a part of a field of a note with a value. *)

From S2P Require Import Prelude Bytes Ordered Deps Concrete Types Kv LocalStores NoteStore.

Section pick_notes.
Context {FR : PrimeField fr_modulus}.

Record SelectClause := {
  sc_index : Z;
  sc_offset : Z;
  sc_length : Z;
  sc_value : Fr;
  sc_comparator : Z;
}.

#[global] Instance SelectClause_eq_dec : EqDecision SelectClause.
Proof. solve_decision. Defined.

Definition EQ : Z := 1.
Definition NEQ : Z := 2.
Definition LT : Z := 3.
Definition LTE : Z := 4.
Definition GT : Z := 5.
Definition GTE : Z := 6.

(** [args.get(i).and_then(|v| v.first())]. *)
Definition first_at (args : list (list Fr)) (i : nat) : option Fr := args !! i ≫= head.

(** The element [i] of an array argument as a [usize], 0 where there is none. *)
Definition usize_at (fields : list Fr) (i : nat) : Z := default 0 (Fr_to_usize <$> fields !! i).

Definition clause_at (args : list (list Fr)) (i : nat) : SelectClause :=
  {| sc_index := usize_at (default [] (args !! 4%nat)) i;
     sc_offset := usize_at (default [] (args !! 5%nat)) i;
     sc_length := usize_at (default [] (args !! 6%nat)) i;
     sc_value := default Fr_zero (default [] (args !! 7%nat) !! i);
     sc_comparator := wrap 8 (usize_at (default [] (args !! 8%nat)) i) |}.

(** The vector is allocated at once: 64 bytes a clause. *)
Definition parse_select_clauses (args : list (list Fr)) : Outcome (list SelectClause) :=
  let num_selects := default 0 (Fr_to_usize <$> first_at args 3) in
  if num_selects =? 0 then Ok []
  else
    let? _ := vec_with_capacity 64 num_selects in
    Ok (clause_at args <$> seq 0 (Z.to_nat num_selects)).

(** [None] when the note has no such field; a slice that starts after its end panics. *)
Definition extract_property (note_data : list Fr) (clause : SelectClause) : Outcome (option Fr) :=
  match note_data !! Z.to_nat (sc_index clause) with
  | None => Ok None
  | Some field =>
      if (sc_offset clause =? 0) && ((sc_length clause =? 0) || (32 <=? sc_length clause))
      then Ok (Some field)
      else
        let bytes := Fr_to_be_bytes field in
        let end_ := Z.min (wrap 64 (sc_offset clause + sc_length clause)) 32 in
        if end_ <? sc_offset clause then Panic
        else
          let slice := drop (Z.to_nat (sc_offset clause)) (take (Z.to_nat end_) bytes) in
          Ok (Some (Fr_from_be (left_pad 32 slice)))
  end.

Definition compare (note_val select_val : Fr) (comparator : Z) : bool :=
  let c := ord_cmp note_val select_val in
  if comparator =? EQ then bool_decide (note_val = select_val)
  else if comparator =? NEQ then bool_decide (note_val ≠ select_val)
  else if comparator =? LT then match c with Lt => true | _ => false end
  else if comparator =? LTE then match c with Gt => false | _ => true end
  else if comparator =? GT then match c with Gt => true | _ => false end
  else if comparator =? GTE then match c with Lt => false | _ => true end
  else true.

(** [clauses.iter().all(..)]: stops at the first clause that fails. *)
Fixpoint all_clauses (note : StoredNote) (clauses : list SelectClause) : Outcome bool :=
  match clauses with
  | [] => Ok true
  | clause :: clauses' =>
      let? val := extract_property (sn_note_data note) clause in
      if match val with
         | Some v => compare v (sc_value clause) (sc_comparator clause)
         | None => false
         end
      then all_clauses note clauses' else Ok false
  end.

Fixpoint filter_notes (clauses : list SelectClause) (notes : list StoredNote)
    : Outcome (list StoredNote) :=
  match notes with
  | [] => Ok []
  | note :: notes' =>
      let? keep := all_clauses note clauses in
      let? rest := filter_notes clauses notes' in
      Ok (if keep then note :: rest else rest)
  end.

Definition select_notes (notes : list StoredNote) (clauses : list SelectClause)
    : Outcome (list StoredNote) :=
  if decide (clauses = []) then Ok notes else filter_notes clauses notes.

(** ** What a clause means *)

(** The integer that a clause looks at: the bytes [offset .. offset + length] of the
    32 bytes of the field, where no length and no offset stand for all of them. *)
Definition selected_value (field : Fr) (clause : SelectClause) : Z :=
  if (sc_offset clause =? 0) && (sc_length clause =? 0) then pf_val field
  else
    let end_ := Z.min (sc_offset clause + sc_length clause) 32 in
    pf_val field / 256 ^ (32 - end_) mod 256 ^ (end_ - sc_offset clause).

Definition comparator_holds (c v w : Z) : bool :=
  if c =? 1 then v =? w else if c =? 2 then negb (v =? w) else if c =? 3 then v <? w
  else if c =? 4 then v <=? w else if c =? 5 then w <? v else if c =? 6 then w <=? v else true.

Definition clause_holds (note : StoredNote) (clause : SelectClause) : bool :=
  match sn_note_data note !! Z.to_nat (sc_index clause) with
  | Some field => comparator_holds (sc_comparator clause) (selected_value field clause)
                    (pf_val (sc_value clause))
  | None => false
  end.

(** The clauses a contract writes: a part that starts inside the field. *)
Definition clause_fits (clause : SelectClause) : Prop :=
  0 ≤ sc_index clause ∧ 0 ≤ sc_offset clause ≤ 32 ∧ 0 ≤ sc_length clause < 2 ^ 63.

Lemma be_Z_drop_take (bs : list byte) (i j : nat) :
  (i ≤ j ≤ List.length bs)%nat →
  be_Z (drop i (take j bs))
  = be_Z bs / 256 ^ Z.of_nat (List.length bs - j) mod 256 ^ Z.of_nat (j - i).
Proof.
  intros Hij. rewrite <- (take_drop j bs) at 2. rewrite be_Z_app, length_drop.
  pose proof (be_Z_range (drop j bs)) as Hd. rewrite length_drop in Hd.
  rewrite Z.div_add_l, Z.div_small, Z.add_0_r by lia.
  rewrite <- (take_drop i (take j bs)) at 2. rewrite be_Z_app, length_drop, length_take, Nat.min_l by lia.
  pose proof (be_Z_range (drop i (take j bs))) as Hr. rewrite length_drop, length_take, Nat.min_l in Hr by lia.
  rewrite Z.add_comm, Z.mod_add by lia. by rewrite Z.mod_small.
Qed.

Lemma extract_property_fits (note_data : list Fr) (clause : SelectClause) (field : Fr) :
  clause_fits clause → note_data !! Z.to_nat (sc_index clause) = Some field →
  ∃ v, extract_property note_data clause = Ok (Some v) ∧ pf_val v = selected_value field clause.
Proof.
  intros (Hi & Ho & Hl) Hf. unfold extract_property, selected_value. rewrite Hf.
  pose proof (pf_val_range field) as Hv.
  assert (pf_val field < 256 ^ 32) by (pose proof fr_modulus_bounds; lia).
  destruct ((sc_offset clause =? 0) && (sc_length clause =? 0)) eqn:E0.
  { apply andb_true_iff in E0 as [-> ->]. by exists field. }
  destruct ((sc_offset clause =? 0) && ((sc_length clause =? 0) || (32 <=? sc_length clause))) eqn:E1.
  { apply andb_true_iff in E1 as [E1 E2]. rewrite E1 in E0. cbn [andb] in E0.
    rewrite E0 in E2. cbn [orb] in E2. apply Z.leb_le in E2. apply Z.eqb_eq in E1. rewrite E1.
    exists field. split; [done|].
    rewrite Z.min_r, Z.sub_diag, Z.pow_0_r, Z.div_1_r, Z.sub_0_r by lia. by rewrite Z.mod_small by lia. }
  rewrite wrap_small by (unfold in_u; lia).
  destruct (Z.ltb_spec (Z.min (sc_offset clause + sc_length clause) 32) (sc_offset clause)); [lia|].
  eexists. split; [done|]. rewrite Fr_val_from_be, be_Z_left_pad.
  set (e := Z.min (sc_offset clause + sc_length clause) 32) in *.
  rewrite be_Z_drop_take by (rewrite Fr_to_be_bytes_length; lia).
  rewrite Fr_to_be_bytes_length, Fr_to_be_bytes_eq. fold (pf_val field).
  replace (Z.of_nat (32 - Z.to_nat e)) with (32 - e) by lia.
  replace (Z.of_nat (Z.to_nat e - Z.to_nat (sc_offset clause))) with (e - sc_offset clause) by lia.
  apply Z.mod_small. split; [apply Z.mod_pos_bound; lia|].
  eapply Z.le_lt_trans; [apply Z.mod_le; [apply Z.div_pos; lia|lia]|].
  eapply Z.le_lt_trans; [apply Z.div_le_upper_bound with (q := pf_val field); nia|]. lia.
Qed.

Lemma compare_holds (v w : Fr) (c : Z) : compare v w c = comparator_holds c (pf_val v) (pf_val w).
Proof.
  unfold compare, comparator_holds, EQ, NEQ, LT, LTE, GT, GTE.
  assert (bool_decide (v = w) = (pf_val v =? pf_val w)) as He.
  { destruct (Z.eqb_spec (pf_val v) (pf_val w)) as [E%(inj pf_val)|N];
      [by apply bool_decide_eq_true_2|]. apply bool_decide_eq_false_2. by intros ->. }
  rewrite bool_decide_not, He. change (ord_cmp v w) with (pf_cmp v w). rewrite pf_cmp_val.
  fold (pf_val v) (pf_val w). unfold Z.ltb, Z.leb. rewrite (Z.compare_antisym (pf_val v) (pf_val w)).
  by destruct (pf_val v ?= pf_val w).
Qed.

Lemma all_clauses_fits (note : StoredNote) (clauses : list SelectClause) :
  Forall clause_fits clauses → all_clauses note clauses = Ok (forallb (clause_holds note) clauses).
Proof.
  induction 1 as [|clause clauses Hc _ IH]; [done|]. cbn [all_clauses forallb]. unfold clause_holds at 1.
  destruct (sn_note_data note !! Z.to_nat (sc_index clause)) as [field|] eqn:E.
  - destruct (extract_property_fits _ _ _ Hc E) as (v & -> & <-). cbn [obind]. rewrite compare_holds.
    by destruct (comparator_holds _ _ _).
  - unfold extract_property. by rewrite E.
Qed.

Lemma filter_notes_fits (clauses : list SelectClause) (notes : list StoredNote) :
  Forall clause_fits clauses →
  filter_notes clauses notes = Ok (List.filter (λ n, forallb (clause_holds n) clauses) notes).
Proof.
  intros Hc. induction notes as [|note notes IH]; [done|]. cbn [filter_notes List.filter].
  rewrite all_clauses_fits, IH by done. cbn [obind]. by destruct (forallb _ _).
Qed.

Lemma select_notes_fits (notes : list StoredNote) (clauses : list SelectClause) :
  Forall clause_fits clauses →
  select_notes notes clauses = Ok (List.filter (λ n, forallb (clause_holds n) clauses) notes).
Proof.
  intros Hc. unfold select_notes. destruct (decide (clauses = [])) as [->|]; [|by apply filter_notes_fits].
  f_equal. induction notes as [|n notes IH]; [done|]. cbn. by f_equal.
Qed.

Lemma extract_property_outside (note_data : list Fr) (clause : SelectClause) (field : Fr) :
  32 < sc_offset clause → note_data !! Z.to_nat (sc_index clause) = Some field →
  extract_property note_data clause = Panic.
Proof.
  intros Ho Hf. unfold extract_property. rewrite Hf.
  destruct (Z.eqb_spec (sc_offset clause) 0); [lia|]. cbn [andb].
  destruct (Z.ltb_spec (Z.min (wrap 64 (sc_offset clause + sc_length clause)) 32) (sc_offset clause));
    [done|lia].
Qed.
End pick_notes.
