(* ===== verification/AcvmExecutor.v ===== *)
(** [crates/pxe/src/execution/acvm_executor.rs]: running a function of an artifact in the
    ACVM, with the foreign calls of the circuit answered by an oracle. *)

From Stdlib Require Import Ascii String.
From S2P Require Import Prelude Bytes Ordered Deps Types AbiTypes Kv Simulated.

(** ** The [acvm] crate

    A program is a list of circuits; [acvm_new] is a machine for one of them with an
    initial witness.  [acvm_solve] runs it until it is solved or needs an answer.  The
    text of an error is its [Display] text, a raw payload is its selector. *)

Inductive ForeignCallParam (F : Type) := Single (x : F) | Array (l : list F).
Arguments Single {F} x.
Arguments Array {F} l.

Inductive ResolvedAssertionPayload := PayloadString (msg : string) | PayloadRaw (selector : Z).

Inductive OpcodeResolutionError :=
  | BrilligFunctionFailed (payload : option ResolvedAssertionPayload) (text : string)
  | UnsatisfiedConstrain (payload : option ResolvedAssertionPayload) (text : string)
  | OtherFailure (text : string).

Inductive ACVMStatus (F : Type) :=
  | Solved
  | InProgress
  | Failure (err : OpcodeResolutionError)
  | RequiresForeignCall (function : string) (inputs : list (ForeignCallParam F))
  | RequiresAcirCall (id : Z) (initial_witness : list (Z * F)).
Arguments Solved {F}.
Arguments InProgress {F}.
Arguments Failure {F} err.
Arguments RequiresForeignCall {F} function inputs.
Arguments RequiresAcirCall {F} id initial_witness.

Class AcvmCrate `{AC : AcirCrate} := {
  Program : Type;
  Circuit : Type;
  ACVM : Type;
  deserialize_program : list byte → string + Program;
  gzip : list byte → list byte;
  program_functions : Program → list Circuit;
  circuit_return_values : Circuit → list Z;
  acvm_new : Program → Circuit → list (Z * fe) → ACVM;
  acvm_solve : ACVM → ACVM * ACVMStatus fe;
  resolve_pending_foreign_call : ACVM → list (ForeignCallParam fe) → ACVM;
  resolve_pending_acir_call : ACVM → list fe → ACVM;
  acvm_finalize : ACVM → list (Z * fe);
}.

(** ** Conversions *)

Section convert.
Context {FR : PrimeField fr_modulus} {HX : HexCrate} {AC : AcirCrate}.
Context {JS : JsonCrate} {JT : JsonText} {B64 : Base64Crate} {AV : AcvmCrate}.

Record AcvmExecutionOutput := {
  return_values : list Fr;
  witness : list (Z * fe);
  acir_bytecode : list byte;
  ao_verification_key : list byte;
  first_acir_call_return_values : list Fr;
}.

(** [value.get("string").and_then(as_str)] on an entry of an object. *)
Definition entry_string (entry : JsonTree) : option string :=
  match entry with
  | TObject map =>
      match List.find (λ kv, String.eqb kv.1 "string") map with
      | Some (_, TString s) => Some s
      | _ => None
      end
  | _ => None
  end.

Definition error_types_contains_message (error_types : option json_value) (expected : string) : bool :=
  match json_tree <$> error_types with
  | Some (TObject entries) =>
      existsb (λ kv, bool_decide (entry_string kv.2 = Some expected)) entries
  | _ => false
  end.

Definition invalid_nonce : string :=
  "Invalid authwit nonce. When 'from' and 'msg_sender' are the same, 'authwit_nonce' must be zero".
Definition balance_too_low : string := "Balance too low".

Definition fallback_private_error_message (last_oracle resolved : string)
    (error_types : option json_value) : option string :=
  if negb (String.eqb resolved "Cannot satisfy constraint") then None
  else if String.eqb last_oracle "privateIsNullifierPending"
          && error_types_contains_message error_types invalid_nonce
  then Some invalid_nonce
  else if (String.eqb last_oracle "privateNotifyNullifiedNote" || String.eqb last_oracle "utilityGetNotes")
          && error_types_contains_message error_types balance_too_low
  then Some balance_too_low
  else None.

(** Writing to the encoder of a vector does not fail. *)
Definition decode_program (bytecode_b64 : string) : Outcome Program :=
  let? bytecode_bytes := match base64_decode bytecode_b64 with
    | inr bytes => Ok bytes
    | inl e => Err (InvalidData ("base64 decode error: " +:+ e))
    end in
  let is_gzip := bool_decide ([Z_byte 31; Z_byte 139] `prefix_of` bytecode_bytes) in
  match deserialize_program (if is_gzip then bytecode_bytes else gzip bytecode_bytes) with
  | inr program => Ok program
  | inl e => Err (InvalidData ("ACIR deserialize error: " +:+ e))
  end.

(** The index is a [usize] cut to 32 bits. *)
Definition build_initial_witness (args : list Fr) : list (Z * fe) :=
  foldl (λ m ia, bt_insert (wrap 32 ia.1) (fr_to_fe ia.2) m) []
    (zip (seqZ 0 (Z.of_nat (length args))) args).

Definition convert_fc_inputs (inputs : list (ForeignCallParam fe)) : list (list Fr) :=
  (λ param, match param with
            | Single x => [fe_to_fr x]
            | Array fes => fe_to_fr <$> fes
            end) <$> inputs.

Definition force_array_indexes (function : string) : list nat :=
  if bool_decide (function ∈ ["utilityLoadCapsule"; "loadCapsule"; "getCapsule"]) then [1%nat]
  else if bool_decide (function ∈ ["utilityAes128Decrypt"; "aes128Decrypt"]) then [0%nat]
  else if bool_decide (function ∈ ["utilityTryGetPublicKeysAndPartialAddress";
                                   "tryGetPublicKeysAndPartialAddress"]) then [1%nat]
  else if bool_decide (function ∈ ["privateLoadFromExecutionCache"; "loadFromExecutionCache"])
  then [0%nat] else [].

Definition convert_fc_result (function : string) (result : list (list Fr))
    : list (ForeignCallParam fe) :=
  imap (λ index frs,
    match frs with
    | [x] => if bool_decide (index ∈ force_array_indexes function)
             then Array [fr_to_fe x] else Single (fr_to_fe x)
    | _ => Array (fr_to_fe <$> frs)
    end) result.

(** [error_kind] and the text of an entry of [error_types]. *)
Definition error_text (error_types : option json_value) (selector : Z) : option string :=
  error_types ≫= λ et, json_get et (pretty selector) ≫= λ entry,
    match json_get entry "error_kind" ≫= json_as_str with
    | Some kind =>
        if String.eqb kind "string" || String.eqb kind "fmtstring"
        then json_get entry "string" ≫= json_as_str else None
    | None => None
    end.

Definition resolve_error (err : OpcodeResolutionError) (error_types : option json_value) : string :=
  match err with
  | BrilligFunctionFailed (Some (PayloadString msg)) _
  | UnsatisfiedConstrain (Some (PayloadString msg)) _ => msg
  | BrilligFunctionFailed (Some (PayloadRaw selector)) text
  | UnsatisfiedConstrain (Some (PayloadRaw selector)) text =>
      default text (error_text error_types selector)
  | BrilligFunctionFailed None text | UnsatisfiedConstrain None text | OtherFailure text => text
  end.

(** ** Running a machine

    A loop carries a state; [None] says that the fuel is spent. *)
Fixpoint miter {W S A : Type} (fuel : nat) (step : S → M W (S + A)) (s : S) : M W (option A) :=
  match fuel with
  | O => mok None
  | Datatypes.S n =>
      let! r := step s in
      match r with inl s' => miter n step s' | inr a => mok (Some a) end
  end.

Section execute.
Context {W : Type}.

(** [OracleCallback]: the answers to foreign calls; [None] when the oracle ran out of
    fuel. *)
Definition OracleCallback : Type := string → list (list Fr) → M W (option (list (list Fr))).

Variable oracle : OracleCallback.

(** What a loop ends with: the solved machine, or no fuel inside the oracle. *)
Definition answer_foreign_call (m : ACVM) (function : string) (inputs : list (ForeignCallParam fe))
    : M W (option ACVM) :=
  let?! result := oracle function (convert_fc_inputs inputs) in
  mok (Some (resolve_pending_foreign_call m (convert_fc_result function result))).

Definition sub_step (types : option json_value) (m : ACVM) : M W (ACVM + option ACVM) :=
  let '(m, status) := acvm_solve m in
  match status with
  | Solved => mok (inr (Some m))
  | InProgress => mok (inl m)
  | RequiresForeignCall function inputs =>
      let! answered := answer_foreign_call m function inputs in
      mok (match answered with Some m => inl m | None => inr None end)
  | RequiresAcirCall _ _ =>
      mlift (Err (InvalidData "nested ACIR calls deeper than 2 levels not supported"))
  | Failure err =>
      mlift (Err (InvalidData ("sub-circuit execution failed: " +:+ resolve_error err types)))
  end.

Definition run_sub_circuit (fuel : nat) (types : option json_value) (m : ACVM) : M W (option ACVM) :=
  let! r := miter fuel (sub_step types) m in mok (mjoin r).

Record SolveState := { ss_acvm : ACVM; last_private_fc : string; ss_first : list Fr }.

Definition with_acvm (s : SolveState) (m : ACVM) : SolveState :=
  {| ss_acvm := m; last_private_fc := last_private_fc s; ss_first := ss_first s |}.

Definition acir_call (fuel : nat) (program : Program) (types : option json_value) (s : SolveState)
    (id : Z) (initial_witness : list (Z * fe)) : M W (option SolveState) :=
  let n := Z.of_nat (length (program_functions program)) in
  match program_functions program !! Z.to_nat id with
  | None =>
      mlift (Err (InvalidData ("ACIR call references circuit " +:+ pretty id
                               +:+ " but program only has " +:+ pretty n)))
  | Some called_circuit =>
      let?! sub := run_sub_circuit fuel types (acvm_new program called_circuit initial_witness) in
      let sub_witness_map := acvm_finalize sub in
      let values := omap (λ w, bt_get w sub_witness_map) (circuit_return_values called_circuit) in
      mok (Some {| ss_acvm := resolve_pending_acir_call (ss_acvm s) values;
                   last_private_fc := last_private_fc s;
                   ss_first := if decide (ss_first s = []) then fe_to_fr <$> values else ss_first s |})
  end.

Definition private_failure (function_name : string) (last : string) (resolved : string) : Error :=
  InvalidData ("private function '" +:+ function_name +:+ "' execution failed (last oracle: "
               +:+ last +:+ "): " +:+ resolved).

Definition private_step (fuel : nat) (program : Program) (types : option json_value)
    (function_name : string) (s : SolveState) : M W (SolveState + option SolveState) :=
  let '(m, status) := acvm_solve (ss_acvm s) in
  let s := with_acvm s m in
  match status with
  | Solved => mok (inr (Some s))
  | InProgress => mok (inl s)
  | RequiresForeignCall function inputs =>
      let! answered := answer_foreign_call m function inputs in
      mok (match answered with
           | Some m => inl {| ss_acvm := m; last_private_fc := function; ss_first := ss_first s |}
           | None => inr None
           end)
  | RequiresAcirCall id initial_witness =>
      let! called := acir_call fuel program types s id initial_witness in
      mok (match called with Some s => inl s | None => inr None end)
  | Failure err =>
      let resolved := resolve_error err types in
      mlift (Err (private_failure function_name (last_private_fc s)
        (default resolved (fallback_private_error_message (last_private_fc s) resolved types))))
  end.

Definition no_bytecode (function_name : string) (artifact : ContractArtifact FR JS) : Error :=
  InvalidData ("function '" +:+ function_name +:+ "' in '" +:+ art_name artifact
               +:+ "' has no bytecode").

(** The decoded bytes, or none. *)
Definition decode_or_default (encoded : string) : list byte :=
  match base64_decode encoded with inr bytes => bytes | inl _ => [] end.

(** The machine of the main circuit. *)
Definition load_main (artifact : ContractArtifact FR JS) (function_name : string) (args : list Fr)
    : Outcome (FunctionArtifact FR JS * Program * Circuit * ACVM) :=
  let? function := find_function artifact function_name in
  let? bytecode_b64 := ok_or (bytecode function) (no_bytecode function_name artifact) in
  let? program := decode_program bytecode_b64 in
  let initial_witness := build_initial_witness args in
  let? main_circuit := ok_or (head (program_functions program))
                         (InvalidData "program has no circuits") in
  Ok (function, program, main_circuit, acvm_new program main_circuit initial_witness).

Definition execute_private (fuel : nat) (artifact : ContractArtifact FR JS) (function_name : string)
    (initial_witness_fields : list Fr) : M W (option AcvmExecutionOutput) :=
  let! main := mlift (load_main artifact function_name initial_witness_fields) in
  let '(function, program, main_circuit, acvm) := main in
  let! r := miter fuel (private_step fuel program (error_types function) function_name)
              {| ss_acvm := acvm; last_private_fc := ""; ss_first := [] |} in
  let?! s := mok (mjoin r) in
  let witness := acvm_finalize (ss_acvm s) in
  mok (Some {| return_values := witness_map_to_frs witness (circuit_return_values main_circuit);
               witness := witness;
               acir_bytecode := decode_or_default (default "" (bytecode function));
               ao_verification_key := default [] (decode_or_default <$> verification_key function);
               first_acir_call_return_values := ss_first s |}).

Record UtilityState := { us_acvm : ACVM; last_fc : string }.

Definition utility_failure (function_name : string) (last : string) (resolved : string) : Error :=
  InvalidData ("utility function '" +:+ function_name +:+ "' execution failed (last oracle: "
               +:+ last +:+ "): " +:+ resolved).

Definition utility_step (types : option json_value) (function_name : string) (s : UtilityState)
    : M W (UtilityState + option UtilityState) :=
  let '(m, status) := acvm_solve (us_acvm s) in
  match status with
  | Solved => mok (inr (Some {| us_acvm := m; last_fc := last_fc s |}))
  | InProgress => mok (inl {| us_acvm := m; last_fc := last_fc s |})
  | RequiresForeignCall function inputs =>
      let! answered := answer_foreign_call m function inputs in
      mok (match answered with
           | Some m => inl {| us_acvm := m; last_fc := function |}
           | None => inr None
           end)
  | RequiresAcirCall _ _ => mlift (Err (InvalidData "utility functions should not make ACIR calls"))
  | Failure err =>
      mlift (Err (utility_failure function_name (last_fc s) (resolve_error err types)))
  end.

Definition execute_utility (fuel : nat) (artifact : ContractArtifact FR JS) (function_name : string)
    (args : list Fr) : M W (option (list Fr)) :=
  let! main := mlift (load_main artifact function_name args) in
  let '(function, program, main_circuit, acvm) := main in
  let! r := miter fuel (utility_step (error_types function) function_name)
              {| us_acvm := acvm; last_fc := "" |} in
  let?! s := mok (mjoin r) in
  mok (Some (witness_map_to_frs (acvm_finalize (us_acvm s)) (circuit_return_values main_circuit))).
End execute.
End convert.
