(* ===== verification/ExecutorSpec.v ===== *)
(** Reasoning about computations by the states before and after them and by the fuel they
    use, and its application to the loops of AcvmExecutor.v: what an oracle preserves a
    circuit preserves, more fuel does not change a result, and a circuit that makes
    progress ends. *)

From Stdlib Require Import Ascii String.
From S2P Require Import Prelude Bytes Ordered Deps Concrete Types AbiTypes Kv Simulated AcvmExecutor.

(** ** The states before and after *)

Section within.
Context {St : Type} (R : St → St → Prop) `{!PreOrder R}.

(** Whatever the outcome of [m]. *)
Definition within {A : Type} (m : M St A) : Prop := ∀ s, R s (m s).1.

Lemma within_ok {A : Type} (a : A) : within (mok a).
Proof. intros s. reflexivity. Qed.

Lemma within_lift {A : Type} (r : Outcome A) : within (mlift r).
Proof. intros s. reflexivity. Qed.

Lemma within_then {A B : Type} (m : M St A) (f : A → M St B) :
  within m → (∀ a, within (f a)) → within (mthen m f).
Proof.
  intros Hm Hf s. unfold mthen. specialize (Hm s). destruct (m s) as [s' [a|e|]]; simpl in *; [|done..].
  etransitivity; [exact Hm|apply Hf].
Qed.

Lemma within_then_opt {A B : Type} (m : M St (option A)) (f : A → M St (option B)) :
  within m → (∀ a, within (f a)) → within (mthen_opt m f).
Proof. intros Hm Hf. apply within_then; [done|]. intros [a|]; [apply Hf|apply within_ok]. Qed.

Lemma within_for_each {A : Type} (f : A → M St ()) (l : list A) :
  (∀ x, within (f x)) → within (for_each f l).
Proof.
  intros Hf. induction l as [|x l IH]; simpl; [apply within_ok|].
  apply within_then; [apply Hf|]. intros []. apply IH.
Qed.

Lemma within_for_fold {A B : Type} (f : B → A → M St B) (b : B) (l : list A) :
  (∀ b x, within (f b x)) → within (for_fold f b l).
Proof.
  intros Hf. revert b. induction l as [|x l IH]; intros b; simpl; [apply within_ok|].
  apply within_then; [apply Hf|]. intros b'. apply IH.
Qed.

Lemma within_miter {S A : Type} (fuel : nat) (step : S → M St (S + A)) :
  (∀ s, within (step s)) → ∀ s, within (miter fuel step s).
Proof.
  intros Hs. induction fuel as [|n IH]; intros s; simpl; [apply within_ok|].
  apply within_then; [apply Hs|]. intros [s'|a]; [apply IH|apply within_ok].
Qed.
End within.

(** A computation that answers took every step. *)
Lemma mthen_ok {S A B : Type} (m : M S A) (f : A → M S B) s s' b :
  mthen m f s = (s', Ok b) → ∃ s1 a, m s = (s1, Ok a) ∧ f a s1 = (s', Ok b).
Proof. unfold mthen. destruct (m s) as [s1 [a|e|]]; intros E; [eauto|done..]. Qed.

Lemma in_fst_ok {S T A : Type} (m : M S A) s (t : T) s' t' a :
  in_fst m (s, t) = ((s', t'), Ok a) → t' = t ∧ m s = (s', Ok a).
Proof. unfold in_fst. simpl. destruct (m s). intros E. by simplify_eq. Qed.

Lemma mthen_opt_ok {S A B : Type} (m : M S (option A)) (f : A → M S (option B)) s s' b :
  mthen_opt m f s = (s', Ok (Some b)) → ∃ s1 a, m s = (s1, Ok (Some a)) ∧ f a s1 = (s', Ok (Some b)).
Proof. intros (s1 & [a|] & Hm & Hf)%mthen_ok; [by exists s1, a|discriminate Hf]. Qed.

Lemma mlift_ok {S A : Type} (r : Outcome A) (s s' : S) a : mlift r s = (s', Ok a) → s' = s ∧ r = Ok a.
Proof. by intros [= -> ->]. Qed.

Lemma in_fst_done {S T A : Type} (m : M S A) (s s' : S * T) a :
  in_fst m s = (s', Ok a) → s'.2 = s.2 ∧ m s.1 = (s'.1, Ok a).
Proof. unfold in_fst. destruct s as [w t]. simpl. destruct (m w). intros E. by simplify_eq. Qed.

(** Every step of a computation that answered. *)
Ltac run_ok :=
  repeat match goal with
  | H : mthen_opt _ _ _ = (_, Ok (Some _)) |- _ => apply mthen_opt_ok in H as (? & ? & ? & H)
  | H : mthen _ _ _ = (_, Ok _) |- _ => apply mthen_ok in H as (? & ? & ? & H)
  | H : mlift _ _ = (_, Ok _) |- _ => apply mlift_ok in H as [? H]
  | H : mok _ _ = (_, Ok _) |- _ => apply mlift_ok in H as [? H]
  end.

(** ** Fuel *)

Lemma within_for_each_opt {S A : Type} (R : S → S → Prop) `{!PreOrder R} (f : A → M S (option ())) l :
  (∀ x, within R (f x)) → within R (for_each_opt f l).
Proof.
  intros Hf. induction l as [|x l IH]; simpl; [by apply within_ok|]. apply within_then_opt; [done..|].
  by intros _.
Qed.

Section more.
Context {St : Type}.

(** [m'] answers what [m] answers, unless [m] ran out of fuel. *)
Definition more {A : Type} (m m' : M St (option A)) : Prop :=
  ∀ s, (m s).2 ≠ Ok None → m' s = m s.

Lemma more_refl {A : Type} (m : M St (option A)) : more m m.
Proof. by intros s. Qed.

Lemma more_none {A : Type} (m : M St (option A)) : more (mok None) m.
Proof. by intros s. Qed.

Lemma more_then {A B : Type} (m : M St A) (f f' : A → M St (option B)) :
  (∀ a, more (f a) (f' a)) → more (mthen m f) (mthen m f').
Proof. intros Hf s. unfold mthen. destruct (m s) as [s' [a|e|]]; [apply Hf|done..]. Qed.

Lemma more_then_opt {A B : Type} (m m' : M St (option A)) (f f' : A → M St (option B)) :
  more m m' → (∀ a, more (f a) (f' a)) → more (mthen_opt m f) (mthen_opt m' f').
Proof.
  intros Hm Hf s. unfold mthen_opt, mthen. specialize (Hm s).
  destruct (m s) as [s' [[a|]|e|]]; simpl in *; intros Hn;
    [rewrite Hm by done; by apply Hf|done|by rewrite Hm..].
Qed.

(** The steps of a loop: [inr None] is a step that ran out of fuel. *)
Definition more_step {S A : Type} (m m' : M St (S + option A)) : Prop :=
  ∀ s, (m s).2 ≠ Ok (inr None) → m' s = m s.

Lemma more_miter {S A : Type} (n n' : nat) (step step' : S → M St (S + option A)) :
  (∀ s, more_step (step s) (step' s)) → (n ≤ n')%nat →
  ∀ s, more (let! r := miter n step s in mok (mjoin r)) (let! r := miter n' step' s in mok (mjoin r)).
Proof.
  intros Hs. revert n'. induction n as [|n IH]; intros n' Hn s w.
  { done. }
  destruct n' as [|n']; [lia|]. specialize (IH n' ltac:(lia)). simpl. unfold mthen in *.
  specialize (Hs s w). destruct (step s w) as [w' [[s'|[a|]]|e|]]; simpl in *; intros Hr;
    [rewrite Hs by done; simpl; by apply IH|by rewrite Hs|done|by rewrite Hs..].
Qed.

(** [m] does not run out of fuel. *)
Definition ends {A : Type} (m : M St (option A)) : Prop := ∀ s, (m s).2 ≠ Ok None.

Lemma ends_then_opt {A B : Type} (m : M St (option A)) (f : A → M St (option B)) :
  ends m → (∀ a, ends (f a)) → ends (mthen_opt m f).
Proof.
  intros Hm Hf s. unfold mthen_opt, mthen. specialize (Hm s).
  destruct (m s) as [s' [[a|]|e|]]; simpl in *; [apply Hf|done..].
Qed.

Lemma ends_then {A B : Type} (m : M St A) (f : A → M St (option B)) :
  (∀ a, ends (f a)) → ends (mthen m f).
Proof. intros Hf s. unfold mthen. destruct (m s) as [s' [a|e|]]; simpl in *; [apply Hf|done..]. Qed.

(** A loop whose steps lower a rank ends. *)
Lemma ends_miter {S : Type} (good : S → Prop) (rank : S → nat) (step : S → M St (S + option S)) :
  (∀ s w, good s → match (step s w).2 with
                   | Ok (inl s') => good s' ∧ (rank s' < rank s)%nat
                   | Ok (inr None) => False
                   | _ => True
                   end) →
  ∀ n s, good s → (rank s < n)%nat → ends (let! r := miter n step s in mok (mjoin r)).
Proof.
  intros Hs. induction n as [|n IH]; intros s Hg Hn w; [lia|]. simpl. unfold mthen in *.
  specialize (Hs s w Hg). destruct (step s w) as [w' [[s'|[a|]]|e|]]; simpl in *; [|done..].
  destruct Hs. apply IH; [done|lia].
Qed.
End more.

(** ** Running a circuit *)

Section execution.
Context {FR : PrimeField fr_modulus} {HX : HexCrate} {AC : AcirCrate}.
Context {JS : JsonCrate} {JT : JsonText} {B64 : Base64Crate} {AV : AcvmCrate} {W : Type}.
Implicit Types (oracle : OracleCallback (W := W)) (types : option json_value).

(** What the answers of the oracle preserve, a circuit preserves. *)
Section preserves.
Context (R : W → W → Prop) `{!PreOrder R} (oracle : OracleCallback (W := W)).
Hypothesis oracle_within : ∀ function inputs, within R (oracle function inputs).

Lemma answer_within m function inputs : within R (answer_foreign_call oracle m function inputs).
Proof. apply within_then_opt; [done..|]. intros r. by apply within_ok. Qed.

Lemma sub_step_within types m : within R (sub_step oracle types m).
Proof.
  unfold sub_step. destruct (acvm_solve m) as [m' [| |err|f i|id w]];
    try (by apply within_ok || by apply within_lift).
  apply within_then; [done|apply answer_within|]. intros [a|]; by apply within_ok.
Qed.

Lemma private_step_within n program types function_name s :
  within R (private_step oracle n program types function_name s).
Proof.
  unfold private_step. destruct (acvm_solve (ss_acvm s)) as [m' [| |err|f i|id w]];
    try (by apply within_ok || by apply within_lift).
  - apply within_then; [done|apply answer_within|]. intros [a|]; by apply within_ok.
  - apply within_then; [done| |intros [a|]; by apply within_ok].
    unfold acir_call. destruct (_ !! _) as [c|]; [|by apply within_lift].
    apply within_then_opt; [done| |intros a; by apply within_ok].
    apply within_then; [done| |intros a; by apply within_ok].
    apply within_miter; [done|]. apply sub_step_within.
Qed.

Lemma execute_private_within n artifact function_name fields :
  within R (execute_private oracle n artifact function_name fields).
Proof.
  apply within_then; [done|by apply within_lift|]. intros [[[function program] main] m].
  apply within_then; [done| |intros r].
  { apply within_miter; [done|]. apply private_step_within. }
  apply within_then_opt; [done|by apply within_ok|]. intros s. by apply within_ok.
Qed.
End preserves.

(** With more fuel, in the oracle too, an execution answers the same. *)
Section fuel.
Context (oracle oracle' : OracleCallback (W := W)) (n n' : nat).
Hypothesis oracle_more : ∀ function inputs, more (oracle function inputs) (oracle' function inputs).
Hypothesis fuel_le : (n ≤ n')%nat.

Lemma answer_more m function inputs :
  more (answer_foreign_call oracle m function inputs) (answer_foreign_call oracle' m function inputs).
Proof. apply more_then_opt; [done|]. intros r. apply more_refl. Qed.

(** A step that passes on what a computation answers. *)
Lemma more_step_option {A S B : Type} (m m' : M W (option A)) (k : A → S) :
  more m m' →
  more_step (let! r := m in mok (match r with Some a => inl (k a) | None => inr (@None B) end))
            (let! r := m' in mok (match r with Some a => inl (k a) | None => inr None end)).
Proof.
  intros Hm s. specialize (Hm s). unfold mthen.
  destruct (m s) as [s' [[a|]|e|]]; simpl in *; intros Hr; [by rewrite Hm|done|by rewrite Hm..].
Qed.

Lemma sub_step_more types m : more_step (sub_step oracle types m) (sub_step oracle' types m).
Proof.
  unfold sub_step. destruct (acvm_solve m) as [m' [| |err|f i|id w]]; try done.
  apply (more_step_option _ _ (λ m, m)), answer_more.
Qed.

Lemma acir_call_more program types s id w :
  more (acir_call oracle n program types s id w) (acir_call oracle' n' program types s id w).
Proof.
  unfold acir_call. destruct (_ !! _) as [c|]; [|apply more_refl].
  apply more_then_opt; [|intros r; apply more_refl].
  apply more_miter; [apply sub_step_more|done].
Qed.

Lemma private_step_more program types function_name s :
  more_step (private_step oracle n program types function_name s)
            (private_step oracle' n' program types function_name s).
Proof.
  unfold private_step. destruct (acvm_solve (ss_acvm s)) as [m' [| |err|f i|id w]]; try done.
  - apply (more_step_option _ _ (λ m, {| ss_acvm := m; last_private_fc := f; ss_first := _ |})), answer_more.
  - apply (more_step_option _ _ (λ s, s)), acir_call_more.
Qed.

Lemma execute_private_more artifact function_name fields :
  more (execute_private oracle n artifact function_name fields)
       (execute_private oracle' n' artifact function_name fields).
Proof.
  apply more_then. intros [[[function program] main] m]. intros s Hs.
  pose proof (more_miter n n' _ _ (private_step_more program (error_types function) function_name)
    fuel_le {| ss_acvm := m; last_private_fc := ""; ss_first := [] |} s) as Hm.
  revert Hm Hs. unfold mthen_opt, mthen.
  destruct (miter n _ _ s) as [w [[[r|]|]|e|]]; simpl; intros Hm Hs;
    destruct (miter n' _ _ s) as [w' [[[r'|]|]|e'|]]; simpl in *; try done;
    specialize (Hm ltac:(done)); by simplify_eq.
Qed.
End fuel.

(** *** Circuits that make progress *)

(** A machine of a circuit that makes progress, with the requests it can make: every round
    of it lowers a rank, whatever it is answered.  A program whose circuits do not loop
    around a foreign call for ever is such. *)
Record progress (good : ACVM → Prop) (rank : ACVM → nat) (bound : nat) (program : Program)
    (asks : string → list (list Fr) → Prop) : Prop := {
  pr_new circuit w : circuit ∈ program_functions program →
    good (acvm_new program circuit w) ∧ (rank (acvm_new program circuit w) < bound)%nat;
  pr_round m m' : good m → acvm_solve m = (m', InProgress) → good m' ∧ (rank m' < rank m)%nat;
  pr_call m m' function inputs : good m →
    acvm_solve m = (m', RequiresForeignCall function inputs) →
    asks function (convert_fc_inputs inputs) ∧
    ∀ r, good (resolve_pending_foreign_call m' r) ∧
         (rank (resolve_pending_foreign_call m' r) < rank m)%nat;
  pr_acir m m' id w : good m → acvm_solve m = (m', RequiresAcirCall id w) →
    ∀ r, good (resolve_pending_acir_call m' r) ∧
         (rank (resolve_pending_acir_call m' r) < rank m)%nat;
}.

Section progress.
Context (good : ACVM → Prop) (rank : ACVM → nat) (bound n : nat) (program : Program).
Context (asks : string → list (list Fr) → Prop) (oracle : OracleCallback (W := W)).
Hypothesis Hp : progress good rank bound program asks.
Hypothesis oracle_ends : ∀ function inputs, asks function inputs → ends (oracle function inputs).
Hypothesis Hn : (bound ≤ n)%nat.

Lemma answer_ends m function inputs :
  asks function (convert_fc_inputs inputs) → ends (answer_foreign_call oracle m function inputs).
Proof. intros Ha. apply ends_then_opt; [by apply oracle_ends|]. by intros r s. Qed.

(** One round of a machine: it stops, or goes on with a lower rank. *)
Definition lowers {S : Type} (acvm : S → ACVM) (s : S) (r : Outcome (S + option S)) : Prop :=
  match r with
  | Ok (inl s') => good (acvm s') ∧ (rank (acvm s') < rank (acvm s))%nat
  | Ok (inr None) => False
  | _ => True
  end.

Lemma sub_step_lowers types m w : good m → lowers (λ m, m) m (sub_step oracle types m w).2.
Proof.
  intros Hg. unfold sub_step. destruct (acvm_solve m) as [m' [| |err|f i|id w0]] eqn:E; try done.
  - by apply (pr_round _ _ _ _ _ Hp).
  - destruct (pr_call _ _ _ _ _ Hp _ _ _ _ Hg E) as [Ha Hr].
    pose proof (answer_ends m' f i Ha w) as He. unfold answer_foreign_call, mthen_opt, mthen in *.
    destruct (oracle f _ w) as [w' [[r|]|e|]]; simpl in *; [apply Hr|done..].
Qed.

Lemma sub_ends types circuit w : circuit ∈ program_functions program →
  ends (run_sub_circuit oracle n types (acvm_new program circuit w)).
Proof.
  intros Hc. destruct (pr_new _ _ _ _ _ Hp circuit w Hc) as [Hg Hr].
  apply (ends_miter good rank); [|done|lia].
  intros m s Hm. apply (sub_step_lowers types m s Hm).
Qed.

Lemma private_step_lowers types function_name s w : good (ss_acvm s) →
  lowers ss_acvm s (private_step oracle n program types function_name s w).2.
Proof.
  intros Hg. unfold private_step.
  destruct (acvm_solve (ss_acvm s)) as [m' [| |err|f i|id w0]] eqn:E; try done.
  - by apply (pr_round _ _ _ _ _ Hp).
  - destruct (pr_call _ _ _ _ _ Hp _ _ _ _ Hg E) as [Ha Hr].
    pose proof (answer_ends m' f i Ha w) as He. unfold answer_foreign_call, mthen_opt, mthen in *.
    destruct (oracle f _ w) as [w' [[r|]|e|]]; simpl in *; [apply Hr|done..].
  - pose proof (pr_acir _ _ _ _ _ Hp _ _ _ _ Hg E) as Hr. unfold acir_call.
    destruct (_ !! _) as [c|] eqn:Ec; [|done]. apply list_elem_of_lookup_2 in Ec.
    pose proof (sub_ends types c w0 Ec w) as He. unfold mthen_opt, mthen in *.
    destruct (run_sub_circuit _ _ _ _ w) as [w' [[r|]|e|]]; simpl in *; [apply Hr|done..].
Qed.
End progress.

Lemma execute_private_ends good rank bound n artifact function_name fields asks
    (oracle : OracleCallback (W := W)) :
  (∀ function program main m, load_main artifact function_name fields = Ok (function, program, main, m) →
     progress good rank bound program asks) →
  (∀ function inputs, asks function inputs → ends (oracle function inputs)) → (bound ≤ n)%nat →
  ends (execute_private oracle n artifact function_name fields).
Proof.
  intros Hp Ho Hn s. unfold execute_private.
  destruct (load_main artifact function_name fields) as [[[[function program] main] m]|e|] eqn:E; try done.
  specialize (Hp _ _ _ _ eq_refl). unfold mthen at 1, mlift.
  enough (good m ∧ (rank m < n)%nat) as [Hg Hr].
  { pose proof (ends_miter (λ s, good (ss_acvm s)) (λ s, rank (ss_acvm s))
      (private_step oracle n program (error_types function) function_name)
      (λ s w, private_step_lowers _ _ _ _ _ _ _ Hp Ho Hn _ _ s w)
      n {| ss_acvm := m; last_private_fc := ""; ss_first := [] |} Hg Hr s) as He.
    revert He. unfold mthen_opt, mthen. destruct (miter _ _ _ s) as [w [[[r|]|]|e|]]; done. }
  unfold load_main in E. repeat (apply obind_ok in E as (? & ? & E)). simplify_eq.
  match goal with H : ok_or (head _) _ = Ok _ |- _ => unfold ok_or in H; destruct (head _) eqn:Eh in H end;
    [|done]. simplify_eq.
  destruct (pr_new _ _ _ _ _ Hp main (build_initial_witness fields)); [|split; [done|lia]].
  destruct (program_functions program); simplify_eq. set_solver.
Qed.
End execution.
