(* ===== verification/Indexes.v ===== *)
(** Indexed tables: what the note store and the private event store share.  A table
    of values under identifiers, an index of the identifiers by a key of the value
    and one by block number, and the loop that deletes what lies above a block. *)

From Stdlib Require Import Ascii String.
From S2P Require Import Prelude Bytes Ordered Deps Concrete Types Kv NoteStore.

Notation view := (gmap (list byte) (list byte)) (only parsing).

(** ** Index maps *)

Section index_maps.
Context {FR : PrimeField fr_modulus}.
Implicit Types (n : Fr) (b : Z).

(** An index maps a key to the nullifiers listed under it. *)
Definition indexed {K} `{Countable K} (m : gmap K (list Fr)) (k : K) (n : Fr) : Prop :=
  n ∈ default [] (m !! k).

Definition idx_add {K} `{Countable K} (k : K) (n : Fr) (m : gmap K (list Fr)) : gmap K (list Fr) :=
  if decide (n ∈ default [] (m !! k)) then m else <[k := default [] (m !! k) ++ [n]]> m.

Definition idx_remove {K} `{Countable K} (k : K) (n : Fr) (m : gmap K (list Fr))
    : gmap K (list Fr) :=
  match m !! k with
  | None => m
  | Some l => let l' := filter (λ x, x ≠ n) l in
              if decide (l' = []) then delete k m else <[k := l']> m
  end.

Lemma indexed_add {K} `{Countable K} (k k' : K) n n' m :
  indexed (idx_add k n m) k' n' ↔ indexed m k' n' ∨ (k' = k ∧ n' = n).
Proof.
  unfold indexed, idx_add. case_decide as Hn.
  - split; [tauto|]. intros [?|[-> ->]]; done.
  - destruct (decide (k' = k)) as [->|Hk].
    + rewrite lookup_insert_eq. simpl. rewrite elem_of_app, list_elem_of_singleton. naive_solver.
    + rewrite lookup_insert_ne by done. naive_solver.
Qed.

Lemma indexed_remove {K} `{Countable K} (k k' : K) n n' m :
  indexed (idx_remove k n m) k' n' ↔ indexed m k' n' ∧ ¬ (k' = k ∧ n' = n).
Proof.
  unfold indexed, idx_remove. destruct (m !! k) as [l|] eqn:E.
  - destruct (decide (k' = k)) as [->|Hk].
    + rewrite E. cbn zeta. case_decide as Hl.
      * rewrite lookup_delete_eq. simpl.
        assert (n' ∉ filter (λ x, x ≠ n) l) as Hf by (rewrite Hl; set_solver).
        rewrite list_elem_of_filter in Hf. set_solver.
      * rewrite lookup_insert_eq. simpl. rewrite list_elem_of_filter. naive_solver.
    + cbn zeta. case_decide; [rewrite lookup_delete_ne by done|rewrite lookup_insert_ne by done];
        naive_solver.
  - split; [|tauto]. intros Hin. split; [done|]. intros [-> ->]. rewrite E in Hin. set_solver.
Qed.

Lemma idx_add_nodup {K} `{Countable K} (k : K) n m :
  map_Forall (λ _ l, NoDup l) m → map_Forall (λ _ l, NoDup l) (idx_add k n m).
Proof.
  intros Hm. unfold idx_add. case_decide as Hn; [done|]. apply map_Forall_insert_2; [|done].
  destruct (m !! k) as [l|] eqn:E; simpl in *; [|apply NoDup_singleton].
  apply NoDup_app. split_and!; [by apply (Hm k)|set_solver|apply NoDup_singleton].
Qed.

Lemma idx_remove_nodup {K} `{Countable K} (k : K) n m :
  map_Forall (λ _ l, NoDup l) m → map_Forall (λ _ l, NoDup l) (idx_remove k n m).
Proof.
  intros Hm. unfold idx_remove. destruct (m !! k) as [l|] eqn:E; [|done]. cbn zeta.
  case_decide; [by apply map_Forall_delete|]. apply map_Forall_insert_2; [|done].
  apply NoDup_filter. by apply (Hm k).
Qed.

Definition entries_of {K} `{Countable K} (m : gmap K (list Fr)) (es : list (K * list Fr)) : Prop :=
  ∀ k l, (k, l) ∈ es ↔ m !! k = Some l.

(** An entry above the block lists the nullifier. *)
Definition listed_after (b : Z) (es : list (Z * list Fr)) (n : Fr) : Prop :=
  Exists (λ e, b < e.1 ∧ n ∈ e.2) es.
#[global] Instance listed_after_dec b es n : Decision (listed_after b es n).
Proof. unfold listed_after. apply _. Qed.

Lemma listed_after_indexed b m es n :
  entries_of m es → listed_after b es n ↔ ∃ c, b < c ∧ indexed m c n.
Proof.
  intros He. unfold listed_after. rewrite Exists_exists. unfold indexed. split.
  - intros ([c l] & Hin & Hc & Hn). apply He in Hin. exists c. by rewrite Hin.
  - intros (c & Hc & Hn). destruct (m !! c) as [l|] eqn:E; [|set_solver].
    apply He in E. by exists (c, l).
Qed.
End index_maps.

(** ** Deleting what lies above a block *)

Section indexed_table.
Context {FR : PrimeField fr_modulus} {V K1 : Type} `{Countable K1}.
Context (key1 : V → K1) (block_of : V → option Z).
Implicit Types (n : Fr) (b : Z) (x : V).

Record Table := {
  t_vals : gmap Fr V;
  t_idx : gmap K1 (list Fr);
  t_block : gmap Z (list Fr);
}.
Implicit Types (d : Table).

Definition t_delete d n : Table :=
  {| t_vals := delete n (t_vals d);
     t_idx := match t_vals d !! n with Some x => idx_remove (key1 x) n (t_idx d) | None => t_idx d end;
     t_block := t_block d |}.

Definition t_drop_block (k : Z) d : Table :=
  {| t_vals := t_vals d; t_idx := t_idx d; t_block := delete k (t_block d) |}.

Definition t_phase b d (e : Z * list Fr) : Table :=
  if b <? e.1 then t_drop_block e.1 (foldl t_delete d e.2) else d.

(** The indexes list exactly the values they should. *)
Record table_inv d : Prop := {
  tinv_idx : ∀ c n, indexed (t_idx d) c n ↔ ∃ x, t_vals d !! n = Some x ∧ key1 x = c;
  tinv_block : ∀ b n, indexed (t_block d) b n ↔ ∃ x, t_vals d !! n = Some x ∧ block_of x = Some b;
  tinv_nodup : map_Forall (λ _ l, NoDup l) (t_idx d);
}.

Definition kept b x : option V :=
  match block_of x with Some c => if b <? c then None else Some x | None => Some x end.

Lemma kept_Some b x y :
  kept b x = Some y ↔ x = y ∧ match block_of y with Some c => c ≤ b | None => True end.
Proof.
  unfold kept. split.
  - destruct (block_of x) as [c|] eqn:E; [|intros [= <-]; by rewrite E].
    destruct (Z.ltb_spec b c); [done|]. intros [= <-]. by rewrite E.
  - intros [-> Hc]. destruct (block_of y) as [c|]; [|done]. by destruct (Z.ltb_spec b c); [lia|].
Qed.

Lemma fold_delete ns d :
  let d' := foldl t_delete d ns in
  (∀ n, t_vals d' !! n = if decide (n ∈ ns) then None else t_vals d !! n) ∧
  (∀ c n, indexed (t_idx d') c n ↔ indexed (t_idx d) c n ∧
     ¬ (n ∈ ns ∧ ∃ note, t_vals d !! n = Some note ∧ key1 note = c)) ∧
  (map_Forall (λ _ l, NoDup l) (t_idx d) → map_Forall (λ _ l, NoDup l) (t_idx d')) ∧
  t_block d' = t_block d.
Proof.
  revert d. induction ns as [|x ns IH]; intros d; cbn [foldl].
  { split_and!; [done| |done..]. intros c n. set_solver. }
  destruct (IH (t_delete d x)) as (IHn & IHc & IHd & ->).
  assert (t_vals (t_delete d x) = delete x (t_vals d)) as En by done.
  split_and!.
  - intros n. rewrite IHn, En. destruct (decide (n = x)) as [->|Hne].
    + rewrite lookup_delete_eq. rewrite (decide_True (P := x ∈ x :: ns)) by set_solver.
      by case_decide.
    + rewrite lookup_delete_ne by done. repeat case_decide; set_solver.
  - intros c n. rewrite IHc, En.
    assert (indexed (t_idx (t_delete d x)) c n ↔ indexed (t_idx d) c n ∧
      ¬ (n = x ∧ ∃ note, t_vals d !! n = Some note ∧ key1 note = c)) as ->.
    { unfold t_delete. destruct (t_vals d !! x) as [note|] eqn:E; simpl.
      - rewrite indexed_remove. split; intros [H1 H2]; (split; [done|]); intros [-> Hex]; apply H2.
        + destruct Hex as (y & Hy & <-). split; [congruence|done].
        + subst. split; [done|]. by exists note.
      - split; [|tauto]. intros H1. split; [done|]. intros [-> (y & Hy & _)]. congruence. }
    rewrite elem_of_cons. destruct (decide (n = x)) as [->|Hne].
    + rewrite lookup_delete_eq. split; [|intros [? ?]; split; [split; [done|]|]].
      * intros [[? Hx] _]. split; [done|]. intros [_ ?]. by apply Hx.
      * intros [_ ?]. naive_solver.
      * intros (_ & ? & ? & _). done.
    + rewrite lookup_delete_ne by done. naive_solver.
  - intros Hd. apply IHd. unfold t_delete. destruct (t_vals d !! x); simpl; [|done].
    by apply idx_remove_nodup.
  - done.
Qed.

Lemma fold_phase b es d :
  let d' := foldl (t_phase b) d es in
  (∀ n, t_vals d' !! n = if decide (listed_after b es n) then None else t_vals d !! n) ∧
  (∀ c n, indexed (t_idx d') c n ↔ indexed (t_idx d) c n ∧
     ¬ (listed_after b es n ∧
        ∃ note, t_vals d !! n = Some note ∧ key1 note = c)) ∧
  (map_Forall (λ _ l, NoDup l) (t_idx d) → map_Forall (λ _ l, NoDup l) (t_idx d')) ∧
  (∀ k, t_block d' !! k = if decide (b < k ∧ k ∈ es.*1) then None else t_block d !! k).
Proof.
  revert d. induction es as [|[k0 ns] es IH]; intros d; cbn [foldl].
  { assert (∀ n, ¬ listed_after b [] n) as Hno
      by (intros n; unfold listed_after; rewrite Exists_nil; tauto).
    split_and!; [|naive_solver|done|].
    - intros n. by rewrite decide_False.
    - intros k. by rewrite decide_False by set_solver. }
  assert (∀ n, listed_after b ((k0, ns) :: es) n ↔ (b < k0 ∧ n ∈ ns) ∨ listed_after b es n) as HL.
  { intros n. unfold listed_after. by rewrite Exists_cons. }
  destruct (IH (t_phase b d (k0, ns))) as (IHn & IHc & IHd & IHk).
  assert (t_phase b d (k0, ns) =
    if b <? k0 then t_drop_block k0 (foldl t_delete d ns) else d) as E by done.
  rewrite E in *. clear E. destruct (Z.ltb_spec b k0) as [Hlt|Hge].
  - destruct (fold_delete ns d) as (Hn & Hc & Hd & Hb).
    unfold t_drop_block in *. cbn [t_vals t_idx t_block] in *.
    split_and!; [| |by auto|].
    + intros n. rewrite IHn, Hn. specialize (HL n). clear - HL Hlt. repeat case_decide; naive_solver.
    + intros c n. rewrite IHc, Hc, Hn, HL. destruct (decide (n ∈ ns)) as [Hin|Hin].
      * split; [|naive_solver]. intros [[? ?] _]. naive_solver.
      * naive_solver.
    + intros k. rewrite IHk, Hb, fmap_cons. clear - Hlt. destruct (decide (k = k0)) as [->|Hne].
      * rewrite lookup_delete_eq. repeat case_decide; try done; exfalso; set_solver.
      * rewrite lookup_delete_ne by done. repeat case_decide; try done; exfalso; set_solver.
  - split_and!; [| |by auto|].
    + intros n. rewrite IHn. specialize (HL n). clear - HL Hge. repeat case_decide; naive_solver lia.
    + intros c n. rewrite IHc, HL. naive_solver lia.
    + intros k. rewrite IHk, fmap_cons. clear - Hge. repeat case_decide; try done; exfalso; [set_solver|].
      assert (k ≠ k0) by lia. set_solver.
Qed.

(** A value above the block is gone, the others stay, and the indexes still agree. *)
Lemma table_rollback b d es :
  table_inv d → entries_of (t_block d) es →
  let d' := foldl (t_phase b) d es in
  table_inv d' ∧ (∀ n, t_vals d' !! n = t_vals d !! n ≫= kept b).
Proof.
  intros [I1 I2 I3] He d'. destruct (fold_phase b es d) as (Hn & Hc & Hnd & Hb).
  fold d' in Hn, Hc, Hnd, Hb.
  assert (∀ n, listed_after b es n ↔ ∃ x c, t_vals d !! n = Some x ∧ block_of x = Some c ∧ b < c) as HL.
  { intros n. rewrite (listed_after_indexed b _ _ n He). setoid_rewrite I2. naive_solver. }
  assert (∀ n, t_vals d' !! n = t_vals d !! n ≫= kept b) as Hn'.
  { intros n. rewrite Hn. specialize (HL n). destruct (t_vals d !! n) as [x|]; simpl; [|by case_decide].
    unfold kept. destruct (block_of x) as [c|] eqn:Ec.
    - destruct (Z.ltb_spec b c) as [Hlt|Hge].
      + rewrite decide_True; [done|]. apply HL. by exists x, c.
      + rewrite decide_False; [done|]. rewrite HL. intros (y & k & [= <-] & ? & ?). simplify_eq. lia.
    - rewrite decide_False; [done|]. rewrite HL. intros (y & k & [= <-] & ? & _). congruence. }
  split; [|done].
  assert (∀ n y, t_vals d' !! n = Some y ↔ t_vals d !! n = Some y ∧
    match block_of y with Some c => c ≤ b | None => True end) as Hs.
  { intros n y. rewrite Hn'. destruct (t_vals d !! n) as [x|]; simpl; [|naive_solver].
    rewrite kept_Some. naive_solver. }
  constructor.
  - intros c n. rewrite Hc, I1, HL. setoid_rewrite Hs. split.
    + intros [(x & Hx & Hc') Hno]. exists x. split_and!; [done| |done].
      destruct (block_of x) as [k|] eqn:Ek; [|done].
      destruct (decide (k ≤ b)); [done|]. destruct Hno. split; [|by exists x].
      exists x, k. split_and!; [done..|lia].
    + intros (x & [Hx Hle] & Hc'). split; [by exists x|].
      intros [(y & k & Hy & Hk & Hlt) _]. assert (y = x) as -> by congruence.
      rewrite Hk in Hle. lia.
  - intros c n. unfold indexed. rewrite Hb.
    assert ((if decide (b < c ∧ c ∈ es.*1) then None else t_block d !! c) =
            (if decide (b < c) then None else t_block d !! c)) as ->.
    { destruct (decide (b < c)) as [Hlt|Hge]; [|by rewrite decide_False by tauto].
      case_decide as Hm; [done|]. destruct (t_block d !! c) as [l|] eqn:E; [|done].
      apply He in E. destruct Hm. split; [done|]. by apply (list_elem_of_fmap_2 fst) in E. }
    destruct (decide (b < c)) as [Hlt|Hge].
    + simpl. split; [set_solver|]. intros (x & [_ Hle]%Hs & HN). rewrite HN in Hle. lia.
    + change (indexed (t_block d) c n ↔ ∃ x, t_vals d' !! n = Some x ∧ block_of x = Some c).
      rewrite I2. setoid_rewrite Hs.
      split; [|naive_solver]. intros (x & Hx & HN). exists x. rewrite HN. split_and!; [done|lia|done].
  - by apply Hnd.
Qed.
(** A value under a new identifier, filed in both indexes. *)
Definition t_insert n x d : Table :=
  {| t_vals := <[n := x]> (t_vals d);
     t_idx := idx_add (key1 x) n (t_idx d);
     t_block := match block_of x with Some b => idx_add b n (t_block d) | None => t_block d end |}.

Definition t_update n x d : Table :=
  {| t_vals := <[n := x]> (t_vals d); t_idx := t_idx d; t_block := t_block d |}.

Lemma table_inv_insert n x d :
  table_inv d → t_vals d !! n = None → table_inv (t_insert n x d).
Proof.
  intros [I1 I2 I3] Hn.
  assert (∀ (P : V → Prop) m, (∃ y, <[n:=x]> (t_vals d) !! m = Some y ∧ P y) ↔
    (∃ y, t_vals d !! m = Some y ∧ P y) ∨ (m = n ∧ P x)) as HP.
  { intros P m. destruct (decide (m = n)) as [->|Hm].
    - rewrite lookup_insert_eq, Hn. naive_solver.
    - rewrite lookup_insert_ne by done. naive_solver. }
  constructor; simpl.
  - intros c m. rewrite indexed_add, I1, HP. naive_solver.
  - intros b m. rewrite HP. destruct (block_of x) as [b'|]; [rewrite indexed_add|]; rewrite I2; naive_solver.
  - by apply idx_add_nodup.
Qed.

(** A change of a value that keeps what the indexes record. *)
Lemma table_inv_update n x y d :
  table_inv d → t_vals d !! n = Some x → key1 y = key1 x → block_of y = block_of x →
  table_inv (t_update n y d).
Proof.
  intros [I1 I2 I3] Hn E1 E2.
  assert (∀ (P : V → Prop) m, (P y ↔ P x) →
    ((∃ z, <[n:=y]> (t_vals d) !! m = Some z ∧ P z) ↔ (∃ z, t_vals d !! m = Some z ∧ P z))) as HP.
  { intros P m HP. destruct (decide (m = n)) as [->|Hm].
    - rewrite lookup_insert_eq, Hn. naive_solver.
    - by rewrite lookup_insert_ne. }
  constructor; simpl.
  - intros c m. rewrite I1. symmetry. apply HP. by rewrite E1.
  - intros b m. rewrite I2. symmetry. apply HP. by rewrite E2.
  - done.
Qed.

(** ** What an index lists *)

Lemma filter_values (p : V → bool) (l : list (Fr * V)) :
  List.filter p l.*2 = (List.filter (λ e, p e.2) l).*2.
Proof.
  induction l as [|e l IH]; [done|]. rewrite fmap_cons. cbn [List.filter]. rewrite IH.
  by destruct (p e.2).
Qed.

Lemma omap_lookup_keys (m : gmap Fr V) (es : list (Fr * V)) :
  (∀ n x, (n, x) ∈ es → m !! n = Some x) → omap (λ n, m !! n) es.*1 = es.*2.
Proof.
  induction es as [|[n x] es IH]; intros Hes; [done|]. cbn.
  rewrite (Hes n x) by set_solver. f_equal. apply IH. set_solver.
Qed.

(** The values an index names are all those with the key. *)
Lemma indexed_vals d c :
  table_inv d →
  omap (λ n, t_vals d !! n) (default [] (t_idx d !! c)) ≡ₚ
    List.filter (λ x, bool_decide (key1 x = c)) (map_to_list (t_vals d)).*2.
Proof.
  intros Hd. set (es := List.filter (λ e : Fr * V,
    bool_decide (key1 e.2 = c)) (map_to_list (t_vals d))).
  assert (∀ n x, (n, x) ∈ es ↔ t_vals d !! n = Some x ∧ key1 x = c) as Hes.
  { intros n x. unfold es. rewrite list_elem_of_In, filter_In, <- list_elem_of_In,
      elem_of_map_to_list, bool_decide_eq_true. done. }
  assert (NoDup es) as Hnd.
  { unfold es. apply NoDup_ListNoDup, List.NoDup_filter, NoDup_ListNoDup, NoDup_map_to_list. }
  assert (default [] (t_idx d !! c) ≡ₚ es.*1) as ->.
  { apply NoDup_Permutation.
    - destruct (t_idx d !! c) as [l|] eqn:E; [|apply NoDup_nil_2]. by apply (tinv_nodup d Hd c).
    - apply NoDup_fmap_2_strong; [|done]. intros [n x] [m y] [Hx _]%Hes [Hy _]%Hes. simpl.
      intros ->. congruence.
    - intros n. change (indexed (t_idx d) c n ↔ n ∈ es.*1).
      rewrite (tinv_idx d Hd), list_elem_of_fmap. split.
      + intros (x & ? & ?). exists (n, x). by rewrite Hes.
      + intros ([m x] & -> & Hin). exists x. by apply Hes. }
  rewrite omap_lookup_keys by (intros n x Hin; by apply Hes). by rewrite filter_values.
Qed.
End indexed_table.
Arguments Table {FR} V K1 {_ _}.

Section filters.
Context {A : Type}.
Implicit Types (p q : A → bool) (l k : list A).

Lemma filter_perm p l k : l ≡ₚ k → List.filter p l ≡ₚ List.filter p k.
Proof.
  induction 1 as [|x l k _ IH|x y l|l k m _ IH1 _ IH2]; simpl; [done| | |by etrans].
  - by destruct (p x); rewrite IH.
  - destruct (p x), (p y); try done. apply perm_swap.
Qed.

Lemma filter_and p q l : List.filter q (List.filter p l) = List.filter (λ x, p x && q x) l.
Proof. induction l as [|x l IH]; simpl; [done|]. destruct (p x); simpl; by rewrite IH. Qed.
End filters.

(** ** The lists of an index in the store *)

Section index_lists.
Context {FR : PrimeField fr_modulus} {HX : HexCrate}.
Implicit Types (n : Fr) (l : list Fr).

Lemma as_bytes_append_inj s t u : as_bytes (s +:+ t) = as_bytes (s +:+ u) → t = u.
Proof. rewrite !as_bytes_app. intros E%app_inv_head. by apply (inj as_bytes). Qed.

Definition strings (l : list Fr) : list string := Fr_to_string <$> l.

#[global] Instance strings_inj : Inj (=) (=) strings.
Proof. intros l k E. apply (list_fmap_eq_inj Fr_to_string) in E; [done|]. intros x y. apply Fr_to_string_inj. Qed.

Lemma strings_elem n l : Fr_to_string n ∈ strings l ↔ n ∈ l.
Proof.
  unfold strings. rewrite list_elem_of_fmap. split; [|by exists n].
  by intros (m & ->%Fr_to_string_inj & ?).
Qed.

Lemma strings_default (o : option (list Fr)) : default [] (strings <$> o) = strings (default [] o).
Proof. by destruct o. Qed.

Lemma strings_filter n l :
  filter (λ s, s ≠ Fr_to_string n) (strings l) = strings (filter (λ x, x ≠ n) l).
Proof.
  unfold strings. induction l as [|x l IH]; [done|]. rewrite fmap_cons, !filter_cons, IH.
  destruct (decide (x = n)) as [->|Hx].
  - by rewrite !decide_False by (intros H; by apply H).
  - rewrite decide_True, decide_True; [done..|]. by intros ?%Fr_to_string_inj.
Qed.
End index_lists.

(** ** Operations that act on a represented database *)

Section acts.
Context {FR : PrimeField fr_modulus} {HX : HexCrate} {SL : SerdeJson (list string)}.
Context {St : Type} `{KvStoreLaws St} {D : Type} (R : D → view → Prop).
Implicit Types (d : D) (v : view) (n : Fr) (l : list Fr).

(** [op] takes a store that represents [d] to one that represents [d']. *)
Definition acts_on d {A : Type} (op : M St A) d' : Prop := spec (R d) op (λ _, R d').

Lemma spec_add_to_index {K : Type} `{Countable K} (enc : K → list byte) `{!Inj (=) (=) enc}
    (P : view → Prop) (m : gmap K (list Fr)) (k : K) n (Q : () → view → Prop) :
  (∀ v, P v → table enc v (strings <$> m)) →
  (∀ v, P v → n ∈ default [] (m !! k) → Q () v) →
  (∀ v b, P v → n ∉ default [] (m !! k) →
     from_slice b = Ok (strings (default [] (m !! k) ++ [n])) → Q () (<[enc k:=b]> v)) →
  spec P (add_to_index (enc k) n) Q.
Proof.
  intros Ht Hin Hout. unfold add_to_index. apply (spec_read_then enc _ (strings <$> m)); [done|].
  rewrite lookup_fmap, strings_default. cbn zeta. case_decide as Hn; rewrite strings_elem in Hn.
  - apply spec_ok. auto.
  - apply (spec_write_json enc). intros v b HP Hb. apply Hout; [done..|].
    rewrite Hb. unfold strings. by rewrite fmap_app.
Qed.

Lemma acts_then d1 d2 d3 {A B : Type} (m : M St A) (m' : M St B) :
  acts_on d1 m d2 → acts_on d2 m' d3 → acts_on d1 (mthen m (λ _, m')) d3.
Proof. intros H1 H2. eapply spec_then; [exact H1|]. intros a. exact H2. Qed.

Lemma acts_ok d {A : Type} (a : A) : acts_on d (mok a) d.
Proof. by apply spec_ok. Qed.

Lemma for_each_acts {A B : Type} (f : A → M St ()) (Rel : A → B → Prop)
    (step : D → B → D) (l : list A) (l' : list B) d :
  Forall2 Rel l l' → (∀ x y d, Rel x y → acts_on d (f x) (step d y)) →
  acts_on d (for_each f l) (foldl step d l').
Proof. intros HR Hf. by apply (spec_for_each_fold (λ v d, R d v) f Rel step). Qed.

(** The loop over the identifiers of one index entry. *)
Lemma for_each_id_acts (body : Fr → M St ()) (step : D → Fr → D) l d :
  (∀ n d, acts_on d (body n) (step d n)) →
  acts_on d (for_each (λ s, if_ok (Fr_from_hex s) body ()) (strings l)) (foldl step d l).
Proof.
  intros Hb. apply (for_each_acts _ (λ s n, s = Fr_to_string n)).
  - unfold strings. rewrite Forall2_fmap_l. by apply Forall_Forall2_diag, Forall_true.
  - intros s n d' ->. rewrite Fr_from_to_string. apply Hb.
Qed.

(** One entry of an index, deleted once its identifiers have been treated. *)
Lemma rollback_entry_acts (prefix : string) b (body : Fr → M St ()) (step : D → Fr → D)
    (del : D → D) k l bytes d :
  in_u 64 k → from_slice bytes = Ok (strings l) →
  (∀ n d, acts_on d (body n) (step d n)) →
  (∀ d, acts_on d (kv_delete (as_bytes (prefix +:+ pretty k))) (del d)) →
  acts_on d (rollback_entry prefix b body (as_bytes (prefix +:+ pretty k), bytes))
    (if b <? k then del (foldl step d l) else d).
Proof.
  intros Hk Hl Hbody Hdel. unfold rollback_entry.
  rewrite from_as_bytes, strip_prefix_app, parse_u64_pretty by done.
  destruct (b <? k); [|apply acts_ok]. rewrite Hl.
  eapply acts_then; [by apply for_each_id_acts|apply Hdel].
Qed.

(** What a listing of an index decodes to. *)
Definition encodes_entry (enc : Z → list byte) (kb : list byte * list byte)
    (e : Z * list Fr) : Prop :=
  in_u 64 e.1 ∧ kb.1 = enc e.1 ∧ from_slice kb.2 = Ok (strings e.2).

(** Listing an index and treating every entry acts on the entries of the index. *)
Lemma index_loop_acts (enc : Z → list byte) `{!Inj (=) (=) enc} (p : list byte)
    (f : list byte * list byte → M St ()) (step : D → Z * list Fr → D)
    (idx : D → gmap Z (list Fr)) d :
  (∀ v, R d v → table enc v (strings <$> idx d)) → (∀ k, p `prefix_of` enc k) →
  (∀ v key b, R d v → v !! key = Some b → p `prefix_of` key → ∃ k, in_u 64 k ∧ key = enc k) →
  (∀ d kb e, encodes_entry enc kb e → acts_on d (f kb) (step d e)) →
  spec (R d) (mthen (kv_list_prefix p) (for_each f))
    (λ _ v, ∃ es, entries_of (idx d) es ∧ R (foldl step d es) v).
Proof.
  intros Ht Hp Hshape Hf. eapply spec_then.
  - apply (spec_list_prefix _ p (λ kbs v, R d v ∧
      ∃ es, Forall2 (encodes_entry enc) kbs es ∧ entries_of (idx d) es)).
    intros v kbs Hv _ Hl. split; [done|].
    destruct (listed_entries enc (in_u 64) p v (strings <$> idx d) kbs) as (es & HF & Hes);
      [by apply Ht|done| |done|].
    { intros key b Hb Hpre. by eapply Hshape. }
    assert (∃ es', es = prod_map id strings <$> es') as [es' ->].
    { assert (Forall (λ e, ∃ e', e = prod_map id strings e') es) as HE.
      { apply Forall_forall. intros [k ss] Hin%Hes. rewrite lookup_fmap in Hin.
        apply fmap_Some in Hin as (x & _ & ->). by exists (k, x). }
      clear - HE. induction HE as [|e es [e' ->] _ [es' ->]]; [by exists []|by exists (e' :: es')]. }
    exists es'. split; [by rewrite Forall2_fmap_r in HF|]. intros k x.
    specialize (Hes k (strings x)). rewrite lookup_fmap, fmap_Some in Hes.
    split.
    + intros Hin. apply (list_elem_of_fmap_2 (prod_map id strings)) in Hin.
      apply Hes in Hin as (y & ? & <-%(inj strings)). done.
    + intros Hx. assert ((k, strings x) ∈ prod_map id strings <$> es') as Hin
        by (apply Hes; by exists x).
      apply list_elem_of_fmap in Hin as ([k' y] & E & ?). simpl in E. by simplify_eq.
  - intros kbs s Hs [Hv (es & HF & Hes)].
    destruct (for_each_acts f (encodes_entry enc) step kbs es d HF (λ x y d', Hf d' x y) s Hs Hv)
      as (s' & a & E & Hs' & Hr). exists s', a. eauto 10.
Qed.
End acts.
