(* ===== verification/NoteRefine.v ===== *)
(** What the note store promises: a database of notes with three indexes, the
    abstract operations on it, and the refinement of the operations of
    [NoteStore] to them over any lawful key-value store. *)

From Stdlib Require Import Ascii String.
From S2P Require Import Prelude Bytes Ordered Deps Concrete Types Kv NoteStore Indexes.

(** ** Keys do not collide *)

Section key_facts.
Context {FR : PrimeField fr_modulus} {HX : HexCrate}.

#[global] Instance note_key_inj : Inj (=) (=) note_key_by_nullifier.
Proof. intros n m E%as_bytes_append_inj. by apply Fr_to_string_inj. Qed.
#[global] Instance contract_key_inj : Inj (=) (=) contract_index_key.
Proof. intros n m E%as_bytes_append_inj. by apply Fr_to_string_inj. Qed.
#[global] Instance block_key_inj : Inj (=) (=) block_index_key.
Proof. intros n m E%as_bytes_append_inj. by apply (inj pretty). Qed.
#[global] Instance nullify_key_inj : Inj (=) (=) nullification_block_index_key.
Proof. intros n m E%as_bytes_append_inj. by apply (inj pretty). Qed.

Definition note_prefix : list byte := as_bytes "note:".
Definition index_prefix : list byte := as_bytes "note_idx:".
Definition block_prefix : list byte := as_bytes "note_idx:block:".
Definition nullify_prefix : list byte := as_bytes "note_idx:nullify_block:".

(** The keys of the note store, in the one store that all the local stores share. *)
Definition note_namespace (key : list byte) : Prop :=
  note_prefix `prefix_of` key ∨ index_prefix `prefix_of` key.

(** A key under one of the listed prefixes is one that the store writes. *)
Definition key_shape (key : list byte) : Prop :=
  (note_prefix `prefix_of` key → ∃ n, True ∧ key = note_key_by_nullifier n) ∧
  (block_prefix `prefix_of` key → ∃ z, in_u 64 z ∧ key = block_index_key z) ∧
  (nullify_prefix `prefix_of` key → ∃ z, in_u 64 z ∧ key = nullification_block_index_key z).

Ltac no_prefix := let t := fresh in let E := fresh in intros [t E]; discriminate E.

Lemma note_key_shape n : key_shape (note_key_by_nullifier n).
Proof. split_and!; [by exists n|no_prefix..]. Qed.
Lemma contract_key_shape c : key_shape (contract_index_key c).
Proof. split_and!; no_prefix. Qed.
Lemma block_key_shape z : in_u 64 z → key_shape (block_index_key z).
Proof. intros Hz. split_and!; [no_prefix|by exists z|no_prefix]. Qed.
Lemma nullify_key_shape z : in_u 64 z → key_shape (nullification_block_index_key z).
Proof. intros Hz. split_and!; [no_prefix..|by exists z]. Qed.

Lemma note_key_prefix n : note_prefix `prefix_of` note_key_by_nullifier n.
Proof. eexists. apply as_bytes_app. Qed.
Lemma block_key_prefix z : block_prefix `prefix_of` block_index_key z.
Proof. eexists. apply as_bytes_app. Qed.
Lemma nullify_key_prefix z : nullify_prefix `prefix_of` nullification_block_index_key z.
Proof. eexists. apply as_bytes_app. Qed.

Lemma note_key_ns n : note_namespace (note_key_by_nullifier n).
Proof. left. apply note_key_prefix. Qed.
Lemma contract_key_ns c : note_namespace (contract_index_key c).
Proof. right. by eexists. Qed.
Lemma block_key_ns z : note_namespace (block_index_key z).
Proof. right. by eexists. Qed.
Lemma nullify_key_ns z : note_namespace (nullification_block_index_key z).
Proof. right. by eexists. Qed.
End key_facts.

Create HintDb note_keys.
#[export] Hint Resolve note_key_shape contract_key_shape block_key_shape nullify_key_shape
  note_key_ns contract_key_ns block_key_ns nullify_key_ns : note_keys.

(** ** The database *)

Section database.
Context {FR : PrimeField fr_modulus}.

Record NoteDb := {
  db_notes : gmap Fr StoredNote;
  db_contract : gmap Fr (list Fr);
  db_block : gmap Z (list Fr);
  db_nullify : gmap Z (list Fr);
}.

Definition set_notes (f : gmap Fr StoredNote → gmap Fr StoredNote) (d : NoteDb) : NoteDb :=
  {| db_notes := f (db_notes d); db_contract := db_contract d; db_block := db_block d;
     db_nullify := db_nullify d |}.
Definition set_contract (f : gmap Fr (list Fr) → gmap Fr (list Fr)) (d : NoteDb) : NoteDb :=
  {| db_notes := db_notes d; db_contract := f (db_contract d); db_block := db_block d;
     db_nullify := db_nullify d |}.
Definition set_block (f : gmap Z (list Fr) → gmap Z (list Fr)) (d : NoteDb) : NoteDb :=
  {| db_notes := db_notes d; db_contract := db_contract d; db_block := f (db_block d);
     db_nullify := db_nullify d |}.
Definition set_nullify (f : gmap Z (list Fr) → gmap Z (list Fr)) (d : NoteDb) : NoteDb :=
  {| db_notes := db_notes d; db_contract := db_contract d; db_block := db_block d;
     db_nullify := f (db_nullify d) |}.

(** ** The abstract operations *)

Definition db_add (scope : AztecAddress) (note : StoredNote) (d : NoteDb) : NoteDb :=
  let n := sn_siloed_nullifier note in
  match db_notes d !! n with
  | Some existing => set_notes <[n := push_scope scope existing]> d
  | None =>
      let d := set_contract (idx_add (sn_contract_address note) n)
                 (set_notes <[n := push_scope scope note]> d) in
      match sn_block_number note with Some bn => set_block (idx_add bn n) d | None => d end
  end.

Definition db_apply (nb : Fr * Z) (d : NoteDb) : NoteDb :=
  match db_notes d !! nb.1 with
  | Some note =>
      if sn_nullified note then d
      else set_nullify (idx_add nb.2 nb.1)
             (set_notes <[nb.1 := with_nullified note true (Some nb.2)]> d)
  | None => d
  end.

Definition db_un_nullify (d : NoteDb) (n : Fr) : NoteDb :=
  set_notes (alter (λ note, with_nullified note false None) n) d.

Definition db_delete (d : NoteDb) (n : Fr) : NoteDb :=
  let d := match db_notes d !! n with
           | Some note => set_contract (idx_remove (sn_contract_address note) n) d
           | None => d
           end in
  set_notes (delete n) d.

(** The two steps of a rollback, over the entries of an index above the block. *)
Definition phase1 (b : Z) (d : NoteDb) (e : Z * list Fr) : NoteDb :=
  if b <? e.1 then set_nullify (delete e.1) (foldl db_un_nullify d e.2) else d.
Definition phase2 (b : Z) (d : NoteDb) (e : Z * list Fr) : NoteDb :=
  if b <? e.1 then set_block (delete e.1) (foldl db_delete d e.2) else d.

(** ** The invariant

    Every note is filed under its nullifier, the three indexes list exactly the
    notes they should, and a note is nullified no earlier than it is created. *)
Definition note_ok (note : StoredNote) : Prop :=
  match sn_block_number note with Some c => in_u 64 c | None => True end ∧
  if sn_nullified note then
    ∃ b, sn_nullification_block_number note = Some b ∧ in_u 64 b ∧
      match sn_block_number note with Some c => c ≤ b | None => True end
  else sn_nullification_block_number note = None.

Record db_inv (d : NoteDb) : Prop := {
  inv_key : ∀ n note, db_notes d !! n = Some note → sn_siloed_nullifier note = n ∧ note_ok note;
  inv_contract : ∀ c n, indexed (db_contract d) c n ↔
    ∃ note, db_notes d !! n = Some note ∧ sn_contract_address note = c;
  inv_block : ∀ b n, indexed (db_block d) b n ↔
    ∃ note, db_notes d !! n = Some note ∧ sn_block_number note = Some b;
  inv_nullify : ∀ b n, indexed (db_nullify d) b n ↔
    ∃ note, db_notes d !! n = Some note ∧ sn_nullified note = true ∧
      sn_nullification_block_number note = Some b;
  inv_nodup : map_Forall (λ _ l, NoDup l) (db_contract d);
}.
End database.

(** ** The abstract operations keep the invariant *)

Section database_lemmas.
Context {FR : PrimeField fr_modulus}.
Implicit Types (d : NoteDb) (note : StoredNote) (n : Fr).

Lemma push_scope_eq scope note :
  push_scope scope note = with_scopes note (sn_scopes (push_scope scope note)).
Proof. unfold push_scope. destruct (decide _); [by destruct note|done]. Qed.

Lemma push_scope_fields scope note :
  sn_siloed_nullifier (push_scope scope note) = sn_siloed_nullifier note ∧
  sn_contract_address (push_scope scope note) = sn_contract_address note ∧
  sn_block_number (push_scope scope note) = sn_block_number note ∧
  sn_nullified (push_scope scope note) = sn_nullified note ∧
  sn_nullification_block_number (push_scope scope note) = sn_nullification_block_number note.
Proof. rewrite push_scope_eq. done. Qed.

Lemma note_ok_push_scope scope note : note_ok note → note_ok (push_scope scope note).
Proof. rewrite push_scope_eq. done. Qed.

(** An update of one note that keeps what the indexes record. *)
Lemma db_inv_update d n note note' :
  db_inv d → db_notes d !! n = Some note → note_ok note' →
  sn_siloed_nullifier note' = sn_siloed_nullifier note →
  sn_contract_address note' = sn_contract_address note →
  sn_block_number note' = sn_block_number note →
  sn_nullified note' = sn_nullified note →
  sn_nullification_block_number note' = sn_nullification_block_number note →
  db_inv (set_notes <[n := note']> d).
Proof.
  intros [I1 I2 I3 I4 I5] Hn Hok E1 E2 E3 E4 E5.
  assert (∀ (P : StoredNote → Prop) m, (P note' ↔ P note) →
    ((∃ x, <[n:=note']> (db_notes d) !! m = Some x ∧ P x) ↔
     (∃ x, db_notes d !! m = Some x ∧ P x))) as HP.
  { intros P m HP. destruct (decide (m = n)) as [->|Hm].
    - rewrite lookup_insert_eq, Hn. naive_solver.
    - by rewrite lookup_insert_ne. }
  constructor; simpl.
  - intros m x. destruct (decide (m = n)) as [->|Hm].
    + rewrite lookup_insert_eq. intros [= <-]. split; [|done]. rewrite E1. by apply I1.
    + rewrite lookup_insert_ne by done. apply I1.
  - intros c m. rewrite I2. symmetry. apply HP. by rewrite E2.
  - intros b m. rewrite I3. symmetry. apply HP. by rewrite E3.
  - intros b m. rewrite I4. symmetry. apply (HP (λ x, sn_nullified x = true ∧ _)). by rewrite E4, E5.
  - done.
Qed.

(** A note that was not there. *)
Lemma db_inv_insert d note :
  db_inv d → db_notes d !! sn_siloed_nullifier note = None → note_ok note →
  sn_nullified note = false →
  let d' := set_contract (idx_add (sn_contract_address note) (sn_siloed_nullifier note))
              (set_notes <[sn_siloed_nullifier note := note]> d) in
  db_inv (match sn_block_number note with
          | Some bn => set_block (idx_add bn (sn_siloed_nullifier note)) d'
          | None => d'
          end).
Proof.
  intros [I1 I2 I3 I4 I5] Hn Hok Hnull d'. set (n := sn_siloed_nullifier note) in *.
  assert (∀ (P : StoredNote → Prop) m,
    (∃ x, <[n:=note]> (db_notes d) !! m = Some x ∧ P x) ↔
    (∃ x, db_notes d !! m = Some x ∧ P x) ∨ (m = n ∧ P note)) as HP.
  { intros P m. destruct (decide (m = n)) as [->|Hm].
    - rewrite lookup_insert_eq, Hn. naive_solver.
    - rewrite lookup_insert_ne by done. naive_solver. }
  assert (∀ b, (∃ x, db_notes d !! n = Some x ∧ sn_block_number x = Some b) ↔ False) as Hnb.
  { intros b. rewrite Hn. naive_solver. }
  assert (∀ d'', db_notes d'' = db_notes d' → db_contract d'' = db_contract d' →
    db_nullify d'' = db_nullify d' →
    (∀ b m, indexed (db_block d'') b m ↔ indexed (db_block d) b m ∨
       (m = n ∧ sn_block_number note = Some b)) → db_inv d'') as HI.
  { intros d'' Ed1 Ed2 Ed3 Ed4. constructor; rewrite ?Ed1, ?Ed2, ?Ed3; simpl.
    - intros m x. destruct (decide (m = n)) as [->|Hm].
      + rewrite lookup_insert_eq. by intros [= <-].
      + rewrite lookup_insert_ne by done. apply I1.
    - intros c m. rewrite indexed_add, I2, HP. naive_solver.
    - intros b m. rewrite Ed4, I3, HP. naive_solver.
    - intros b m. rewrite I4, HP, Hnull. naive_solver.
    - by apply idx_add_nodup. }
  destruct (sn_block_number note) as [bn|] eqn:Eb; apply HI; try done; intros b m; simpl.
  - rewrite indexed_add. naive_solver.
  - naive_solver.
Qed.

Lemma db_add_inv scope note d :
  db_inv d → note_ok note → sn_nullified note = false → db_inv (db_add scope note d).
Proof.
  intros Hd Hok Hn. unfold db_add.
  destruct (db_notes d !! sn_siloed_nullifier note) as [existing|] eqn:E.
  - destruct (push_scope_fields scope existing) as (? & ? & ? & ? & ?).
    eapply db_inv_update; try done. apply note_ok_push_scope. by eapply Hd.
  - destruct (push_scope_fields scope note) as (E1 & E2 & E3 & E4 & E5).
    pose proof (db_inv_insert d (push_scope scope note)) as Hi.
    rewrite E1, E2, E3, E4 in Hi. apply Hi; [done..|by apply note_ok_push_scope|done].
Qed.

Lemma db_apply_inv n b d :
  db_inv d → in_u 64 b →
  (∀ note c, db_notes d !! n = Some note → sn_nullified note = false →
     sn_block_number note = Some c → c ≤ b) →
  db_inv (db_apply (n, b) d).
Proof.
  intros Hd Hb Hc. unfold db_apply. simpl.
  destruct (db_notes d !! n) as [note|] eqn:E; [|done].
  destruct (sn_nullified note) eqn:En; [done|].
  destruct Hd as [I1 I2 I3 I4 I5]. destruct (I1 n note E) as [Ek [Hok1 Hok2]].
  set (note' := with_nullified note true (Some b)).
  assert (∀ (P : StoredNote → Prop) m, (P note' ↔ P note) →
    ((∃ x, <[n:=note']> (db_notes d) !! m = Some x ∧ P x) ↔
     (∃ x, db_notes d !! m = Some x ∧ P x))) as HP.
  { intros P m HP. destruct (decide (m = n)) as [->|Hm].
    - rewrite lookup_insert_eq, E. naive_solver.
    - by rewrite lookup_insert_ne. }
  constructor; simpl.
  - intros m x. destruct (decide (m = n)) as [->|Hm].
    + rewrite lookup_insert_eq. intros [= <-]. split; [done|]. split; [done|]. simpl.
      exists b. split_and!; [done..|].
      destruct (sn_block_number note) as [c|] eqn:Ec; [|done]. by apply (Hc note).
    + rewrite lookup_insert_ne by done. apply I1.
  - intros c m. rewrite I2. symmetry. by apply HP.
  - intros c m. rewrite I3. symmetry. by apply HP.
  - intros c m. rewrite indexed_add, I4. destruct (decide (m = n)) as [->|Hm].
    + rewrite lookup_insert_eq, E. split.
      * intros [(x & [= <-] & Hx & _)|[-> _]]; [congruence|by exists note'].
      * intros (x & [= <-] & _ & [= ->]). by right.
    + rewrite lookup_insert_ne by done. split; [|by left].
      intros [?|[_ ?]]; done.
  - done.
Qed.
End database_lemmas.

(** ** Rollback *)

Section rollback_lemmas.
Context {FR : PrimeField fr_modulus}.
Implicit Types (d : NoteDb) (note : StoredNote) (n : Fr).

Definition un_nullified note : StoredNote := with_nullified note false None.

(** A nullification above the block is undone. *)
Definition un_nullify_after (b : Z) (note : StoredNote) : StoredNote :=
  match sn_nullification_block_number note with
  | Some c => if b <? c then un_nullified note else note
  | None => note
  end.

(** What becomes of a note when the chain goes back to block [b]. *)
Definition rolled_back (b : Z) (note : StoredNote) : option StoredNote :=
  match sn_block_number note with
  | Some c => if b <? c then None else Some (un_nullify_after b note)
  | None => Some (un_nullify_after b note)
  end.

Lemma fold_un_nullify ns d :
  let d' := foldl db_un_nullify d ns in
  (∀ n, db_notes d' !! n =
     (λ note, if decide (n ∈ ns) then un_nullified note else note) <$> db_notes d !! n) ∧
  db_contract d' = db_contract d ∧ db_block d' = db_block d ∧ db_nullify d' = db_nullify d.
Proof.
  revert d. induction ns as [|x ns IH]; intros d; simpl.
  - split_and!; [|done..]. intros n. by destruct (db_notes d !! n).
  - destruct (IH (db_un_nullify d x)) as (IHn & -> & -> & ->). split_and!; [|done..].
    intros n. rewrite IHn. unfold db_un_nullify, set_notes. cbn [db_notes].
    destruct (decide (n = x)) as [->|Hne].
    + rewrite lookup_alter_eq, <- option_fmap_compose. apply option_fmap_ext. intros note. simpl.
      rewrite (decide_True (P := x ∈ x :: ns)) by set_solver. by case_decide.
    + rewrite lookup_alter_ne by done. apply option_fmap_ext. intros note.
      by destruct (decide (n ∈ ns)), (decide (n ∈ x :: ns)); set_solver.
Qed.

Lemma fold_phase1 b es d :
  let d' := foldl (phase1 b) d es in
  (∀ n, db_notes d' !! n =
     (λ note, if decide (listed_after b es n) then un_nullified note else note) <$> db_notes d !! n) ∧
  db_contract d' = db_contract d ∧ db_block d' = db_block d ∧
  (∀ k, db_nullify d' !! k = if decide (b < k ∧ k ∈ es.*1) then None else db_nullify d !! k).
Proof.
  revert d. induction es as [|[k0 ns] es IH]; intros d; cbn [foldl].
  - split_and!; [|done..|].
    + intros n. destruct (db_notes d !! n); simpl; [|done].
      by rewrite decide_False by (unfold listed_after; rewrite Exists_nil; tauto).
    + intros k. by rewrite decide_False by set_solver.
  - assert (∀ n, listed_after b ((k0, ns) :: es) n ↔ (b < k0 ∧ n ∈ ns) ∨ listed_after b es n) as HL.
    { intros n. unfold listed_after. by rewrite Exists_cons. }
    destruct (IH (phase1 b d (k0, ns))) as (IHn & -> & -> & IHk).
    assert (phase1 b d (k0, ns) =
      if b <? k0 then set_nullify (delete k0) (foldl db_un_nullify d ns) else d) as E by done.
    rewrite E in *. clear E. destruct (Z.ltb_spec b k0) as [Hlt|Hge].
    + destruct (fold_un_nullify ns d) as (Hn & Hc & Hb & Hk).
      unfold set_nullify in *. cbn [db_notes db_contract db_block db_nullify] in *.
      split_and!; [|done..|].
      * intros n. rewrite IHn, Hn, <- option_fmap_compose. destruct (db_notes d !! n); simpl; [|done].
        f_equal. specialize (HL n). repeat case_decide; naive_solver.
      * intros k. rewrite IHk, Hk. destruct (decide (k = k0)) as [->|Hne].
        -- rewrite lookup_delete_eq. rewrite fmap_cons. repeat case_decide; try done; exfalso; set_solver.
        -- rewrite lookup_delete_ne, fmap_cons by done. repeat case_decide; try done; exfalso; set_solver.
    + split_and!; [|done..|].
      * intros n. rewrite IHn. destruct (db_notes d !! n); simpl; [|done].
        f_equal. specialize (HL n). repeat case_decide; naive_solver lia.
      * intros k. rewrite IHk, fmap_cons. repeat case_decide; try done; exfalso; [set_solver|].
        assert (k ≠ k0) by lia. set_solver.
Qed.

(** The second loop, on the table of the notes with its two indexes. *)
Definition table_of d : Table StoredNote Fr :=
  {| t_vals := db_notes d; t_idx := db_contract d; t_block := db_block d |}.

Lemma fold_delete_table ns d :
  table_of (foldl db_delete d ns) = foldl (t_delete sn_contract_address) (table_of d) ns ∧
  db_nullify (foldl db_delete d ns) = db_nullify d.
Proof.
  revert d. induction ns as [|n ns IH]; intros d; simpl; [done|].
  destruct (IH (db_delete d n)) as [-> ->]. unfold db_delete, t_delete, table_of. cbn [t_vals].
  by destruct (db_notes d !! n).
Qed.

Lemma fold_phase2_table b es d :
  table_of (foldl (phase2 b) d es) = foldl (t_phase sn_contract_address b) (table_of d) es ∧
  db_nullify (foldl (phase2 b) d es) = db_nullify d.
Proof.
  revert d. induction es as [|e es IH]; intros d; simpl; [done|].
  destruct (IH (phase2 b d e)) as [-> ->]. unfold phase2, t_phase. destruct (b <? e.1); [|done].
  destruct (fold_delete_table e.2 d) as [<- ?]. done.
Qed.

Lemma db_inv_table d : db_inv d → table_inv sn_contract_address sn_block_number (table_of d).
Proof. by intros [I1 I2 I3 I4 I5]. Qed.
End rollback_lemmas.

Section rollback_spec.
Context {FR : PrimeField fr_modulus}.
Implicit Types (d : NoteDb) (note : StoredNote) (n : Fr).

Lemma un_nullify_after_fields b note :
  sn_siloed_nullifier (un_nullify_after b note) = sn_siloed_nullifier note ∧
  sn_contract_address (un_nullify_after b note) = sn_contract_address note ∧
  sn_block_number (un_nullify_after b note) = sn_block_number note.
Proof.
  unfold un_nullify_after. destruct (sn_nullification_block_number note) as [c|]; [|done].
  by destruct (b <? c).
Qed.

Lemma un_nullify_after_nullified b note c :
  note_ok note →
  (sn_nullified (un_nullify_after b note) = true ∧
   sn_nullification_block_number (un_nullify_after b note) = Some c) ↔
  (sn_nullified note = true ∧ sn_nullification_block_number note = Some c ∧ c ≤ b).
Proof.
  intros [_ Hok]. unfold un_nullify_after. destruct (sn_nullified note) eqn:En.
  - destruct Hok as (k & Hk & _). rewrite Hk. destruct (Z.ltb_spec b k); simpl.
    + split; [intros [[=] _]|]. intros (_ & [= ->] & ?). lia.
    + rewrite En, Hk. naive_solver.
  - rewrite Hok, En. naive_solver.
Qed.

Lemma un_nullify_after_ok b note : note_ok note → note_ok (un_nullify_after b note).
Proof.
  intros H. unfold un_nullify_after.
  destruct (sn_nullification_block_number note) as [c|] eqn:E; [|exact H].
  destruct (b <? c); [|exact H]. destruct H as [H _]. by split.
Qed.

(** After the first loop the notes are those without the undone nullifications. *)
Lemma phase1_inv b d es :
  db_inv d → entries_of (db_nullify d) es →
  let d1 := foldl (phase1 b) d es in
  db_inv d1 ∧ (∀ n, db_notes d1 !! n = un_nullify_after b <$> db_notes d !! n).
Proof.
  intros [I1 I2 I3 I4 I5] He d1. destruct (fold_phase1 b es d) as (Hn & Hc & Hb & Hk). fold d1 in Hn, Hc, Hb, Hk.
  assert (∀ n, db_notes d1 !! n = un_nullify_after b <$> db_notes d !! n) as Hn'.
  { intros n. rewrite Hn. destruct (db_notes d !! n) as [note|] eqn:E; [|done]. simpl. f_equal.
    destruct (I1 n note E) as [_ [_ Hok]]. unfold un_nullify_after.
    pose proof (listed_after_indexed b (db_nullify d) es n He) as HL.
    case_decide as HL'.
    - apply HL in HL' as (c & Hlt & (y & Hy & _ & Hyc)%I4). assert (y = note) as -> by congruence.
      rewrite Hyc. by destruct (Z.ltb_spec b c); [|lia].
    - destruct (sn_nullification_block_number note) as [c|] eqn:Ec; [|done].
      destruct (Z.ltb_spec b c); [|done]. destruct HL'. apply HL. exists c. split; [done|].
      apply I4. exists note. destruct (sn_nullified note) eqn:En; [|by rewrite Hok in Ec].
      done. }
  split; [|done].
  assert (∀ (P : StoredNote → Prop) n,
    (∃ x, db_notes d1 !! n = Some x ∧ P x) ↔
    (∃ x, db_notes d !! n = Some x ∧ P (un_nullify_after b x))) as HP.
  { intros P n. rewrite Hn'. destruct (db_notes d !! n); simpl; naive_solver. }
  constructor.
  - intros n x Hx. rewrite Hn' in Hx. apply fmap_Some in Hx as (note & Hx & ->).
    destruct (I1 n note Hx) as [H1 H2]. destruct (un_nullify_after_fields b note) as (-> & _).
    split; [done|]. by apply un_nullify_after_ok.
  - intros c n. rewrite Hc, I2, HP. apply exist_proper. intros note.
    by destruct (un_nullify_after_fields b note) as (_ & -> & _).
  - intros c n. rewrite Hb, I3, HP. apply exist_proper. intros note.
    by destruct (un_nullify_after_fields b note) as (_ & _ & ->).
  - intros c n. rewrite HP. unfold indexed. rewrite Hk.
    assert ((if decide (b < c ∧ c ∈ es.*1) then None else db_nullify d !! c) =
            (if decide (b < c) then None else db_nullify d !! c)) as ->.
    { repeat case_decide; try tauto. destruct (db_nullify d !! c) as [l|] eqn:E; [|done].
      apply He in E. destruct H. split; [done|]. by apply (list_elem_of_fmap_2 fst) in E. }
    destruct (decide (b < c)) as [Hlt|Hge].
    + simpl. split; [set_solver|]. intros (note & Hx & HN).
      apply un_nullify_after_nullified in HN as (_ & _ & ?); [lia|]. by eapply I1.
    + change (indexed (db_nullify d) c n ↔ ∃ x, db_notes d !! n = Some x ∧
        sn_nullified (un_nullify_after b x) = true ∧
        sn_nullification_block_number (un_nullify_after b x) = Some c). rewrite I4.
      apply exist_proper. intros note. split; intros [Hx HN]; (split; [done|]);
        destruct (I1 n note Hx) as [_ Hok].
      * apply un_nullify_after_nullified; [done|]. destruct HN. split_and!; [done..|lia].
      * apply un_nullify_after_nullified in HN; [|done]. tauto.
  - by rewrite Hc.
Qed.

(** The two loops together give every note what [rolled_back] says. *)
Lemma db_rollback b d es1 es2 :
  db_inv d → entries_of (db_nullify d) es1 →
  let d1 := foldl (phase1 b) d es1 in
  entries_of (db_block d1) es2 →
  let d2 := foldl (phase2 b) d1 es2 in
  db_inv d2 ∧ (∀ n, db_notes d2 !! n = db_notes d !! n ≫= rolled_back b).
Proof.
  intros Hd He1 d1 He2 d2. destruct (phase1_inv b d es1 Hd He1) as [Hd1 Hn1]. fold d1 in Hd1, Hn1.
  destruct (table_rollback sn_contract_address sn_block_number b (table_of d1) es2) as [Ht Hn];
    [by apply db_inv_table|done|].
  destruct (fold_phase2_table b es2 d1) as [E Hk]. fold d2 in E, Hk.
  rewrite <- E in Ht, Hn. cbn [t_vals table_of] in Hn. destruct Ht as [T1 T2 T3].
  cbn [t_vals t_idx t_block table_of] in T1, T2, T3. destruct Hd1 as [I1 I2 I3 I4 I5].
  assert (∀ n note, db_notes d2 !! n = Some note ↔ db_notes d1 !! n = Some note ∧
    match sn_block_number note with Some c => c ≤ b | None => True end) as Hs.
  { intros n note. rewrite Hn. destruct (db_notes d1 !! n) as [x|]; simpl; [|naive_solver].
    rewrite kept_Some. naive_solver. }
  split.
  - constructor; [| |done| |done].
    + intros n x [Hx _]%Hs. by apply I1.
    + done.
    + intros c n. rewrite Hk, I4. split; [|intros (note & [Hx _]%Hs & HN); by exists note].
      intros (note & Hx & H1 & H2). exists note. split; [|done]. apply Hs. split; [done|].
      destruct (sn_block_number note) as [k|] eqn:Ek; [|done].
      destruct (I1 n note Hx) as [_ [_ Hok]]. rewrite H1 in Hok.
      destruct Hok as (c' & Hc' & _ & Hkc). rewrite Ek in Hkc.
      assert (c' = c) as -> by congruence. clear Hc' Ek.
      rewrite Hn1 in Hx. apply fmap_Some in Hx as (x & Hx & ->).
      assert (c ≤ b); [|lia].
      by apply (proj1 (un_nullify_after_nullified b x c (proj2 (inv_key d Hd n x Hx)))).
  - intros n. rewrite Hn, Hn1. destruct (db_notes d !! n) as [note|]; simpl; [|done].
    unfold rolled_back, kept. by destruct (un_nullify_after_fields b note) as (_ & _ & ->).
Qed.
End rollback_spec.
