(* ===== verification/NoteSpec.v ===== *)
(** The contract of the note store: over any lawful key-value store the operations of
    [NoteStore] act on a map from siloed nullifiers to notes, and leave every key
    outside the store's own prefixes alone. *)

From Stdlib Require Import Ascii String.
From S2P Require Import Prelude Bytes Ordered Deps Concrete Types Kv NoteStore Indexes NoteRefine.

(** ** The database a store represents *)

Section representation.
Context {FR : PrimeField fr_modulus} {HX : HexCrate}.
Context {SN : SerdeJson StoredNote} {SL : SerdeJson (list string)}.
Implicit Types (v : view) (d : NoteDb) (n : Fr) (l : list Fr).

Record rep (v0 v : view) d : Prop := {
  rep_notes : table note_key_by_nullifier v (db_notes d);
  rep_contract : table contract_index_key v (strings <$> db_contract d);
  rep_block : table block_index_key v (strings <$> db_block d);
  rep_nullify : table nullification_block_index_key v (strings <$> db_nullify d);
  rep_shape : ∀ key b, v !! key = Some b → key_shape key;
  rep_frame : ∀ key, ¬ note_namespace key → v !! key = v0 !! key;
}.

Lemma shape_put v k b :
  (∀ key c, v !! key = Some c → key_shape key) → key_shape k →
  ∀ key c, <[k:=b]> v !! key = Some c → key_shape key.
Proof. intros Hv Hk key c [[-> _]|[_ ?]]%lookup_insert_Some; eauto. Qed.

Lemma shape_del v k :
  (∀ key c, v !! key = Some c → key_shape key) →
  ∀ key c, delete k v !! key = Some c → key_shape key.
Proof. intros Hv key c [_ ?]%lookup_delete_Some; eauto. Qed.

Lemma frame_put (v0 v : view) k b :
  (∀ key, ¬ note_namespace key → v !! key = v0 !! key) → note_namespace k →
  ∀ key, ¬ note_namespace key → <[k:=b]> v !! key = v0 !! key.
Proof. intros Hv Hk key Hn. rewrite lookup_insert_ne by (by intros ->). auto. Qed.

Lemma frame_del (v0 v : view) k :
  (∀ key, ¬ note_namespace key → v !! key = v0 !! key) → note_namespace k →
  ∀ key, ¬ note_namespace key → delete k v !! key = v0 !! key.
Proof. intros Hv Hk key Hn. rewrite lookup_delete_ne by (by intros ->). auto. Qed.

(** The four tables of the store do not overlap. *)
Lemma contract_note_apart c n : contract_index_key c ≠ note_key_by_nullifier n.
Proof. intros E. discriminate E. Qed.
Lemma block_note_apart b n : block_index_key b ≠ note_key_by_nullifier n.
Proof. intros E. discriminate E. Qed.
Lemma nullify_note_apart b n : nullification_block_index_key b ≠ note_key_by_nullifier n.
Proof. intros E. discriminate E. Qed.
Lemma contract_block_apart c b : contract_index_key c ≠ block_index_key b.
Proof. intros E. discriminate E. Qed.
Lemma contract_nullify_apart c b : contract_index_key c ≠ nullification_block_index_key b.
Proof. intros E. discriminate E. Qed.
Lemma block_nullify_apart b c : block_index_key b ≠ nullification_block_index_key c.
Proof. intros E. discriminate E. Qed.
Hint Resolve contract_note_apart block_note_apart nullify_note_apart contract_block_apart
  contract_nullify_apart block_nullify_apart not_eq_sym : note_keys.

Ltac solve_rep :=
  constructor; cbn [set_notes set_contract set_block set_nullify
                    db_notes db_contract db_block db_nullify];
  rewrite ?fmap_insert, ?fmap_delete;
  first [ by apply (table_insert _) | by apply (table_delete _)
        | apply table_insert_other; [done|by auto with note_keys]
        | apply table_delete_other; [done|by auto with note_keys]
        | apply shape_put; by auto with note_keys
        | by apply shape_del
        | apply frame_put; by auto with note_keys
        | apply frame_del; by auto with note_keys ].

Lemma rep_put_note (v0 v : view) d n note b :
  rep v0 v d → from_slice b = Ok note →
  rep v0 (<[note_key_by_nullifier n:=b]> v) (set_notes <[n:=note]> d).
Proof. intros [] Hb. solve_rep. Qed.
Lemma rep_delete_note (v0 v : view) d n :
  rep v0 v d → rep v0 (delete (note_key_by_nullifier n) v) (set_notes (delete n) d).
Proof. intros []. solve_rep. Qed.
Lemma rep_put_contract (v0 v : view) d c l b :
  rep v0 v d → from_slice b = Ok (strings l) →
  rep v0 (<[contract_index_key c:=b]> v) (set_contract <[c:=l]> d).
Proof. intros [] Hb. solve_rep. Qed.
Lemma rep_delete_contract (v0 v : view) d c :
  rep v0 v d → rep v0 (delete (contract_index_key c) v) (set_contract (delete c) d).
Proof. intros []. solve_rep. Qed.
Lemma rep_put_block (v0 v : view) d k l b :
  rep v0 v d → in_u 64 k → from_slice b = Ok (strings l) →
  rep v0 (<[block_index_key k:=b]> v) (set_block <[k:=l]> d).
Proof. intros [] Hk Hb. solve_rep. Qed.
Lemma rep_delete_block (v0 v : view) d k :
  rep v0 v d → rep v0 (delete (block_index_key k) v) (set_block (delete k) d).
Proof. intros []. solve_rep. Qed.
Lemma rep_put_nullify (v0 v : view) d k l b :
  rep v0 v d → in_u 64 k → from_slice b = Ok (strings l) →
  rep v0 (<[nullification_block_index_key k:=b]> v) (set_nullify <[k:=l]> d).
Proof. intros [] Hk Hb. solve_rep. Qed.
Lemma rep_delete_nullify (v0 v : view) d k :
  rep v0 v d →
  rep v0 (delete (nullification_block_index_key k) v) (set_nullify (delete k) d).
Proof. intros []. solve_rep. Qed.

End representation.

(** ** The operations act on the represented database *)

Section operations.
Context {FR : PrimeField fr_modulus} {HX : HexCrate}.
Context {SN : SerdeJson StoredNote} {SL : SerdeJson (list string)}.
Context {St : Type} `{KvStoreLaws St}.
Implicit Types (v : view) (d : NoteDb) (n : Fr) (l : list Fr) (note : StoredNote).

(** [op] takes a store that represents [d] to one that represents [d']. *)
Notation acts v0 := (acts_on (λ d v, rep v0 v d)).
Ltac acts_step := eapply (acts_then (λ d v, rep _ v d)).
Ltac acts_done := apply (acts_ok (λ d v, rep _ v d)).

Lemma add_to_contract_index_acts v0 d c n :
  acts v0 d (add_to_contract_index c n) (set_contract (idx_add c n) d).
Proof.
  apply (spec_add_to_index contract_index_key _ (db_contract d)).
  - by intros v [].
  - intros v Hv Hn. unfold idx_add, set_contract. rewrite decide_True by done. by destruct d.
  - intros v b Hv Hn Hb. unfold idx_add, set_contract. rewrite decide_False by done.
    by apply (rep_put_contract v0 v d).
Qed.

Lemma add_to_block_index_acts v0 d k n :
  in_u 64 k → acts v0 d (add_to_block_index k n) (set_block (idx_add k n) d).
Proof.
  intros Hk. apply (spec_add_to_index block_index_key _ (db_block d)).
  - by intros v [].
  - intros v Hv Hn. unfold idx_add, set_block. rewrite decide_True by done. by destruct d.
  - intros v b Hv Hn Hb. unfold idx_add, set_block. rewrite decide_False by done.
    by apply (rep_put_block v0 v d).
Qed.

Lemma add_to_nullify_index_acts v0 d k n :
  in_u 64 k → acts v0 d (add_to_nullification_block_index k n) (set_nullify (idx_add k n) d).
Proof.
  intros Hk. apply (spec_add_to_index nullification_block_index_key _ (db_nullify d)).
  - by intros v [].
  - intros v Hv Hn. unfold idx_add, set_nullify. rewrite decide_True by done. by destruct d.
  - intros v b Hv Hn Hb. unfold idx_add, set_nullify. rewrite decide_False by done.
    by apply (rep_put_nullify v0 v d).
Qed.

(** Reading a note returns what the database holds. *)
Lemma spec_read_note v0 d n {A : Type} (k : option StoredNote → M St A) (Q : A → view → Prop) :
  spec (λ v, rep v0 v d) (k (db_notes d !! n)) Q →
  spec (λ v, rep v0 v d) (mthen (read_json (note_key_by_nullifier n)) k) Q.
Proof.
  apply (spec_read_then note_key_by_nullifier _ (db_notes d)). by intros v [].
Qed.

Lemma write_note_acts v0 d n note :
  acts v0 d (write_json (note_key_by_nullifier n) note) (set_notes <[n:=note]> d).
Proof. apply (spec_write_json note_key_by_nullifier). intros v b Hv Hb. by apply rep_put_note. Qed.

Lemma add_one_acts v0 d scope note :
  note_ok note → acts v0 d (add_one scope note) (db_add scope note d).
Proof.
  intros [Hb _]. destruct (push_scope_fields scope note) as (E1 & E2 & E3 & _).
  unfold add_one, db_add. cbn zeta. rewrite E1, E2, E3. apply spec_read_note.
  destruct (db_notes d !! sn_siloed_nullifier note) as [existing|]; [apply write_note_acts|].
  acts_step; [apply write_note_acts|].
  acts_step; [apply add_to_contract_index_acts|].
  destruct (sn_block_number note); [by apply add_to_block_index_acts|acts_done].
Qed.

Lemma apply_one_acts v0 d nb : in_u 64 nb.2 → acts v0 d (apply_one nb) (db_apply nb d).
Proof.
  intros Hb. destruct nb as [n b]. unfold apply_one, db_apply. simpl in *. apply spec_read_note.
  destruct (db_notes d !! n) as [note|]; [|acts_done].
  destruct (sn_nullified note); [acts_done|].
  acts_step; [apply write_note_acts|by apply add_to_nullify_index_acts].
Qed.

Lemma un_nullify_acts v0 d n : acts v0 d (un_nullify n) (db_un_nullify d n).
Proof.
  unfold un_nullify, db_un_nullify, set_notes. rewrite alter_alt. apply spec_read_note.
  destruct (db_notes d !! n) as [note|]; [apply write_note_acts|].
  destruct d. acts_done.
Qed.

Lemma remove_from_contract_index_acts v0 d c n :
  acts v0 d (remove_from_contract_index c n) (set_contract (idx_remove c n) d).
Proof.
  unfold remove_from_contract_index, idx_remove, set_contract. cbn zeta.
  apply (spec_read_then contract_index_key _ (strings <$> db_contract d)); [by intros v []|].
  rewrite lookup_fmap. destruct (db_contract d !! c) as [l|]; simpl.
  - rewrite strings_filter. case_decide as Hl; case_decide as Hl'.
    + apply spec_delete. intros v Hv. by apply rep_delete_contract.
    + by apply fmap_nil_inv in Hl.
    + by rewrite Hl' in Hl.
    + apply (spec_write_json contract_index_key). intros v b Hv Hb. by apply rep_put_contract.
  - destruct d. acts_done.
Qed.

Lemma delete_note_acts v0 d n : acts v0 d (delete_note n) (db_delete d n).
Proof.
  unfold delete_note, db_delete. cbn zeta. apply spec_read_note.
  destruct (db_notes d !! n) as [note|].
  - acts_step; [apply remove_from_contract_index_acts|].
    apply spec_delete. intros v Hv. by apply rep_delete_note.
  - acts_step; [acts_done|]. apply spec_delete. intros v Hv. by apply rep_delete_note.
Qed.

Lemma phase1_acts v0 d b kb e :
  encodes_entry nullification_block_index_key kb e →
  acts v0 d (rollback_entry "note_idx:nullify_block:" b un_nullify kb) (phase1 b d e).
Proof.
  destruct kb as [key bytes], e as [k l]. intros (Hk & Hkey & Hb). simpl in *. subst key.
  unfold phase1. apply (rollback_entry_acts (λ d v, rep v0 v d) "note_idx:nullify_block:" b un_nullify db_un_nullify
    (set_nullify (delete k)) k l bytes); [done..|intros; apply un_nullify_acts|].
  intros d'. apply spec_delete. intros v Hv. by apply rep_delete_nullify.
Qed.

Lemma phase2_acts v0 d b kb e :
  encodes_entry block_index_key kb e →
  acts v0 d (rollback_entry "note_idx:block:" b delete_note kb) (phase2 b d e).
Proof.
  destruct kb as [key bytes], e as [k l]. intros (Hk & Hkey & Hb). simpl in *. subst key.
  unfold phase2. apply (rollback_entry_acts (λ d v, rep v0 v d) "note_idx:block:" b delete_note db_delete
    (set_block (delete k)) k l bytes); [done..|intros; apply delete_note_acts|].
  intros d'. apply spec_delete. intros v Hv. by apply rep_delete_block.
Qed.

Lemma rollback_acts v0 d b :
  spec (λ v, rep v0 v d) (rollback b) (λ _ v, ∃ es1 es2,
    let d1 := foldl (phase1 b) d es1 in
    entries_of (db_nullify d) es1 ∧ entries_of (db_block d1) es2 ∧
    rep v0 v (foldl (phase2 b) d1 es2)).
Proof.
  unfold rollback. apply spec_assoc. eapply spec_then.
  - apply (index_loop_acts (λ d v, rep v0 v d) nullification_block_index_key nullify_prefix _ (phase1 b) db_nullify).
    + by intros v [].
    + apply nullify_key_prefix.
    + intros v key c Hv Hk Hp. by apply (rep_shape v0 v d Hv key c).
    + intros d' kb e He. by apply phase1_acts.
  - intros [] s Hs (es1 & He1 & Hv).
    destruct (index_loop_acts (λ d v, rep v0 v d) block_index_key block_prefix
      (rollback_entry "note_idx:block:" b delete_note) (phase2 b) db_block
      (foldl (phase1 b) d es1)) with (s := s) as (s' & a & E & Hs' & es2 & He2 & Hr); [| | | |done..|].
    + by intros v [].
    + apply block_key_prefix.
    + intros v key c Hr Hk Hp. by apply (rep_shape v0 v _ Hr key c).
    + intros d' kb e He. by apply phase2_acts.
    + exists s', a. eauto 10.
Qed.
End operations.

(** ** The contract, on maps of notes *)

Section contract.
Context {FR : PrimeField fr_modulus} {HX : HexCrate}.
Context {SN : SerdeJson StoredNote} {SL : SerdeJson (list string)}.
Implicit Types (v : view) (d : NoteDb) (n : Fr) (note : StoredNote).
Implicit Types (notes : gmap Fr StoredNote).

(** The view holds [notes] with indexes that agree, and [v0] elsewhere. *)
Definition holds (v0 : view) notes v : Prop :=
  ∃ d, rep v0 v d ∧ db_inv d ∧ db_notes d = notes.

Definition map_add (scope : AztecAddress) notes note : gmap Fr StoredNote :=
  let n := sn_siloed_nullifier note in
  <[n := push_scope scope (default note (notes !! n))]> notes.

Definition nullify_at (b : Z) note : StoredNote :=
  if sn_nullified note then note else with_nullified note true (Some b).

Definition map_apply notes (nb : Fr * Z) : gmap Fr StoredNote :=
  alter (nullify_at nb.2) nb.1 notes.

(** The operations that change the store. *)
Inductive NoteOp :=
  | AddNotes (notes : list StoredNote) (scope : AztecAddress)
  | ApplyNullifiers (nullifiers : list (Fr * Z))
  | Rollback (block_number : Z).

Definition map_op notes (op : NoteOp) : gmap Fr StoredNote :=
  match op with
  | AddNotes l scope => foldl (map_add scope) notes l
  | ApplyNullifiers l => foldl map_apply notes l
  | Rollback b => omap (rolled_back b) notes
  end.

(** The nullification of a note is not earlier than its creation. *)
Definition nullifier_ok notes (nb : Fr * Z) : Prop :=
  in_u 64 nb.2 ∧ ∀ note c, notes !! nb.1 = Some note → sn_nullified note = false →
    sn_block_number note = Some c → c ≤ nb.2.

Definition op_ok notes (op : NoteOp) : Prop :=
  match op with
  | AddNotes l _ => Forall (λ note, note_ok note ∧ sn_nullified note = false) l
  | ApplyNullifiers l => Forall (nullifier_ok notes) l
  | Rollback _ => True
  end.

Fixpoint ops_ok notes (ops : list NoteOp) : Prop :=
  match ops with [] => True | op :: ops => op_ok notes op ∧ ops_ok (map_op notes op) ops end.

Lemma db_add_notes scope note d : db_notes (db_add scope note d) = map_add scope (db_notes d) note.
Proof.
  unfold db_add, map_add. cbn zeta. destruct (db_notes d !! sn_siloed_nullifier note); [done|].
  by destruct (sn_block_number note).
Qed.

Lemma db_apply_notes nb d : db_notes (db_apply nb d) = map_apply (db_notes d) nb.
Proof.
  unfold db_apply, map_apply, nullify_at. rewrite alter_alt.
  destruct (db_notes d !! nb.1) as [note|] eqn:E; [|done]. destruct (sn_nullified note); [|done].
  by rewrite insert_id.
Qed.

Lemma nullifier_ok_apply notes nb nb' : nullifier_ok notes nb → nullifier_ok (map_apply notes nb') nb.
Proof.
  intros [Hb Hc]. split; [done|]. intros note c Hn Hf. unfold map_apply in Hn.
  apply lookup_alter_Some in Hn as [(_ & note' & _ & ->)|[_ Hn]]; [|by apply Hc].
  revert Hf. unfold nullify_at. destruct (sn_nullified note') eqn:E'; [congruence|done].
Qed.

Context {St : Type} `{KvStoreLaws St}.

Lemma add_notes_holds v0 notes l scope :
  Forall (λ note, note_ok note ∧ sn_nullified note = false) l →
  spec (holds v0 notes) (add_notes l scope) (λ _, holds v0 (foldl (map_add scope) notes l)).
Proof.
  intros Hl. apply (spec_for_each_fold (λ v m, holds v0 m v)
    (add_one scope) (λ x y, x = y ∧ note_ok x ∧ sn_nullified x = false) (map_add scope) l l notes).
  - by apply Forall_Forall2_diag, (Forall_impl _ _ _ Hl).
  - intros x y m [<- [Hok Hn]] s Hs (d & Hd & Hi & <-).
    destruct (add_one_acts v0 d scope x Hok s Hs Hd) as (s' & a & E & Hs' & Hr).
    exists s', a. split_and!; [done..|]. eexists. split_and!; [done|by apply db_add_inv|].
    apply db_add_notes.
Qed.

Lemma apply_nullifiers_holds v0 notes l :
  Forall (nullifier_ok notes) l →
  spec (holds v0 notes) (apply_nullifiers l) (λ _, holds v0 (foldl map_apply notes l)).
Proof.
  unfold apply_nullifiers. revert notes. induction l as [|nb l IH]; intros notes Hl; simpl.
  { by apply spec_ok. }
  inversion_clear Hl as [|?? Hnb Hl']. eapply (spec_then _ _ _ (λ _, holds v0 (map_apply notes nb))).
  - intros s Hs (d & Hd & Hi & <-). destruct Hnb as [Hb Hc].
    destruct (apply_one_acts v0 d nb Hb s Hs Hd) as (s' & a & E & Hs' & Hr).
    exists s', a. split_and!; [done..|]. eexists. split_and!; [done| |apply db_apply_notes].
    destruct nb. by apply db_apply_inv.
  - intros _. apply IH. eapply Forall_impl; [done|]. intros. by apply nullifier_ok_apply.
Qed.

Lemma rollback_holds v0 notes b :
  spec (holds v0 notes) (rollback b) (λ _, holds v0 (omap (rolled_back b) notes)).
Proof.
  intros s Hs (d & Hd & Hi & <-).
  destruct (rollback_acts v0 d b s Hs Hd) as (s' & a & E & Hs' & es1 & es2 & H1 & H2 & Hr).
  destruct (db_rollback b d es1 es2 Hi H1 H2) as [Hi' Hn].
  exists s', a. split_and!; [done..|]. eexists. split_and!; [done..|].
  apply map_eq. intros n. by rewrite Hn, lookup_omap.
Qed.

Definition run_op (op : NoteOp) : M St () :=
  match op with
  | AddNotes l scope => add_notes l scope
  | ApplyNullifiers l => apply_nullifiers l
  | Rollback b => rollback b
  end.

Lemma run_op_holds v0 notes op :
  op_ok notes op → spec (holds v0 notes) (run_op op) (λ _, holds v0 (map_op notes op)).
Proof.
  destruct op; simpl; intros Hok;
    [by apply add_notes_holds|by apply apply_nullifiers_holds|apply rollback_holds].
Qed.

Lemma run_ops_holds v0 notes ops :
  ops_ok notes ops →
  spec (holds v0 notes) (for_each run_op ops) (λ _, holds v0 (foldl map_op notes ops)).
Proof.
  revert notes. induction ops as [|op ops IH]; intros notes Hok; simpl; [by apply spec_ok|].
  destruct Hok as [Hop Hok]. eapply spec_then; [by apply run_op_holds|]. intros a. by apply IH.
Qed.

Lemma holds_empty : holds ∅ ∅ ∅.
Proof.
  exists {| db_notes := ∅; db_contract := ∅; db_block := ∅; db_nullify := ∅ |}.
  split_and!; [constructor|constructor|done]; cbn [db_notes db_contract db_block db_nullify];
    rewrite ?fmap_empty; try (by apply table_empty); intros; unfold indexed; simplify_map_eq;
    try done; set_solver.
Qed.
End contract.

(** ** Queries *)

Section queries.
Context {FR : PrimeField fr_modulus} {HX : HexCrate}.
Context {SN : SerdeJson StoredNote} {SL : SerdeJson (list string)}.
Context {St : Type} `{KvStoreLaws St}.
Implicit Types (v : view) (d : NoteDb) (n : Fr) (note : StoredNote).
Implicit Types (notes : gmap Fr StoredNote).

Definition contract_notes (c : AztecAddress) notes : list StoredNote :=
  List.filter (λ note, bool_decide (sn_contract_address note = c)) (map_to_list notes).*2.

Definition selected (filter : NoteFilter) note : bool :=
  match nf_contract_address filter with
  | Some c => bool_decide (sn_contract_address note = c) | None => true end
  && matches filter note.

Lemma note_cmp_key a b : note_cmp a b =
  ord_cmp [sn_block_number a; sn_tx_index_in_block a; sn_note_index_in_tx a]
          [sn_block_number b; sn_tx_index_in_block b; sn_note_index_in_tx b].
Proof.
  unfold note_cmp. cbn. unfold cmp_then. repeat case_match; done.
Qed.

Lemma sort_notes_sorted l : StronglySorted (cmp_le note_cmp) (sort_by note_cmp l).
Proof.
  apply sort_by_sorted.
  - intros x y. rewrite !note_cmp_key. apply ord_cmp_antisym.
  - intros x y z. unfold cmp_le. rewrite !note_cmp_key.
    apply (key_cmp_le_trans (λ k : list (option Z), k)).
Qed.

Lemma for_fold_push v0 d (acc : list StoredNote) (l : list Fr) :
  spec (λ v, rep v0 v d) (for_fold push_indexed acc (strings l))
    (λ r v, rep v0 v d ∧ r = acc ++ omap (λ n, db_notes d !! n) l).
Proof.
  revert acc. induction l as [|n l IH]; intros acc; simpl.
  { apply spec_ok. intros v Hv. by rewrite app_nil_r. }
  eapply (spec_then _ _ _ (λ acc' v, rep v0 v d ∧ acc' = acc ++ option_list (db_notes d !! n))).
  - unfold push_indexed. rewrite Fr_from_to_string. apply spec_read_note.
    destruct (db_notes d !! n) as [note|]; simpl; apply spec_ok; [done|].
    intros v Hv. by rewrite app_nil_r.
  - intros acc' s Hs [Hv ->]. destruct (IH (acc ++ option_list (db_notes d !! n)) s Hs Hv)
      as (s' & r & E & Hs' & Hr & ->). exists s'. eexists. split_and!; [exact E|done..|].
    rewrite <- app_assoc. by destruct (db_notes d !! n).
Qed.

(** The notes an index names, against all the notes of the contract. *)
Lemma indexed_notes d c (l : list Fr) :
  db_inv d → default [] (db_contract d !! c) = l →
  omap (λ n, db_notes d !! n) l ≡ₚ contract_notes c (db_notes d).
Proof. intros Hd%db_inv_table <-. apply (indexed_vals _ _ (table_of d) c Hd). Qed.

Lemma get_notes_for_contract_holds v0 notes c :
  spec (holds v0 notes) (get_notes_for_contract c)
    (λ r v, holds v0 notes v ∧ r ≡ₚ contract_notes c notes).
Proof.
  intros s Hs (d & Hd & Hi & <-). pose proof (indexed_notes d c _ Hi eq_refl) as Hp. revert s Hs Hd.
  enough (spec (λ v, rep v0 v d) (get_notes_for_contract c)
    (λ r v, rep v0 v d ∧ r ≡ₚ contract_notes c (db_notes d))) as Hg.
  { intros s Hs Hd. destruct (Hg s Hs Hd) as (s' & r & E & Hs' & Hr & Hp'). exists s', r.
    split_and!; [done..| |done]. by exists d. }
  apply (spec_read_then contract_index_key _ (strings <$> db_contract d)); [by intros v []|].
  rewrite lookup_fmap. destruct (db_contract d !! c) as [l|]; simpl in *.
  - eapply spec_weaken; [apply (for_fold_push v0 d [] l)|done|]. intros r v [Hv ->]. done.
  - by apply spec_ok.
Qed.

Lemma get_all_notes_holds v0 notes :
  spec (holds v0 notes) get_all_notes (λ r v, holds v0 notes v ∧ r ≡ₚ (map_to_list notes).*2).
Proof.
  unfold get_all_notes. eapply spec_then.
  - apply (spec_list_prefix _ _ (λ kbs v, holds v0 notes v ∧ ∃ es : list (Fr * StoredNote),
      Forall2 (λ kb kx, kb.1 = note_key_by_nullifier kx.1 ∧ from_slice kb.2 = Ok kx.2) kbs es ∧
      es ≡ₚ map_to_list notes)).
    intros v kbs Hv Hsort Hl. split; [done|]. destruct Hv as (d & Hd & _ & <-).
    apply (listed_table note_key_by_nullifier note_prefix v); [by destruct Hd| | |done..].
    + apply note_key_prefix.
    + intros key b Hb Hpre. by apply (rep_shape v0 v d Hd key b).
  - intros kbs s Hs [Hv (es & HF & Hes)]. exists s, es.*2. split_and!; [|done..|by rewrite Hes].
    unfold mlift. f_equal. apply omapM_Forall2.
    rewrite Forall2_fmap_r. eapply Forall2_impl; [exact HF|]. naive_solver.
Qed.

Lemma get_notes_holds v0 notes filter :
  spec (holds v0 notes) (get_notes filter) (λ r v, holds v0 notes v ∧
    r ≡ₚ List.filter (selected filter) (map_to_list notes).*2 ∧
    StronglySorted (cmp_le note_cmp) r).
Proof.
  unfold get_notes. eapply (spec_then _ _ _ (λ r v, holds v0 notes v ∧
    List.filter (matches filter) r ≡ₚ List.filter (selected filter) (map_to_list notes).*2)).
  - unfold selected. destruct (nf_contract_address filter) as [c|].
    + eapply spec_weaken; [apply (get_notes_for_contract_holds v0 notes c)|done|].
      intros r v [Hv Hr]. split; [done|]. rewrite (filter_perm _ _ _ Hr).
      unfold contract_notes. by rewrite filter_and.
    + eapply spec_weaken; [apply (get_all_notes_holds v0 notes)|done|].
      intros r v [Hv Hr]. split; [done|]. by apply filter_perm.
  - intros r. apply spec_ok. intros v [Hv Hr]. split_and!; [done| |apply sort_notes_sorted].
    by rewrite sort_by_perm.
Qed.
End queries.

(** ** Undoing *)

Section undo.
Context {FR : PrimeField fr_modulus} {HX : HexCrate}.
Implicit Types (note : StoredNote) (notes base : gmap Fr StoredNote).

(** What happened up to block [b]. *)
Definition settled (b : Z) notes : Prop :=
  ∀ n note, notes !! n = Some note → rolled_back b note = Some note.

(** An operation that belongs to blocks after [b]: it adds only notes created there
    and nullifies only there. *)
Definition after (b : Z) base (op : NoteOp) : Prop :=
  match op with
  | AddNotes l _ => Forall (λ note, base !! sn_siloed_nullifier note = None ∧
      ∃ c, sn_block_number note = Some c ∧ b < c) l
  | ApplyNullifiers l => Forall (λ nb, b < nb.2) l
  | Rollback b' => b ≤ b'
  end.

Definition clean note : Prop :=
  sn_nullified note = false → sn_nullification_block_number note = None.

Lemma note_ok_clean note : note_ok note → clean note.
Proof. intros [_ Hok] Hn. by rewrite Hn in Hok. Qed.

(** [notes] is [base] with what happened after [b]. *)
Definition extends (b : Z) base notes : Prop :=
  (∀ n note, notes !! n = Some note → clean note) ∧
  (∀ n, notes !! n ≫= rolled_back b = base !! n).

Lemma rolled_back_push_scope b scope note c :
  sn_block_number note = Some c → b < c → rolled_back b (push_scope scope note) = None.
Proof.
  intros Hc Hb. unfold rolled_back. destruct (push_scope_fields scope note) as (_ & _ & -> & _).
  rewrite Hc. by destruct (Z.ltb_spec b c); [|lia].
Qed.

Lemma rolled_back_None b note :
  rolled_back b note = None ↔ ∃ c, sn_block_number note = Some c ∧ b < c.
Proof.
  unfold rolled_back. destruct (sn_block_number note) as [c|]; [|naive_solver].
  destruct (Z.ltb_spec b c); [naive_solver|]. split; [done|]. intros (? & [= <-] & ?). lia.
Qed.

Lemma extends_add b base notes scope note :
  clean note → base !! sn_siloed_nullifier note = None →
  (∃ c, sn_block_number note = Some c ∧ b < c) →
  extends b base notes → extends b base (map_add scope notes note).
Proof.
  intros Hok Hb Hc [H1 H2]. unfold map_add. set (n := sn_siloed_nullifier note) in *. split.
  - intros m x [[<- <-]|[_ Hm]]%lookup_insert_Some; [|by eapply H1].
    rewrite push_scope_eq. unfold clean. simpl.
    destruct (notes !! n) eqn:E; simpl; [by eapply H1|done].
  - intros m. destruct (decide (m = n)) as [->|Hm].
    + rewrite lookup_insert_eq, Hb. simpl.
      assert (∃ c, sn_block_number (default note (notes !! n)) = Some c ∧ b < c) as (c & ? & ?).
      { specialize (H2 n). rewrite Hb in H2. destruct (notes !! n) as [x|]; [|done].
        by apply rolled_back_None. }
      by eapply rolled_back_push_scope.
    + by rewrite lookup_insert_ne.
Qed.

Lemma rolled_back_nullify b b' note :
  clean note → b < b' → rolled_back b (nullify_at b' note) = rolled_back b note.
Proof.
  intros Hok Hb. unfold nullify_at. destruct (sn_nullified note) eqn:En; [done|].
  unfold rolled_back, un_nullify_after. simpl. rewrite (Hok En).
  destruct (Z.ltb_spec b b'); [|lia].
  assert (un_nullified (with_nullified note true (Some b')) = note) as ->; [|done].
  specialize (Hok En). destruct note. simpl in *. by subst.
Qed.

Lemma rolled_back_twice b b' note :
  b ≤ b' → rolled_back b' note ≫= rolled_back b = rolled_back b note.
Proof.
  intros Hb. unfold rolled_back at 2 3. destruct (un_nullify_after_fields b' note) as (_ & _ & E).
  assert (un_nullify_after b (un_nullify_after b' note) = un_nullify_after b note) as E2.
  { unfold un_nullify_after at 2 3. destruct (sn_nullification_block_number note) as [k|] eqn:Ek.
    - destruct (Z.ltb_spec b' k), (Z.ltb_spec b k); try lia; try done;
        unfold un_nullify_after; rewrite ?Ek; try done; by destruct (Z.ltb_spec b k); try lia.
    - unfold un_nullify_after. by rewrite Ek. }
  destruct (sn_block_number note) as [c|] eqn:Ec; simpl.
  - destruct (Z.ltb_spec b' c) as [Hc|Hc]; simpl.
    + by destruct (Z.ltb_spec b c); [|lia].
    + unfold rolled_back. by rewrite E, E2.
  - unfold rolled_back. by rewrite E, E2.
Qed.

Lemma extends_apply b base notes nb :
  b < nb.2 → extends b base notes → extends b base (map_apply notes nb).
Proof.
  destruct nb as [k c]. intros Hb [H1 H2]. unfold map_apply. simpl in *. split.
  - intros n x [(_ & note & Hn & ->)|[_ Hn]]%lookup_alter_Some; [|by eapply H1].
    unfold nullify_at. destruct (sn_nullified note) eqn:E; [by eapply H1|done].
  - intros n. rewrite <- H2. destruct (decide (n = k)) as [->|Hn].
    + rewrite lookup_alter_eq. destruct (notes !! k) as [note|] eqn:E; [|done]. simpl.
      apply rolled_back_nullify; [by eapply H1|done].
    + by rewrite lookup_alter_ne.
Qed.

Lemma extends_rollback b b' base notes :
  b ≤ b' → extends b base notes → extends b base (omap (rolled_back b') notes).
Proof.
  intros Hb [H1 H2]. split.
  - intros n x (note & Hx & Hn)%lookup_omap_Some. assert (x = un_nullify_after b' note) as ->.
    { revert Hx. unfold rolled_back. destruct (sn_block_number note) as [c|]; [destruct (b' <? c)|]; by intros [= ->]. }
    unfold un_nullify_after. repeat case_match; [done|by eapply H1..].
  - intros n. rewrite <- H2, lookup_omap. destruct (notes !! n) as [note|]; [|done]. simpl.
    by apply rolled_back_twice.
Qed.

Lemma extends_op b base notes op :
  op_ok notes op → after b base op → extends b base notes → extends b base (map_op notes op).
Proof.
  destruct op as [l scope|l|b']; simpl; intros Hok Ha He.
  - revert notes Hok He. induction l as [|note l IH]; intros notes Hok He; [done|]. simpl.
    inversion_clear Hok as [|?? [Hok1 _] Hok2]. inversion_clear Ha as [|?? [Hb Hc] Ha2].
    apply IH; [done..|]. by apply extends_add; [apply note_ok_clean|..].
  - clear Hok. revert notes He. induction l as [|nb l IH]; intros notes He; [done|]. simpl.
    inversion_clear Ha. apply IH; [done|]. by apply extends_apply.
  - by apply extends_rollback.
Qed.

Lemma extends_ops b base notes ops :
  ops_ok notes ops → Forall (after b base) ops → extends b base notes →
  extends b base (foldl map_op notes ops).
Proof.
  revert notes. induction ops as [|op ops IH]; intros notes Hok Ha He; simpl; [done|].
  destruct Hok. inversion_clear Ha. apply IH; [done..|]. by apply extends_op.
Qed.

Lemma undo_ops b base ops :
  (∀ n note, base !! n = Some note → clean note) → settled b base →
  ops_ok base ops → Forall (after b base) ops →
  omap (rolled_back b) (foldl map_op base ops) = base.
Proof.
  intros Hc Hs Hok Ha. destruct (extends_ops b base base ops Hok Ha) as [_ He].
  { split; [done|]. intros n. destruct (base !! n) eqn:E; [by eapply Hs|done]. }
  apply map_eq. intros n. by rewrite lookup_omap.
Qed.
End undo.

(** ** Properties *)

Import Concrete.Instances.





(** *** Witnesses, in the in-memory store *)

Definition note_tuple (n : StoredNote) :=
  (sn_contract_address n, sn_owner n, sn_storage_slot n, sn_randomness n, sn_note_nonce n,
   sn_note_hash n, sn_siloed_nullifier n, sn_note_data n,
   (sn_nullified n, sn_is_pending n, sn_nullification_block_number n, sn_leaf_index n,
    sn_block_number n, sn_tx_index_in_block n, sn_note_index_in_tx n, sn_scopes n)).

Definition tuple_note : _ → StoredNote :=
  λ '(a, b, c, d, e, f, g, h, (i, j, k, l, m, n, o, p)),
    Build_StoredNote a b c d e f g h i j k l m n o p.

Lemma tuple_note_tuple a : tuple_note (note_tuple a) = a.
Proof. by destruct a. Qed.

Lemma note_tuple_inj a b : note_tuple a = note_tuple b → a = b.
Proof. intros E. by rewrite <- (tuple_note_tuple a), E, tuple_note_tuple. Qed.

#[local] Instance StoredNote_eq_dec : EqDecision StoredNote := λ a b,
  match decide (note_tuple a = note_tuple b) with
  | left E => left (note_tuple_inj a b E)
  | right N => right (λ E, N (f_equal note_tuple E))
  end.

#[local] Instance StoredNote_countable : Countable StoredNote :=
  inj_countable' note_tuple tuple_note tuple_note_tuple.
#[local] Instance note_serde : SerdeJson StoredNote := countable_serde StoredNote.
#[local] Instance strings_serde : SerdeJson (list string) := countable_serde (list string).

Definition example_note (nullifier : Fr) (block : Z) : StoredNote :=
  {| sn_contract_address := Fr_one; sn_owner := Fr_one; sn_storage_slot := Fr_zero;
     sn_randomness := Fr_zero; sn_note_nonce := Fr_one; sn_note_hash := Fr_one;
     sn_siloed_nullifier := nullifier; sn_note_data := [Fr_one]; sn_nullified := false;
     sn_is_pending := false; sn_nullification_block_number := None; sn_leaf_index := Some 4;
     sn_block_number := Some block; sn_tx_index_in_block := None; sn_note_index_in_tx := None;
     sn_scopes := [] |}.

Definition example_notes : gmap Fr StoredNote := map_add Fr_one ∅ (example_note Fr_one 3).

Definition example_store : InMemoryKvStore :=
  (add_notes [example_note Fr_one 3] Fr_one InMemoryKvStore_new).1.

Lemma example_note_ok n b : in_u 64 b → note_ok (example_note n b).
Proof. by intros. Qed.

Lemma example_nullifier_ok : nullifier_ok example_notes (Fr_one, 5).
Proof.
  split; [done|]. intros note c Hn _. unfold example_notes, map_add in Hn. simpl in Hn.
  rewrite lookup_insert_eq in Hn. injection Hn as <-. vm_compute. intros [= <-]. discriminate.
Qed.

Lemma example_store_holds :
  bt_wf example_store ∧ holds ∅ example_notes (bt_view example_store).
Proof.
  destruct (add_notes_holds ∅ ∅ [example_note Fr_one 3] Fr_one) with (s := InMemoryKvStore_new)
    as (s' & a & E & Hs & Hh); [by repeat constructor|constructor|apply holds_empty|].
  unfold example_store. rewrite E. done.
Qed.




