(* ===== verification/EventSpec.v ===== *)
(** The contract of the private event store: over any lawful key-value store its
    operations act on a map from siloed commitments to events, a query returns the
    matching events in chain order, and a rollback forgets what came after a block. *)

From Stdlib Require Import Ascii String.
From S2P Require Import Prelude Bytes Ordered Deps Concrete Types Kv LocalStores NoteStore EventStore Indexes.
Import PrivateEventStore.

(** ** Keys *)

Section keys.
Context {FR : PrimeField fr_modulus} {HX : HexCrate}.

Definition cs_key (cs : AztecAddress * Fr) : list byte := contract_selector_index_key cs.1 cs.2.

#[global] Instance event_key_inj : Inj (=) (=) event_key.
Proof. intros n m E%as_bytes_append_inj. by apply Fr_to_string_inj. Qed.
#[global] Instance event_block_key_inj : Inj (=) (=) block_index_key.
Proof. intros n m E%as_bytes_append_inj. by apply (inj pretty). Qed.
#[global] Instance cs_key_inj : Inj (=) (=) cs_key.
Proof.
  intros [c s] [c' s'] E%as_bytes_append_inj. simpl in E.
  apply string_app_inj_length in E as [->%Fr_to_string_inj E]; [|by rewrite !length_Fr_to_string].
  apply string_app_inj_length in E as [_ ->%Fr_to_string_inj]; done.
Qed.

Definition event_prefix : list byte := as_bytes "event:".
Definition event_index_prefix : list byte := as_bytes "event_idx:".
Definition event_block_prefix : list byte := as_bytes "event_idx:block:".

(** The keys of the event store, in the one store that all the local stores share. *)
Definition event_namespace (key : list byte) : Prop :=
  event_prefix `prefix_of` key ∨ event_index_prefix `prefix_of` key.

Definition event_key_shape (key : list byte) : Prop :=
  event_block_prefix `prefix_of` key → ∃ z, in_u 64 z ∧ key = block_index_key z.

Ltac no_prefix := let t := fresh in let E := fresh in intros [t E]; discriminate E.

Lemma event_key_shape_event n : event_key_shape (event_key n).
Proof. no_prefix. Qed.
Lemma event_key_shape_cs cs : event_key_shape (cs_key cs).
Proof. no_prefix. Qed.
Lemma event_key_shape_block z : in_u 64 z → event_key_shape (block_index_key z).
Proof. intros Hz _. by exists z. Qed.
Lemma event_block_key_prefix z : event_block_prefix `prefix_of` block_index_key z.
Proof. eexists. apply as_bytes_app. Qed.
Lemma event_key_ns n : event_namespace (event_key n).
Proof. left. by eexists. Qed.
Lemma cs_key_ns cs : event_namespace (cs_key cs).
Proof. right. by eexists. Qed.
Lemma event_block_key_ns z : event_namespace (block_index_key z).
Proof. right. by eexists. Qed.
Lemma cs_event_apart cs n : cs_key cs ≠ event_key n.
Proof. intros E. discriminate E. Qed.
Lemma block_event_apart z n : block_index_key z ≠ event_key n.
Proof. intros E. discriminate E. Qed.
Lemma cs_block_apart cs z : cs_key cs ≠ block_index_key z.
Proof. intros E. discriminate E. Qed.
End keys.

Create HintDb event_keys.
#[export] Hint Resolve event_key_shape_event event_key_shape_cs event_key_shape_block
  event_key_ns cs_key_ns event_block_key_ns cs_event_apart block_event_apart cs_block_apart
  not_eq_sym : event_keys.

(** ** The table a store represents *)

Section representation.
Context {FR : PrimeField fr_modulus} {HX : HexCrate}.
Context {SE : SerdeJson StoredPrivateEvent} {SL : SerdeJson (list string)}.

Definition event_cs (e : StoredPrivateEvent) : AztecAddress * Fr :=
  (ev_contract_address e, ev_event_selector e).
Definition event_block (e : StoredPrivateEvent) : option Z := Some (ev_l2_block_number e).

Notation EventTable := (Table StoredPrivateEvent (AztecAddress * Fr)).
Implicit Types (v : view) (d : EventTable) (n : Fr) (l : list Fr) (e : StoredPrivateEvent).

Record event_rep (v0 : view) d v : Prop := {
  er_vals : table event_key v (t_vals d);
  er_idx : table cs_key v (strings <$> t_idx d);
  er_block : table block_index_key v (strings <$> t_block d);
  er_shape : ∀ key b, v !! key = Some b → event_key_shape key;
  er_frame : ∀ key, ¬ event_namespace key → v !! key = v0 !! key;
}.

Lemma er_put_shape v k b :
  (∀ key c, v !! key = Some c → event_key_shape key) → event_key_shape k →
  ∀ key c, <[k:=b]> v !! key = Some c → event_key_shape key.
Proof. intros Hv Hk key c [[-> _]|[_ ?]]%lookup_insert_Some; eauto. Qed.
Lemma er_del_shape v k :
  (∀ key c, v !! key = Some c → event_key_shape key) →
  ∀ key c, delete k v !! key = Some c → event_key_shape key.
Proof. intros Hv key c [_ ?]%lookup_delete_Some; eauto. Qed.
Lemma er_put_frame (v0 v : view) k b :
  (∀ key, ¬ event_namespace key → v !! key = v0 !! key) → event_namespace k →
  ∀ key, ¬ event_namespace key → <[k:=b]> v !! key = v0 !! key.
Proof. intros Hv Hk key Hn. rewrite lookup_insert_ne by (by intros ->). auto. Qed.
Lemma er_del_frame (v0 v : view) k :
  (∀ key, ¬ event_namespace key → v !! key = v0 !! key) → event_namespace k →
  ∀ key, ¬ event_namespace key → delete k v !! key = v0 !! key.
Proof. intros Hv Hk key Hn. rewrite lookup_delete_ne by (by intros ->). auto. Qed.

(** Writes to one of the three parts of the table. *)
Definition with_vals (f : gmap Fr StoredPrivateEvent → gmap Fr StoredPrivateEvent) d : EventTable :=
  {| t_vals := f (t_vals d); t_idx := t_idx d; t_block := t_block d |}.
Definition with_idx (f : gmap (AztecAddress * Fr) (list Fr) → gmap (AztecAddress * Fr) (list Fr)) d
    : EventTable := {| t_vals := t_vals d; t_idx := f (t_idx d); t_block := t_block d |}.
Definition with_block (f : gmap Z (list Fr) → gmap Z (list Fr)) d : EventTable :=
  {| t_vals := t_vals d; t_idx := t_idx d; t_block := f (t_block d) |}.

Ltac solve_event_rep :=
  constructor; cbn [with_vals with_idx with_block t_vals t_idx t_block];
  rewrite ?fmap_insert, ?fmap_delete;
  first [ by apply (table_insert _) | by apply (table_delete _)
        | apply table_insert_other; [done|by auto with event_keys]
        | apply table_delete_other; [done|by auto with event_keys]
        | apply er_put_shape; by auto with event_keys
        | by apply er_del_shape
        | apply er_put_frame; by auto with event_keys
        | apply er_del_frame; by auto with event_keys ].

Lemma er_put_event v0 v d n e b :
  event_rep v0 d v → from_slice b = Ok e →
  event_rep v0 (with_vals <[n:=e]> d) (<[event_key n:=b]> v).
Proof. intros [] Hb. solve_event_rep. Qed.
Lemma er_delete_event v0 v d n :
  event_rep v0 d v → event_rep v0 (with_vals (delete n) d) (delete (event_key n) v).
Proof. intros []. solve_event_rep. Qed.
Lemma er_put_cs v0 v d cs l b :
  event_rep v0 d v → from_slice b = Ok (strings l) →
  event_rep v0 (with_idx <[cs:=l]> d) (<[cs_key cs:=b]> v).
Proof. intros [] Hb. solve_event_rep. Qed.
Lemma er_delete_cs v0 v d cs :
  event_rep v0 d v → event_rep v0 (with_idx (delete cs) d) (delete (cs_key cs) v).
Proof. intros []. solve_event_rep. Qed.
Lemma er_put_block v0 v d k l b :
  event_rep v0 d v → in_u 64 k → from_slice b = Ok (strings l) →
  event_rep v0 (with_block <[k:=l]> d) (<[block_index_key k:=b]> v).
Proof. intros [] Hk Hb. solve_event_rep. Qed.
Lemma er_delete_block v0 v d k :
  event_rep v0 d v → event_rep v0 (with_block (delete k) d) (delete (block_index_key k) v).
Proof. intros []. solve_event_rep. Qed.
End representation.

(** ** The operations act on the represented table *)

Section operations.
Context {FR : PrimeField fr_modulus} {HX : HexCrate}.
Context {SE : SerdeJson StoredPrivateEvent} {SL : SerdeJson (list string)}.
Context {St : Type} `{KvStoreLaws St}.
Notation EventTable := (Table StoredPrivateEvent (AztecAddress * Fr)).
Implicit Types (v : view) (d : EventTable) (n : Fr) (l : list Fr) (e : StoredPrivateEvent).

Notation acts v0 := (acts_on (event_rep v0)).
Ltac acts_step := eapply (acts_then (event_rep _)).
Ltac acts_done := apply (acts_ok (event_rep _)).

Lemma event_push_scope_fields scope e :
  ev_siloed_event_commitment (event_push_scope scope e) = ev_siloed_event_commitment e ∧
  event_cs (event_push_scope scope e) = event_cs e ∧
  ev_l2_block_number (event_push_scope scope e) = ev_l2_block_number e.
Proof. unfold event_push_scope. by destruct (decide _). Qed.

Lemma spec_read_event v0 d n {A : Type} (k : option StoredPrivateEvent → M St A) (Q : A → view → Prop) :
  spec (event_rep v0 d) (k (t_vals d !! n)) Q →
  spec (event_rep v0 d) (mthen (read_json (event_key n)) k) Q.
Proof. apply (spec_read_then event_key _ (t_vals d)). by intros v []. Qed.

Lemma write_event_acts v0 d n e :
  acts v0 d (write_json (event_key n) e) (with_vals <[n:=e]> d).
Proof. apply (spec_write_json event_key). intros v b Hv Hb. by apply er_put_event. Qed.

Lemma add_to_cs_index_acts v0 d c s n :
  acts v0 d (add_to_contract_selector_index c s n) (with_idx (idx_add (c, s) n) d).
Proof.
  apply (spec_add_to_index cs_key _ (t_idx d) (c, s)).
  - by intros v [].
  - intros v Hv Hn. unfold idx_add, with_idx. rewrite decide_True by done. by destruct d.
  - intros v b Hv Hn Hb. unfold idx_add, with_idx. rewrite decide_False by done.
    by apply (er_put_cs v0 v d).
Qed.

Lemma add_to_event_block_index_acts v0 d k n :
  in_u 64 k → acts v0 d (add_to_block_index k n) (with_block (idx_add k n) d).
Proof.
  intros Hk. apply (spec_add_to_index block_index_key _ (t_block d)).
  - by intros v [].
  - intros v Hv Hn. unfold idx_add, with_block. rewrite decide_True by done. by destruct d.
  - intros v b Hv Hn Hb. unfold idx_add, with_block. rewrite decide_False by done.
    by apply (er_put_block v0 v d).
Qed.

Lemma remove_from_cs_index_acts v0 d c s n :
  acts v0 d (remove_from_contract_selector_index c s n) (with_idx (idx_remove (c, s) n) d).
Proof.
  unfold remove_from_contract_selector_index, idx_remove, with_idx. cbn zeta.
  apply (spec_read_then cs_key _ (strings <$> t_idx d) (c, s)); [by intros v []|].
  rewrite lookup_fmap. destruct (t_idx d !! (c, s)) as [l|]; simpl.
  - rewrite strings_filter. case_decide as Hl; case_decide as Hl'.
    + apply spec_delete. intros v Hv. by apply (er_delete_cs v0 v d (c, s)).
    + by apply fmap_nil_inv in Hl.
    + by rewrite Hl' in Hl.
    + apply (spec_write_json cs_key _ (c, s)). intros v b Hv Hb. by apply (er_put_cs v0 v d (c, s)).
  - destruct d. acts_done.
Qed.

Definition table_add (scope : AztecAddress) e d : EventTable :=
  let n := ev_siloed_event_commitment e in
  match t_vals d !! n with
  | Some existing => t_update n (event_push_scope scope existing) d
  | None => t_insert event_cs event_block n (event_push_scope scope e) d
  end.

Lemma store_event_acts v0 d scope e :
  in_u 64 (ev_l2_block_number e) → acts v0 d (store_private_event_log e scope) (table_add scope e d).
Proof.
  intros Hb. destruct (event_push_scope_fields scope e) as (E1 & E2 & E3).
  unfold store_private_event_log, table_add. cbn zeta. apply spec_read_event.
  destruct (t_vals d !! ev_siloed_event_commitment e) as [existing|]; [apply write_event_acts|].
  set (n := ev_siloed_event_commitment e) in *. set (e' := event_push_scope scope e) in *.
  assert (t_insert event_cs event_block n e' d = with_block (idx_add (ev_l2_block_number e') n)
    (with_idx (idx_add (event_cs e') n) (with_vals <[n:=e']> d))) as -> by done.
  acts_step; [apply write_event_acts|]. rewrite E1. acts_step; [apply add_to_cs_index_acts|].
  apply add_to_event_block_index_acts. by rewrite E3.
Qed.

Lemma delete_event_acts v0 d n : acts v0 d (delete_event n) (t_delete event_cs d n).
Proof.
  unfold delete_event, t_delete. cbn zeta. acts_step.
  - apply spec_read_event. instantiate (1 := with_idx (match t_vals d !! n with
      | Some e => idx_remove (event_cs e) n | None => id end) d).
    destruct (t_vals d !! n) as [e|]; [apply remove_from_cs_index_acts|]. destruct d. acts_done.
  - destruct (t_vals d !! n) as [e|] eqn:E; apply spec_delete; intros v Hv;
      apply (er_delete_event v0 v _ n) in Hv; exact Hv.
Qed.

Lemma event_phase_acts v0 d b kb en :
  encodes_entry block_index_key kb en →
  acts v0 d (rollback_entry "event_idx:block:" b delete_event kb) (t_phase event_cs b d en).
Proof.
  destruct kb as [key bytes], en as [k l]. intros (Hk & Hkey & Hb). simpl in *. subst key.
  unfold t_phase. apply (rollback_entry_acts (event_rep v0) "event_idx:block:" b delete_event
    (t_delete event_cs) (with_block (delete k)) k l bytes); [done..|intros; apply delete_event_acts|].
  intros d'. apply spec_delete. intros v Hv. by apply er_delete_block.
Qed.

Lemma event_rollback_acts v0 d b :
  spec (event_rep v0 d) (rollback b)
    (λ _ v, ∃ es, entries_of (t_block d) es ∧ event_rep v0 (foldl (t_phase event_cs b) d es) v).
Proof.
  apply (index_loop_acts (event_rep v0) block_index_key event_block_prefix _ (t_phase event_cs b) t_block).
  - by intros v [].
  - apply event_block_key_prefix.
  - intros v key c Hv Hk Hp. by apply (er_shape v0 d v Hv key c).
  - intros d' kb en He. by apply event_phase_acts.
Qed.
End operations.

(** ** The contract, on maps of events *)

Section contract.
Context {FR : PrimeField fr_modulus} {HX : HexCrate}.
Context {SE : SerdeJson StoredPrivateEvent} {SL : SerdeJson (list string)}.
Implicit Types (v : view) (e : StoredPrivateEvent) (events : gmap Fr StoredPrivateEvent).

(** The view holds [events] with indexes that agree, and [v0] elsewhere. *)
Definition holds_events (v0 : view) events v : Prop :=
  ∃ d, event_rep v0 d v ∧ table_inv event_cs event_block d ∧ t_vals d = events.

Inductive EventOp :=
  | StoreEvent (event : StoredPrivateEvent) (scope : AztecAddress)
  | RollbackEvents (block_number : Z).

Definition event_ok (op : EventOp) : Prop :=
  match op with StoreEvent e _ => in_u 64 (ev_l2_block_number e) | RollbackEvents _ => True end.

Definition map_store (scope : AztecAddress) events e : gmap Fr StoredPrivateEvent :=
  let n := ev_siloed_event_commitment e in
  <[n := event_push_scope scope (default e (events !! n))]> events.

Definition not_after (b : Z) (events : gmap Fr StoredPrivateEvent) : gmap Fr StoredPrivateEvent :=
  filter (λ ne, ev_l2_block_number ne.2 ≤ b) events.

Definition map_event_op events (op : EventOp) : gmap Fr StoredPrivateEvent :=
  match op with
  | StoreEvent e scope => map_store scope events e
  | RollbackEvents b => not_after b events
  end.

(** The events a query selects. *)
Definition events_selected (selector : Fr) (filter : PrivateEventQueryFilter) e : bool :=
  bool_decide (event_cs e = (pf_contract_address filter, selector)) && event_matches filter e.

Lemma event_cmp_key a b : event_cmp a b =
  ord_cmp [Some (ev_l2_block_number a); ev_tx_index_in_block a; ev_event_index_in_tx a]
          [Some (ev_l2_block_number b); ev_tx_index_in_block b; ev_event_index_in_tx b].
Proof. unfold event_cmp. cbn. unfold cmp_then. repeat case_match; done. Qed.

Lemma sort_events_sorted (l : list StoredPrivateEvent) :
  StronglySorted (cmp_le event_cmp) (sort_by event_cmp l).
Proof.
  apply sort_by_sorted.
  - intros x y. rewrite !event_cmp_key. apply ord_cmp_antisym.
  - intros x y z. unfold cmp_le. rewrite !event_cmp_key.
    apply (key_cmp_le_trans (λ k : list (option Z), k)).
Qed.

Lemma holds_events_empty : holds_events ∅ ∅ ∅.
Proof.
  exists {| t_vals := ∅; t_idx := ∅; t_block := ∅ |}.
  split_and!; [constructor|constructor|done]; cbn [t_vals t_idx t_block];
    rewrite ?fmap_empty; try (by apply table_empty); intros; unfold indexed; simplify_map_eq;
    try done; set_solver.
Qed.

Context {St : Type} `{KvStoreLaws St}.

Definition run_event_op (op : EventOp) : M St () :=
  match op with
  | StoreEvent e scope => store_private_event_log e scope
  | RollbackEvents b => rollback b
  end.

Lemma store_event_holds v0 events e scope :
  in_u 64 (ev_l2_block_number e) →
  spec (holds_events v0 events) (store_private_event_log e scope)
    (λ _, holds_events v0 (map_store scope events e)).
Proof.
  intros Hb s Hs (d & Hd & Hi & <-).
  destruct (store_event_acts v0 d scope e Hb s Hs Hd) as (s' & a & E & Hs' & Hr).
  exists s', a. split_and!; [done..|]. exists (table_add scope e d). split; [done|].
  unfold table_add, map_store. cbn zeta.
  destruct (t_vals d !! ev_siloed_event_commitment e) as [x|] eqn:Ex; simpl; (split; [|done]).
  - destruct (event_push_scope_fields scope x) as (_ & E2 & E3).
    apply (table_inv_update _ _ _ x); [done..|]. unfold event_block. by rewrite E3.
  - by apply table_inv_insert.
Qed.

Lemma event_rollback_holds v0 events b :
  spec (holds_events v0 events) (rollback b) (λ _, holds_events v0 (not_after b events)).
Proof.
  intros s Hs (d & Hd & Hi & <-).
  destruct (event_rollback_acts v0 d b s Hs Hd) as (s' & a & E & Hs' & es & He & Hr).
  destruct (table_rollback event_cs event_block b d es Hi He) as [Hi' Hn].
  exists s', a. split_and!; [done..|]. eexists. split_and!; [done..|].
  apply map_eq. intros n. rewrite Hn. apply option_eq. intros x. unfold not_after.
  rewrite map_lookup_filter_Some, bind_Some. unfold kept, event_block.
  split.
  - intros (y & Hy & Hk). destruct (Z.ltb_spec b (ev_l2_block_number y)); by simplify_eq.
  - intros [Hx Hle]. simpl in Hle. exists x. split; [done|].
    by destruct (Z.ltb_spec b (ev_l2_block_number x)); [lia|].
Qed.

Lemma run_event_op_holds v0 events op :
  event_ok op → spec (holds_events v0 events) (run_event_op op) (λ _, holds_events v0 (map_event_op events op)).
Proof. destruct op; [by apply store_event_holds|intros _; apply event_rollback_holds]. Qed.

Lemma run_event_ops_holds v0 events ops :
  Forall event_ok ops →
  spec (holds_events v0 events) (for_each run_event_op ops)
    (λ _, holds_events v0 (foldl map_event_op events ops)).
Proof.
  intros Hok. revert events. induction Hok as [|op ops Hop _ IH]; intros events; simpl.
  { by apply spec_ok. }
  eapply spec_then; [by apply run_event_op_holds|]. intros a. apply IH.
Qed.

Lemma for_fold_push_event v0 (d : Table StoredPrivateEvent (AztecAddress * Fr)) filter
    (acc : list StoredPrivateEvent) (l : list Fr) :
  spec (event_rep v0 d) (for_fold (push_event filter) acc (strings l))
    (λ r v, event_rep v0 d v ∧
       r = acc ++ List.filter (event_matches filter) (omap (λ n, t_vals d !! n) l)).
Proof.
  revert acc. induction l as [|n l IH]; intros acc; simpl.
  { apply spec_ok. intros v Hv. by rewrite app_nil_r. }
  eapply (spec_then _ _ _ (λ acc' v, event_rep v0 d v ∧
    acc' = acc ++ List.filter (event_matches filter) (option_list (t_vals d !! n)))).
  - unfold push_event. rewrite Fr_from_to_string. apply spec_read_event.
    destruct (t_vals d !! n) as [e|]; simpl; apply spec_ok; intros v Hv; (split; [done|]).
    + destruct (event_matches filter e); [done|]. by rewrite app_nil_r.
    + by rewrite app_nil_r.
  - intros acc' s Hs [Hv ->].
    destruct (IH (acc ++ List.filter (event_matches filter) (option_list (t_vals d !! n))) s Hs Hv) as (s' & r & E & Hs' & Hr & ->). exists s'. eexists.
    split_and!; [exact E|done..|]. rewrite <- app_assoc.
    destruct (t_vals d !! n) as [e|]; simpl; [|done]. by destruct (event_matches filter e).
Qed.

Lemma get_private_events_holds v0 events selector filter :
  spec (holds_events v0 events) (get_private_events selector filter) (λ r v,
    holds_events v0 events v ∧
    r ≡ₚ List.filter (events_selected selector filter) (map_to_list events).*2 ∧
    StronglySorted (cmp_le event_cmp) r).
Proof.
  intros s Hs (d & Hd & Hi & <-).
  pose proof (indexed_vals event_cs event_block d (pf_contract_address filter, selector) Hi) as Hp.
  assert (spec (event_rep v0 d) (get_private_events selector filter) (λ r v, event_rep v0 d v ∧
    r = sort_by event_cmp (List.filter (event_matches filter) (omap (λ n, t_vals d !! n)
          (default [] (t_idx d !! (pf_contract_address filter, selector))))))) as Hg.
  { unfold get_private_events.
    apply (spec_read_then cs_key _ (strings <$> t_idx d) (pf_contract_address filter, selector)); [by intros v []|].
    rewrite lookup_fmap. destruct (t_idx d !! (pf_contract_address filter, selector)) as [l|]; simpl.
    - eapply spec_then; [apply (for_fold_push_event v0 d filter [] l)|].
      intros r. apply spec_ok. by intros v [Hv ->].
    - by apply spec_ok. }
  destruct (Hg s Hs Hd) as (s' & r & E & Hs' & Hr & ->). exists s'. eexists.
  split_and!; [exact E|done|by exists d| |apply sort_events_sorted].
  rewrite sort_by_perm, (filter_perm _ _ _ Hp), filter_and. done.
Qed.
End contract.

(** ** Properties *)

(** C19: the private event store refines a map from siloed commitments to events.  From
    an empty store, any sequence of [store_private_event_log] and [rollback] calls
    succeeds; then the answer of [get_private_events] consists of exactly the events of
    the map that the calls describe (storing adds a scope to an event already known,
    rolling back drops the events of later blocks) with the queried contract, selector,
    block range, scopes and transaction, in the order of block, transaction and event
    index, and no key outside the store's prefixes is touched. *)
Theorem event_store_refines {FR : PrimeField fr_modulus} {HX : HexCrate}
    {SE : SerdeJson StoredPrivateEvent} {SL : SerdeJson (list string)}
    {St : Type} `{KvStoreLaws St} (ops : list EventOp) (selector : Fr)
    (filter : PrivateEventQueryFilter) (s : St) :
  kv_wf s → kv_view s = ∅ → Forall event_ok ops →
  ∃ s' r, (for_each run_event_op ops ;;! get_private_events selector filter) s = (s', Ok r) ∧
    r ≡ₚ List.filter (events_selected selector filter) (map_to_list (foldl map_event_op ∅ ops)).*2 ∧
    StronglySorted (cmp_le event_cmp) r ∧
    (∀ key, is_Some (kv_view s' !! key) → event_namespace key).
Proof.
  intros Hs Hv Hok.
  pose proof (spec_then _ _ _ _ _ (run_event_ops_holds ∅ ∅ ops Hok)
    (λ _, get_private_events_holds ∅ _ selector filter)) as Hrun.
  destruct (Hrun s Hs) as (s' & r & E & Hs' & (d & Hd & _ & _) & Hr & Hsorted);
    [rewrite Hv; apply holds_events_empty|].
  exists s', r. split_and!; [done..|]. intros key Hkey.
  destruct (decide (event_prefix `prefix_of` key)); [by left|].
  destruct (decide (event_index_prefix `prefix_of` key)); [by right|].
  rewrite (er_frame _ _ _ Hd key), lookup_empty in Hkey; [by destruct Hkey|]. by intros [].
Qed.

(** *** Witness, in the in-memory store *)

Section event_witnesses.
Import Concrete.Instances.

Definition event_tuple (e : StoredPrivateEvent) :=
  (ev_event_selector e, ev_randomness e, ev_msg_content e, ev_siloed_event_commitment e,
   ev_contract_address e, ev_scopes e, ev_tx_hash e, ev_l2_block_number e,
   (ev_l2_block_hash e, ev_tx_index_in_block e, ev_event_index_in_tx e)).

Definition tuple_event : _ → StoredPrivateEvent :=
  λ '(a, b, c, d, e, f, g, h, (i, j, k)), Build_StoredPrivateEvent a b c d e f g h i j k.

Lemma tuple_event_tuple a : tuple_event (event_tuple a) = a.
Proof. by destruct a. Qed.

Lemma event_tuple_inj a b : event_tuple a = event_tuple b → a = b.
Proof. intros E. by rewrite <- (tuple_event_tuple a), E, tuple_event_tuple. Qed.

#[local] Instance event_eq_dec : EqDecision StoredPrivateEvent := λ a b,
  match decide (event_tuple a = event_tuple b) with
  | left E => left (event_tuple_inj a b E)
  | right N => right (λ E, N (f_equal event_tuple E))
  end.
#[local] Instance event_countable : Countable StoredPrivateEvent :=
  inj_countable' event_tuple tuple_event tuple_event_tuple.
#[local] Instance event_serde : SerdeJson StoredPrivateEvent := countable_serde StoredPrivateEvent.
#[local] Instance event_strings_serde : SerdeJson (list string) := countable_serde (list string).

Definition example_event (commitment : Fr) (block : Z) : StoredPrivateEvent :=
  {| ev_event_selector := Fr_one; ev_randomness := Fr_zero; ev_msg_content := [Fr_one];
     ev_siloed_event_commitment := commitment; ev_contract_address := Fr_one; ev_scopes := [];
     ev_tx_hash := TxHash_zero; ev_l2_block_number := block; ev_l2_block_hash := "0x1";
     ev_tx_index_in_block := Some 0; ev_event_index_in_tx := Some 1 |}.

Definition example_query : PrivateEventQueryFilter :=
  {| pf_contract_address := Fr_one; pf_from_block := Some 2; pf_to_block := None;
     pf_scopes := [Fr_one]; pf_tx_hash := None |}.

Definition example_event_ops : list EventOp :=
  [StoreEvent (example_event Fr_zero 9) Fr_one; StoreEvent (example_event Fr_one 4) Fr_one;
   RollbackEvents 5].

Lemma event_store_refines_witness :
  ∃ s' r, (for_each run_event_op example_event_ops ;;! get_private_events Fr_one example_query)%rust
            InMemoryKvStore_new = (s', Ok r) ∧
    r ≡ₚ List.filter (events_selected Fr_one example_query)
           (map_to_list (foldl map_event_op ∅ example_event_ops)).*2 ∧
    StronglySorted (cmp_le event_cmp) r ∧
    (∀ key, is_Some (kv_view s' !! key) → event_namespace key).
Proof.
  apply (event_store_refines example_event_ops Fr_one example_query InMemoryKvStore_new);
    [constructor|done|by repeat constructor].
Defined.
End event_witnesses.
