(* ===== verification/Rpc.v ===== *)
(** [crates/rpc/src/rpc.rs] and the texts of [crates/core/src/error.rs]: the JSON-RPC
    transport over an HTTP client that is a class. *)

From Stdlib Require Import Ascii String.
From S2P Require Import Prelude Bytes Ordered Deps Types Kv.

(** ** [impl Display for Error] *)

Definition Error_display (e : Error) : string :=
  match e with
  | Transport s => "transport error: " +:+ s
  | Json s => "json error: " +:+ s
  | Abi s => "abi error: " +:+ s
  | InvalidData s => "invalid data: " +:+ s
  | Rpc code message => "rpc error " +:+ pretty code +:+ ": " +:+ message
  | Reverted s => "reverted: " +:+ s
  | Timeout s => "timeout: " +:+ s
  end.

(** [match m.await { Ok(x) => .., Err(e) => .. }]: the error becomes a value. *)
Definition mtry {W A : Type} (m : M W A) : M W (Outcome A) := λ w,
  match m w with
  | (w', Ok a) => (w', Ok (Ok a))
  | (w', Err e) => (w', Ok (Err e))
  | (w', Panic) => (w', Panic)
  end.

(** ** The crates behind the transport

    [json_of] is a value built by [json!]; [from_value] the derived [Deserialize] of a
    type.  [http_post] is one POST: what [reqwest] answers is a response, or an error
    with its text and its [is_connect] and [is_request] flags; [response_json] parses
    a response's body. *)

Class JsonMake `{JS : JsonCrate} := { json_of : JsonTree → json_value }.

Class FromValue (T : Type) `{JS : JsonCrate} := { from_value : json_value → Outcome T }.
#[global] Hint Mode FromValue ! - : typeclass_instances.

#[global] Instance from_value_value `{JS : JsonCrate} : FromValue json_value :=
  {| from_value v := Ok v |}.

Record ReqwestError := { re_text : string; is_connect : bool; is_request : bool }.

Class HttpCrate (W : Type) `{JS : JsonCrate} := {
  http_response : Type;
  http_post : string → Z → json_value → M W (ReqwestError + http_response);
  response_json : http_response → ReqwestError + json_value;
}.
#[global] Hint Mode HttpCrate ! - : typeclass_instances.
Arguments http_response W {_ _}.

(** ** The transport *)

Record Request `{JS : JsonCrate} := {
  rq_jsonrpc : string;
  rq_method : string;
  rq_params : json_value;
  rq_id : Z;
}.

Record RpcError := { rpc_code : Z; rpc_message : string }.

(** [next_id] is shared by the callers of the transport; it is kept beside the world. *)
Record RpcTransport := { tr_url : string; tr_timeout : Z }.

Definition RpcTransport_new (url : string) (timeout : Z) : RpcTransport * Z :=
  ({| tr_url := url; tr_timeout := timeout |}, 1).

Section rpc.
Context {W : Type} `{JT : JsonText} `{!JsonMake} `{!HttpCrate W} `{!FromValue RpcError}.
Context (self : RpcTransport).

Definition fetch_add_id : M (W * Z) Z := λ w, ((w.1, wrap 64 (w.2 + 1)), Ok w.2).

Definition Request_value (r : Request) : json_value :=
  json_of (TObject [("jsonrpc", TString (rq_jsonrpc r)); ("method", TString (rq_method r));
    ("params", json_tree (rq_params r)); ("id", TNumber (pretty (rq_id r)))]).

Definition post (request : Request) : M (W * Z) (ReqwestError + http_response W) :=
  in_fst (http_post (tr_url self) (tr_timeout self) (Request_value request)).

(** A request that failed while connecting or while being sent is sent once more. *)
Definition send_json (request : Request) : M (W * Z) json_value :=
  let! first := post request in
  let! response :=
    match first with
    | inr response => mok response
    | inl first_err =>
        if is_connect first_err || is_request first_err then
          let! second := post request in
          match second with
          | inr response => mok response
          | inl second_err => mlift (Err (Transport (re_text second_err
              +:+ "; retry after transport failure also failed: " +:+ re_text first_err)))
          end
        else mlift (Err (Transport (re_text first_err)))
    end in
  match response_json response with
  | inr body => mok body
  | inl e => mlift (Err (Transport (re_text e)))
  end.

Definition json_is_null (v : json_value) : bool :=
  match json_tree v with TNull => true | _ => false end.

Definition rpc_error_of (body : json_value) : Outcome (option RpcError) :=
  match json_get body "error" with
  | Some value =>
      if json_is_null value then Ok None
      else let? err := from_value value in Ok (Some err)
  | None => Ok None
  end.

(** What the three calls share: number the request, send it, and turn a JSON-RPC
    error into [Error::Rpc]. *)
Definition call_body (method : string) (params : json_value) : M (W * Z) json_value :=
  let! id := fetch_add_id in
  let! body := send_json
    {| rq_jsonrpc := "2.0"; rq_method := method; rq_params := params; rq_id := id |} in
  let! error := mlift (rpc_error_of body) in
  match error with
  | Some err => mlift (Err (Rpc (rpc_code err) (rpc_message err)))
  | None => mok body
  end.

Definition call {T : Type} `{!FromValue T} (method : string) (params : json_value) : M (W * Z) T :=
  let! body := call_body method params in
  let! result := mlift (ok_or (json_get body "result")
    (InvalidData ("JSON-RPC response for method '" +:+ method
                  +:+ "' missing both result and error"))) in
  mlift (from_value result).

Definition call_optional {T : Type} `{!FromValue T} (method : string) (params : json_value)
    : M (W * Z) (option T) :=
  let! body := call_body method params in
  match json_get body "result" with
  | None => mok None
  | Some result =>
      if json_is_null result then mok None
      else let! x := mlift (from_value result) in mok (Some x)
  end.

Definition call_void (method : string) (params : json_value) : M (W * Z) () :=
  call_body method params ;;! mok ().
End rpc.
