(* ===== verification/Nargo.v ===== *)
(** [crates/core/src/abi/types.rs], the reading of artifacts: the buffers of a contract
    artifact and the conversion of what the nargo compiler writes. *)

From Stdlib Require Import Ascii String.
From S2P Require Import Prelude Bytes Ordered Deps Concrete Types Constants Poseidon AbiTypes Rpc.

(** ** Buffers *)

Section buffers.
Context {FR : PrimeField fr_modulus} {JS : JsonCrate} `{SA : !SerdeJson (ContractArtifact FR JS)}.

Definition ContractArtifact_to_buffer (self : ContractArtifact FR JS) : Outcome (list byte) := to_vec self.
Definition ContractArtifact_from_buffer (buffer : list byte) : Outcome (ContractArtifact FR JS) :=
  from_slice buffer.

(** Reading a text is reading its bytes. *)
Definition ContractArtifact_from_json (json : string) : Outcome (ContractArtifact FR JS) :=
  from_slice (as_bytes json).

Lemma artifact_buffer_roundtrip self : ∃ buffer,
  ContractArtifact_to_buffer self = Ok buffer ∧ ContractArtifact_from_buffer buffer = Ok self.
Proof. apply serde_roundtrip. Qed.
End buffers.

(** ** Types *)

Section types.
Context {JS : JsonCrate}.

(** [v.get(member).and_then(|v| v.as_str())], and the same of the other kinds. *)
Definition member_str (v : json_value) (member : string) : option string :=
  json_get v member ≫= json_as_str.
Definition member_u64 (v : json_value) (member : string) : option Z := json_get v member ≫= json_as_u64.
Definition member_array (v : json_value) (member : string) : option (list json_value) :=
  json_get v member ≫= json_as_array.

(** [v.get(first).or_else(|| v.get(second))]. *)
Definition get_either (v : json_value) (first second : string) : option json_value :=
  match json_get v first with Some w => Some w | None => json_get v second end.

Definition parse_nargo_parameter (parse_type : json_value → option AbiType) (raw : json_value)
    : option AbiParameter :=
  name ← member_str raw "name";
  typ ← json_get raw "type" ≫= parse_type;
  Some (MkAbiParameter name typ (member_str raw "visibility")).

(** One level; an unknown kind is read as a field. *)
Definition nargo_type_body (parse_type : json_value → option AbiType) (raw : json_value)
    : option AbiType :=
  kind ← member_str raw "kind";
  if String.eqb kind "field" then Some AbiType.Field
  else if String.eqb kind "boolean" then Some AbiType.Boolean
  else if String.eqb kind "integer" then
    let sign := default "unsigned" (member_str raw "sign") in
    let width := wrap 16 (default 32 (member_u64 raw "width")) in
    Some (AbiType.Integer sign width)
  else if String.eqb kind "array" then
    element ← get_either raw "type" "element" ≫= parse_type;
    Some (AbiType.Array element (default 0 (member_u64 raw "length")))
  else if String.eqb kind "string" then
    Some (AbiType.String (default 0 (member_u64 raw "length")))
  else if String.eqb kind "struct" then
    raw_fields ← member_array raw "fields";
    Some (AbiType.Struct (default "Unknown" (member_str raw "path"))
            (omap (parse_nargo_parameter parse_type) raw_fields))
  else if String.eqb kind "tuple" then
    raw_elements ← get_either raw "fields" "elements" ≫= json_as_array;
    Some (AbiType.Tuple (omap parse_type raw_elements))
  else Some AbiType.Field.

(** A member is smaller than its document, so the size of the document is fuel enough
    ([parse_nargo_type_eq]). *)
Fixpoint parse_nargo_fuel (fuel : nat) (raw : json_value) : option AbiType :=
  match fuel with
  | 0%nat => None
  | S n => nargo_type_body (parse_nargo_fuel n) raw
  end.
Definition parse_nargo_type (raw : json_value) : option AbiType := parse_nargo_fuel (S (json_size raw)) raw.

Lemma omap_agree {A B : Type} (f g : A → option B) (l : list A) :
  (∀ x, x ∈ l → f x = g x) → omap f l = omap g l.
Proof.
  induction l as [|x l IH]; [done|]. intros H. cbn.
  rewrite (H x) by left. rewrite IH by (intros; apply H; by right). done.
Qed.

Lemma nargo_body_agree (f g : json_value → option AbiType) raw :
  (∀ w, (json_size w < json_size raw)%nat → f w = g w) → nargo_type_body f raw = nargo_type_body g raw.
Proof.
  intros H. unfold nargo_type_body. destruct (member_str raw "kind") as [kind|]; [|done]. cbn.
  repeat (destruct (String.eqb kind _); [try done|]); [| | |done].
  - unfold get_either. destruct (json_get raw "type") as [w|] eqn:E; cbn.
    + by rewrite H by (by eapply json_get_size).
    + destruct (json_get raw "element") as [w|] eqn:E2; cbn; [|done].
      by rewrite H by (by eapply json_get_size).
  - unfold member_array. destruct (json_get raw "fields") as [v|] eqn:E; cbn; [|done].
    apply json_get_size in E. destruct (json_as_array v) as [ws|] eqn:Ea; cbn; [|done].
    rewrite (omap_agree _ (parse_nargo_parameter g)); [done|]. intros p Hp.
    pose proof (json_as_array_size v ws p Ea Hp). unfold parse_nargo_parameter.
    destruct (member_str p "name"); cbn; [|done]. destruct (json_get p "type") as [t|] eqn:Et; cbn; [|done].
    apply json_get_size in Et. rewrite H by lia. done.
  - destruct (get_either raw "fields" "elements") as [v|] eqn:E; cbn; [|done].
    assert (json_size v < json_size raw)%nat.
    { unfold get_either in E. destruct (json_get raw "fields") eqn:Ef.
      - injection E as <-. by eapply json_get_size.
      - by eapply json_get_size. }
    destruct (json_as_array v) as [ws|] eqn:Ea; cbn; [|done].
    rewrite (omap_agree _ g); [done|]. intros w Hw. pose proof (json_as_array_size v ws w Ea Hw).
    apply H. lia.
Qed.

Lemma parse_nargo_fuel_enough n m raw :
  (json_size raw < n)%nat → (json_size raw < m)%nat → parse_nargo_fuel n raw = parse_nargo_fuel m raw.
Proof.
  revert m raw. induction n as [|n IH]; intros [|m] raw Hn Hm; [lia..|]. cbn [parse_nargo_fuel].
  apply nargo_body_agree. intros w Hw. apply IH; lia.
Qed.

Lemma parse_nargo_type_eq raw : parse_nargo_type raw = nargo_type_body parse_nargo_type raw.
Proof.
  unfold parse_nargo_type. cbn [parse_nargo_fuel]. apply nargo_body_agree.
  intros w Hw. apply (parse_nargo_fuel_enough (json_size raw) (Datatypes.S (json_size w))); lia.
Qed.
End types.

(** ** Functions and contracts *)

Section contracts.
Context {FR : PrimeField fr_modulus} {HX : HexCrate} {P2 : Poseidon2Crate} {JS : JsonCrate}.
Context `{FS : !FromValue (list string), FF : !FromValue Fr}.

(** [serde_json::from_value(v.clone()).ok()]. *)
Definition value_ok {T : Type} `{!FromValue T} (v : json_value) : option T :=
  match from_value v with Ok x => Some x | _ => None end.

Definition has_attribute (attribute : string) (attrs : list string) : bool :=
  existsb (String.eqb attribute) attrs.

Definition nargo_function_type (attrs : list string) (is_unconstrained : bool) : FunctionType :=
  if has_attribute "abi_private" attrs then Private
  else if has_attribute "abi_utility" attrs then Utility
  else if has_attribute "abi_public" attrs then Public
  else if is_unconstrained then Utility else Private.

(** The second prefix begins with the first, so it is never the one that is stripped. *)
Definition nargo_function_name (raw_name : string) : string :=
  default raw_name
    (match strip_prefix "__aztec_nr_internals__" raw_name with
     | Some name => Some name
     | None => strip_prefix "__aztec_nr_internals___" raw_name
     end).

(** A parameter [inputs] whose type is one of the context inputs. *)
Definition named_inputs (p : json_value) : bool := String.eqb (default "" (member_str p "name")) "inputs".
Definition context_path (p : json_value) : bool :=
  contains "PrivateContextInputs" (default "" (json_pointer p "/type/path" ≫= json_as_str)).

Definition parse_nargo_function (raw : json_value) : option (FunctionArtifact FR JS) :=
  raw_name ← member_str raw "name";
  let attrs := default [] (json_get raw "custom_attributes" ≫= value_ok) in
  let unconstrained := default false (json_get raw "is_unconstrained" ≫= json_as_bool) in
  let ft := nargo_function_type attrs unconstrained in
  let name := nargo_function_name raw_name in
  let abi := json_get raw "abi" in
  let raw_params := default [] (abi ≫= λ a, member_array a "parameters") in
  let kept p := negb (named_inputs p && bool_decide (ft = Private) && context_path p) in
  let parameters := omap (parse_nargo_parameter parse_nargo_type) (List.filter kept raw_params) in
  let return_types := default []
    ((λ t, [t]) <$> (abi ≫= λ a, json_get a "return_type" ≫= λ rt, json_get rt "abi_type"
                                 ≫= parse_nargo_type)) in
  Some {| fa_name := name; function_type := ft;
          is_initializer := has_attribute "abi_initializer" attrs;
          fa_is_static := has_attribute "abi_view" attrs;
          is_only_self := if has_attribute "abi_only_self" attrs then Some true else None;
          parameters := parameters; return_types := return_types;
          error_types := abi ≫= λ a, json_get a "error_types";
          fa_selector := Some (FunctionSelector_from_name_and_parameters name parameters);
          bytecode := member_str raw "bytecode";
          verification_key_hash :=
            get_either raw "verification_key_hash" "verificationKeyHash" ≫= value_ok;
          verification_key := get_either raw "verification_key" "verificationKey" ≫= json_as_str;
          custom_attributes := Some attrs; is_unconstrained := Some unconstrained;
          debug_symbols := json_get raw "debug_symbols" |}.

(** The loop over the parameters of a private function. *)
Definition context_size_step (name : string) (sizes : gmap string Z) (p : json_value) : gmap string Z :=
  if named_inputs p && context_path p then
    match json_get p "type" ≫= parse_nargo_type with
    | Some typ => <[name := count_abi_type_fields typ]> sizes
    | None => sizes
    end
  else sizes.

Definition nargo_step (acc : list (FunctionArtifact FR JS) * gmap string Z) (raw_fn : json_value)
    : list (FunctionArtifact FR JS) * gmap string Z :=
  match parse_nargo_function raw_fn with
  | None => acc
  | Some func =>
      let params := default [] (json_get raw_fn "abi" ≫= λ a, member_array a "parameters") in
      (acc.1 ++ [func],
       if decide (function_type func = Private)
       then foldl (context_size_step (fa_name func)) acc.2 params else acc.2)
  end.

Definition from_nargo_json (json : string) : Outcome (ContractArtifact FR JS) :=
  let? raw := json_from_str json in
  let raw_functions := default [] (member_array raw "functions") in
  let '(functions, sizes) := foldl nargo_step ([], ∅) raw_functions in
  Ok {| art_name := default "Unknown" (member_str raw "name");
        functions := functions; outputs := json_get raw "outputs"; file_map := json_get raw "file_map";
        context_inputs_sizes := Some sizes |}.
End contracts.
