(* ===== verification/NargoSpec.v ===== *)
(** What the reading of nargo's output promises: a document that describes a contract is
    read as that contract, its calls prepared for the PXE. *)

From Stdlib Require Import Ascii String.
From S2P Require Import Prelude Bytes Ordered Deps Concrete Types Constants Poseidon AbiTypes Rpc Nargo.

#[local] Arguments parse_nargo_type : simpl never.

(** ** Documents that describe types *)

Section described.
Context {JS : JsonCrate}.

(** The two lists have the same length, and what is at the same place is related. *)
Definition all_related {A B : Type} (R : A → B → Prop) : list A → list B → Prop :=
  fix go l k :=
    match l, k with
    | [], [] => True
    | a :: l', b :: k' => R a b ∧ go l' k'
    | _, _ => False
    end.

Definition of_kind (raw : json_value) (kind : string) (path : option string) : Prop :=
  member_str raw "kind" = Some kind ∧ member_str raw "path" = path.

Fixpoint describes (ty : AbiType) (raw : json_value) : Prop :=
  match ty with
  | AbiType.Field => of_kind raw "field" None
  | AbiType.Boolean => of_kind raw "boolean" None
  | AbiType.Integer sign width =>
      of_kind raw "integer" None ∧ member_str raw "sign" = Some sign ∧
      member_u64 raw "width" = Some width ∧ in_u 16 width
  | AbiType.Array element length =>
      of_kind raw "array" None ∧ (∃ v, json_get raw "type" = Some v ∧ describes element v) ∧
      member_u64 raw "length" = Some length
  | AbiType.String length => of_kind raw "string" None ∧ member_u64 raw "length" = Some length
  | AbiType.Struct name fields =>
      of_kind raw "struct" (Some name) ∧ ∃ ws, member_array raw "fields" = Some ws ∧
      all_related (λ p w, let 'MkAbiParameter n ty visibility := p in
        member_str w "name" = Some n ∧ member_str w "visibility" = visibility ∧
        ∃ v, json_get w "type" = Some v ∧ describes ty v) fields ws
  | AbiType.Tuple elements =>
      of_kind raw "tuple" None ∧ ∃ ws, member_array raw "fields" = Some ws ∧
      all_related describes elements ws
  end.

Definition describes_parameter (p : AbiParameter) (w : json_value) : Prop :=
  let 'MkAbiParameter n ty visibility := p in
  member_str w "name" = Some n ∧ member_str w "visibility" = visibility ∧
  ∃ v, json_get w "type" = Some v ∧ describes ty v.

Lemma omap_related {A B C : Type} (R : A → B → Prop) (f : B → option C) (g : A → C) l k :
  Forall (λ a, ∀ b, R a b → f b = Some (g a)) l → all_related R l k → omap f k = g <$> l.
Proof.
  intros Hl. revert k. induction Hl as [|a l Ha Hl IH]; intros [|b k]; try done.
  intros [H Hk]. cbn. rewrite (Ha b H). cbn. f_equal. by apply IH.
Qed.

Lemma parse_parameter_of (p : AbiParameter) w :
  (∀ v, describes (AbiType.p_typ p) v → parse_nargo_type v = Some (AbiType.p_typ p)) →
  describes_parameter p w → parse_nargo_parameter parse_nargo_type w = Some p.
Proof.
  destruct p as [n ty vis]. intros H (Hn & Hv & v & Ht & Hd). unfold parse_nargo_parameter.
  rewrite Hn, Ht, Hv. cbn. by rewrite (H v Hd).
Qed.

(** A document that describes a type is read as the type. *)
Lemma parse_described ty raw : describes ty raw → parse_nargo_type raw = Some ty.
Proof.
  revert raw. induction ty as [| |s w|e n IH|n|n fs IH|es IH] using AbiType.nested_ind; intros raw;
    rewrite parse_nargo_type_eq; unfold nargo_type_body; cbn [describes].
  - by intros [-> _].
  - by intros [-> _].
  - intros ([-> _] & Hs & Hw & Hr). cbn. rewrite Hs, Hw. cbn. unfold wrap. by rewrite Z.mod_small.
  - intros ([-> _] & (v & Hv & Hd) & Hl). cbn. unfold get_either. rewrite Hv, Hl. cbn. by rewrite (IH v Hd).
  - intros ([-> _] & Hl). cbn. by rewrite Hl.
  - intros ([-> Hp] & ws & Hws & Hr). cbn. rewrite Hws, Hp. cbn.
    rewrite (omap_related describes_parameter _ id fs ws), list_fmap_id; [done| |exact Hr].
    eapply Forall_impl; [exact IH|]. intros p Hp' w. by apply parse_parameter_of.
  - intros ([-> Hp] & ws & Hws & Hr). cbn. unfold get_either.
    unfold member_array in Hws. destruct (json_get raw "fields") as [v|]; [|discriminate Hws].
    cbn in Hws |- *. rewrite Hws. cbn.
    rewrite (omap_related describes _ id es ws), list_fmap_id; [done| |exact Hr]. exact IH.
Qed.

Lemma parse_described_parameter p w :
  describes_parameter p w → parse_nargo_parameter parse_nargo_type w = Some p.
Proof. apply parse_parameter_of. intros v. apply parse_described. Qed.
End described.

(** ** Documents that describe contracts *)

Section contract.
Context {FR : PrimeField fr_modulus} {HX : HexCrate} {P2 : Poseidon2Crate} {JS : JsonCrate}.
Context `{FS : !FromValue (list string), FF : !FromValue Fr}.

(** A function as its author declares it. *)
Record NargoFunction := {
  nf_name : string;
  nf_attributes : list string;
  nf_unconstrained : bool;
  nf_parameters : list AbiParameter;
  nf_return : option AbiType;
}.

Definition describes_function (f : NargoFunction) (raw : json_value) : Prop :=
  member_str raw "name" = Some (nf_name f) ∧
  json_get raw "custom_attributes" ≫= value_ok = Some (nf_attributes f) ∧
  json_get raw "is_unconstrained" ≫= json_as_bool = Some (nf_unconstrained f) ∧
  ∃ abi ws, json_get raw "abi" = Some abi ∧ member_array abi "parameters" = Some ws ∧
    all_related describes_parameter (nf_parameters f) ws ∧
    match nf_return f with
    | None => json_get abi "return_type" ≫= (λ v, json_get v "abi_type") = None
    | Some ty => ∃ v, json_get abi "return_type" ≫= (λ v, json_get v "abi_type") = Some v ∧ describes ty v
    end.

(** What the function is called, how it runs, and the parameters that its callers give. *)
Definition public_name (f : NargoFunction) : string := nargo_function_name (nf_name f).
#[local] Arguments public_name : simpl never.
Definition nf_type (f : NargoFunction) : FunctionType :=
  nargo_function_type (nf_attributes f) (nf_unconstrained f).
Definition is_context (p : AbiParameter) : bool :=
  let 'MkAbiParameter name ty _ := p in
  String.eqb name "inputs"
  && match ty with AbiType.Struct path _ => contains "PrivateContextInputs" path | _ => false end.
Definition caller_parameters (f : NargoFunction) : list AbiParameter :=
  match nf_type f with
  | Private => List.filter (λ p, negb (is_context p)) (nf_parameters f)
  | _ => nf_parameters f
  end.

Definition read_function (f : NargoFunction) (fa : FunctionArtifact FR JS) : Prop :=
  fa_name fa = public_name f ∧ function_type fa = nf_type f ∧
  is_initializer fa = has_attribute "abi_initializer" (nf_attributes f) ∧
  fa_is_static fa = has_attribute "abi_view" (nf_attributes f) ∧
  parameters fa = caller_parameters f ∧ return_types fa = option_list (nf_return f) ∧
  fa_selector fa = Some (FunctionSelector_from_name_and_parameters (public_name f) (caller_parameters f)).

(** The fields that the context of a function takes. *)
Definition context_fields (f : NargoFunction) : option Z :=
  match nf_type f with
  | Private => (λ p, count_abi_type_fields (AbiType.p_typ p)) <$> last (List.filter is_context (nf_parameters f))
  | _ => None
  end.

Section reading.
(** [pointer] follows the members that it names. *)
Context (pointer_follows : ∀ v : json_value,
  json_pointer v "/type/path" = json_get v "type" ≫= λ t, json_get t "path").

Lemma described_context p w :
  describes_parameter p w → named_inputs w && context_path w = is_context p.
Proof.
  destruct p as [n ty vis]. intros (Hn & _ & v & Ht & Hd).
  unfold named_inputs, context_path, is_context. rewrite pointer_follows, Hn, Ht. cbn. f_equal.
  change (json_get v "path" ≫= json_as_str) with (member_str v "path").
  destruct ty; cbn [describes] in Hd; try (by destruct Hd as [_ ->]);
    try (by destruct Hd as [[_ ->] _]).
Qed.

Lemma described_parameters (keep : json_value → bool) (kept : AbiParameter → bool) ps ws :
  all_related describes_parameter ps ws →
  (∀ p w, describes_parameter p w → keep w = kept p) →
  omap (parse_nargo_parameter parse_nargo_type) (List.filter keep ws) = List.filter kept ps.
Proof.
  intros Hr Hk. revert ws Hr. induction ps as [|p ps IH]; intros [|w ws] Hr; try done.
  destruct Hr as [Hp Hr]. cbn. rewrite (Hk p w Hp). destruct (kept p); [|by apply IH].
  cbn. rewrite (parse_described_parameter p w Hp). cbn. f_equal. by apply IH.
Qed.

Lemma filter_all {A : Type} (p : A → bool) l : (∀ a, p a = true) → List.filter p l = l.
Proof. intros H. induction l as [|a l IH]; [done|]. cbn. by rewrite H, IH. Qed.

Lemma parse_described_function f raw :
  describes_function f raw → ∃ fa, parse_nargo_function raw = Some fa ∧ read_function f fa.
Proof.
  intros (Hn & Ha & Hu & abi & ws & Habi & Hws & Hps & Hret). unfold parse_nargo_function.
  rewrite Hn, Ha, Hu, Habi. cbn. rewrite Hws. cbn. eexists. split; [reflexivity|].
  change (nargo_function_type (nf_attributes f) (nf_unconstrained f)) with (nf_type f).
  rewrite (described_parameters _ (λ p, negb (bool_decide (nf_type f = Private) && is_context p)) (nf_parameters f)).
  - assert (List.filter (λ p, negb (bool_decide (nf_type f = Private) && is_context p)) (nf_parameters f)
            = caller_parameters f) as ->.
    { unfold caller_parameters. destruct (nf_type f); cbn; [done|by rewrite filter_all..]. }
    unfold read_function. cbn. split_and!; try done.
    destruct (nf_return f) as [ty|].
    + destruct Hret as (v & Hv & Hd). destruct (json_get abi "return_type"); [|discriminate Hv].
      cbn in Hv |- *. rewrite Hv. cbn. by rewrite (parse_described ty v Hd).
    + destruct (json_get abi "return_type"); [|done]. cbn in Hret |- *. by rewrite Hret.
  - done.
  - intros p w Hp. f_equal. rewrite <- (described_context p w Hp).
    by destruct (named_inputs w), (bool_decide (nf_type f = Private)), (context_path w).
Qed.

(** *** The sizes of the contexts *)

Definition with_context (name : string) (sizes : gmap string Z) (p : AbiParameter) : gmap string Z :=
  if is_context p then <[name := count_abi_type_fields (AbiType.p_typ p)]> sizes else sizes.

Definition with_function (sizes : gmap string Z) (f : NargoFunction) : gmap string Z :=
  match nf_type f with
  | Private => foldl (with_context (public_name f)) sizes (nf_parameters f)
  | _ => sizes
  end.

Lemma context_steps name ps ws sizes :
  all_related describes_parameter ps ws →
  foldl (context_size_step name) sizes ws = foldl (with_context name) sizes ps.
Proof.
  revert ws sizes. induction ps as [|p ps IH]; intros [|w ws] sizes Hr; try done.
  destruct Hr as [Hp Hr]. cbn. rewrite IH by done. f_equal. unfold context_size_step, with_context.
  rewrite (described_context p w Hp). destruct (is_context p); [|done].
  destruct p as [n ty vis], Hp as (_ & _ & v & -> & Hd). cbn. by rewrite (parse_described ty v Hd).
Qed.

Lemma nargo_steps fs ws acc :
  all_related describes_function fs ws →
  ∃ fas, foldl nargo_step acc ws = (acc.1 ++ fas, foldl with_function acc.2 fs) ∧ all_related read_function fs fas.
Proof.
  revert ws acc. induction fs as [|f fs IH]; intros [|w ws] acc Hr; try done.
  { exists []. destruct acc. by rewrite app_nil_r. }
  destruct Hr as [Hf Hr]. destruct (parse_described_function f w Hf) as (fa & Hfa & Hread).
  destruct Hf as (_ & _ & _ & abi & ps & Habi & Hps & Hrel & _).
  assert (nargo_step acc w = (acc.1 ++ [fa], with_function acc.2 f)) as Hstep.
  { unfold nargo_step. rewrite Hfa, Habi. cbn. rewrite Hps. cbn. f_equal.
    destruct Hread as (Hname & Htype & _). rewrite Htype, Hname. unfold with_function.
    destruct (nf_type f); [rewrite decide_True by done; by apply context_steps|by rewrite decide_False..]. }
  destruct (IH ws (acc.1 ++ [fa], with_function acc.2 f) Hr) as (fas & E & Hall).
  exists (fa :: fas). split; [|done]. cbn [foldl]. rewrite Hstep, E. cbn. by rewrite <- app_assoc.
Qed.

Lemma with_context_lookup name ps sizes :
  foldl (with_context name) sizes ps !! name =
    match last (List.filter is_context ps) with
    | Some p => Some (count_abi_type_fields (AbiType.p_typ p)) | None => sizes !! name end ∧
  ∀ other, other ≠ name → foldl (with_context name) sizes ps !! other = sizes !! other.
Proof.
  induction ps as [|p ps [IH1 IH2]] using rev_ind; [done|].
  rewrite foldl_app, List.filter_app. cbn. unfold with_context at 1 3. destruct (is_context p).
  - split; [by rewrite lookup_insert_eq, last_snoc|]. intros other Ho. by rewrite lookup_insert_ne, IH2.
  - by rewrite app_nil_r.
Qed.

Lemma with_functions_other fs sizes name :
  name ∉ (public_name <$> fs) → foldl with_function sizes fs !! name = sizes !! name.
Proof.
  revert sizes. induction fs as [|f fs IH]; intros sizes; [done|].
  rewrite fmap_cons, not_elem_of_cons. intros [Hne Hn]. cbn [foldl]. rewrite IH by done.
  unfold with_function. destruct (nf_type f); [|done..]. by apply with_context_lookup.
Qed.

Lemma with_functions_lookup fs sizes f :
  NoDup (public_name <$> fs) → f ∈ fs →
  foldl with_function sizes fs !! public_name f =
    match context_fields f with Some n => Some n | None => sizes !! public_name f end.
Proof.
  revert sizes. induction fs as [|g fs IH]; intros sizes; [by intros _ ?%elem_of_nil|].
  rewrite fmap_cons. intros [Hn Hd]%NoDup_cons [->|Hin]%elem_of_cons; cbn [foldl].
  - rewrite with_functions_other by done. unfold with_function, context_fields.
    destruct (nf_type g); [|done..]. destruct (with_context_lookup (public_name g) (nf_parameters g) sizes) as [-> _].
    by destruct (last _).
  - rewrite IH by done. destruct (context_fields f); [done|].
    assert (public_name f ≠ public_name g).
    { intros E. apply Hn. rewrite <- E. by apply list_elem_of_fmap_2. }
    unfold with_function. destruct (nf_type g); [|done..]. by apply with_context_lookup.
Qed.

End reading.

(** The longer prefix is never stripped whole: one underscore of it stays in the name. *)
Lemma internal_name_keeps_underscore s :
  nargo_function_name ("__aztec_nr_internals___" +:+ s) = "_" +:+ s.
Proof. reflexivity. Qed.
End contract.

(** ** An example: a contract with a private and a utility function *)

Section examples.
Import Concrete.Instances.

Definition typed (kind : string) (rest : list (string * jvalue)) : jvalue :=
  JObject (("kind"%string, JString kind) :: rest).
Definition declared (name : string) (ty : jvalue) : jvalue :=
  JObject [("name", JString name); ("type", ty)]%string.
Definition example_function (name attribute : string) (ps : list jvalue) (ret : jvalue) : jvalue :=
  JObject [("name", JString name); ("custom_attributes", JArray [JString attribute]);
           ("is_unconstrained", JBool false);
           ("abi", JObject [("parameters", JArray ps); ("return_type", ret)])]%string.

Definition example_document : jvalue :=
  JObject [("name", JString "Token");
           ("functions", JArray [
             example_function "__aztec_nr_internals__transfer" "abi_private"
               [declared "inputs" (typed "struct" [("path", JString "aztec::PrivateContextInputs");
                  ("fields", JArray [declared "chain" (typed "field" []);
                     declared "gas" (typed "array" [("type", typed "field" []); ("length", JNumber 2)])])]);
                declared "amount" (typed "integer" [("sign", JString "unsigned"); ("width", JNumber 64)])]
               JNull;
             example_function "balance" "abi_utility" [] (JObject [("abi_type", typed "field" [])])])]%string.

#[local] Instance document_json : JsonCrate := {|
  json_value := jvalue;
  json_from_str s := Ok (if decide (s = "token.json"%string) then example_document else JString s);
  json_get := @json_get concrete_json; json_pointer := @json_pointer concrete_json;
  json_as_str := @json_as_str concrete_json; json_as_bool := @json_as_bool concrete_json;
  json_as_u64 := @json_as_u64 concrete_json; json_as_array := @json_as_array concrete_json;
  json_size := @json_size concrete_json; json_get_size := @json_get_size concrete_json;
  json_as_array_size := @json_as_array_size concrete_json |}.
#[local] Instance strings_value : @FromValue (list string) document_json :=
  Build_FromValue (list string) document_json (λ v : jvalue,
    match v with JArray l => Ok (omap (@json_as_str concrete_json) l) | _ => Err (Json "not a list") end).
#[local] Instance no_field_value : @FromValue Fr document_json :=
  Build_FromValue Fr document_json (λ _ : jvalue, Err (Json "not a field")).

Definition example_context : AbiParameter :=
  MkAbiParameter "inputs" (AbiType.Struct "aztec::PrivateContextInputs"
    [MkAbiParameter "chain" AbiType.Field None;
     MkAbiParameter "gas" (AbiType.Array AbiType.Field 2) None]) None.
Definition transfer : NargoFunction :=
  {| nf_name := "__aztec_nr_internals__transfer"; nf_attributes := ["abi_private"]; nf_unconstrained := false;
     nf_parameters := [example_context; MkAbiParameter "amount" (AbiType.Integer "unsigned" 64) None];
     nf_return := None |}%string.
Definition balance : NargoFunction :=
  {| nf_name := "balance"; nf_attributes := ["abi_utility"]; nf_unconstrained := false;
     nf_parameters := []; nf_return := Some AbiType.Field |}%string.

Lemma document_pointer (v : json_value) :
  json_pointer v "/type/path" = json_get v "type" ≫= λ t, json_get t "path".
Proof. destruct v; vm_compute; reflexivity. Qed.

End examples.
