(* ===== verification/Node.v ===== *)
(** [crates/node-client/src/node.rs]: the [AztecNode] trait as a class, its JSON-RPC
    implementation, and the polling helpers over a clock. *)

From Stdlib Require Import Ascii String.
From S2P Require Import Prelude Bytes Ordered Deps Types AbiTypes Tx Kv Rpc.

(** ** Data *)

Record LogId := { li_block_number : Z; li_log_index : Z }.

Record PublicLogId := {
  pli_block_number : Z;
  pli_block_hash : option string;
  pli_tx_hash : option TxHash;
  pli_tx_index : option Z;
  pli_log_index : Z;
}.

Inductive TxValidationResult := Valid | Invalid (reason : list string) | Skipped (reason : list string).

(** Durations and instants are in nanoseconds. *)
Definition from_secs (s : Z) : Z := s * 1000000000.

Record WaitOpts := {
  wo_timeout : Z;
  wo_interval : Z;
  wait_for_status : TxStatus;
  dont_throw_on_revert : bool;
  ignore_dropped_receipts_for : Z;
}.

Definition WaitOpts_default : WaitOpts :=
  {| wo_timeout := from_secs 300; wo_interval := from_secs 1; wait_for_status := Checkpointed;
     dont_throw_on_revert := false; ignore_dropped_receipts_for := from_secs 5 |}.

Record WaitForProvenOpts := { proven_timeout : Z; wp_interval : Z }.

Definition WaitForProvenOpts_default : WaitForProvenOpts :=
  {| proven_timeout := from_secs 600; wp_interval := from_secs 1 |}.

Section data.
Context `{JS : JsonCrate} {FR : PrimeField fr_modulus}.

Record NodeInfo := {
  node_version : string;
  l1_chain_id : Z;
  rollup_version : Z;
  enr : option string;
  l1_contract_addresses : json_value;
  protocol_contract_addresses : json_value;
  real_proofs : bool;
  l2_circuits_vk_tree_root : option string;
  l2_protocol_contracts_hash : option string;
}.

Record PublicLogFilter := {
  plf_tx_hash : option TxHash;
  plf_from_block : option Z;
  plf_to_block : option Z;
  plf_contract_address : option AztecAddress;
  plf_selector : option Fr;
  plf_after_log : option LogId;
}.

Record PublicLogBody := { plb_contract_address : AztecAddress; plb_fields : list Fr }.
Record PublicLogEntry := { ple_id : PublicLogId; ple_log : PublicLogBody }.

Record PublicLog := {
  pl_contract_address : AztecAddress;
  pl_data : list Fr;
  pl_tx_hash : option TxHash;
  pl_block_number : Z;
  pl_log_index : Z;
}.

Definition PublicLog_from (entry : PublicLogEntry) : PublicLog :=
  {| pl_contract_address := plb_contract_address (ple_log entry);
     pl_data := plb_fields (ple_log entry);
     pl_tx_hash := pli_tx_hash (ple_id entry);
     pl_block_number := pli_block_number (ple_id entry);
     pl_log_index := pli_log_index (ple_id entry) |}.

Record RawPublicLogsResponse := { raw_logs : list PublicLogEntry; raw_max_logs_hit : bool }.
Record PublicLogsResponse := { logs : list PublicLog; max_logs_hit : bool }.
End data.

(** ** [trait AztecNode] *)

Class AztecNode (W : Type) `{JS : JsonCrate} {FR : PrimeField fr_modulus} := {
  get_node_info : M W NodeInfo;
  get_block_number : M W Z;
  get_proven_block_number : M W Z;
  get_tx_receipt : TxHash → M W TxReceipt;
  get_public_logs : PublicLogFilter → M W PublicLogsResponse;
  send_tx : json_value → M W ();
  get_contract : AztecAddress → M W (option ContractInstanceWithAddress);
  get_contract_class : Fr → M W (option json_value);
  get_block_header : Z → M W json_value;
  get_block : Z → M W (option json_value);
  get_note_hash_membership_witness : Z → Fr → M W (option json_value);
  get_nullifier_membership_witness : Z → Fr → M W (option json_value);
  get_low_nullifier_membership_witness : Z → Fr → M W (option json_value);
  get_public_storage_at : Z → AztecAddress → Fr → M W Fr;
  get_public_storage_at_by_hash : Fr → AztecAddress → Fr → M W Fr;
  get_public_data_witness : Z → Fr → M W (option json_value);
  get_public_data_witness_by_hash : Fr → Fr → M W (option json_value);
  get_l1_to_l2_message_membership_witness : Z → Fr → M W (option json_value);
  get_l1_to_l2_message_checkpoint : Fr → M W (option Z);
  simulate_public_calls : json_value → bool → M W json_value;
  is_valid_tx : json_value → M W TxValidationResult;
  get_private_logs_by_tags : list Fr → M W json_value;
  get_public_logs_by_tags_from_contract : AztecAddress → list Fr → M W json_value;
  register_contract_function_signatures : list string → M W ();
  get_tx_effect : TxHash → M W (option json_value);
  get_block_hash_membership_witness : Z → Fr → M W (option json_value);
  find_leaves_indexes : Z → string → list Fr → M W (list (option Z));
  get_tx_by_hash : TxHash → M W (option json_value);
}.
#[global] Hint Mode AztecNode ! - - : typeclass_instances.

(** ** The HTTP client *)

(** [str::parse::<u8>]. *)
Definition parse_u8 (s : string) : option Z :=
  parse_u64 s ≫= λ z, if z <? 256 then Some z else None.

Section http.
Context {W : Type} `{JT : JsonText} `{!JsonMake} `{!HttpCrate W} `{!FromValue RpcError}.
Context {FR : PrimeField fr_modulus} `{HX : HexCrate}.
Context `{!FromValue NodeInfo, !FromValue Z, !FromValue TxReceipt, !FromValue RawPublicLogsResponse,
  !FromValue ContractInstanceWithAddress, !FromValue Fr, !FromValue TxValidationResult,
  !FromValue (list (option json_value))}.

Definition block_param_json (block_number : Z) : JsonTree :=
  if block_number =? 0 then TString "latest" else TNumber (pretty block_number).

Definition block_hash_param_json (block_hash : Fr) : JsonTree := TString (Fr_to_string block_hash).

Definition fr_json (x : Fr) : JsonTree := TString (Fr_to_string x).
Definition tx_hash_json (h : TxHash) : JsonTree := TString (TxHash_to_string h).

(** A field that [skip_serializing_if = "Option::is_none"] leaves out. *)
Definition field_if_some {A : Type} (name : string) (f : A → JsonTree) (o : option A)
    : list (string * JsonTree) := match o with Some a => [(name, f a)] | None => [] end.

Definition LogId_json (l : LogId) : JsonTree :=
  TObject [("blockNumber", TNumber (pretty (li_block_number l)));
           ("logIndex", TNumber (pretty (li_log_index l)))].

Definition PublicLogFilter_json (f : PublicLogFilter) : JsonTree :=
  TObject (field_if_some "txHash" tx_hash_json (plf_tx_hash f)
    ++ field_if_some "fromBlock" (λ n, TNumber (pretty n)) (plf_from_block f)
    ++ field_if_some "toBlock" (λ n, TNumber (pretty n)) (plf_to_block f)
    ++ field_if_some "contractAddress" fr_json (plf_contract_address f)
    ++ field_if_some "selector" fr_json (plf_selector f)
    ++ field_if_some "afterLog" LogId_json (plf_after_log f)).

Definition args (l : list JsonTree) : json_value := json_of (TArray l).

(** One answer of [findLeavesIndexes]: a number, a number in a string, or an object
    with either under ["data"]. *)
Definition extract (v : json_value) : option Z :=
  match json_as_u64 v with
  | Some n => Some n
  | None => json_as_str v ≫= parse_u64
  end.

Definition leaf_index (v : option json_value) : option Z :=
  v ≫= λ val, match json_get val "data" ≫= extract with
              | Some n => Some n
              | None => extract val
              end.

Definition HttpNodeClient_new (url : string) (timeout : Z) : RpcTransport * Z :=
  RpcTransport_new url timeout.

Definition create_aztec_node_client (url : string) : RpcTransport * Z :=
  HttpNodeClient_new url (from_secs 30).

(** *** The later requests, one by one *)

Section requests.
Context (transport : RpcTransport).

Definition http_get_l1_to_l2_message_membership_witness (block_number : Z) (entry_key : Fr) : M (W * Z) (option json_value) :=
  call_optional transport "node_getL1ToL2MessageMembershipWitness"
    (args [block_param_json block_number; fr_json entry_key]).

Definition http_get_l1_to_l2_message_checkpoint (l1_to_l2_message : Fr) : M (W * Z) (option Z) :=
  let! result := call_optional transport "node_getL1ToL2MessageCheckpoint"
    (args [fr_json l1_to_l2_message]) in
  mok (result ≫= json_as_u64).

Definition http_simulate_public_calls (tx : json_value) (skip_fee_enforcement : bool) : M (W * Z) json_value :=
  call transport "node_simulatePublicCalls" (args [json_tree tx; TBool skip_fee_enforcement]).

Definition http_is_valid_tx (tx : json_value) : M (W * Z) TxValidationResult :=
  call transport "node_isValidTx" (args [json_tree tx]).

Definition http_get_private_logs_by_tags (tags : list Fr) : M (W * Z) json_value :=
  call transport "node_getPrivateLogsByTags" (args [TArray (fr_json <$> tags)]).

Definition http_get_public_logs_by_tags_from_contract (contract : AztecAddress) (tags : list Fr) : M (W * Z) json_value :=
  call transport "node_getPublicLogsByTagsFromContract"
    (args [fr_json contract; TArray (fr_json <$> tags)]).

Definition http_register_contract_function_signatures (signatures : list string) : M (W * Z) () :=
  call_void transport "node_registerContractFunctionSignatures"
    (args [TArray (TString <$> signatures)]).

Definition http_get_tx_effect (tx_hash : TxHash) : M (W * Z) (option json_value) :=
  call_optional transport "node_getTxEffect" (args [tx_hash_json tx_hash]).

Definition http_get_block_hash_membership_witness (block_number : Z) (block_hash : Fr) : M (W * Z) (option json_value) :=
  call_optional transport "node_getBlockHashMembershipWitness"
    (args [block_param_json block_number; fr_json block_hash]).

Definition http_find_leaves_indexes (block_number : Z) (tree_id : string) (leaves : list Fr) : M (W * Z) (list (option Z)) :=
  let! raw := call transport "node_findLeavesIndexes"
    (args [block_param_json block_number; TNumber (pretty (default 0 (parse_u8 tree_id)));
           TArray (fr_json <$> leaves)]) in
  mok (leaf_index <$> raw).

Definition http_get_tx_by_hash (tx_hash : TxHash) : M (W * Z) (option json_value) :=
  call_optional transport "node_getTxByHash" (args [tx_hash_json tx_hash]).
End requests.

(** The client is its transport; the world carries the counter of the requests. *)
Definition HttpNodeClient (transport : RpcTransport) : AztecNode (W * Z) := {|
  get_node_info := call transport "node_getNodeInfo" (args []);
  get_block_number := call transport "node_getBlockNumber" (args []);
  get_proven_block_number := call transport "node_getProvenBlockNumber" (args []);
  get_tx_receipt tx_hash := call transport "node_getTxReceipt" (args [tx_hash_json tx_hash]);
  get_public_logs filter :=
    let! raw := call transport "node_getPublicLogs" (args [PublicLogFilter_json filter]) in
    mok {| logs := PublicLog_from <$> raw_logs raw; max_logs_hit := raw_max_logs_hit raw |};
  send_tx tx := call_void transport "node_sendTx" (args [json_tree tx]);
  get_contract address := call_optional transport "node_getContract" (args [fr_json address]);
  get_contract_class id := call_optional transport "node_getContractClass" (args [fr_json id]);
  get_block_header block_number :=
    call transport "node_getBlockHeader" (args [block_param_json block_number]);
  get_block block_number :=
    call_optional transport "node_getBlock" (args [block_param_json block_number]);
  get_note_hash_membership_witness block_number note_hash :=
    call_optional transport "node_getNoteHashMembershipWitness"
      (args [block_param_json block_number; fr_json note_hash]);
  get_nullifier_membership_witness block_number nullifier :=
    call_optional transport "node_getNullifierMembershipWitness"
      (args [block_param_json block_number; fr_json nullifier]);
  get_low_nullifier_membership_witness block_number nullifier :=
    call_optional transport "node_getLowNullifierMembershipWitness"
      (args [block_param_json block_number; fr_json nullifier]);
  get_public_storage_at block_number contract slot :=
    call transport "node_getPublicStorageAt"
      (args [block_param_json block_number; fr_json contract; fr_json slot]);
  get_public_storage_at_by_hash block_hash contract slot :=
    call transport "node_getPublicStorageAt"
      (args [block_hash_param_json block_hash; fr_json contract; fr_json slot]);
  get_public_data_witness block_number leaf_slot :=
    call_optional transport "node_getPublicDataWitness"
      (args [block_param_json block_number; fr_json leaf_slot]);
  get_public_data_witness_by_hash block_hash leaf_slot :=
    call_optional transport "node_getPublicDataWitness"
      (args [block_hash_param_json block_hash; fr_json leaf_slot]);
  get_l1_to_l2_message_membership_witness := http_get_l1_to_l2_message_membership_witness transport;
  get_l1_to_l2_message_checkpoint := http_get_l1_to_l2_message_checkpoint transport;
  simulate_public_calls := http_simulate_public_calls transport;
  is_valid_tx := http_is_valid_tx transport;
  get_private_logs_by_tags := http_get_private_logs_by_tags transport;
  get_public_logs_by_tags_from_contract := http_get_public_logs_by_tags_from_contract transport;
  register_contract_function_signatures := http_register_contract_function_signatures transport;
  get_tx_effect := http_get_tx_effect transport;
  get_block_hash_membership_witness := http_get_block_hash_membership_witness transport;
  find_leaves_indexes := http_find_leaves_indexes transport;
  get_tx_by_hash := http_get_tx_by_hash transport
|}.
End http.

(** ** Time

    [tokio::time]: instants in nanoseconds of a monotonic clock.  Adding a duration to
    an instant panics past the platform's last instant. *)

Class Clock (W : Type) := { now : M W Z; sleep : Z → M W (); instant_max : Z }.
#[global] Hint Mode Clock ! : typeclass_instances.
Arguments instant_max W {_}.

Definition instant_add (W : Type) `{Clock W} (t d : Z) : Outcome Z :=
  if t + d <=? instant_max W then Ok (t + d) else Panic.

(** [Duration]'s [Debug]: the unit that gives an integer part, then the fraction
    without its trailing zeros. *)
Fixpoint fraction_digits (fuel : nat) (fraction divisor : Z) : string :=
  match fuel with
  | O => ""
  | S n => if fraction =? 0 then ""
           else pretty (fraction `div` divisor)
                  +:+ fraction_digits n (fraction `mod` divisor) (divisor `div` 10)
  end.

Definition fmt_decimal (integer fraction divisor : Z) (suffix : string) : string :=
  pretty integer +:+ (if fraction =? 0 then "" else "." +:+ fraction_digits 9 fraction divisor)
    +:+ suffix.

Definition Duration_debug (d : Z) : string :=
  if 1000000000 <=? d then fmt_decimal (d `div` 1000000000) (d `mod` 1000000000) 100000000 "s"
  else if 1000000 <=? d then fmt_decimal (d `div` 1000000) (d `mod` 1000000) 100000 "ms"
  else if 1000 <=? d then
    fmt_decimal (d `div` 1000) (d `mod` 1000) 100 (from_bytes [Z_byte 194; Z_byte 181] +:+ "s")
  else fmt_decimal d 0 1 "ns".

(** ** Polling

    The body of a [loop] answers the value it returns, or [None] to go round again.
    [mloop] answers [None] only when its fuel is spent. *)
Fixpoint mloop {W A : Type} (fuel : nat) (body : M W (option A)) : M W (option A) :=
  match fuel with
  | O => mok None
  | S n => let! r := body in
           match r with Some a => mok (Some a) | None => mloop n body end
  end.

Definition status_ordinal (s : TxStatus) : Z :=
  match s with
  | Dropped => 0 | Pending => 1 | Proposed => 2 | Checkpointed => 3 | Proven => 4 | Finalized => 5
  end.

Definition status_reached (status target : TxStatus) : bool :=
  status_ordinal target <=? status_ordinal status.

Definition TxStatus_debug (s : TxStatus) : string :=
  match s with
  | Dropped => "Dropped" | Pending => "Pending" | Proposed => "Proposed"
  | Checkpointed => "Checkpointed" | Proven => "Proven" | Finalized => "Finalized"
  end.

Section polling.
Context {W : Type} `{JS : JsonCrate} {FR : PrimeField fr_modulus} `{HX : HexCrate}.
Context `{!AztecNode W, !Clock W}.

(** [Instant::now() + interval]. *)
Definition next_poll (interval : Z) : M W Z :=
  let! t := now in mlift (instant_add W t interval).

Definition wait_for_node_body (timeout interval deadline : Z) : M W (option NodeInfo) :=
  let! answer := mtry get_node_info in
  match answer with
  | Ok info => mok (Some info)
  | Err e =>
      let! t := next_poll interval in
      if t <? deadline then sleep interval ;;! mok None
      else mlift (Err (Timeout ("node not ready after " +:+ Duration_debug timeout +:+ ": "
                                +:+ Error_display e)))
  | Panic => mlift Panic
  end.

Definition wait_for_node_opts (fuel : nat) (timeout interval : Z) : M W (option NodeInfo) :=
  let! start := now in
  let! deadline := mlift (instant_add W start timeout) in
  mloop fuel (wait_for_node_body timeout interval deadline).

Definition wait_for_node (fuel : nat) : M W (option NodeInfo) :=
  wait_for_node_opts fuel (from_secs 120) (from_secs 1).

(** The end of a round: time out, or sleep and go round again. *)
Definition sleep_or_time_out {A : Type} (interval deadline : Z) (message : string)
    : M W (option A) :=
  let! t := next_poll interval in
  if deadline <=? t then mlift (Err (Timeout message)) else sleep interval ;;! mok None.

Definition reason_of (receipt : TxReceipt) : string := default "unknown reason" (tx_error receipt).

Definition wait_for_tx_body (hash : TxHash) (opts : WaitOpts) (start deadline : Z)
    : M W (option TxReceipt) :=
  let target := wait_for_status opts in
  let! answer := mtry (get_tx_receipt hash) in
  let! done :=
    match answer with
    | Ok receipt =>
        if is_dropped receipt then
          let! t := now in
          let elapsed := Z.max 0 (t - start) in
          if ignore_dropped_receipts_for opts <=? elapsed then
            mlift (Err (Reverted ("tx " +:+ TxHash_to_string hash +:+ " was dropped: "
                                  +:+ reason_of receipt)))
          else mok None
        else if has_execution_reverted receipt && negb (dont_throw_on_revert opts) then
          mlift (Err (Reverted ("tx " +:+ TxHash_to_string hash +:+ " execution reverted: "
                                +:+ reason_of receipt)))
        else if status_reached (tx_status receipt) target then mok (Some receipt)
        else mok None
    | Err e =>
        let! t := next_poll (wo_interval opts) in
        if deadline <=? t then
          mlift (Err (Timeout ("timed out waiting for tx " +:+ TxHash_to_string hash +:+ ": "
                               +:+ Error_display e)))
        else mok None
    | Panic => mlift Panic
    end in
  match done with
  | Some receipt => mok (Some receipt)
  | None =>
      sleep_or_time_out (wo_interval opts) deadline
        ("tx " +:+ TxHash_to_string hash +:+ " did not reach " +:+ TxStatus_debug target
         +:+ " within " +:+ Duration_debug (wo_timeout opts))
  end.

Definition wait_for_tx (fuel : nat) (hash : TxHash) (opts : WaitOpts) : M W (option TxReceipt) :=
  let! start := now in
  let! deadline := mlift (instant_add W start (wo_timeout opts)) in
  mloop fuel (wait_for_tx_body hash opts start deadline).

Definition wait_for_proven_body (receipt_block : Z) (opts : WaitForProvenOpts) (deadline : Z)
    : M W (option Z) :=
  let! answer := mtry get_proven_block_number in
  let! done :=
    match answer with
    | Ok proven_block => mok (if receipt_block <=? proven_block then Some proven_block else None)
    | Err e =>
        let! t := next_poll (wp_interval opts) in
        if deadline <=? t then
          mlift (Err (Timeout ("timed out waiting for block " +:+ pretty receipt_block
                               +:+ " to be proven: " +:+ Error_display e)))
        else mok None
    | Panic => mlift Panic
    end in
  match done with
  | Some proven_block => mok (Some proven_block)
  | None =>
      sleep_or_time_out (wp_interval opts) deadline
        ("block " +:+ pretty receipt_block +:+ " was not proven within "
         +:+ Duration_debug (proven_timeout opts))
  end.

Definition wait_for_proven (fuel : nat) (receipt : TxReceipt) (opts : WaitForProvenOpts)
    : M W (option Z) :=
  let! receipt_block := mlift (ok_or (rc_block_number receipt)
    (InvalidData ("receipt has no block_number " +:+ from_bytes [Z_byte 226; Z_byte 128; Z_byte 148]
                  +:+ " cannot wait for proven"))) in
  let! start := now in
  let! deadline := mlift (instant_add W start (proven_timeout opts)) in
  mloop fuel (wait_for_proven_body receipt_block opts deadline).
End polling.
