(* ===== verification/Pxe.v ===== *)
(** [crates/pxe-client/src/pxe.rs]: the interface of the private execution environment
    that the wallet talks to, and the records it exchanges. *)

From Stdlib Require Import Ascii String.
From S2P Require Import Prelude Bytes Ordered Deps Concrete Types AbiTypes Poseidon KernelTypes Tx Kv.

Module pxe.

(** A 32-byte L2 block hash. *)
Notation BlockHash := (list byte).

Definition decode_hex_32 `{HX : HexCrate} (s : string) : Outcome (list byte) :=
  let raw := strip_0x s in
  if 64 <? str_len raw then Err (InvalidData "hex value too large: expected at most 32 bytes")
  else
    let padded := if str_len raw mod 2 =? 1 then "0" +:+ raw else raw in
    match hex_decode padded with
    | inl e => Err (InvalidData e)
    | inr decoded =>
        if (32 <? List.length decoded)%nat
        then Err (InvalidData "hex value too large: expected at most 32 bytes")
        else Ok (left_pad 32 decoded)
    end.

Definition BlockHash_default : BlockHash := replicate 32 zero_byte.
Definition BlockHash_from_hex `{HX : HexCrate} (value : string) : Outcome BlockHash :=
  decode_hex_32 value.
Definition BlockHash_to_string `{HX : HexCrate} (h : BlockHash) : string := encode_hex h.

Section pxe.
Context `{JS : JsonCrate} {FR : PrimeField fr_modulus}.

(** The opaque documents. *)
Record BlockHeader := { bh_data : json_value }.
Record TxExecutionRequest := { tr_data : json_value }.
Record TxSimulationResult := { sim_data : json_value }.
Record TxProfileResult := { prof_data : json_value }.

Record TxProvingResult := {
  pr_tx_hash : option TxHash;
  pr_private_execution_result : json_value;
  pr_public_inputs : PrivateKernelTailCircuitPublicInputs;
  pr_chonk_proof : ChonkProof;
  pr_contract_class_log_fields : list ContractClassLogFields;
  pr_public_function_calldata : list HashedValues;
  pr_stats : option json_value;
}.

Definition to_tx (self : TxProvingResult) : NodeTx :=
  {| ntx_data := pr_public_inputs self;
     ntx_chonk_proof := pr_chonk_proof self;
     ntx_contract_class_log_fields := pr_contract_class_log_fields self;
     ntx_public_function_calldata := pr_public_function_calldata self |}.

(** The check is a stub in the source. *)
Definition TxProvingResult_validate (self : TxProvingResult) : Outcome () := Ok ().

Record LogId := {
  li_block_number : Z;
  li_block_hash : BlockHash;
  li_tx_hash : TxHash;
  li_tx_index : Z;
  li_log_index : Z;
}.

Inductive ProfileMode := Full | ExecutionSteps | Gates.

Record UtilityExecutionResult := { ut_result : list Fr; ut_stats : option json_value }.

Record SimulateTxOpts := {
  simulate_public : bool;
  skip_tx_validation : bool;
  skip_fee_enforcement : bool;
  overrides : option json_value;
  st_scopes : list AztecAddress;
}.

Definition default_skip_proof_generation : bool := true.

Record ProfileTxOpts := {
  profile_mode : ProfileMode;
  skip_proof_generation : bool;
  pt_scopes : list AztecAddress;
}.
Definition ProfileTxOpts_default : ProfileTxOpts :=
  {| profile_mode := Full; skip_proof_generation := default_skip_proof_generation; pt_scopes := [] |}.

Record ExecuteUtilityOpts := { authwits : list AuthWitness; eu_scopes : list AztecAddress }.

Record PackedPrivateEvent := {
  packed_event : list Fr;
  ppe_tx_hash : TxHash;
  l2_block_number : Z;
  l2_block_hash : BlockHash;
  ppe_event_selector : Fr;
}.

Record PrivateEventFilter := {
  pef_contract_address : AztecAddress;
  pef_tx_hash : option TxHash;
  pef_from_block : option Z;
  pef_to_block : option Z;
  pef_after_log : option LogId;
  pef_scopes : list AztecAddress;
}.

Definition PrivateEventFilter_default : PrivateEventFilter :=
  {| pef_contract_address := AztecAddress_zero; pef_tx_hash := None; pef_from_block := None;
     pef_to_block := None; pef_after_log := None; pef_scopes := [] |}.

Record RegisterContractRequest := {
  rcr_instance : ContractInstanceWithAddress;
  rcr_artifact : option (ContractArtifact FR JS);
}.
End pxe.

(** [trait Pxe]. *)
Class Pxe (W : Type) `{JS : JsonCrate} {FR : PrimeField fr_modulus} := {
  get_synced_block_header : M W BlockHeader;
  get_contract_instance : AztecAddress → M W (option ContractInstanceWithAddress);
  get_contract_artifact : Fr → M W (option (ContractArtifact FR JS));
  get_contracts : M W (list AztecAddress);
  register_account : Fr → Fr → M W CompleteAddress;
  get_registered_accounts : M W (list CompleteAddress);
  register_sender : AztecAddress → M W AztecAddress;
  get_senders : M W (list AztecAddress);
  remove_sender : AztecAddress → M W ();
  register_contract_class : ContractArtifact FR JS → M W ();
  register_contract : RegisterContractRequest → M W ();
  update_contract : AztecAddress → ContractArtifact FR JS → M W ();
  simulate_tx : TxExecutionRequest → SimulateTxOpts → M W TxSimulationResult;
  prove_tx : TxExecutionRequest → list AztecAddress → M W TxProvingResult;
  profile_tx : TxExecutionRequest → ProfileTxOpts → M W TxProfileResult;
  execute_utility : FunctionCall → ExecuteUtilityOpts → M W UtilityExecutionResult;
  get_private_events : Fr → PrivateEventFilter → M W (list PackedPrivateEvent);
  stop : M W ();
}.
#[global] Hint Mode Pxe ! - - : typeclass_instances.

End pxe.
Notation Pxe := pxe.Pxe.
