(* ===== verification/Sync.v ===== *)
(** [crates/pxe/src/sync/]: what keeps the local stores in step with the node.  The
    world [W] carries both the key-value store and the node; the locks of a service
    guard a component beside it. *)

From Stdlib Require Import Ascii String.
From S2P Require Import Prelude Bytes Ordered Deps Concrete Types AbiTypes Poseidon Hash Tx Kv LocalStores TaggingStores NoteStore EventStore Rpc Node Pxe.

Notation MAX_RPC_LEN := 128%nat.

(** ** [block_sync.rs] *)

Module BlockSynchronizer.
Section sync.
Context {W : Type} `{JS : JsonCrate} {FR : PrimeField fr_modulus} `{!AztecNode W}.

(** Block number 0 asks for the latest header. *)
Definition sync_block_header : M W json_value := get_block_header 0.

Definition get_block_header (block_number : Z) : M W json_value := get_block_header block_number.
End sync.
End BlockSynchronizer.

(** ** [note_service.rs] *)

Module NoteService.
Section service.
Context {W : Type} `{JS : JsonCrate} {FR : PrimeField fr_modulus} {HX : HexCrate}.
Context {SN : SerdeJson StoredNote} {SL : SerdeJson (list string)}.
Context `{KV : KvStore W} `{!AztecNode W}.

Definition get_notes (filter : NoteFilter) : M W (list StoredNote) := get_notes filter.

(** The witness of one nullifier, as an index into the answers. *)
Definition push_index (anchor_block_number : Z) (indexes : list (option Z)) (nullifier : Fr)
    : M W (list (option Z)) :=
  let! witness := get_nullifier_membership_witness anchor_block_number nullifier in
  mok (indexes ++ [(λ _, 0) <$> witness]).

(** The nullifiers that were found, each with block 0. *)
Definition found_nullifiers (chunk : list StoredNote) (indexes : list (option Z)) : list (Fr * Z) :=
  omap (λ ni, (λ _, (sn_siloed_nullifier ni.1, 0)) <$> ni.2) (zip chunk indexes).

Definition sync_chunk (anchor_block_number : Z) (nullified_count : Z) (chunk : list StoredNote)
    : M W Z :=
  let nullifiers := sn_siloed_nullifier <$> chunk in
  let! indexes := for_fold (push_index anchor_block_number) [] nullifiers in
  let to_nullify := found_nullifiers chunk indexes in
  let nullified_count := wrap 64 (nullified_count + Z.of_nat (List.length to_nullify)) in
  (if decide (to_nullify = []) then mok () else apply_nullifiers to_nullify) ;;!
  mok nullified_count.

Definition sync_note_nullifiers (contract_address : AztecAddress) (scopes : list AztecAddress)
    (anchor_block_number : Z) : M W Z :=
  let filter :=
    {| nf_contract_address := Some contract_address; nf_owner := nf_owner NoteFilter_default;
       nf_storage_slot := nf_storage_slot NoteFilter_default; nf_status := Active;
       nf_siloed_nullifier := nf_siloed_nullifier NoteFilter_default; nf_scopes := scopes |} in
  let! notes := get_notes filter in
  if decide (List.length notes = 0%nat) then mok 0
  else for_fold (sync_chunk anchor_block_number) 0 (chunks MAX_RPC_LEN notes).

(** A note whose nullifier is already in the tree is stored as nullified at block 0. *)
Definition validate_and_store_note (note : StoredNote) (scope : AztecAddress) : M W () :=
  let! nullifier_witness := get_nullifier_membership_witness 0 (sn_siloed_nullifier note) in
  let stored := if nullifier_witness then with_nullified note true (Some 0) else note in
  add_notes [stored] scope.
End service.
End NoteService.

(** ** [event_filter.rs] *)

Section event_filter.
Context {FR : PrimeField fr_modulus}.

(** The exclusive upper bound becomes inclusive. *)
Definition validate_event_filter (anchor_block_number : Z) (filter : pxe.PrivateEventFilter)
    : Outcome PrivateEventQueryFilter :=
  if decide (pxe.pef_scopes filter = []) then
    Err (InvalidData "at least one scope is required to get private events")
  else
    let from_block := Z.max (default 1 (pxe.pef_from_block filter)) 1 in
    let next := wrap 64 (anchor_block_number + 1) in
    let to_block := default next (pxe.pef_to_block filter) in
    if next <? to_block then
      Err (InvalidData ("to_block (" +:+ pretty to_block +:+ ") exceeds anchor block + 1 ("
                        +:+ pretty next +:+ ")"))
    else if to_block <=? from_block then
      Err (InvalidData ("invalid block range: from_block=" +:+ pretty from_block
                        +:+ " >= to_block=" +:+ pretty to_block))
    else
      Ok {| pf_contract_address := pxe.pef_contract_address filter; pf_from_block := Some from_block;
            pf_to_block := Some (wrap 64 (to_block - 1)); pf_scopes := pxe.pef_scopes filter;
            pf_tx_hash := pxe.pef_tx_hash filter |}.

Definition to_query_filter_unchecked (filter : pxe.PrivateEventFilter) : PrivateEventQueryFilter :=
  {| pf_contract_address := pxe.pef_contract_address filter; pf_from_block := pxe.pef_from_block filter;
     pf_to_block := pxe.pef_to_block filter; pf_scopes := pxe.pef_scopes filter;
     pf_tx_hash := pxe.pef_tx_hash filter |}.

Definition all_events_filter (contract_address : AztecAddress) : PrivateEventQueryFilter :=
  {| pf_contract_address := contract_address; pf_from_block := None; pf_to_block := None;
     pf_scopes := []; pf_tx_hash := None |}.
End event_filter.

(** ** [event_service.rs] *)

Module EventService.
Section service.
Context {W : Type} `{JS : JsonCrate} {FR : PrimeField fr_modulus} {HX : HexCrate}.
Context `{P2 : !Poseidon2Crate}.
Context {SE : SerdeJson StoredPrivateEvent} {SL : SerdeJson (list string)}.
Context {SH : SerdeJson AnchorBlockStore.AnchorBlockHeader}.
Context `{KV : KvStore W} `{!AztecNode W}.

(** [.pointer("/name").or_else(|| v.get("name"))]. *)
Definition member (v : json_value) (name : string) : option json_value :=
  match json_pointer v ("/" +:+ name) with Some w => Some w | None => json_get v name end.

(** [n.as_str().map_or(false, |s| s == hex)]. *)
Definition is_text (hex : string) (n : json_value) : bool :=
  match json_as_str n with Some s => bool_decide (s = hex) | None => false end.

Definition position {A : Type} (p : A → bool) (l : list A) : option Z :=
  (λ i, Z.of_nat i.1) <$> list_find p l.

Definition validate_and_store_event (contract_address : AztecAddress) (selector randomness : Fr)
    (content : list Fr) (event_commitment : Fr) (hash : TxHash) (scope : AztecAddress) : M W () :=
  let siloed_event_commitment :=
    poseidon2_hash_with_separator [contract_address; event_commitment] 0 in
  let! anchor_block_number := AnchorBlockStore.get_block_number in
  let! effect := get_tx_effect hash in
  let! tx_effect := required effect
    (InvalidData ("tx effect not found for tx " +:+ TxHash_to_string hash)) in
  let block_number := default 0 (member tx_effect "l2BlockNumber" ≫= json_as_u64) in
  if (anchor_block_number <? block_number) && (0 <? anchor_block_number) then
    mlift (Err (InvalidData ("tx " +:+ TxHash_to_string hash +:+ " is in block "
      +:+ pretty block_number +:+ " which is after anchor block " +:+ pretty anchor_block_number)))
  else
  let l2_block_hash := default "0x0" (member tx_effect "l2BlockHash" ≫= json_as_str) in
  let tx_index_in_block := member tx_effect "txIndexInBlock" ≫= json_as_u64 in
  let nullifiers := member tx_effect "nullifiers" ≫= json_as_array in
  let commitment_hex := Fr_to_string siloed_event_commitment in
  let! _ :=
    match nullifiers with
    | Some nullifiers =>
        if existsb (is_text commitment_hex) nullifiers then mok ()
        else mlift (Err (InvalidData ("siloed event commitment " +:+ commitment_hex
               +:+ " not found in tx " +:+ TxHash_to_string hash +:+ " nullifiers")))
    | None => mok ()
    end in
  let event_index_in_tx := nullifiers ≫= position (is_text commitment_hex) in
  PrivateEventStore.store_private_event_log
    {| ev_event_selector := selector; ev_randomness := randomness; ev_msg_content := content;
       ev_siloed_event_commitment := siloed_event_commitment;
       ev_contract_address := contract_address; ev_scopes := []; ev_tx_hash := hash;
       ev_l2_block_number := block_number; ev_l2_block_hash := l2_block_hash;
       ev_tx_index_in_block := tx_index_in_block; ev_event_index_in_tx := event_index_in_tx |}
    scope.

Definition get_private_events (event_selector : Fr) (filter : PrivateEventQueryFilter)
    : M W (list StoredPrivateEvent) := PrivateEventStore.get_private_events event_selector filter.
End service.
End EventService.

(** ** [contract_sync.rs] *)

Module ContractSync.
(** The two locked fields of the service. *)
Record SyncCache := { synced : gset string; anchor_block_hash : option string }.

Definition SyncCache_new : SyncCache := {| synced := ∅; anchor_block_hash := None |}.

Section service.
Context {W : Type} `{JS : JsonCrate} {FR : PrimeField fr_modulus} {HX : HexCrate}.
Context {SN : SerdeJson StoredNote} {SL : SerdeJson (list string)}.
Context `{KV : KvStore W} `{!AztecNode W}.

Definition sync_key (contract scope : AztecAddress) : string :=
  Fr_to_string contract +:+ ":" +:+ Fr_to_string scope.
Definition sync_key_wildcard (contract : AztecAddress) : string :=
  Fr_to_string contract +:+ ":*".

(** The cache is emptied when the anchor block is another one. *)
Definition refresh (hash : string) (c : SyncCache) : SyncCache :=
  if decide (anchor_block_hash c = Some hash) then c
  else {| synced := ∅; anchor_block_hash := Some hash |}.

Definition is_unsynced (contract_address : AztecAddress) (c : SyncCache) (scope : AztecAddress) : bool :=
  bool_decide (sync_key contract_address scope ∉ synced c)
  && bool_decide (sync_key_wildcard contract_address ∉ synced c).

Definition mark_synced (contract_address : AztecAddress) (scopes : list AztecAddress) (c : SyncCache)
    : SyncCache :=
  {| synced := foldl (λ s scope, s ∪ {[sync_key contract_address scope]}) (synced c) scopes;
     anchor_block_hash := anchor_block_hash c |}.

(** The service runs on a state that holds the world and the cache; the executor may change
    all of it, the cache too, for no lock is held while it runs.  It answers [None] when it
    is out of fuel. *)
Context {T : Type} (in_world : ∀ A, M W A → M T A) (on_cache : ∀ A, (SyncCache → SyncCache * A) → M T A).
Arguments in_world {A}.
Arguments on_cache {A}.

(** [try_join!] of the nullifier sync and of [sync_state]; their interleavings are not
    modelled, the first runs before the second. *)
Definition do_sync (contract_address : AztecAddress) (scopes : list AztecAddress)
    (utility_executor : AztecAddress → list AztecAddress → M T (option ())) : M T (option ()) :=
  let! answer := in_world (mtry get_block_number) in
  let! anchor_block := match answer with
    | Ok n => mok n | Err _ => mok 0 | Panic => mlift Panic end in
  in_world (NoteService.sync_note_nullifiers contract_address scopes anchor_block) ;;!
  utility_executor contract_address scopes.

Definition ensure_contract_synced_with (contract_address : AztecAddress)
    (scopes : list AztecAddress) (hash : string)
    (utility_executor : AztecAddress → list AztecAddress → M T (option ())) : M T (option ()) :=
  on_cache (λ c, (refresh hash c, ())) ;;!
  let! unsynced_scopes := on_cache (λ c, (c, List.filter (is_unsynced contract_address c) scopes)) in
  if decide (List.length unsynced_scopes = 0%nat) then mok (Some ())
  else
    let?! _ := do_sync contract_address unsynced_scopes utility_executor in
    on_cache (λ c, (mark_synced contract_address unsynced_scopes c, Some ())).

Definition ensure_contract_synced := ensure_contract_synced_with.

Definition wipe : M T () := on_cache (λ _, (SyncCache_new, ())).
End service.
End ContractSync.

(** ** [log_service.rs] *)

Module LogService.
Section service.
Context {W : Type} `{JS : JsonCrate} {FR : PrimeField fr_modulus} {HX : HexCrate}.
Context `{P2 : !Poseidon2Crate} {SZ : SerdeJson Z}.
Context `{KV : KvStore W} `{!AztecNode W}.

Definition UNFINALIZED_TAGGING_INDEXES_WINDOW_LEN : Z := 20.

Record LogRetrievalRequest := {
  lr_is_public : bool;
  lr_tag : Fr;
  lr_contract_address : option AztecAddress;
}.

Record TaggedLog := {
  tl_tag : Fr;
  tl_data : list Fr;
  tl_block_number : Z;
  tl_is_public : bool;
  tl_tx_hash : TxHash;
  tl_note_hashes : list Fr;
  tl_first_nullifier : Fr;
}.

(** The elements of an array that are texts of field elements. *)
Definition field_texts (arr : list json_value) : list Fr :=
  omap (λ v, json_as_str v ≫= λ s, ok_opt (Fr_from_hex s)) arr.

Definition fields_of (v : option json_value) : list Fr :=
  default [] (field_texts <$> (v ≫= json_as_array)).

(** [.and_then(|v| v.as_str()).map(parse).transpose()?.unwrap_or_else(zero)]. *)
Definition text_or {A : Type} (parse : string → Outcome A) (zero : A) (v : option json_value)
    : Outcome A :=
  match v ≫= json_as_str with Some s => parse s | None => Ok zero end.

Definition parse_entry (tag : Fr) (is_public : bool) (entry : json_value) : Outcome TaggedLog :=
  let data := fields_of (match json_get entry "logData" with
                         | Some d => Some d | None => json_get entry "data" end) in
  let block_number := default 0 (json_get entry "blockNumber" ≫= json_as_u64) in
  let? hash := text_or TxHash_from_hex TxHash_zero (json_get entry "txHash") in
  let note_hashes := fields_of (json_get entry "noteHashes") in
  let? first_nullifier := text_or Fr_from_hex Fr_zero (json_get entry "firstNullifier") in
  Ok {| tl_tag := tag; tl_data := data; tl_block_number := block_number; tl_is_public := is_public;
        tl_tx_hash := hash; tl_note_hashes := note_hashes; tl_first_nullifier := first_nullifier |}.

Definition parse_entries (tag : Fr) (is_public : bool) (tag_logs : json_value)
    : Outcome (list TaggedLog) :=
  match json_as_array tag_logs with
  | Some entries => omapM (parse_entry tag is_public) entries
  | None => Ok []
  end.

(** One list of logs per tag; what the node answers beyond the tags is ignored. *)
Definition get_private_logs_by_tags (tags : list Fr) : M W (list (list TaggedLog)) :=
  if decide (List.length tags = 0%nat) then mok []
  else
    let! response := get_private_logs_by_tags tags in
    match json_as_array response with
    | Some outer =>
        let! logs := mlift (omapM (λ te, parse_entries te.1 false te.2) (zip tags outer)) in
        mok (logs ++ replicate (List.length tags - List.length logs) [])
    | None => mok (replicate (List.length tags) [])
    end.

Definition get_public_logs_by_tag (contract : AztecAddress) (tag : Fr) : M W (list TaggedLog) :=
  let! response := get_public_logs_by_tags_from_contract contract [tag] in
  match json_as_array response with
  | Some outer => let! logs := mlift (omapM (parse_entries tag true) outer) in mok (mjoin logs)
  | None => mok []
  end.

Definition retrieve (results : list (list TaggedLog)) (request : LogRetrievalRequest)
    : M W (list (list TaggedLog)) :=
  let! public_logs := match lr_contract_address request with
    | Some contract => get_public_logs_by_tag contract (lr_tag request)
    | None => mok []
    end in
  let siloed_tag := match lr_contract_address request with
    | Some contract => compute_siloed_private_log_first_field contract (lr_tag request)
    | None => lr_tag request
    end in
  let! private_logs := get_private_logs_by_tags [siloed_tag] in
  let private_logs := default [] (last private_logs) in
  if negb (List.length public_logs =? 0)%nat && negb (List.length private_logs =? 0)%nat then
    mlift (Err (InvalidData ("found both a public and private log for tag "
                             +:+ Fr_to_string (lr_tag request))))
  else mok (results ++ [if negb (List.length public_logs =? 0)%nat then public_logs
                        else private_logs]).

Definition bulk_retrieve_logs (requests : list LogRetrievalRequest)
    : M W (list (list TaggedLog)) := for_fold retrieve [] requests.

Definition compute_siloed_tag (secret : Fr) (index : Z) (contract_address : AztecAddress) : Fr :=
  let tag := poseidon2_hash [secret; Fr_from_u64 index] in
  compute_siloed_private_log_first_field contract_address tag.

(** The inclusive range [from..=to]. *)
Definition range_inclusive (from_index to_index : Z) : list Z := seqZ from_index (to_index - from_index + 1).

(** The position of the last tag with logs. *)
Definition last_found (logs : list (list TaggedLog)) : option Z :=
  foldl (λ found il, if (List.length il.2 =? 0)%nat then found else Some il.1) None
    (zip (seqZ 0 (Z.of_nat (List.length logs))) logs).

Definition load_chunk (secret : Fr) (from_index : Z) (all_logs : list TaggedLog)
    (chunk : Z * list Fr) : M W (list TaggedLog) :=
  let! logs := get_private_logs_by_tags chunk.2 in
  let highest_found_index :=
    (λ i, wrap 64 (from_index + (chunk.1 * Z.of_nat MAX_RPC_LEN + i))) <$> last_found logs in
  let! _ := match highest_found_index with
    | Some idx => mtry (RecipientTaggingStore.update_highest_finalized_index secret idx)
    | None => mok (Ok ())
    end in
  mok (all_logs ++ mjoin logs).

Definition load_logs_for_range (contract_address : AztecAddress) (secret : Fr)
    (from_index to_index : Z) : M W (list TaggedLog) :=
  let tags := (λ idx, compute_siloed_tag secret idx contract_address)
                <$> range_inclusive from_index to_index in
  let parts := chunks MAX_RPC_LEN tags in
  for_fold (load_chunk secret from_index) [] (zip (seqZ 0 (Z.of_nat (List.length parts))) parts).

Definition fetch_for_secret (contract_address : AztecAddress) (all_logs : list TaggedLog)
    (secret : Fr) : M W (list TaggedLog) :=
  let! finalized := RecipientTaggingStore.get_highest_finalized_index secret in
  let from_index := wrap 64 (finalized + 1) in
  let to_index := wrap 64 (finalized + UNFINALIZED_TAGGING_INDEXES_WINDOW_LEN) in
  let! logs := load_logs_for_range contract_address secret from_index to_index in
  mok (all_logs ++ logs).

Definition fetch_tagged_logs (contract_address recipient : AztecAddress)
    (tagging_secrets : list Fr) : M W (list TaggedLog) :=
  for_fold (fetch_for_secret contract_address) [] tagging_secrets.

Definition get_senders : M W (list AztecAddress) := SenderStore.get_all.
End service.
End LogService.

(** ** [block_state_synchronizer.rs] *)

Module BlockStateSynchronizer.
Import AnchorBlockStore.

Inductive SyncChainTip := TipProposed | TipProven.

Record BlockSyncConfig := { sync_chain_tip : SyncChainTip }.

Definition BlockSyncConfig_default : BlockSyncConfig := {| sync_chain_tip := TipProposed |}.

(** The two locked flags. *)
Record SyncFlags := { syncing : bool; anchor_changed : bool }.

Definition SyncFlags_new : SyncFlags := {| syncing := false; anchor_changed := false |}.

Definition set_syncing (b : bool) (f : SyncFlags) : SyncFlags :=
  {| syncing := b; anchor_changed := anchor_changed f |}.
Definition set_anchor_changed (b : bool) (f : SyncFlags) : SyncFlags :=
  {| syncing := syncing f; anchor_changed := b |}.

Section synchronizer.
Context {W : Type} `{JS : JsonCrate} {FR : PrimeField fr_modulus} {HX : HexCrate}.
Context {SN : SerdeJson StoredNote} {SE : SerdeJson StoredPrivateEvent} {SL : SerdeJson (list string)}.
Context {SH : SerdeJson AnchorBlockHeader}.
Context `{KV : KvStore W} `{!AztecNode W}.

Definition update_anchor_block_header (header : AnchorBlockHeader) : M (W * SyncFlags) () :=
  in_fst (set_header header) ;;!
  in_snd (λ f, (set_anchor_changed true f, ())).

Definition handle_reorg (new_block_number old_block_number : Z) : M (W * SyncFlags) () :=
  let! new_header := in_fst (Node.get_block_header new_block_number) in
  let anchor := from_header_json new_header in
  in_fst (NoteStore.rollback new_block_number) ;;!
  in_fst (PrivateEventStore.rollback new_block_number) ;;!
  update_anchor_block_header anchor.

Definition header_hash (header : json_value) : string :=
  default "" ((match json_pointer header "/blockHash" with
               | Some v => Some v | None => json_get header "blockHash" end) ≫= json_as_str).

(** The header at the anchor's height carries another hash than the anchor. *)
Definition check_same_height (current_anchor : option AnchorBlockHeader) (number : Z)
    : M (W * SyncFlags) () :=
  let stored_hash := default "" (ah_block_hash <$> current_anchor) in
  if negb (bool_decide (stored_hash = "")) && negb (bool_decide (stored_hash = "0x0")) then
    let! remote_header := in_fst (Node.get_block_header number) in
    let remote_hash := header_hash remote_header in
    if negb (bool_decide (remote_hash = "")) && negb (bool_decide (remote_hash = stored_hash)) then
      handle_reorg (Z.max 0 (number - 1)) number
    else mok ()
  else mok ().

(** The first synchronisation: [get_block_header(0)]. *)
Definition init_anchor : M (W * SyncFlags) () :=
  let! current_anchor := in_fst AnchorBlockStore.get_block_header in
  match current_anchor with
  | None =>
      let! genesis_header := in_fst (Node.get_block_header 0) in
      update_anchor_block_header (from_header_json genesis_header)
  | Some _ => mok ()
  end.

Definition advance (latest_block_number : Z) : M (W * SyncFlags) () :=
  let! anchor_after := in_fst AnchorBlockStore.get_block_number in
  if anchor_after <? latest_block_number then
    let! new_header := in_fst (Node.get_block_header latest_block_number) in
    update_anchor_block_header (from_header_json new_header)
  else mok ().

Definition do_sync (config : BlockSyncConfig) : M (W * SyncFlags) () :=
  init_anchor ;;!
  let! latest_block_number := in_fst match sync_chain_tip config with
    | TipProven => Node.get_proven_block_number
    | TipProposed => Node.get_block_number
    end in
  let! current_anchor := in_fst AnchorBlockStore.get_block_header in
  let current_anchor_block_number := default 0 (ah_block_number <$> current_anchor) in
  if (latest_block_number <? current_anchor_block_number) && (0 <? current_anchor_block_number) then
    handle_reorg latest_block_number current_anchor_block_number
  else if (current_anchor_block_number <=? latest_block_number)
            && (0 <? current_anchor_block_number) then
    check_same_height current_anchor current_anchor_block_number ;;!
    advance latest_block_number
  else mok ().

(** [sync] when no other call runs: the flag is cleared whether the work succeeds or
    fails. *)
Definition run_sync (config : BlockSyncConfig) : M (W * SyncFlags) () :=
  in_snd (λ f, (set_syncing true f, ())) ;;!
  let! result := mtry (do_sync config) in
  in_snd (λ f, (set_syncing false f, ())) ;;!
  mlift result.

Definition take_anchor_changed : M (W * SyncFlags) bool :=
  in_snd (λ f, (set_anchor_changed false f, anchor_changed f)).

Definition get_anchor_block_header : M W (option AnchorBlockHeader) :=
  AnchorBlockStore.get_block_header.
Definition get_anchor_block_number : M W Z := AnchorBlockStore.get_block_number.
End synchronizer.

(** ** Concurrent calls of [sync]

    Every call is a task.  It takes the write lock, and either finds that another call
    is at work and waits for it, or raises the flag and works; [do_sync] is one step
    of the task that holds the flag. *)
Inductive Phase := Entering | Working | Waiting | Returned.

Record Tasks := { flag : bool; phases : gmap nat Phase }.

Definition with_phase (t : Tasks) (i : nat) (b : bool) (p : Phase) : Tasks :=
  {| flag := b; phases := <[i := p]> (phases t) |}.

Inductive task_step : Tasks → Tasks → Prop :=
  | step_call t i : phases t !! i = None → task_step t (with_phase t i (flag t) Entering)
  | step_wait t i : phases t !! i = Some Entering → flag t = true →
      task_step t (with_phase t i true Waiting)
  | step_enter t i : phases t !! i = Some Entering → flag t = false →
      task_step t (with_phase t i true Working)
  | step_finish t i : phases t !! i = Some Working → task_step t (with_phase t i false Returned)
  | step_spin t i : phases t !! i = Some Waiting → flag t = true → task_step t t
  | step_leave t i : phases t !! i = Some Waiting → flag t = false →
      task_step t (with_phase t i (flag t) Returned).
End BlockStateSynchronizer.
