(* ===== verification/SyncSpec.v ===== *)
(** What synchronisation with the node does to the local stores: after it, the anchor
    is the node's latest block, and nothing from blocks that the node no longer has
    is left in the note store and the private event store. *)

From Stdlib Require Import Ascii String.
From S2P Require Import Prelude Bytes Ordered Deps Concrete Types Kv LocalStores NoteStore EventStore Indexes NoteRefine NoteSpec EventSpec Rpc Node Sync.
Import AnchorBlockStore BlockStateSynchronizer.

(** ** The stores share one key-value store *)

Section frames.
Context {FR : PrimeField fr_modulus} {HX : HexCrate}.
Context {SN : SerdeJson StoredNote} {SE : SerdeJson StoredPrivateEvent} {SL : SerdeJson (list string)}.
Context {JS : JsonCrate} {SH : SerdeJson AnchorBlockHeader}.
Implicit Types (v : view).

Lemma table_frame {K V : Type} `{Countable K, SerdeJson V} (enc : K → list byte) v v' (m : gmap K V) :
  table enc v m → (∀ k, v' !! enc k = v !! enc k) → table enc v' m.
Proof. intros Ht E k. rewrite E. apply Ht. Qed.

Lemma key_shape_outside key : ¬ note_namespace key → key_shape key.
Proof.
  intros Hn. split_and!; intros Hp; destruct Hn; [by left|right..]; etrans; [|exact Hp| |exact Hp]; by eexists.
Qed.

(** The note store only depends on the keys of its namespace. *)
Lemma holds_frame (v0 v v' : view) notes :
  holds v0 notes v → (∀ key, note_namespace key → v' !! key = v !! key) → holds v' notes v'.
Proof.
  intros (d & [R1 R2 R3 R4 R5 _] & Hi & Hn) E. exists d. split_and!; [|done..].
  constructor; [eapply table_frame; [done|]; intros; apply E; auto with note_keys..| |done].
  intros key b Hb. destruct (decide (note_prefix `prefix_of` key)) as [Hp|Hp].
  { apply (R5 key b). rewrite <- Hb. symmetry. apply E. by left. }
  destruct (decide (index_prefix `prefix_of` key)) as [Hp'|Hp'].
  { apply (R5 key b). rewrite <- Hb. symmetry. apply E. by right. }
  apply key_shape_outside. by intros [].
Qed.

Lemma event_shape_outside key : ¬ event_namespace key → event_key_shape key.
Proof. intros Hn Hp. destruct Hn. right. etrans; [|exact Hp]. by eexists. Qed.

Lemma holds_events_frame (v0 v v' : view) events :
  holds_events v0 events v → (∀ key, event_namespace key → v' !! key = v !! key) →
  holds_events v' events v'.
Proof.
  intros (d & [R1 R2 R3 R4 _] & Hi & Hn) E. exists d. split_and!; [|done..].
  constructor; [eapply table_frame; [done|]; intros; apply E; auto with event_keys..| |done].
  intros key b Hb. destruct (decide (event_prefix `prefix_of` key)) as [Hp|Hp].
  { apply (R4 key b). rewrite <- Hb. symmetry. apply E. by left. }
  destruct (decide (event_index_prefix `prefix_of` key)) as [Hp'|Hp'].
  { apply (R4 key b). rewrite <- Hb. symmetry. apply E. by right. }
  apply event_shape_outside. by intros [].
Qed.

Lemma note_event_apart key : note_namespace key → event_namespace key → False.
Proof. by intros [[t ->]|[t ->]] [[u E]|[u E]]. Qed.
Lemma anchor_not_note : ¬ note_namespace ANCHOR_HEADER_KEY.
Proof. by intros [[t E]|[t E]]. Qed.
Lemma anchor_not_event : ¬ event_namespace ANCHOR_HEADER_KEY.
Proof. by intros [[t E]|[t E]]. Qed.

Definition holds_anchor (anchor : option AnchorBlockHeader) v : Prop :=
  match anchor with
  | Some a => ∃ b, v !! ANCHOR_HEADER_KEY = Some b ∧ from_slice b = Ok a
  | None => v !! ANCHOR_HEADER_KEY = None
  end.

(** The view holds an anchor, notes and events, and [v0] under every other key. *)
Record pxe_state (v0 : view) (anchor : option AnchorBlockHeader) (notes : gmap Fr StoredNote)
    (events : gmap Fr StoredPrivateEvent) v : Prop := {
  ps_anchor : holds_anchor anchor v;
  ps_notes : holds v notes v;
  ps_events : holds_events v events v;
  ps_frame : ∀ key, ¬ note_namespace key → ¬ event_namespace key → key ≠ ANCHOR_HEADER_KEY →
    v !! key = v0 !! key;
}.

Lemma pxe_set_notes v0 anchor notes notes' events v v' :
  pxe_state v0 anchor notes events v → holds v notes' v' → pxe_state v0 anchor notes' events v'.
Proof.
  intros [P1 P2 P3 P4] Hn. pose proof Hn as (d & [_ _ _ _ _ Hf] & _). split.
  - destruct anchor; simpl in *; by rewrite (Hf _ anchor_not_note).
  - by eapply holds_frame.
  - eapply holds_events_frame; [done|]. intros key Hk. apply Hf. intros Hk'. by eapply note_event_apart.
  - intros key H1 H2 H3. rewrite Hf by done. auto.
Qed.

Lemma pxe_set_events v0 anchor notes events events' v v' :
  pxe_state v0 anchor notes events v → holds_events v events' v' → pxe_state v0 anchor notes events' v'.
Proof.
  intros [P1 P2 P3 P4] Hn. pose proof Hn as (d & [_ _ _ _ Hf] & _). split.
  - destruct anchor; simpl in *; by rewrite (Hf _ anchor_not_event).
  - eapply holds_frame; [done|]. intros key Hk. apply Hf. intros Hk'. by eapply note_event_apart.
  - by eapply holds_events_frame.
  - intros key H1 H2 H3. rewrite Hf by done. auto.
Qed.

Lemma pxe_set_anchor v0 anchor a notes events v b :
  pxe_state v0 anchor notes events v → from_slice b = Ok a →
  pxe_state v0 (Some a) notes events (<[ANCHOR_HEADER_KEY := b]> v).
Proof.
  intros [P1 P2 P3 P4] Hb. split.
  - exists b. by rewrite lookup_insert_eq.
  - eapply holds_frame; [done|]. intros key Hk. rewrite lookup_insert_ne; [done|].
    intros <-. by apply anchor_not_note.
  - eapply holds_events_frame; [done|]. intros key Hk. rewrite lookup_insert_ne; [done|].
    intros <-. by apply anchor_not_event.
  - intros key H1 H2 H3. rewrite lookup_insert_ne by done. auto.
Qed.

Lemma pxe_empty : pxe_state ∅ None ∅ ∅ ∅.
Proof. split; [done|apply holds_empty|apply holds_events_empty|done]. Qed.
End frames.

(** ** One synchronisation, as a function of what the stores hold *)

Section model.
Context {FR : PrimeField fr_modulus} {JS : JsonCrate}.

Record SyncState := {
  st_anchor : option AnchorBlockHeader;
  st_notes : gmap Fr StoredNote;
  st_events : gmap Fr StoredPrivateEvent;
  st_changed : bool;
}.
Implicit Types (st : SyncState).

(** The node during the call: its header at every height, its latest block. *)
Context (header : Z → json_value) (latest : Z).

Definition move_anchor (number : Z) st : SyncState :=
  {| st_anchor := Some (from_header_json (header number)); st_notes := st_notes st;
     st_events := st_events st; st_changed := true |}.

Definition cut_back (b : Z) st : SyncState :=
  {| st_anchor := Some (from_header_json (header b)); st_notes := omap (rolled_back b) (st_notes st);
     st_events := not_after b (st_events st); st_changed := true |}.

Definition anchor_number st : Z := default 0 (ah_block_number <$> st_anchor st).

(** The node has another block than the anchor at the anchor's height. *)
Definition replaced (a : AnchorBlockHeader) : bool :=
  let stored_hash := ah_block_hash a in
  let remote_hash := header_hash (header (ah_block_number a)) in
  negb (bool_decide (stored_hash = "")) && negb (bool_decide (stored_hash = "0x0"))
  && (negb (bool_decide (remote_hash = "")) && negb (bool_decide (remote_hash = stored_hash))).

Definition model_init st : SyncState :=
  match st_anchor st with None => move_anchor 0 st | Some _ => st end.

Definition model_check st : SyncState :=
  match st_anchor st with
  | Some a => if replaced a then cut_back (Z.max 0 (anchor_number st - 1)) st else st
  | None => st
  end.

Definition model_advance st : SyncState :=
  if anchor_number st <? latest then move_anchor latest st else st.

Definition model_sync st : SyncState :=
  let st := model_init st in
  if 0 <? anchor_number st then
    if latest <? anchor_number st then cut_back latest st
    else model_advance (model_check st)
  else st.
End model.

Section refinement.
Context {FR : PrimeField fr_modulus} {HX : HexCrate}.
Context {SN : SerdeJson StoredNote} {SE : SerdeJson StoredPrivateEvent} {SL : SerdeJson (list string)}.
Context {JS : JsonCrate} {SH : SerdeJson AnchorBlockHeader}.
Context {W : Type} `{KvStoreLaws W} `{!AztecNode W}.
Context (header : Z → json_value) (latest : Z) (v0 : view).
Implicit Types (st : SyncState) (w : W) (f : SyncFlags).

(** A call to the node: it is answered, and leaves the stores alone. *)
Definition answers_with {A : Type} (m : M W A) (a : A) : Prop :=
  ∀ w, kv_wf w → ∃ w', m w = (w', Ok a) ∧ kv_wf w' ∧ kv_view w' = kv_view w.

Definition at_state st (s : W * SyncFlags) : Prop :=
  kv_wf s.1 ∧ pxe_state v0 (st_anchor st) (st_notes st) (st_events st) (kv_view s.1) ∧
  anchor_changed s.2 = st_changed st.

Definition goes {A : Type} (P : W * SyncFlags → Prop) (m : M (W * SyncFlags) A)
    (Q : A → W * SyncFlags → Prop) : Prop :=
  ∀ s, P s → ∃ s' a, m s = (s', Ok a) ∧ syncing s'.2 = syncing s.2 ∧ Q a s'.

Lemma goes_ok {A : Type} (P : W * SyncFlags → Prop) (a : A) (Q : A → W * SyncFlags → Prop) :
  (∀ s, P s → Q a s) → goes P (mok a) Q.
Proof. intros HQ s Hs. exists s, a. auto. Qed.

Lemma goes_then {A B : Type} P (m : M (W * SyncFlags) A) (k : A → M (W * SyncFlags) B) R Q :
  goes P m R → (∀ a, goes (R a) (k a) Q) → goes P (mthen m k) Q.
Proof.
  intros Hm Hk s Hs. destruct (Hm s Hs) as (s1 & a & E & Ef & HR). unfold mthen. rewrite E.
  destruct (Hk a s1 HR) as (s2 & b & -> & Ef2 & HQ). exists s2, b. rewrite Ef2. auto.
Qed.

(** A step of the stores. *)
Lemma goes_store {A : Type} st st' (m : M W A) :
  st_changed st' = st_changed st →
  (∀ w, kv_wf w → pxe_state v0 (st_anchor st) (st_notes st) (st_events st) (kv_view w) →
     ∃ w' a, m w = (w', Ok a) ∧ kv_wf w' ∧
       pxe_state v0 (st_anchor st') (st_notes st') (st_events st') (kv_view w')) →
  goes (at_state st) (in_fst m) (λ _, at_state st').
Proof.
  intros Ec Hm [w f] (Hw & Hp & Hc). destruct (Hm w Hw Hp) as (w' & a & E & Hw' & Hp').
  exists (w', f), a. unfold in_fst. cbn [fst snd]. rewrite E.
  split; [done|]. split; [done|]. split; [done|]. split; [done|]. cbn [snd] in *. by rewrite Ec.
Qed.

Lemma goes_ask {A B : Type} st (m : M W A) (a : A) (k : A → M (W * SyncFlags) B) Q :
  answers_with m a → goes (at_state st) (k a) Q → goes (at_state st) (mthen (in_fst m) k) Q.
Proof.
  intros Hm Hk [w f] (Hw & Hp & Hc). destruct (Hm w Hw) as (w1 & E & Hw1 & Hv).
  unfold mthen, in_fst. cbn [fst snd]. rewrite E.
  apply (Hk (w1, f)). split_and!; [done| |done]. cbn [fst] in *. by rewrite Hv.
Qed.

Lemma goes_read_anchor {B : Type} st (k : option AnchorBlockHeader → M (W * SyncFlags) B) Q :
  goes (at_state st) (k (st_anchor st)) Q →
  goes (at_state st) (mthen (in_fst AnchorBlockStore.get_block_header) k) Q.
Proof.
  intros Hk [w f] (Hw & Hp & Hc). unfold mthen, in_fst, get_block_header, read_json. cbn [fst snd].
  unfold mthen. rewrite kv_get_ok by done. pose proof (ps_anchor _ _ _ _ _ Hp) as Ha.
  destruct (st_anchor st) as [a|] eqn:Ea; simpl in Ha.
  - destruct Ha as (b & -> & Hb). unfold mlift. rewrite Hb. apply (Hk (w, f)).
    split_and!; [done| |done]. by rewrite Ea.
  - rewrite Ha. apply (Hk (w, f)). split_and!; [done| |done]. by rewrite Ea.
Qed.

Lemma update_anchor_goes st number :
  goes (at_state st) (update_anchor_block_header (from_header_json (header number)))
    (λ _, at_state (move_anchor header number st)).
Proof.
  intros [w f] (Hw & Hp & Hc). unfold update_anchor_block_header, mthen, in_fst, set_header, write_json. cbn [fst snd].
  destruct (serde_roundtrip (from_header_json (header number))) as (b & Eb & Hb).
  unfold mthen, mlift. rewrite Eb.
  destruct (kv_put_ok w ANCHOR_HEADER_KEY b Hw) as (w' & -> & Hw' & Hv).
  exists (w', set_anchor_changed true f), (). split; [done|]. split; [done|]. split; [done|].
  cbn [fst] in *. rewrite Hv. split; [by eapply pxe_set_anchor|done].
Qed.

Context (Hheader : ∀ n, answers_with (Node.get_block_header n) (header n)).

Lemma handle_reorg_goes st b old :
  goes (at_state st) (handle_reorg b old) (λ _, at_state (cut_back header b st)).
Proof.
  unfold handle_reorg. eapply goes_ask; [apply Hheader|].
  set (st1 := {| st_anchor := st_anchor st; st_notes := omap (rolled_back b) (st_notes st);
                 st_events := st_events st; st_changed := st_changed st |}).
  set (st2 := {| st_anchor := st_anchor st1; st_notes := st_notes st1;
                 st_events := not_after b (st_events st1); st_changed := st_changed st1 |}).
  eapply goes_then; [apply (goes_store st st1); [done|]|intros []; eapply goes_then;
    [apply (goes_store st1 st2); [done|]|intros []; apply (update_anchor_goes st2)]].
  - intros w Hw Hp. destruct (rollback_holds (kv_view w) (st_notes st) b w Hw) as (w' & a & E & Hw' & Hr);
      [apply Hp|]. exists w', a. split_and!; [done..|]. by eapply pxe_set_notes.
  - intros w Hw Hp. destruct (event_rollback_holds (kv_view w) (st_events st1) b w Hw) as (w' & a & E & Hw' & Hr);
      [apply Hp|]. exists w', a. split_and!; [done..|]. by eapply pxe_set_events.
Qed.

Lemma init_anchor_goes st :
  goes (at_state st) init_anchor (λ _, at_state (model_init header st)).
Proof.
  unfold init_anchor, model_init. apply goes_read_anchor. destruct (st_anchor st).
  - by apply goes_ok.
  - eapply goes_ask; [apply Hheader|]. apply update_anchor_goes.
Qed.

Lemma check_same_height_goes st :
  goes (at_state st) (check_same_height (st_anchor st) (anchor_number st))
    (λ _, at_state (model_check header st)).
Proof.
  unfold check_same_height, model_check, anchor_number, replaced.
  destruct (st_anchor st) as [a|]; simpl; [|by apply goes_ok].
  destruct (negb (bool_decide (ah_block_hash a = "")) && negb (bool_decide (ah_block_hash a = "0x0")));
    [|by apply goes_ok].
  eapply goes_ask; [apply Hheader|]. simpl.
  destruct (negb _ && _); [apply handle_reorg_goes|by apply goes_ok].
Qed.

Lemma advance_goes st :
  goes (at_state st) (advance latest) (λ _, at_state (model_advance header latest st)).
Proof.
  unfold advance, model_advance.
  assert (∀ B (k : Z → M (W * SyncFlags) B) Q, goes (at_state st) (k (anchor_number st)) Q →
    goes (at_state st) (mthen (in_fst AnchorBlockStore.get_block_number) k) Q) as Hn.
  { intros B k Q Hk [w f] Hs. pose proof Hs as (Hw & Hp & Hc).
    unfold mthen, in_fst, AnchorBlockStore.get_block_number, get_block_header, read_json. cbn [fst snd].
    unfold mthen. rewrite kv_get_ok by done. pose proof (ps_anchor _ _ _ _ _ Hp) as Ha.
    unfold anchor_number in Hk. destruct (st_anchor st) as [a|]; simpl in Ha.
    - destruct Ha as (b & -> & Hb). unfold mlift. rewrite Hb. by apply (Hk (w, f)).
    - rewrite Ha. by apply (Hk (w, f)). }
  apply Hn. destruct (anchor_number st <? latest); [|by apply goes_ok].
  eapply goes_ask; [apply Hheader|]. apply update_anchor_goes.
Qed.

Definition tip (config : BlockSyncConfig) : M W Z :=
  match sync_chain_tip config with
  | TipProven => Node.get_proven_block_number | TipProposed => Node.get_block_number end.

Lemma do_sync_goes st config :
  answers_with (tip config) latest →
  goes (at_state st) (do_sync config) (λ _, at_state (model_sync header latest st)).
Proof.
  intros Htip. unfold do_sync, model_sync. eapply goes_then; [apply init_anchor_goes|]. intros [].
  set (st1 := model_init header st). cbn zeta. eapply goes_ask; [exact Htip|].
  apply goes_read_anchor. fold (anchor_number st1).
  destruct (Z.ltb_spec 0 (anchor_number st1)); [|rewrite !andb_false_r; by apply goes_ok].
  rewrite !andb_true_r. destruct (Z.ltb_spec latest (anchor_number st1)); [apply handle_reorg_goes|].
  rewrite (proj2 (Z.leb_le _ _)) by lia.
  eapply goes_then; [apply check_same_height_goes|]. intros []. apply advance_goes.
Qed.

Lemma run_sync_goes st config w f :
  answers_with (tip config) latest → at_state st (w, f) →
  ∃ w' f', run_sync config (w, f) = ((w', f'), Ok ()) ∧ syncing f' = false ∧
    at_state (model_sync header latest st) (w', f').
Proof.
  intros Htip (Hw & Hp & Hc). unfold run_sync, mthen, in_snd, mtry. cbn [fst snd].
  destruct (do_sync_goes st config Htip (w, set_syncing true f)) as ([w' f'] & [] & -> & _ & Hr); [done|].
  by exists w', (set_syncing false f').
Qed.
End refinement.

(** ** Properties *)

(** The node answers consistently: the header of a block carries its number, and block
    0 asks for the latest one. *)
Definition chain `{JS : JsonCrate} (header : Z → json_value) (latest : Z) : Prop :=
  0 < latest ∧ header 0 = header latest ∧
  ∀ n, 0 < n ≤ latest → ah_block_number (from_header_json (header n)) = n.

(** The block after which the stores are cut, if the chain was reorganised. *)
Definition reorg_point `{JS : JsonCrate} (header : Z → json_value) (latest : Z)
    (anchor : option AnchorBlockHeader) : option Z :=
  match anchor with
  | Some a => if latest <? ah_block_number a then Some latest
              else if replaced header a then Some (ah_block_number a - 1) else None
  | None => None
  end.

Lemma replaced_self `{JS : JsonCrate} (header : Z → json_value) (n m : Z) :
  ah_block_number (from_header_json (header n)) = m → header m = header n →
  replaced header (from_header_json (header n)) = false.
Proof.
  intros Hn Hm. unfold replaced. rewrite Hn, Hm. unfold header_hash, from_header_json. simpl.
  destruct (match json_pointer _ _ with Some v => Some v | None => _ end ≫= json_as_str) as [s|];
    simpl; [|done]. rewrite (bool_decide_true (s = s)) by done. by rewrite !andb_false_r.
Qed.

#[local] Opaque from_header_json.

Lemma model_sync_result {FR : PrimeField fr_modulus} `{JS : JsonCrate} (header : Z → json_value)
    (latest : Z) (st : SyncState) :
  chain header latest → (∀ a, st_anchor st = Some a → 0 < ah_block_number a) →
  let cut := reorg_point header latest (st_anchor st) in
  let st' := model_sync header latest st in
  st_anchor st' = Some (match st_anchor st, cut with
                        | Some a, None => if ah_block_number a <? latest
                                          then from_header_json (header latest) else a
                        | _, _ => from_header_json (header latest)
                        end) ∧
  st_notes st' = match cut with Some b => omap (rolled_back b) (st_notes st) | None => st_notes st end ∧
  st_events st' = match cut with Some b => not_after b (st_events st) | None => st_events st end.
Proof.
  intros (Hl & H0 & Hh) Ha. cbn zeta. unfold model_sync, model_init, reorg_point.
  destruct (st_anchor st) as [a|] eqn:Ea.
  - specialize (Ha a eq_refl). unfold anchor_number. rewrite Ea. simpl.
    destruct (Z.ltb_spec 0 (ah_block_number a)); [|lia].
    destruct (Z.ltb_spec latest (ah_block_number a)); [done|].
    unfold model_check, model_advance, anchor_number. rewrite Ea. simpl.
    destruct (replaced header a); simpl.
    + rewrite Z.max_r by lia. destruct (decide (ah_block_number a = 1)) as [E|Hne].
      * assert (ah_block_number a - 1 = 0) as -> by lia.
        rewrite H0, Hh, Z.ltb_irrefl by lia. simpl. by rewrite H0.
      * rewrite Hh by lia. rewrite (proj2 (Z.ltb_lt _ _)) by lia. done.
    + rewrite Ea. simpl. destruct (Z.ltb_spec (ah_block_number a) latest); [done|]. by rewrite Ea.
  - unfold move_anchor at 1 2 3, anchor_number. simpl. rewrite H0, Hh by lia.
    rewrite (proj2 (Z.ltb_lt 0 latest)), Z.ltb_irrefl by lia.
    unfold model_check, model_advance, anchor_number. simpl.
    rewrite H0, (replaced_self header latest latest) by (auto; apply Hh; lia).
    simpl. rewrite H0, Hh, Z.ltb_irrefl by lia. simpl. by rewrite H0.
Qed.


(** *** Concurrent calls *)

Definition idle : Tasks := {| flag := false; phases := ∅ |}.

Definition task_inv (t : Tasks) : Prop :=
  (∀ i j, phases t !! i = Some Working → phases t !! j = Some Working → i = j) ∧
  (flag t = true ↔ ∃ i, phases t !! i = Some Working).

Lemma task_step_inv t t' : task_step t t' → task_inv t → task_inv t'.
Proof.
  intros Hs [H1 H2].
  assert (∀ i p, p ≠ Working → phases t !! i ≠ Some Working →
    task_inv (with_phase t i (flag t) p)) as Hother.
  { intros i p Hp Hi. assert (∀ j, <[i:=p]> (phases t) !! j = Some Working ↔ phases t !! j = Some Working) as E.
    { intros j. rewrite lookup_insert_Some. naive_solver. }
    split; simpl; setoid_rewrite E; auto. }
  inversion Hs as [? i Hi|? i Hi Hf|? i Hi Hf|? i Hi|? i Hi Hf|? i Hi Hf]; subst.
  - apply Hother; congruence.
  - rewrite <- Hf. apply Hother; congruence.
  - assert (∀ j, phases t !! j ≠ Some Working) as Hno.
    { intros j Hj. assert (flag t = true) by (apply H2; eauto). congruence. }
    split; simpl.
    + intros j k [[<- _]|[_ ?]]%lookup_insert_Some [[<- _]|[_ ?]]%lookup_insert_Some; naive_solver.
    + split; [|done]. intros _. exists i. by rewrite lookup_insert_eq.
  - assert (∀ j, <[i:=Returned]> (phases t) !! j ≠ Some Working) as Hno.
    { intros j [[_ [=]]|[Hne Hj]]%lookup_insert_Some. by apply Hne, H1. }
    split; simpl; naive_solver.
  - done.
  - apply Hother; congruence.
Qed.


(** *** Witnesses *)


Section sync_witnesses.
Import Concrete.Instances.
#[local] Existing Instances note_serde strings_serde event_serde.

Definition header_tuple (h : AnchorBlockHeader) : jvalue * Z * string :=
  (ah_data h, ah_block_number h, ah_block_hash h).
Definition tuple_header : jvalue * Z * string → AnchorBlockHeader :=
  λ '(a, b, c), {| ah_data := a; ah_block_number := b; ah_block_hash := c |}.
Lemma tuple_header_tuple a : tuple_header (header_tuple a) = a.
Proof. by destruct a. Qed.
Lemma header_tuple_inj a b : header_tuple a = header_tuple b → a = b.
Proof. intros E. by rewrite <- (tuple_header_tuple a), E, tuple_header_tuple. Qed.
#[local] Instance header_eq_dec : EqDecision AnchorBlockHeader := λ a b,
  match decide (header_tuple a = header_tuple b) with
  | left E => left (header_tuple_inj a b E)
  | right N => right (λ E, N (f_equal header_tuple E))
  end.
#[local] Instance header_countable : Countable AnchorBlockHeader :=
  inj_countable' header_tuple tuple_header tuple_header_tuple.
#[local] Instance header_serde : SerdeJson AnchorBlockHeader := countable_serde AnchorBlockHeader.

(** A node at block 2, as block 0 and as the latest block. *)
Definition example_header (n : Z) : jvalue :=
  JObject [("globalVariables", JObject [("blockNumber", JNumber (if n =? 0 then 2 else n))]);
           ("blockHash", JString "0xaa")].

Definition refused {A : Type} : M InMemoryKvStore A := λ w, (w, Err (Transport "refused")).

#[local] Instance example_node : AztecNode InMemoryKvStore := {|
  get_node_info := refused;
  Node.get_block_number := mok 2;
  get_proven_block_number := mok 2;
  get_tx_receipt _ := refused;
  get_public_logs _ := refused; send_tx _ := refused; get_contract _ := refused;
  get_contract_class _ := refused;
  Node.get_block_header n := mok (example_header n);
  get_block _ := refused;
  get_note_hash_membership_witness _ _ := refused;
  get_nullifier_membership_witness _ _ := refused;
  get_low_nullifier_membership_witness _ _ := refused;
  get_public_storage_at _ _ _ := refused; get_public_storage_at_by_hash _ _ _ := refused;
  get_public_data_witness _ _ := refused; get_public_data_witness_by_hash _ _ := refused;
  get_l1_to_l2_message_membership_witness _ _ := refused;
  get_l1_to_l2_message_checkpoint _ := refused;
  simulate_public_calls _ _ := refused; is_valid_tx _ := refused;
  get_private_logs_by_tags _ := refused; get_public_logs_by_tags_from_contract _ _ := refused;
  register_contract_function_signatures _ := refused; get_tx_effect _ := refused;
  get_block_hash_membership_witness _ _ := refused; find_leaves_indexes _ _ _ := refused;
  get_tx_by_hash _ := refused
|}.

(** The PXE had gone to block 7 and found a note in block 3. *)
Definition seventh : AnchorBlockHeader := from_header_json (example_header 7).

Lemma example_world : ∃ w : InMemoryKvStore,
  kv_wf w ∧ pxe_state ∅ (Some seventh) example_notes ∅ (kv_view w).
Proof.
  destruct (serde_roundtrip seventh) as (b & _ & Hb).
  destruct example_store_holds as [Hw Hh]. change (kv_wf (example_store : InMemoryKvStore)) in Hw.
  destruct (kv_put_ok _ ANCHOR_HEADER_KEY b Hw) as (w & _ & Hw' & Hv).
  exists w. split; [done|]. rewrite Hv. apply (pxe_set_anchor _ None); [|done].
  eapply pxe_set_notes; [apply pxe_empty|exact Hh].
Qed.

End sync_witnesses.
