(* ===== verification/Polling.v ===== *)
(** The polling helpers of [crates/node-client/src/node.rs] end: before the deadline
    they keep asking, and what they return is what the node answered. *)

From Stdlib Require Import Ascii String.
From S2P Require Import Prelude Bytes Ordered Deps Concrete Types Tx Kv Rpc Node.

(** ** Time *)

Section pace.
Context {W : Type} `{Clock W} (time : W → Z) (step : Z → Z → Prop).

(** [time] is the instant of a world and [step] bounds the time a call takes:
    reading the clock answers the instant at which it ends, and a sleep of [d] takes
    [d] and one more step. *)
Definition paced : Prop :=
  (∀ w, ∃ w', now w = (w', Ok (time w')) ∧ step (time w) (time w')) ∧
  (∀ d w, 0 ≤ d → ∃ w', sleep d w = (w', Ok ()) ∧ step (time w + d) (time w')).

(** A request that is answered, with a value or an error, in one step. *)
Definition timed {A : Type} (m : M W A) : Prop := ∀ w, ∃ w' r,
  m w = (w', r) ∧ r ≠ Panic ∧ step (time w) (time w').

(** Three steps later. *)
Definition later (t t' : Z) : Prop := ∃ t1 t2, step t t1 ∧ step t1 t2 ∧ step t2 t'.

Context (Hpaced : paced) `{!Reflexive step}.

(** Adding the interval to the current instant panics when it passes the last one. *)
Lemma next_poll_ok interval w : ∃ w', step (time w) (time w') ∧
  ((next_poll interval w = (w', Ok (time w' + interval)) ∧ time w' + interval ≤ instant_max W) ∨
   (next_poll interval w = (w', Panic) ∧ instant_max W < time w' + interval)).
Proof.
  destruct Hpaced as [Hnow _]. destruct (Hnow w) as (w' & E & Ht). exists w'. split; [done|].
  unfold next_poll, mthen, mlift, instant_add. rewrite E.
  destruct (Z.leb_spec (time w' + interval) (instant_max W)); auto.
Qed.

(** A round that goes on ends in one of three ways, with [t] the instant it reads. *)
Lemma sleep_or_time_out_ok {A : Type} interval deadline message w : 0 ≤ interval →
  ∃ w' r t, sleep_or_time_out (A := A) interval deadline message w = (w', r) ∧
    step (time w) t ∧
    match r with
    | Ok (Some _) => False
    | Ok None => t + interval < deadline ∧ step (t + interval) (time w')
    | Err e => e = Timeout message ∧ deadline ≤ t + interval
    | Panic => t = time w' ∧ instant_max W < t + interval
    end.
Proof.
  intros Hi. destruct (next_poll_ok interval w) as (w1 & Ht & [[E Hm]|[E Hm]]);
    unfold sleep_or_time_out, mthen; rewrite E; [|by exists w1, Panic, (time w1)].
  destruct (Z.leb_spec deadline (time w1 + interval)).
  - by eexists w1, _, (time w1).
  - destruct Hpaced as [_ Hsleep]. destruct (Hsleep interval w1 Hi) as (w2 & -> & Ht2).
    by eexists w2, _, (time w1).
Qed.
End pace.

(** A loop whose body goes round again only when the next round starts before the
    deadline, and at least an interval later, ends. *)
Lemma mloop_ends {W A : Type} (time : W → Z) (interval deadline : Z)
    (body : M W (option A)) (Q : W → Outcome A → Prop) (n : nat) :
  0 ≤ interval →
  (∀ w, ∃ w' r, body w = (w', r) ∧
     match r with
     | Ok (Some a) => Q w' (Ok a)
     | Ok None => time w + interval < deadline ∧ time w + interval ≤ time w'
     | Err e => Q w' (Err e)
     | Panic => Q w' Panic
     end) →
  ∀ w, deadline ≤ time w + Z.of_nat n * interval →
  ∃ w' r, mloop (S n) body w = (w', omap_ok Some r) ∧ Q w' r.
Proof.
  intros Hi Hb. induction n as [|n IH]; intros w Hn; destruct (Hb w) as (w' & r & E & Hr);
    cbn [mloop]; unfold mthen; rewrite E; destruct r as [[a|]|e|].
  all: try (eexists w', (Ok _); by eauto). all: try (eexists w', (Err _); by eauto).
  all: try (eexists w', Panic; by eauto).
  - lia.
  - apply IH. lia.
Qed.

Section waits.
Context `{JS : JsonCrate} {FR : PrimeField fr_modulus} `{HX : HexCrate}.
Context {W : Type} `{!AztecNode W, !Clock W} (time : W → Z).

(** ** One round of [wait_for_tx] *)

Definition tx_accepted (opts : WaitOpts) (r : TxReceipt) : Prop :=
  is_dropped r = false ∧ status_reached (tx_status r) (wait_for_status opts) = true ∧
  (has_execution_reverted r = true → dont_throw_on_revert opts = true).

(** What [wait_for_tx] may answer: a receipt that the node gave and that is accepted,
    the report of one that was dropped or reverted, or a time-out.  It panics when the
    clock runs over. *)
Definition tx_answer (hash : TxHash) (opts : WaitOpts) (w : W) (r : Outcome TxReceipt) : Prop :=
  match r with
  | Ok receipt => tx_accepted opts receipt ∧ ∃ w w' : W, get_tx_receipt hash w = (w', Ok receipt)
  | Err (Reverted _) => ∃ (w w' : W) receipt, get_tx_receipt hash w = (w', Ok receipt) ∧
      (is_dropped receipt = true ∨
       has_execution_reverted receipt = true ∧ dont_throw_on_revert opts = false)
  | Err (Timeout _) => True
  | Panic => instant_max W < time w + Z.max (wo_interval opts) (wo_timeout opts)
  | _ => False
  end.

Lemma wait_for_tx_round hash opts start deadline (w : W) :
  paced time Z.le → timed time Z.le (get_tx_receipt hash) → 0 < wo_interval opts →
  ∃ w' r, wait_for_tx_body hash opts start deadline w = (w', r) ∧
    match r with
    | Ok (Some a) => tx_answer hash opts w' (Ok a)
    | Ok None => time w + wo_interval opts < deadline ∧ time w + wo_interval opts ≤ time w'
    | Err e => tx_answer hash opts w' (Err e)
    | Panic => tx_answer hash opts w' Panic
    end.
Proof.
  intros Hp Hget Hi. destruct (Hget w) as (w1 & r & E & Hr & Ht).
  assert (∀ w2 msg, time w ≤ time w2 → ∃ w' r,
    sleep_or_time_out (A := TxReceipt) (wo_interval opts) deadline msg w2 = (w', r) ∧
    match r with
    | Ok (Some a) => tx_answer hash opts w' (Ok a)
    | Ok None => time w + wo_interval opts < deadline ∧ time w + wo_interval opts ≤ time w'
    | Err e => tx_answer hash opts w' (Err e)
    | Panic => tx_answer hash opts w' Panic
    end) as Hsleep.
  { intros w2 msg H2.
    destruct (sleep_or_time_out_ok (A := TxReceipt) time Z.le Hp (wo_interval opts) deadline msg w2)
      as (w' & r' & t & -> & Ht2 & Hr'); [lia|]. exists w', r'. split; [done|].
    destruct r' as [[a|]|e|]; [done|lia|by destruct Hr' as [-> _]|simpl; lia]. }
  unfold wait_for_tx_body, mthen at 1, mtry. rewrite E. destruct r as [receipt|e|]; [| |done].
  - unfold mthen at 1. destruct (is_dropped receipt) eqn:Ed.
    + destruct Hp as [Hnow _]. destruct (Hnow w1) as (w2 & En & Ht2). unfold mthen at 1. rewrite En.
      destruct (ignore_dropped_receipts_for opts <=? Z.max 0 (time w2 - start)).
      * eexists _, _. split; [done|]. exists w, w1, receipt. auto.
      * apply Hsleep. lia.
    + destruct (has_execution_reverted receipt && negb (dont_throw_on_revert opts)) eqn:Er.
      * apply andb_true_iff in Er as [Er Ed'%negb_true_iff].
        eexists _, _. split; [done|]. exists w, w1, receipt. auto.
      * destruct (status_reached (tx_status receipt) (wait_for_status opts)) eqn:Es; [|by apply Hsleep].
        eexists _, _. split; [done|]. split; [|by exists w, w1]. split_and!; [done..|].
        intros Hrev. rewrite Hrev in Er. by apply negb_false_iff in Er.
  - unfold mthen at 1 2.
    destruct (next_poll_ok time Z.le Hp (wo_interval opts) w1) as (w2 & Ht2 & [[-> Hm]|[-> Hm]]).
    + destruct (deadline <=? time w2 + wo_interval opts); [by eexists _, _|]. apply Hsleep. lia.
    + eexists _, _. split; [done|]. simpl. lia.
Qed.

(** C15: waiting for a transaction always ends, whatever the node answers and however
    long its answers take: with a positive interval, [timeout / interval + 1] rounds
    are enough.  A receipt that is returned is one the node gave, its status has
    reached the target, it was not dropped, and it has reverted only if the caller
    accepts that; an error is a time-out or reports a receipt of the node that was
    dropped or reverted; a panic means that the platform's clock ran over. *)
Theorem wait_for_tx_returns (hash : TxHash) (opts : WaitOpts) (fuel : nat) (w : W) :
  paced time Z.le → timed time Z.le (get_tx_receipt hash) → 0 < wo_interval opts →
  (0 < fuel)%nat → wo_timeout opts ≤ (Z.of_nat fuel - 1) * wo_interval opts →
  ∃ w' r, wait_for_tx fuel hash opts w = (w', omap_ok Some r) ∧ tx_answer hash opts w' r.
Proof.
  intros Hp Hget Hi Hpos Hfuel. destruct fuel as [|n]; [lia|].
  unfold wait_for_tx, mthen at 1. pose proof Hp as [Hnow _].
  destruct (Hnow w) as (w1 & -> & Ht). unfold mthen at 1, mlift, instant_add.
  destruct (Z.leb_spec (time w1 + wo_timeout opts) (instant_max W)).
  - apply (mloop_ends time (wo_interval opts) (time w1 + wo_timeout opts)); [lia| |lia].
    intros w2. by apply wait_for_tx_round.
  - exists w1, Panic. split; [done|]. simpl. lia.
Qed.

(** ** One round of [wait_for_proven] *)

Lemma wait_for_proven_round (step : Z → Z → Prop) `{!Reflexive step} receipt_block opts deadline (w : W) :
  paced time step → timed time step get_proven_block_number → 0 ≤ wp_interval opts →
  ∃ w' r, wait_for_proven_body receipt_block opts deadline w = (w', r) ∧
    (if r is Ok (Some p) then receipt_block ≤ p
     else ∃ t, later step (time w) t ∧
       match r with
       | Ok None => t + wp_interval opts < deadline ∧ step (t + wp_interval opts) (time w')
       | Err e => deadline ≤ t + wp_interval opts
       | _ => instant_max W < t + wp_interval opts
       end).
Proof.
  intros Hp Hget Hi. destruct (Hget w) as (w1 & r & E & Hr & Ht).
  assert (∀ w2 msg, step (time w1) (time w2) → ∃ w' r,
    sleep_or_time_out (A := Z) (wp_interval opts) deadline msg w2 = (w', r) ∧
    (if r is Ok (Some p) then receipt_block ≤ p
     else ∃ t, later step (time w) t ∧
       match r with
       | Ok None => t + wp_interval opts < deadline ∧ step (t + wp_interval opts) (time w')
       | Err e => deadline ≤ t + wp_interval opts
       | _ => instant_max W < t + wp_interval opts
       end)) as Hsleep.
  { intros w2 msg H2.
    destruct (sleep_or_time_out_ok (A := Z) time step Hp (wp_interval opts) deadline msg w2)
      as (w' & r' & t & -> & Ht2 & Hr'); [lia|]. exists w', r'. split; [done|].
    assert (later step (time w) t) by (by exists (time w1), (time w2)).
    destruct r' as [[a|]|e|]; [done|exists t; naive_solver..]. }
  unfold wait_for_proven_body, mthen at 1, mtry. rewrite E. destruct r as [p|e|]; [| |done].
  - unfold mthen at 1, mok. destruct (Z.leb_spec receipt_block p); [by eexists _, _|by apply Hsleep].
  - unfold mthen at 1 2.
    destruct (next_poll_ok time step Hp (wp_interval opts) w1) as (w2 & Ht2 & [[-> Hm]|[-> Hm]]).
    + destruct (Z.leb_spec deadline (time w2 + wp_interval opts)); [|by apply Hsleep].
      eexists _, _. split; [done|]. exists (time w2). split; [by exists (time w1), (time w2)|done].
    + eexists _, _. split; [done|]. exists (time w2). split; [by exists (time w1), (time w2)|done].
Qed.

(** C25: waiting for a proof succeeds when the block gets proven in time.  If from the
    instant [T] on the node answers a proven block number that reaches the receipt's
    block, every call takes at most [lag] and [T] comes more than an interval and three
    calls before the end of the time-out, then [wait_for_proven] returns a proven block
    number that is at least the receipt's, even if the node fails or lags before [T]. *)
Theorem wait_for_proven_live (receipt : TxReceipt) (block : Z) (opts : WaitForProvenOpts)
    (lag T : Z) (fuel : nat) (w : W) :
  let step t t' := t ≤ t' ≤ t + lag in
  rc_block_number receipt = Some block →
  paced time step → timed time step get_proven_block_number →
  (∀ w1, T ≤ time w1 → ∃ w2 p, get_proven_block_number w1 = (w2, Ok p) ∧ block ≤ p) →
  0 < wp_interval opts → 0 ≤ lag → T + 3 * lag + wp_interval opts < time w + proven_timeout opts →
  time w + lag + proven_timeout opts ≤ instant_max W →
  (0 < fuel)%nat → proven_timeout opts ≤ (Z.of_nat fuel - 1) * wp_interval opts →
  ∃ w' p, wait_for_proven fuel receipt opts w = (w', Ok (Some p)) ∧ block ≤ p.
Proof.
  intros step Hblock Hp Hget Hlive Hi Hlag Hslack Hmax Hpos Hfuel. destruct fuel as [|n]; [lia|].
  assert (Reflexive step) as Hrefl by (intros t; unfold step; lia).
  unfold wait_for_proven, mthen at 1, mlift. rewrite Hblock; simpl.
  unfold mthen at 1. pose proof Hp as [Hnow _]. destruct (Hnow w) as (w1 & -> & Ht). unfold step in Ht.
  unfold mthen at 1, instant_add. destruct (Z.leb_spec (time w1 + proven_timeout opts) (instant_max W)); [|lia].
  destruct (mloop_ends time (wp_interval opts) (time w1 + proven_timeout opts)
    (wait_for_proven_body block opts (time w1 + proven_timeout opts))
    (λ _ r, ∃ p, r = Ok p ∧ block ≤ p) n) with (w := w1) as (w' & r & E & p & -> & Hle).
  - lia.
  - intros w2. destruct (wait_for_proven_round step block opts (time w1 + proven_timeout opts) w2 Hp Hget)
      as (w' & r & E & Hr); [lia|]. exists w', r. split; [done|].
    assert (¬ T ≤ time w2 ∨ ∃ p, r = Ok (Some p)) as HT.
    { destruct (Z_le_gt_dec T (time w2)) as [HT|HT]; [right|left; lia].
      destruct (Hlive w2 HT) as (w3 & p & Ep & Hbp). revert E.
      unfold wait_for_proven_body, mthen at 1, mtry. rewrite Ep. unfold mthen at 1, mok.
      destruct (Z.leb_spec block p); [|lia]. intros [= _ <-]. by exists p. }
    destruct r as [[p|]|e|]; [by exists p|..]; destruct Hr as (t & (t1 & t2 & Hst) & Ht');
      unfold step in *; destruct HT as [HT|[p [=]]]; lia.
  - lia.
  - by exists w', p.
Qed.
End waits.

(** ** A node that proves its blocks as time goes by *)

Section polling_witnesses.
Import Concrete.Instances.
#[local] Existing Instance concrete_json.

(** The world is the time in nanoseconds. *)
Definition offline {A : Type} : M Z A := λ w, (w, Err (Transport "offline")).

#[local] Instance slow_clock : Clock Z :=
  {| now w := (w + 10, Ok (w + 10)); sleep d w := (w + d + 5, Ok ());
     instant_max := 2 ^ 63 * 1000000000 |}.

Definition receipt_at (status : TxStatus) : TxReceipt :=
  {| tx_hash := TxHash_zero; tx_status := status; execution_result := Some AppLogicReverted;
     tx_error := None; transaction_fee := None; block_hash := None; rc_block_number := Some 7;
     epoch_number := None |}.

(** Offline for two seconds, then block 7 is checkpointed, and proven from second 4 on. *)
#[local] Instance slow_node : AztecNode Z := {|
  get_node_info := offline;
  get_block_number := offline;
  get_proven_block_number w :=
    (w + 20, if w <? from_secs 2 then Err (Transport "offline")
             else Ok (if w <? from_secs 4 then 3 else 8));
  get_tx_receipt _ w :=
    (w + 20, if w <? from_secs 2 then Err (Transport "offline")
             else Ok (receipt_at (if w <? from_secs 4 then Pending else Proven)));
  get_public_logs _ := offline; send_tx _ := offline; get_contract _ := offline;
  get_contract_class _ := offline; get_block_header _ := offline; get_block _ := offline;
  get_note_hash_membership_witness _ _ := offline;
  get_nullifier_membership_witness _ _ := offline;
  get_low_nullifier_membership_witness _ _ := offline;
  get_public_storage_at _ _ _ := offline; get_public_storage_at_by_hash _ _ _ := offline;
  get_public_data_witness _ _ := offline; get_public_data_witness_by_hash _ _ := offline;
  get_l1_to_l2_message_membership_witness _ _ := offline;
  get_l1_to_l2_message_checkpoint _ := offline;
  simulate_public_calls _ _ := offline; is_valid_tx _ := offline;
  get_private_logs_by_tags _ := offline; get_public_logs_by_tags_from_contract _ _ := offline;
  register_contract_function_signatures _ := offline; get_tx_effect _ := offline;
  get_block_hash_membership_witness _ _ := offline; find_leaves_indexes _ _ _ := offline;
  get_tx_by_hash _ := offline
|}.

Lemma slow_paced (step : Z → Z → Prop) :
  (∀ t, step t (t + 10)) → (∀ t, step t (t + 5)) → paced (λ w : Z, w) step.
Proof.
  intros H10 H5. split.
  - intros w. by exists (w + 10).
  - intros d w _. by exists (w + d + 5).
Qed.

Definition accept_revert : WaitOpts :=
  {| wo_timeout := from_secs 6; wo_interval := from_secs 1; wait_for_status := Checkpointed;
     dont_throw_on_revert := true; ignore_dropped_receipts_for := from_secs 5 |}.

Lemma wait_for_tx_returns_witness :
  (∃ w' r, wait_for_tx 7 TxHash_zero accept_revert 0 = (w', omap_ok Some r) ∧
     tx_answer (λ w : Z, w) TxHash_zero accept_revert w' r) ∧
  (wait_for_tx 7 TxHash_zero accept_revert 0).2 = Ok (Some (receipt_at Proven)).
Proof.
  split; [|vm_compute; reflexivity].
  apply (wait_for_tx_returns (λ w : Z, w) TxHash_zero accept_revert 7 0).
  - apply slow_paced; intros; lia.
  - intros w. do 2 eexists. split; [reflexivity|]. split; [by destruct (w <? _)|simpl; lia].
  - reflexivity.
  - lia.
  - by vm_compute.
Defined.

Definition wait_ten : WaitForProvenOpts :=
  {| proven_timeout := from_secs 10; wp_interval := from_secs 1 |}.

Lemma wait_for_proven_live_witness :
  (∃ w' p, wait_for_proven 11 (receipt_at Checkpointed) wait_ten 0 = (w', Ok (Some p)) ∧ 7 ≤ p) ∧
  (wait_for_proven 11 (receipt_at Checkpointed) wait_ten 0).2 = Ok (Some 8).
Proof.
  split; [|vm_compute; reflexivity].
  apply (wait_for_proven_live (λ w : Z, w) (receipt_at Checkpointed) 7 wait_ten 20 (from_secs 4) 11 0).
  - reflexivity.
  - apply slow_paced; intros; lia.
  - intros w. do 2 eexists. split; [reflexivity|]. split; [|simpl; lia].
    by destruct (w <? _); [|destruct (w <? _)].
  - intros w Hw. exists (w + 20), 8. split; [|lia]. simpl. unfold from_secs in *.
    by rewrite !(proj2 (Z.ltb_ge _ _)) by lia.
  - reflexivity.
  - lia.
  - reflexivity.
  - by vm_compute.
  - lia.
  - by vm_compute.
Defined.
End polling_witnesses.
