(* ===== verification/Entrypoint.v ===== *)
(** [crates/account/src/entrypoint/] and [crates/fee/src/]: the encoding of the calls
    that an entrypoint makes, the account and the multi-call entrypoint, and the fee
    payment methods. *)

From Stdlib Require Import Ascii String.
From S2P Require Import Prelude Bytes Ordered Deps Concrete Types Constants Poseidon AbiTypes AbiCodec KernelTypes Tx Hash Kv Rpc.

(** [ArkFr::rand(&mut thread_rng())], the only source of randomness. *)
Class RandCrate (W : Type) {FR : PrimeField fr_modulus} := { rand_fr : M W Fr }.
#[global] Hint Mode RandCrate ! - : typeclass_instances.

(** [Fr::random]. *)
Definition Fr_random {W : Type} {FR : PrimeField fr_modulus} `{!RandCrate W} : M W Fr := rand_fr.

(** ** [fee]: payment methods *)

Section fee.
Context {W : Type} {FR : PrimeField fr_modulus} {P2 : Poseidon2Crate}.

(** [trait FeePaymentMethod]. *)
Record FeePaymentMethod := {
  get_asset : M W AztecAddress;
  get_fee_payer : M W AztecAddress;
  get_fee_execution_payload : M W ExecutionPayload;
}.

Definition NativeFeePaymentMethod (sender : AztecAddress) : FeePaymentMethod :=
  {| get_asset := mok protocol_contract_address.fee_juice;
     get_fee_payer := mok sender;
     get_fee_execution_payload := mok
       {| ep_calls := []; ep_auth_witnesses := []; ep_capsules := []; ep_extra_hashed_args := [];
          ep_fee_payer := Some sender |} |}.

Context `{HC : HashCrates}.

Definition SponsoredFeePaymentMethod (payment_contract : AztecAddress) : FeePaymentMethod :=
  {| get_asset := mlift (Err (InvalidData
       "SponsoredFeePaymentMethod does not have an associated asset"));
     get_fee_payer := mok payment_contract;
     get_fee_execution_payload := mok
       {| ep_calls :=
            [{| fc_to := payment_contract;
                fc_selector := FunctionSelector_from_signature "sponsor_unconditionally()";
                fc_args := []; fc_function_type := Private; fc_is_static := false;
                fc_hide_msg_sender := false |}];
          ep_auth_witnesses := []; ep_capsules := []; ep_extra_hashed_args := [];
          ep_fee_payer := Some payment_contract |} |}.

Record L2AmountClaim := {
  claim_amount : Z;
  claim_secret : Fr;
  message_leaf_index : Z;
}.

Definition FeeJuicePaymentMethodWithClaim (sender : AztecAddress) (claim : L2AmountClaim)
    : FeePaymentMethod :=
  {| get_asset := mok protocol_contract_address.fee_juice;
     get_fee_payer := mok sender;
     get_fee_execution_payload := mok
       {| ep_calls :=
            [{| fc_to := protocol_contract_address.fee_juice;
                fc_selector :=
                  FunctionSelector_from_signature "claim_and_end_setup((Field),u128,Field,Field)";
                fc_args := [AbiValue.Field sender; AbiValue.Integer (as_i128 (claim_amount claim));
                            AbiValue.Field (claim_secret claim);
                            AbiValue.Field (Fr_from_u64 (message_leaf_index claim))];
                fc_function_type := Private; fc_is_static := false; fc_hide_msg_sender := false |}];
          ep_auth_witnesses := []; ep_capsules := []; ep_extra_hashed_args := [];
          ep_fee_payer := Some sender |} |}.
End fee.
Arguments FeePaymentMethod W {FR}.

(** ** [encoding.rs] *)

Definition APP_MAX_CALLS : nat := 5.

Section encoding.
Context {FR : PrimeField fr_modulus} {P2 : Poseidon2Crate}.

Record EncodedCall := {
  ec_args_hash : Fr;
  ec_function_selector : Fr;
  ec_target_address : Fr;
  ec_is_public : bool;
  ec_hide_msg_sender : bool;
  ec_is_static : bool;
}.

Definition EncodedCall_to_fields (c : EncodedCall) : list Fr :=
  [ec_args_hash c; ec_function_selector c; ec_target_address c; Fr_from_bool (ec_is_public c);
   Fr_from_bool (ec_hide_msg_sender c); Fr_from_bool (ec_is_static c)].

Record EncodedAppEntrypointCalls := {
  encoded_calls : list EncodedCall;
  ea_tx_nonce : Fr;
  hashed_args_list : list HashedValues;
}.

(** One round of the loop of [create]. *)
Definition hash_call_args (call : FunctionCall) : HashedValues :=
  let arg_fields := abi_values_to_fields (fc_args call) in
  if decide (fc_function_type call = Public)
  then HashedValues_from_calldata (FunctionSelector_to_field (fc_selector call) :: arg_fields)
  else HashedValues_from_args arg_fields.

Definition encode_call (call : FunctionCall) : EncodedCall :=
  {| ec_args_hash := hv_hash (hash_call_args call);
     ec_function_selector := FunctionSelector_to_field (fc_selector call);
     ec_target_address := fc_to call;
     ec_is_public := bool_decide (fc_function_type call = Public);
     ec_hide_msg_sender := fc_hide_msg_sender call;
     ec_is_static := fc_is_static call |}.

Definition too_many_calls (n : nat) : Error :=
  InvalidData ("Too many calls: " +:+ pretty n +:+ " > " +:+ pretty APP_MAX_CALLS).

Definition padded_calls (calls : list FunctionCall) : list FunctionCall :=
  calls ++ replicate (APP_MAX_CALLS - List.length calls) FunctionCall_empty.

Definition EncodedCalls_create {W : Type} `{!RandCrate W} (calls : list FunctionCall)
    (tx_nonce : option Fr) : M W EncodedAppEntrypointCalls :=
  if (APP_MAX_CALLS <? List.length calls)%nat then mlift (Err (too_many_calls (List.length calls)))
  else
    let! tx_nonce := match tx_nonce with Some n => mok n | None => Fr_random end in
    mok {| encoded_calls := encode_call <$> padded_calls calls; ea_tx_nonce := tx_nonce;
           hashed_args_list := hash_call_args <$> padded_calls calls |}.

Definition EncodedCalls_to_fields (e : EncodedAppEntrypointCalls) : list Fr :=
  mjoin (EncodedCall_to_fields <$> encoded_calls e) ++ [ea_tx_nonce e].

Definition EncodedCalls_hash (e : EncodedAppEntrypointCalls) : Fr :=
  poseidon2_hash_with_separator (EncodedCalls_to_fields e) domain_separator.SIGNATURE_PAYLOAD.
End encoding.

(** ** [account.rs]: what an account offers *)

Section account.
Context {FR : PrimeField fr_modulus}.

Record EntrypointOptions := {
  eo_fee_payer : option AztecAddress;
  eo_gas_settings : option GasSettings;
  eo_fee_payment_method : option Z;
}.

Record TxExecutionRequest := {
  tr_origin : AztecAddress;
  tr_function_selector : FunctionSelector;
  tr_first_call_args_hash : Fr;
  tr_tx_context : TxContext;
  tr_args_of_calls : list HashedValues;
  tr_auth_witnesses : list AuthWitness;
  tr_capsules : list Capsule;
  tr_salt : Fr;
  tr_fee_payer : option AztecAddress;
}.

Record InitializationSpec := {
  constructor_name : string;
  constructor_args : list AbiValue;
}.

(** [trait AuthorizationProvider]. *)
Definition AuthorizationProvider (W : Type) : Type :=
  MessageHashOrIntent → ChainInfo → M W AuthWitness.

(** [trait Account]; the two accessors may panic. *)
Record Account (W : Type) := {
  create_auth_wit : AuthorizationProvider W;
  acc_complete_address : Outcome CompleteAddress;
  acc_address : Outcome AztecAddress;
  create_tx_execution_request :
    ExecutionPayload → GasSettings → ChainInfo → EntrypointOptions → M W TxExecutionRequest;
  wrap_execution_payload : ExecutionPayload → EntrypointOptions → M W ExecutionPayload;
}.
End account.
Arguments create_auth_wit {FR W} _.
Arguments acc_complete_address {FR W} _.
Arguments acc_address {FR W} _.
Arguments create_tx_execution_request {FR W} _.
Arguments wrap_execution_payload {FR W} _.
Arguments Account {FR} W.

(** ** The two entrypoints *)

Inductive AccountFeePaymentMethodOptions := External | PreexistingFeeJuice | FeeJuiceWithClaim.

(** [as i128]: the discriminants. *)
Definition fee_option_discriminant (o : AccountFeePaymentMethodOptions) : Z :=
  match o with External => 0 | PreexistingFeeJuice => 1 | FeeJuiceWithClaim => 2 end.

Section entrypoints.
Context {W : Type} {FR : PrimeField fr_modulus} {P2 : Poseidon2Crate} `{HC : HashCrates}.
Context `{JM : JsonMake} `{RW : !RandCrate W}.

Record DefaultAccountEntrypointOptions := {
  cancellable : bool;
  do_tx_nonce : option Fr;
  fee_payment_method_options : AccountFeePaymentMethodOptions;
}.

Definition DefaultAccountEntrypointOptions_default : DefaultAccountEntrypointOptions :=
  {| cancellable := false; do_tx_nonce := None; fee_payment_method_options := External |}.

(** [From<DefaultAccountEntrypointOptions> for EntrypointOptions]. *)
Definition EntrypointOptions_from (opts : DefaultAccountEntrypointOptions) : EntrypointOptions :=
  {| eo_fee_payer := None; eo_gas_settings := None; eo_fee_payment_method := None |}.

Definition param (name : string) (typ : AbiType) : AbiType.parameter :=
  AbiType.MkAbiParameter name typ None.

Definition function_selector_struct : AbiType :=
  AbiType.Struct "authwit::aztec::protocol_types::abis::function_selector::FunctionSelector"
    [param "inner" (AbiType.Integer "unsigned" 32)].
Definition address_struct : AbiType :=
  AbiType.Struct "authwit::aztec::protocol_types::address::AztecAddress" [param "inner" AbiType.Field].
Definition function_call_struct : AbiType :=
  AbiType.Struct "authwit::entrypoint::function_call::FunctionCall"
    [param "args_hash" AbiType.Field; param "function_selector" function_selector_struct;
     param "target_address" address_struct; param "is_public" AbiType.Boolean;
     param "hide_msg_sender" AbiType.Boolean; param "is_static" AbiType.Boolean].
Definition app_payload_struct : AbiType :=
  AbiType.Struct "authwit::entrypoint::app::AppPayload"
    [param "function_calls" (AbiType.Array function_call_struct 5); param "tx_nonce" AbiType.Field].

Definition app_payload_param : AbiType.parameter :=
  AbiType.MkAbiParameter "app_payload" app_payload_struct (Some "public"%string).

(** The artifact of an entrypoint with the given parameters. *)
Definition entrypoint_artifact (params : list AbiType.parameter) : FunctionArtifact FR JS :=
  {| fa_name := "entrypoint"; function_type := Private; is_initializer := false;
     fa_is_static := false; is_only_self := Some false; parameters := params; return_types := [];
     error_types := Some (json_of (TObject [])); fa_selector := None; bytecode := None;
     verification_key_hash := None; verification_key := None; custom_attributes := None;
     is_unconstrained := None; debug_symbols := None |}.

Definition entrypoint_abi : FunctionArtifact FR JS :=
  entrypoint_artifact [app_payload_param; param "fee_payment_method" (AbiType.Integer "unsigned" 8);
                       param "cancellable" AbiType.Boolean].

Definition multi_call_entrypoint_abi : FunctionArtifact FR JS :=
  entrypoint_artifact [app_payload_param].

Definition build_encoded_call_value (c : EncodedCall) : AbiValue :=
  AbiValue.Struct
    (bt_insert "is_static" (AbiValue.Boolean (ec_is_static c))
    (bt_insert "hide_msg_sender" (AbiValue.Boolean (ec_hide_msg_sender c))
    (bt_insert "is_public" (AbiValue.Boolean (ec_is_public c))
    (bt_insert "target_address" (AbiValue.Field (ec_target_address c))
    (bt_insert "function_selector" (AbiValue.Field (ec_function_selector c))
    (bt_insert "args_hash" (AbiValue.Field (ec_args_hash c)) [])))))).

Definition build_app_payload_value (e : EncodedAppEntrypointCalls) : AbiValue :=
  AbiValue.Struct
    (bt_insert "tx_nonce" (AbiValue.Field (ea_tx_nonce e))
    (bt_insert "function_calls" (AbiValue.Array (build_encoded_call_value <$> encoded_calls e)) [])).

(** *** [account_entrypoint.rs] *)

(** The arguments of the entrypoint call. *)
Definition entrypoint_args (e : EncodedAppEntrypointCalls) (options : DefaultAccountEntrypointOptions)
    : list AbiValue :=
  [build_app_payload_value e;
   AbiValue.Integer (fee_option_discriminant (fee_payment_method_options options));
   AbiValue.Boolean (cancellable options)].

Record EntrypointCallData := {
  cd_encoded_calls : EncodedAppEntrypointCalls;
  cd_encoded_args : list Fr;
  cd_function_selector : FunctionSelector;
  cd_payload_auth_witness : AuthWitness;
}.

Record DefaultAccountEntrypoint := {
  de_address : AztecAddress;
  de_auth : AuthorizationProvider W;
}.

Definition build_entrypoint_call_data (self : DefaultAccountEntrypoint) (exec : ExecutionPayload)
    (chain_info : ChainInfo) (options : DefaultAccountEntrypointOptions) : M W EntrypointCallData :=
  let! encoded_calls := EncodedCalls_create (ep_calls exec) (do_tx_nonce options) in
  let abi := entrypoint_abi in
  let! encoded_args := mlift (encode_arguments abi (entrypoint_args encoded_calls options)) in
  let function_selector := FunctionSelector_from_name_and_parameters (fa_name abi) (parameters abi) in
  let! payload_auth_witness := de_auth self (HashOnly (EncodedCalls_hash encoded_calls)) chain_info in
  mok {| cd_encoded_calls := encoded_calls; cd_encoded_args := encoded_args;
         cd_function_selector := function_selector;
         cd_payload_auth_witness := payload_auth_witness |}.

Definition tx_context_of (chain_info : ChainInfo) (gas_settings : GasSettings) : TxContext :=
  {| tc_chain_id := chain_id chain_info; tc_version := version chain_info;
     tc_gas_settings := gas_settings |}.

Definition entrypoint_tx_request (self : DefaultAccountEntrypoint) (exec : ExecutionPayload)
    (gas_settings : GasSettings) (chain_info : ChainInfo) (options : DefaultAccountEntrypointOptions)
    : M W TxExecutionRequest :=
  let! call_data := build_entrypoint_call_data self exec chain_info options in
  let entrypoint_hashed_args := HashedValues_from_args (cd_encoded_args call_data) in
  let! salt := Fr_random in
  mok {| tr_origin := de_address self;
         tr_function_selector := cd_function_selector call_data;
         tr_first_call_args_hash := hv_hash entrypoint_hashed_args;
         tr_tx_context := tx_context_of chain_info gas_settings;
         tr_args_of_calls := hashed_args_list (cd_encoded_calls call_data)
                               ++ [entrypoint_hashed_args] ++ ep_extra_hashed_args exec;
         tr_auth_witnesses := ep_auth_witnesses exec ++ [cd_payload_auth_witness call_data];
         tr_capsules := ep_capsules exec;
         tr_salt := salt;
         tr_fee_payer := ep_fee_payer exec ≫= λ fp,
           if decide (fp = de_address self) then None else Some fp |}.

Definition entrypoint_wrap (self : DefaultAccountEntrypoint) (exec : ExecutionPayload)
    (chain_info : ChainInfo) (options : DefaultAccountEntrypointOptions) : M W ExecutionPayload :=
  let! call_data := build_entrypoint_call_data self exec chain_info options in
  let entrypoint_call :=
    {| fc_to := de_address self; fc_selector := cd_function_selector call_data;
       fc_args := entrypoint_args (cd_encoded_calls call_data) options;
       fc_function_type := Private; fc_is_static := false; fc_hide_msg_sender := false |} in
  mok {| ep_calls := [entrypoint_call];
         ep_auth_witnesses := cd_payload_auth_witness call_data :: ep_auth_witnesses exec;
         ep_capsules := ep_capsules exec;
         ep_extra_hashed_args := hashed_args_list (cd_encoded_calls call_data)
                                   ++ ep_extra_hashed_args exec;
         ep_fee_payer := match ep_fee_payer exec with
                         | Some fp => Some fp | None => Some (de_address self) end |}.

(** *** [multi_call_entrypoint.rs] *)

Definition multi_call_args (e : EncodedAppEntrypointCalls) : list AbiValue :=
  [build_app_payload_value e].

Definition multi_call_data (exec : ExecutionPayload)
    : M W (EncodedAppEntrypointCalls * list Fr * FunctionSelector) :=
  let! encoded_calls := EncodedCalls_create (ep_calls exec) None in
  let abi := multi_call_entrypoint_abi in
  let! encoded_args := mlift (encode_arguments abi (multi_call_args encoded_calls)) in
  mok (encoded_calls, encoded_args,
       FunctionSelector_from_name_and_parameters (fa_name abi) (parameters abi)).

Definition DefaultMultiCallEntrypoint_new : AztecAddress :=
  protocol_contract_address.multi_call_entrypoint.

Definition multi_call_tx_request (address : AztecAddress) (exec : ExecutionPayload)
    (gas_settings : GasSettings) (chain_info : ChainInfo) : M W TxExecutionRequest :=
  let! (encoded_calls, encoded_args, function_selector) := multi_call_data exec in
  let entrypoint_hashed_args := HashedValues_from_args encoded_args in
  let! salt := Fr_random in
  mok {| tr_origin := address;
         tr_function_selector := function_selector;
         tr_first_call_args_hash := hv_hash entrypoint_hashed_args;
         tr_tx_context := tx_context_of chain_info gas_settings;
         tr_args_of_calls := hashed_args_list encoded_calls
                               ++ [entrypoint_hashed_args] ++ ep_extra_hashed_args exec;
         tr_auth_witnesses := ep_auth_witnesses exec;
         tr_capsules := ep_capsules exec;
         tr_salt := salt;
         tr_fee_payer := ep_fee_payer exec ≫= λ fp,
           if decide (fp = address) then None else Some fp |}.

Definition multi_call_wrap (address : AztecAddress) (exec : ExecutionPayload)
    : M W ExecutionPayload :=
  let! (encoded_calls, _, function_selector) := multi_call_data exec in
  mok {| ep_calls :=
           [{| fc_to := address; fc_selector := function_selector;
               fc_args := multi_call_args encoded_calls; fc_function_type := Private;
               fc_is_static := false; fc_hide_msg_sender := false |}];
         ep_auth_witnesses := ep_auth_witnesses exec;
         ep_capsules := ep_capsules exec;
         ep_extra_hashed_args := hashed_args_list encoded_calls ++ ep_extra_hashed_args exec;
         ep_fee_payer := ep_fee_payer exec |}.
End entrypoints.
Arguments DefaultAccountEntrypoint W {FR}.
