(* ===== verification/EntrypointSpec.v ===== *)
(** What the entrypoints promise: the account authorises exactly the field elements that
    its contract is called with, and these determine the calls. *)

From Stdlib Require Import Ascii String.
From S2P Require Import Prelude Bytes Ordered Deps Concrete Types Constants Poseidon AbiTypes AbiCodec KernelTypes Tx Hash Kv Rpc Entrypoint.

Section spec.
Context {W : Type} {FR : PrimeField fr_modulus} {P2 : Poseidon2Crate} `{HC : HashCrates}.
Context `{JM : JsonMake} `{RW : !RandCrate W}.

(** The field elements that stand for up to five calls and a nonce. *)
Definition payload_fields (calls : list FunctionCall) (nonce : Fr) : list Fr :=
  mjoin (EncodedCall_to_fields ∘ encode_call <$> padded_calls calls) ++ [nonce].

(** The request to execute the calls of [exec] as the contract sees it: [signed] is
    authorised, and the entrypoint is called with [signed], the fee option and the
    cancellable flag. *)
Definition request_spec (self : DefaultAccountEntrypoint W) (exec : ExecutionPayload)
    (gas_settings : GasSettings) (chain_info : ChainInfo) (options : DefaultAccountEntrypointOptions)
    : M W TxExecutionRequest :=
  let calls := ep_calls exec in
  if (5 <? List.length calls)%nat then mlift (Err (too_many_calls (List.length calls)))
  else
    let! nonce := from_option mok Fr_random (do_tx_nonce options) in
    let signed := payload_fields calls nonce in
    let arguments := signed ++ [Fr_from_u128 (fee_option_discriminant (fee_payment_method_options options));
                                Fr_from_bool (cancellable options)] in
    let! witness := de_auth self
      (HashOnly (poseidon2_hash_with_separator signed domain_separator.SIGNATURE_PAYLOAD)) chain_info in
    let! salt := Fr_random in
    mok {| tr_origin := de_address self;
           tr_function_selector := FunctionSelector_from_name_and_parameters "entrypoint" (parameters entrypoint_abi);
           tr_first_call_args_hash := compute_var_args_hash arguments;
           tr_tx_context := tx_context_of chain_info gas_settings;
           tr_args_of_calls := (hash_call_args <$> padded_calls calls)
             ++ [{| hv_values := arguments; hv_hash := compute_var_args_hash arguments |}]
             ++ ep_extra_hashed_args exec;
           tr_auth_witnesses := ep_auth_witnesses exec ++ [witness];
           tr_capsules := ep_capsules exec;
           tr_salt := salt;
           tr_fee_payer := ep_fee_payer exec ≫= λ fp,
             if decide (fp = de_address self) then None else Some fp |}.

Lemma encode_call_value (c : EncodedCall) :
  encode_value function_call_struct (build_encoded_call_value c) = Ok (EncodedCall_to_fields c).
Proof. destruct c as [? ? ? [] [] []]; cbv -[pf_car Fr_one Fr_zero]; reflexivity. Qed.

Lemma oconcat_map {A B C} (f : B → Outcome (list C)) (h : A → B) (g : A → list C) l :
  (∀ x, f (h x) = Ok (g x)) → oconcat f (h <$> l) = Ok (mjoin (g <$> l)).
Proof.
  intros Hf. unfold oconcat. assert (omapM f (h <$> l) = Ok (g <$> l)) as ->; [|done].
  induction l as [|x l IH]; [done|]. rewrite fmap_cons. cbn [omapM]. by rewrite Hf, IH.
Qed.

Lemma struct_two_fields (n1 n2 : string) (t1 t2 : AbiType) vs v1 v2 fs1 fs2 :
  bt_get n1 vs = Some v1 → bt_get n2 vs = Some v2 →
  encode_value t1 v1 = Ok fs1 → encode_value t2 v2 = Ok fs2 →
  encode_fields encode_value vs [param n1 t1; param n2 t2] = Ok (fs1 ++ fs2).
Proof.
  intros H1 H2 H3 H4. unfold param. cbn [encode_fields]. rewrite H1. cbn [ok_or obind].
  rewrite H3. cbn [obind]. rewrite H2. cbn [ok_or obind]. rewrite H4. cbn [obind]. by rewrite app_nil_r.
Qed.

Lemma encode_payload (e : EncodedAppEntrypointCalls) :
  List.length (encoded_calls e) = APP_MAX_CALLS →
  encode_value app_payload_struct (build_app_payload_value e) = Ok (EncodedCalls_to_fields e).
Proof.
  intros Hn. unfold EncodedCalls_to_fields.
  change (encode_fields encode_value
    (bt_insert "tx_nonce" (AbiValue.Field (ea_tx_nonce e))
      (bt_insert "function_calls" (AbiValue.Array (build_encoded_call_value <$> encoded_calls e)) []))
    [param "function_calls" (AbiType.Array function_call_struct 5); param "tx_nonce" AbiType.Field]
    = Ok (mjoin (EncodedCall_to_fields <$> encoded_calls e) ++ [ea_tx_nonce e])).
  eapply struct_two_fields; [reflexivity|reflexivity| |reflexivity].
  cbn [encode_value]. rewrite length_fmap, Hn. change (Z.of_nat APP_MAX_CALLS =? 5) with true. cbv iota.
  rewrite (oconcat_map _ build_encoded_call_value EncodedCall_to_fields); [done|apply encode_call_value].
Qed.

Lemma encode_entrypoint_args (e : EncodedAppEntrypointCalls) (options : DefaultAccountEntrypointOptions) :
  List.length (encoded_calls e) = APP_MAX_CALLS →
  encode_arguments entrypoint_abi (entrypoint_args e options)
  = Ok (EncodedCalls_to_fields e
        ++ [Fr_from_u128 (fee_option_discriminant (fee_payment_method_options options));
            Fr_from_bool (cancellable options)]).
Proof.
  intros Hn. unfold encode_arguments. cbn -[app_payload_struct build_app_payload_value encode_value].
  unfold oconcat. cbn -[app_payload_struct build_app_payload_value encode_value].
  rewrite encode_payload by done. by destruct options as [[] ? []].
Qed.
Lemma padded_length calls :
  (5 <? List.length calls)%nat = false → List.length (padded_calls calls) = APP_MAX_CALLS.
Proof.
  intros H%Nat.ltb_ge. unfold padded_calls, APP_MAX_CALLS in *.
  rewrite length_app, length_replicate. lia.
Qed.

Lemma hv_values_hash (hv : list Fr) :
  HashedValues_from_args hv = {| hv_values := hv; hv_hash := compute_var_args_hash hv |}.
Proof. done. Qed.

Lemma entrypoint_request_spec (self : DefaultAccountEntrypoint W) (exec : ExecutionPayload)
    (gas_settings : GasSettings) (chain_info : ChainInfo)
    (options : DefaultAccountEntrypointOptions) (w : W) :
  entrypoint_tx_request self exec gas_settings chain_info options w
  = request_spec self exec gas_settings chain_info options w.
Proof.
  unfold entrypoint_tx_request, build_entrypoint_call_data, EncodedCalls_create, request_spec.
  change APP_MAX_CALLS with 5%nat.
  destruct (5 <? List.length (ep_calls exec))%nat eqn:Hn; [done|].
  apply padded_length in Hn.
  assert (from_option mok Fr_random (do_tx_nonce options)
          = match do_tx_nonce options with Some n => mok n | None => Fr_random end) as ->
    by (by destruct (do_tx_nonce options)).
  unfold mthen. destruct (match do_tx_nonce options with Some n => mok n | None => Fr_random end w)
    as [s [nonce|err|]]; [|done..].
  cbn [mok mlift]. rewrite encode_entrypoint_args by (cbn; by rewrite length_fmap).
  cbn [mlift]. unfold EncodedCalls_hash, EncodedCalls_to_fields, payload_fields. cbn [encoded_calls ea_tx_nonce].
  rewrite list_fmap_compose.
  destruct (de_auth self _ chain_info s) as [s1 [wit|err|]]; [|done..].
  cbn [mok]. unfold mok. by destruct (Fr_random s1) as [s2 [salt|err|]].
Qed.

(** C9: for every execution payload, the request the account entrypoint builds is the
    abstract one: too many calls are refused before anything else; otherwise the account
    authorises the hash of exactly those field elements that its contract's [entrypoint]
    then receives as its payload argument (five padded calls and the nonce), followed by
    the fee option and the cancellable flag; the hash of each call's arguments comes
    with its preimage; and the only failures are those of the authorisation. *)
Theorem entrypoint_request_refines (self : DefaultAccountEntrypoint W) (exec : ExecutionPayload)
    (gas_settings : GasSettings) (chain_info : ChainInfo)
    (options : DefaultAccountEntrypointOptions) (w : W) :
  entrypoint_tx_request self exec gas_settings chain_info options w
  = request_spec self exec gas_settings chain_info options w.
Proof. apply entrypoint_request_spec. Qed.
(** What the payload says of a call. *)
Definition call_view (c : FunctionCall) : AztecAddress * FunctionSelector * bool * bool * bool * Fr :=
  (fc_to c, fc_selector c, bool_decide (fc_function_type c = Public), fc_hide_msg_sender c,
   fc_is_static c, hv_hash (hash_call_args c)).

Lemma encoded_call_view (c1 c2 : FunctionCall) :
  List.length (fc_selector c1) = 4%nat → List.length (fc_selector c2) = 4%nat →
  EncodedCall_to_fields (encode_call c1) = EncodedCall_to_fields (encode_call c2) →
  call_view c1 = call_view c2.
Proof.
  intros H1 H2 E. unfold EncodedCall_to_fields, encode_call in E. cbn in E.
  injection E as E1 E2 E3 E4%Fr_from_bool_inj E5%Fr_from_bool_inj E6%Fr_from_bool_inj.
  apply (f_equal FunctionSelector_from_field) in E2. rewrite !selector_field_roundtrip in E2 by done.
  unfold call_view. congruence.
Qed.

Lemma view_encoded_call (c1 c2 : FunctionCall) :
  call_view c1 = call_view c2 → encode_call c1 = encode_call c2.
Proof. intros E. unfold call_view in E. injection E as E1 E2 E3 E4 E5 E6. unfold encode_call. congruence. Qed.

Lemma payload_calls_inj (l1 l2 : list FunctionCall) (r1 r2 : list Fr) :
  Forall (λ c, List.length (fc_selector c) = 4%nat) (l1 ++ l2) → List.length l1 = List.length l2 →
  mjoin (EncodedCall_to_fields ∘ encode_call <$> l1) ++ r1
    = mjoin (EncodedCall_to_fields ∘ encode_call <$> l2) ++ r2 →
  call_view <$> l1 = call_view <$> l2 ∧ r1 = r2.
Proof.
  revert l2. induction l1 as [|c1 l1 IH]; intros [|c2 l2] Hs Hl E; try done.
  rewrite <- app_comm_cons in Hs. apply Forall_cons in Hs as [Hc1 Hs].
  apply Forall_app in Hs as [Hs1 [Hc2 Hs2]%Forall_cons].
  change ((EncodedCall_to_fields (encode_call c1)
             ++ mjoin (EncodedCall_to_fields ∘ encode_call <$> l1)) ++ r1
          = (EncodedCall_to_fields (encode_call c2)
             ++ mjoin (EncodedCall_to_fields ∘ encode_call <$> l2)) ++ r2) in E.
  rewrite <- !app_assoc in E.
  apply app_inj_1 in E as [Ec E]; [|done].
  destruct (IH l2) as [Ev Er]; [by apply Forall_app|by injection Hl|done|].
  split; [|done]. exact (f_equal2 cons (encoded_call_view c1 c2 Hc1 Hc2 Ec) Ev).
Qed.

(** The field elements of one call when its argument value is flattened by name. *)
Definition flattened_call (c : EncodedCall) : list Fr :=
  [ec_args_hash c; ec_function_selector c; Fr_from_bool (ec_hide_msg_sender c);
   Fr_from_bool (ec_is_public c); Fr_from_bool (ec_is_static c); ec_target_address c].

Lemma flatten_call_value (c : EncodedCall) :
  flatten_abi_value (build_encoded_call_value c) = flattened_call c.
Proof. destruct c as [? ? ? [] [] []]; cbv -[pf_car Fr_one Fr_zero]; reflexivity. Qed.

(** A payload that is wrapped and then encoded again (by an outer entrypoint) hashes the
    arguments of its single call in the alphabetical order of the field names, not in the
    order that the contract's ABI gives them: visibility, flags and target are permuted. *)
Lemma wrapped_args_reordered (e : EncodedAppEntrypointCalls) (options : DefaultAccountEntrypointOptions) :
  abi_values_to_fields (entrypoint_args e options)
  = mjoin (flattened_call <$> encoded_calls e)
    ++ [ea_tx_nonce e; Fr_from_u128 (fee_option_discriminant (fee_payment_method_options options));
        Fr_from_bool (cancellable options)].
Proof.
  unfold abi_values_to_fields, entrypoint_args. rewrite fmap_cons.
  change (flatten_abi_value (build_app_payload_value e)) with
    (mjoin (flatten_abi_value <$> (build_encoded_call_value <$> encoded_calls e))
     ++ [ea_tx_nonce e]).
  rewrite <- list_fmap_compose.
  rewrite (list_fmap_ext (flatten_abi_value ∘ build_encoded_call_value) flattened_call)
    by (intros; apply flatten_call_value).
  change (mjoin (?x :: ?l)) with (x ++ mjoin l). rewrite <- app_assoc. do 2 f_equal.
  by destruct options as [[] ? []].
Qed.
End spec.

Import Concrete.Instances.

