(* ===== verification/OracleCommon.v ===== *)
(** What [crates/pxe/src/execution/oracle.rs] and [utility_oracle.rs] share: reading the
    arguments of a foreign call, packing notes and instances as fields, the texts and
    paths a node answers, and the directional tagging secret. *)

From Stdlib Require Import Ascii String.
From S2P Require Import Prelude Bytes Ordered Deps Concrete Types Constants Poseidon Grumpkin Deploy Kv Rpc Node LocalStores NoteStore PickNotes.

Section common.
Context {FR : PrimeField fr_modulus}.

(** ** Arguments *)

(** [.copied().unwrap_or(Fr::zero())]. *)
Definition field_or_zero (args : list (list Fr)) (i : nat) : Fr := default Fr_zero (first_at args i).

Definition usize_or_zero (args : list (list Fr)) (i : nat) : Z := Fr_to_usize (field_or_zero args i).

(** [.map(|f| f.to_usize() as u32)]. *)
Definition u32_at (args : list (list Fr)) (i : nat) : option Z :=
  (λ f, wrap 32 (Fr_to_usize f)) <$> first_at args i.

(** [.map(|f| *f != Fr::zero()).unwrap_or(false)]. *)
Definition flag_at (args : list (list Fr)) (i : nat) : bool :=
  default false ((λ f, bool_decide (f ≠ Fr_zero)) <$> first_at args i).

Definition field_arg {W : Type} (args : list (list Fr)) (i : nat) (msg : string) : M W Fr :=
  required (first_at args i) (InvalidData msg).

Definition array_at (args : list (list Fr)) (i : nat) : list Fr := default [] (args !! i).

(** ** Notes *)

Definition note_status_from_field (value : Fr) : Outcome NoteStatus :=
  let n := Fr_to_usize value in
  if n =? 1 then Ok Active
  else if n =? 2 then Ok ActiveOrNullified
  else Err (InvalidData ("unknown note status: " +:+ pretty n)).

Definition zero_nonce : Error := InvalidData "cannot pack settled note with zero note_nonce".

Definition pack_hinted_note (note : StoredNote) : Outcome (list Fr) :=
  let? stage :=
    if sn_is_pending note then Ok (if decide (sn_note_nonce note = Fr_zero) then 1 else 2)
    else if decide (sn_note_nonce note = Fr_zero) then Err zero_nonce else Ok 3 in
  Ok (sn_note_data note ++ [sn_contract_address note; sn_owner note; sn_randomness note;
                            sn_storage_slot note; Fr_from_u64 stage; sn_note_nonce note]).

(** [usize::saturating_mul]. *)
Definition saturating_mul (a b : Z) : Z := Z.min (a * b) (2 ^ 64 - 1).

Definition bounded_overflow (n max_len : Z) : Error :=
  InvalidData ("bounded vec overflow: " +:+ pretty n +:+ " > " +:+ pretty max_len).

Definition check_length (nested_len : Z) (array : list Fr) : Outcome (list Fr) :=
  let n := Z.of_nat (length array) in
  if n =? nested_len then Ok array
  else Err (InvalidData ("packed hinted note length mismatch: " +:+ pretty n +:+ " != "
                         +:+ pretty nested_len)).

Definition pack_bounded_vec_of_arrays (arrays : list (list Fr)) (max_len nested_len : Z)
    : Outcome (list (list Fr)) :=
  let n := Z.of_nat (length arrays) in
  if max_len <? n then Err (bounded_overflow n max_len)
  else
    let size := saturating_mul max_len nested_len in
    let? _ := vec_with_capacity 32 size in
    let? checked := omapM (check_length nested_len) arrays in
    Ok [vec_resize (Z.to_nat size) Fr_zero (mjoin checked); [Fr_from_u64 n]].

(** [offset], [limit] (0 is none) and the size of the bounded vector. *)
Definition page {A : Type} (offset limit max_notes : Z) (notes : list A) : list A :=
  let len (l : list A) := Z.of_nat (length l) in
  let notes := if len notes <=? offset then [] else drop (Z.to_nat offset) notes in
  let notes := if (0 <? limit) && (limit <? len notes) then take (Z.to_nat limit) notes else notes in
  if max_notes <? len notes then take (Z.to_nat max_notes) notes else notes.

(** The owner is an option of two fields. *)
Definition owner_arg (args : list (list Fr)) : option AztecAddress :=
  if decide (field_or_zero args 0 = Fr_zero) then None else Some (field_or_zero args 1).

(** What [getNotes] does with the notes it has gathered. *)
Definition pick_and_pack (args : list (list Fr)) (notes : list StoredNote)
    : Outcome (list (list Fr)) :=
  let? selects := parse_select_clauses args in
  let? notes := select_notes notes selects in
  let max_notes := usize_or_zero args 16 in
  let notes := page (usize_or_zero args 14) (usize_or_zero args 13) max_notes notes in
  let? packed := omapM pack_hinted_note notes in
  pack_bounded_vec_of_arrays packed max_notes (usize_or_zero args 17).

(** ** Storage slots *)

(** The loop over the bytes from the last one: [carry] is a [u128]. *)
Fixpoint add_carry (carry : Z) (bytes_rev : list byte) : list byte :=
  match bytes_rev with
  | [] => []
  | b :: bytes' =>
      if carry =? 0 then bytes_rev
      else
        let sum := byte_Z b + Z.land carry 255 in
        Z_byte (Z.land sum 255) :: add_carry (Z.shiftr carry 8 + Z.shiftr sum 8) bytes'
  end.

Definition slot_with_offset (start_slot : Fr) (offset : Z) : Fr :=
  Fr_from_be (rev (add_carry offset (rev (Fr_to_be_bytes start_slot)))).

(** ** Contract instances *)

Definition point_fields (p : Point) : list Fr := [pt_x p; pt_y p; Fr_from_bool (pt_is_infinite p)].

Definition public_key_list (pk : PublicKeys) : list Point :=
  [master_nullifier_public_key pk; master_incoming_viewing_public_key pk;
   master_outgoing_viewing_public_key pk; master_tagging_public_key pk].

Definition contract_instance_to_fields (inst : ContractInstance) : list (list Fr) :=
  [[ci_salt inst]; [ci_deployer inst]; [ci_current_contract_class_id inst];
   [ci_initialization_hash inst]]
  ++ ((λ f, [f]) <$> mjoin (point_fields <$> public_key_list (ci_public_keys inst))).
End common.

(** ** Texts and paths *)

Section texts.
Context {FR : PrimeField fr_modulus} {HX : HexCrate} {B64 : Base64Crate} `{JT : JsonText}.

Definition parse_field_string (value : string) : Outcome Fr :=
  if strip_prefix "0x" value then Fr_from_hex value
  else match parse_u128 value with
       | Some n => Ok (Fr_from_u128 n)
       | None => Err (InvalidData ("unsupported field string value: " +:+ value))
       end.

Definition decode_base64_sibling_path (encoded : string) : Outcome (list Fr) :=
  let? bytes := match base64_decode encoded with
    | inr bytes => Ok bytes
    | inl e => Err (InvalidData ("invalid siblingPath base64: " +:+ e))
    end in
  let? payload :=
    if (4 <=? length bytes)%nat then
      let declared_len := be_Z (take 4 bytes) in
      let payload := drop 4 bytes in
      if Z.of_nat (length payload) =? saturating_mul declared_len 32 then Ok payload
      else if (length bytes mod 32 =? 0)%nat then Ok bytes
      else Err (InvalidData ("siblingPath payload length mismatch: declared "
             +:+ pretty declared_len +:+ " elements, got " +:+ pretty (length payload) +:+ " bytes"))
    else Ok bytes in
  Ok ((λ chunk, Fr_from_be (left_pad 32 chunk)) <$> chunks 32 payload).

Definition witness_error (what path rest : string) : Error :=
  InvalidData ("public data witness " +:+ what +:+ path +:+ rest).

(** A field element as the node writes it: a text or a number. *)
Definition witness_field (unsupported : string → Error) (raw : json_value) : Outcome Fr :=
  match json_as_str raw with
  | Some s => match parse_field_string s with
              | Ok f => Ok f
              | _ => Err (unsupported ("string value: " +:+ s))
              end
  | None => match json_as_u64 raw with
            | Some n => Ok (Fr_from_u64 n)
            | None => Err (unsupported ("shape: " +:+ json_debug raw))
            end
  end.

Definition public_data_fr_at (value : json_value) (path : string) : Outcome Fr :=
  let? raw := ok_or (json_pointer value path) (witness_error "missing field at " path "") in
  witness_field (λ why, witness_error "field at " path (" has unsupported " +:+ why)) raw.

Definition public_data_sibling_path (witness : json_value) : Outcome (list Fr) :=
  match json_pointer witness "/siblingPath" with
  | Some path =>
      match json_as_array path, json_as_str path with
      | Some entries, _ =>
          omapM (witness_field (λ why, witness_error "siblingPath entry has unsupported " why "")) entries
      | None, Some encoded => decode_base64_sibling_path encoded
      | None, None => Err (InvalidData "public data witness missing siblingPath")
      end
  | None => Err (InvalidData "public data witness missing siblingPath")
  end.

(** The answer to [getPublicDataWitness], all zeroes where the node has no witness. *)
Definition public_data_answer (witness : option json_value) : Outcome (list (list Fr)) :=
  let height := Z.to_nat PUBLIC_DATA_TREE_HEIGHT in
  match witness with
  | None => Ok (replicate 5 [Fr_zero] ++ [replicate height Fr_zero])
  | Some witness =>
      let? sibling_path := public_data_sibling_path witness in
      let sibling_path := truncate height (vec_resize height Fr_zero sibling_path) in
      let? index := public_data_fr_at witness "/index" in
      let? slot := public_data_fr_at witness "/leafPreimage/leaf/slot" in
      let? value := public_data_fr_at witness "/leafPreimage/leaf/value" in
      let? next_key := public_data_fr_at witness "/leafPreimage/nextKey" in
      let? next_index := public_data_fr_at witness "/leafPreimage/nextIndex" in
      Ok [[index]; [slot]; [value]; [next_key]; [next_index]; sibling_path]
  end.
End texts.

(** ** Calls that both oracles answer alike, of the contract that runs *)

Section calls.
Context {W : Type} {FR : PrimeField fr_modulus} {HX : HexCrate} {B64 : Base64Crate} `{JT : JsonText}.
Context `{AN : !AztecNode W} `{KV : KvStore W}.

(** The loop over the slots. *)
Definition read_slot (block_hash : option Fr) (contract start_slot : Fr) (values : list Fr) (offset : Z)
    : M W (list Fr) :=
  let slot := slot_with_offset start_slot offset in
  let! value := match block_hash with
                | Some block_hash => get_public_storage_at_by_hash block_hash contract slot
                | None => get_public_storage_at 0 contract slot
                end in
  mok (values ++ [value]).

Definition public_storage_at (args : list (list Fr)) : M W (list (list Fr)) :=
  let by_hash := (4 <=? length args)%nat in
  let first := if by_hash then 1%nat else 0%nat in
  let! contract := field_arg args first "missing contract address" in
  let! start_slot := field_arg args (S first) "missing storage slot" in
  let number_of_elements := if by_hash then Z.max (usize_or_zero args 3) 1 else 1 in
  let block_hash := if by_hash then Some (field_or_zero args 0) else None in
  mlift (vec_with_capacity 32 number_of_elements) ;;!
  let! values := for_fold (read_slot block_hash contract start_slot) [] (seqZ 0 number_of_elements) in
  mok [values].

Context `{SI : SerdeJson ContractInstanceWithAddress} `{SC : SerdeJson CompleteAddress}.

(** The local store first, then the node. *)
Definition contract_instance_at (args : list (list Fr)) : M W (list (list Fr)) :=
  let! address := field_arg args 0 "missing address" in
  let! inst := ContractStore.get_instance address in
  let! inst := match inst with Some i => mok (Some i) | None => get_contract address end in
  mok (match inst with
       | Some inst => contract_instance_to_fields (instance_inner inst)
       | None => replicate 16 [Fr_zero]
       end).

Definition public_keys_and_partial_address (args : list (list Fr)) : M W (list (list Fr)) :=
  let! address := field_arg args 0 "missing address arg" in
  let! found := AddressStore.get address in
  mok (match found with
       | None => [[Fr_zero]; replicate 13 Fr_zero]
       | Some complete =>
           [[Fr_from_bool true];
            mjoin (point_fields <$> public_key_list (ca_public_keys complete)) ++ [ca_partial_address complete]]
       end).

Definition public_data_witness (args : list (list Fr)) : M W (list (list Fr)) :=
  let block_hash := field_or_zero args 0 in
  let! leaf_slot := field_arg args 1 "missing leaf slot" in
  let! witness := get_public_data_witness_by_hash block_hash leaf_slot in
  mlift (public_data_answer witness).

(** The witnesses for the message hash; the first pair with it wins. *)
Definition auth_witness (auth_witnesses : list (Fr * list Fr)) (args : list (list Fr))
    : Outcome (list (list Fr)) :=
  let? message_hash := ok_or (first_at args 0) (InvalidData "missing message hash") in
  match List.find (λ hw, bool_decide (hw.1 = message_hash)) auth_witnesses with
  | Some (_, witness) => Ok [witness]
  | None => Err (InvalidData ("Unknown auth witness for message hash " +:+ Fr_to_string message_hash))
  end.

Context {FQ : PrimeField fq_modulus} {P2 : Poseidon2Crate} {HC : HashCrates} {AG : GrumpkinCrate}.

(** ** Key requests *)

Definition owns_key (pk_m_hash : Fr) (complete : CompleteAddress) : bool :=
  existsb (λ p, bool_decide (poseidon2_hash (point_fields p) = pk_m_hash))
    (public_key_list (ca_public_keys complete)).

(** The loop over the scopes, which stops at the first owner of the key. *)
Fixpoint key_in_scope (pk_m_hash : Fr) (scopes : list AztecAddress) : M W bool :=
  match scopes with
  | [] => mok false
  | scope :: scopes' =>
      let! found := AddressStore.get scope in
      if match found with Some complete => owns_key pk_m_hash complete | None => false end
      then mok true else key_in_scope pk_m_hash scopes'
  end.

Definition key_request_denied : Error := InvalidData "Key validation request denied".

Definition key_validation_answer (pk_m_hash : Fr) (app : AztecAddress) : M W (list (list Fr)) :=
  let! found := KeyStore.get_key_validation_request pk_m_hash app in
  mok (match found with
       | Some (pk_m, sk_app) => [[pt_x pk_m]; [pt_y pk_m]; [Fr_from_bool (pt_is_infinite pk_m)]; [sk_app]]
       | None => replicate 4 [Fr_zero]
       end).
End calls.
