(* ===== verification/TaggingSecret.v ===== *)
(** The directional tagging secret of [crates/pxe/src/execution/utility_oracle.rs]: what a
    sender and a recipient derive tags from, each from its own secret and the other's
    address. *)

From S2P Require Import Prelude Bytes Ordered Deps Concrete Types Constants Poseidon Grumpkin Crypto Deploy.

Section tagging_secret.
Context {FR : PrimeField fr_modulus} {FQ : PrimeField fq_modulus} {P2 : Poseidon2Crate}.
Context {AG : GrumpkinCrate} {SQ : SqrtField}.

Definition compute_address_secret (preaddress : Fr) (ivsk : Fq) : Fq :=
  let candidate := pf_add ivsk (Fq_from_be_bytes_mod_order (Fr_to_be_bytes preaddress)) in
  if has_positive_y (scalar_mul candidate generator) then candidate else pf_neg candidate.

Definition preaddress (complete : CompleteAddress) : Fr :=
  poseidon2_hash_with_separator [PublicKeys_hash (ca_public_keys complete); ca_partial_address complete]
    domain_separator.CONTRACT_ADDRESS_V1.

Definition compute_directional_tagging_secret (local_address : CompleteAddress) (local_ivsk : Fq)
    (external_address app recipient : AztecAddress) : Outcome Fr :=
  let address_secret := compute_address_secret (preaddress local_address) local_ivsk in
  let? external_point := point_from_x external_address in
  let shared_secret := scalar_mul address_secret external_point in
  let app_tagging_secret := poseidon2_hash [pt_x shared_secret; pt_y shared_secret; app] in
  Ok (poseidon2_hash [app_tagging_secret; recipient]).

(** The public point of an account's address secret. *)
Definition address_point (complete : CompleteAddress) (ivsk : Fq) : Point :=
  scalar_mul (compute_address_secret (preaddress complete) ivsk) generator.

Lemma directional_secret (local_address : CompleteAddress) (local_ivsk : Fq)
    (external : Fq) (external_address app recipient : AztecAddress) :
  point_from_x external_address = Ok (scalar_mul external generator) →
  let shared := scalar_mul (pf_mul (compute_address_secret (preaddress local_address) local_ivsk) external)
                  generator in
  compute_directional_tagging_secret local_address local_ivsk external_address app recipient
  = Ok (poseidon2_hash [poseidon2_hash [pt_x shared; pt_y shared; app]; recipient]).
Proof.
  intros H. unfold compute_directional_tagging_secret. rewrite H. cbn [obind].
  by rewrite scalar_mul_mul by apply on_curve_generator.
Qed.

Lemma pf_mul_comm_fq (x y : Fq) : pf_mul x y = pf_mul y x.
Proof. apply (inj pf_val). unfold pf_val. by rewrite !pf_val_mul, Z.mul_comm. Qed.
End tagging_secret.

Import Concrete.Instances.


(** Viewing keys whose address secrets are the two known scalars. *)
Definition example_keys : PublicKeys :=
  {| master_nullifier_public_key := Point_default;
     master_incoming_viewing_public_key := Point_default;
     master_outgoing_viewing_public_key := Point_default;
     master_tagging_public_key := Point_default |}.
Definition example_complete (partial : Z) (secret : Fq) : CompleteAddress :=
  {| ca_address := pt_x (scalar_mul secret generator); ca_public_keys := example_keys;
     ca_partial_address := Fr_from_u64 partial |}.
Definition example_ivsk (complete : CompleteAddress) (secret : Fq) : Fq :=
  pf_sub secret (Fq_from_be_bytes_mod_order (Fr_to_be_bytes (preaddress complete))).

