(* ===== verification/ExampleWorld.v ===== *)
(** Concrete instances for the witnesses of the execution: the stored forms of what the
    stores keep, a machine whose opcodes are bytes, and a node that refuses every call. *)

From Stdlib Require Import Ascii String.
From S2P Require Import Prelude Bytes Ordered Deps Concrete Types AbiTypes Tx Kv Simulated Rpc Node LocalStores TaggingStores NoteStore AcvmExecutor Entrypoint.
Import Concrete.Instances.

(** ** Stored forms *)

(** A type is countable when it is encoded, with a left inverse. *)
Lemma decoded_inj {A B : Type} (f : A → B) (g : B → A) : (∀ a, g (f a) = a) → ∀ a b, f a = f b → a = b.
Proof. intros Hg a b E. by rewrite <- (Hg a), E, Hg. Qed.

Definition decoded_eq_dec {A B : Type} `{EqDecision B} (f : A → B) (g : B → A) (Hg : ∀ a, g (f a) = a)
    : EqDecision A := λ a b,
  match decide (f a = f b) with
  | left E => left (decoded_inj f g Hg a b E)
  | right N => right (λ E, N (f_equal f E))
  end.

Definition encoded_serde {A B : Type} `{Countable B} (f : A → B) (g : B → A) (Hg : ∀ a, g (f a) = a)
    : SerdeJson A :=
  @countable_serde A (decoded_eq_dec f g Hg) (@inj_countable' _ _ _ _ (decoded_eq_dec f g Hg) f g Hg).

Definition type_leaf : Type := Z + option string.

Fixpoint type_enc (ty : AbiType) : gen_tree type_leaf :=
  match ty with
  | AbiType.Field => GenNode 0 []
  | AbiType.Boolean => GenNode 1 []
  | AbiType.Integer s w => GenNode 2 [GenLeaf (inr (Some s)); GenLeaf (inl w)]
  | AbiType.Array e n => GenNode 3 [type_enc e; GenLeaf (inl n)]
  | AbiType.String n => GenNode 4 [GenLeaf (inl n)]
  | AbiType.Struct n fs =>
      GenNode 5 (GenLeaf (inr (Some n)) ::
        map (λ p, let 'MkAbiParameter m ty v := p in
                  GenNode 7 [GenLeaf (inr (Some m)); type_enc ty; GenLeaf (inr v)]) fs)
  | AbiType.Tuple es => GenNode 6 (map type_enc es)
  end.

Fixpoint type_dec (t : gen_tree type_leaf) : AbiType :=
  match t with
  | GenNode 1 [] => AbiType.Boolean
  | GenNode 2 [GenLeaf (inr (Some s)); GenLeaf (inl w)] => AbiType.Integer s w
  | GenNode 3 [e; GenLeaf (inl n)] => AbiType.Array (type_dec e) n
  | GenNode 4 [GenLeaf (inl n)] => AbiType.String n
  | GenNode 5 (GenLeaf (inr (Some n)) :: fs) =>
      AbiType.Struct n (map (λ p, match p with
        | GenNode 7 [GenLeaf (inr (Some m)); ty; GenLeaf (inr v)] => MkAbiParameter m (type_dec ty) v
        | _ => MkAbiParameter EmptyString AbiType.Field None
        end) fs)
  | GenNode 6 es => AbiType.Tuple (map type_dec es)
  | _ => AbiType.Field
  end.

Lemma type_dec_enc ty : type_dec (type_enc ty) = ty.
Proof.
  induction ty as [| | | | |n fs IH|es IH] using AbiType.nested_ind; simpl; try congruence.
  - f_equal. rewrite map_map. rewrite <- (map_id fs) at 2. apply map_ext_in.
    intros [m ty v] Hp%list_elem_of_In. rewrite Forall_forall in IH. f_equal. by apply (IH _ Hp).
  - f_equal. rewrite map_map. rewrite <- (map_id es) at 2. apply map_ext_in.
    intros e He%list_elem_of_In. rewrite Forall_forall in IH. by apply IH.
Qed.

Definition abi_type_eq_dec : EqDecision AbiType := decoded_eq_dec type_enc type_dec type_dec_enc.
#[local] Existing Instance abi_type_eq_dec.
#[local] Instance abi_type_countable : Countable AbiType := inj_countable' type_enc type_dec type_dec_enc.

Definition parameter_tuple (p : AbiParameter) : string * AbiType * option string :=
  let 'MkAbiParameter n ty v := p in (n, ty, v).
Definition tuple_parameter : string * AbiType * option string → AbiParameter :=
  λ '(n, ty, v), MkAbiParameter n ty v.
Lemma tuple_parameter_tuple p : tuple_parameter (parameter_tuple p) = p.
Proof. by destruct p. Qed.
Definition parameter_eq_dec : EqDecision AbiParameter :=
  decoded_eq_dec parameter_tuple tuple_parameter tuple_parameter_tuple.
#[local] Existing Instance parameter_eq_dec.
#[local] Instance parameter_countable : Countable AbiParameter :=
  inj_countable' parameter_tuple tuple_parameter tuple_parameter_tuple.

Definition type_number (ft : FunctionType) : Z := match ft with Private => 0 | Public => 1 | Utility => 2 end.
Definition number_type (n : Z) : FunctionType :=
  if n =? 0 then Private else if n =? 1 then Public else Utility.

Definition example_function := FunctionArtifact concrete_fr concrete_json.
Definition example_artifact := ContractArtifact concrete_fr concrete_json.

(** Pairs are nested evenly: the encoding of a pair doubles the longer half. *)
Definition function_tuple (f : example_function) :=
  ((((fa_name f, type_number (function_type f)), (is_initializer f, fa_is_static f)),
    ((is_only_self f, fa_selector f), (bytecode f, verification_key_hash f))),
   (((verification_key f, custom_attributes f), (is_unconstrained f, debug_symbols f : option jvalue)),
    ((parameters f, return_types f), error_types f : option jvalue))).
Definition tuple_function : _ → example_function :=
  λ '((((a, b), (c, d)), ((e, i), (j, k))), (((l, m), (n, o)), ((f, g), h))),
    @Build_FunctionArtifact concrete_fr concrete_json a (number_type b) c d e f g h i j k l m n o.
Lemma tuple_function_tuple f : tuple_function (function_tuple f) = f.
Proof. by destruct f as [? []]. Qed.
Definition function_eq_dec : EqDecision example_function :=
  decoded_eq_dec function_tuple tuple_function tuple_function_tuple.
#[local] Existing Instance function_eq_dec.
#[local] Instance function_countable : Countable example_function :=
  inj_countable' function_tuple tuple_function tuple_function_tuple.

Definition artifact_tuple (a : example_artifact) :=
  (functions a, ((art_name a, outputs a : option jvalue),
                 (file_map a : option jvalue, map_to_list <$> context_inputs_sizes a))).
Definition tuple_artifact : _ → example_artifact :=
  λ '(b, ((a, c), (d, e))), @Build_ContractArtifact concrete_fr concrete_json a b c d (list_to_map <$> e).
Lemma tuple_artifact_tuple a : tuple_artifact (artifact_tuple a) = a.
Proof.
  destruct a as [? ? ? ? [m|]]; [|done]. unfold tuple_artifact, artifact_tuple. simpl.
  by rewrite list_to_map_to_list.
Qed.

Definition point_tuple (p : Point) := (pt_x p, pt_y p, pt_is_infinite p).
Definition keys_tuple (k : PublicKeys) :=
  ((point_tuple (master_nullifier_public_key k), point_tuple (master_incoming_viewing_public_key k)),
   (point_tuple (master_outgoing_viewing_public_key k), point_tuple (master_tagging_public_key k))).
Definition tuple_point : Fr * Fr * bool → Point := λ '(x, y, i), {| pt_x := x; pt_y := y; pt_is_infinite := i |}.
Definition tuple_keys : _ → PublicKeys := λ '((a, b), (c, d)),
  Build_PublicKeys (tuple_point a) (tuple_point b) (tuple_point c) (tuple_point d).
Lemma tuple_keys_tuple k : tuple_keys (keys_tuple k) = k.
Proof. by destruct k as [[] [] [] []]. Qed.

Definition instance_tuple (i : ContractInstanceWithAddress) :=
  let c := instance_inner i in
  (keys_tuple (ci_public_keys c),
   (((instance_address i, ci_version c), (ci_salt c, ci_deployer c)),
    ((ci_current_contract_class_id c, ci_original_contract_class_id c), ci_initialization_hash c))).
Definition tuple_instance : _ → ContractInstanceWithAddress := λ '(k, (((a, b), (c, d)), ((e, f), g))),
  Build_ContractInstanceWithAddress a (Build_ContractInstance b c d e f g (tuple_keys k)).
Lemma tuple_instance_tuple i : tuple_instance (instance_tuple i) = i.
Proof. by destruct i as [a [b c d e f g [[] [] [] []]]]. Qed.

Definition complete_tuple (c : CompleteAddress) :=
  (ca_address c, keys_tuple (ca_public_keys c), ca_partial_address c).
Definition tuple_complete : _ → CompleteAddress := λ '(a, k, p),
  Build_CompleteAddress a (tuple_keys k) p.
Lemma tuple_complete_tuple c : tuple_complete (complete_tuple c) = c.
Proof. by destruct c as [a [[] [] [] []] p]. Qed.

Definition stored_note_tuple (n : StoredNote) :=
  ((((sn_contract_address n, sn_owner n), (sn_storage_slot n, sn_randomness n)),
    ((sn_note_nonce n, sn_note_hash n), (sn_siloed_nullifier n, sn_note_data n))),
   (((sn_nullified n, sn_is_pending n), (sn_nullification_block_number n, sn_leaf_index n)),
    ((sn_block_number n, sn_tx_index_in_block n), (sn_note_index_in_tx n, sn_scopes n)))).
Definition tuple_stored_note : _ → StoredNote :=
  λ '((((a, b), (c, d)), ((e, f), (g, h))), (((i, j), (k, l)), ((m, n), (o, p)))),
    Build_StoredNote a b c d e f g h i j k l m n o p.
Lemma tuple_stored_note_tuple n : tuple_stored_note (stored_note_tuple n) = n.
Proof. by destruct n. Qed.

Definition tag_tuple (e : PendingTagIndex) := (pt_index e, pt_tx_hash e).
Definition tuple_tag : Z * TxHash → PendingTagIndex := λ '(i, h), Build_PendingTagIndex i h.
Lemma tuple_tag_tuple e : tuple_tag (tag_tuple e) = e.
Proof. by destruct e. Qed.
#[local] Instance tag_eq_dec : EqDecision PendingTagIndex := decoded_eq_dec tag_tuple tuple_tag tuple_tag_tuple.
#[local] Instance tag_countable : Countable PendingTagIndex :=
  inj_countable' tag_tuple tuple_tag tuple_tag_tuple.

#[local] Instance example_artifact_serde : SerdeJson (ContractArtifact concrete_fr concrete_json) :=
  encoded_serde artifact_tuple tuple_artifact tuple_artifact_tuple.
#[local] Instance example_instance_serde : SerdeJson ContractInstanceWithAddress :=
  encoded_serde instance_tuple tuple_instance tuple_instance_tuple.
#[local] Instance example_complete_serde : SerdeJson CompleteAddress :=
  encoded_serde complete_tuple tuple_complete tuple_complete_tuple.
#[local] Instance example_note_serde : SerdeJson StoredNote :=
  encoded_serde stored_note_tuple tuple_stored_note tuple_stored_note_tuple.
#[local] Instance example_strings_serde : SerdeJson (list string) := countable_serde _.
#[local] Instance example_fields_serde : SerdeJson (list Fr) := countable_serde _.
#[local] Instance example_arrays_serde : SerdeJson (list (list Fr)) := countable_serde _.
#[local] Instance example_u64_serde : SerdeJson Z := countable_serde _.
#[local] Instance example_tags_serde : SerdeJson (list PendingTagIndex) := countable_serde _.

(** ** A machine whose opcodes are bytes

    0 is a round of work, 1 a nested call, 2 a new note, 3 a new nullifier, all read from
    the first witnesses; anything else fails.  A program is one circuit, without
    compression. *)

Record byte_machine := { bm_rest : list byte; bm_witness : list (Z * string) }.

Definition bm_input (m : byte_machine) (i : Z) : ForeignCallParam string :=
  Single (default EmptyString (bt_get i (bm_witness m))).

Definition bm_call (opcode : Z) : option (string * list Z) :=
  if opcode =? 1 then Some ("privateCallPrivateFunction"%string, seqZ 0 4)
  else if opcode =? 2 then Some ("privateNotifyCreatedNote"%string, seqZ 0 6)
  else if opcode =? 3 then Some ("privateNotifyCreatedNullifier"%string, seqZ 0 1)
  else None.

Definition bm_solve (m : byte_machine) : byte_machine * ACVMStatus string :=
  match bm_rest m with
  | [] => (m, Solved)
  | b :: rest =>
      let m' := {| bm_rest := rest; bm_witness := bm_witness m |} in
      if byte_Z b =? 0 then (m', InProgress)
      else match bm_call (byte_Z b) with
           | Some (function, inputs) => (m', RequiresForeignCall function (bm_input m <$> inputs))
           | None => (m', Failure (OtherFailure "unknown opcode"))
           end
  end.

#[local] Instance example_acvm : AcvmCrate := {|
  Program := list byte; Circuit := list byte; ACVM := byte_machine;
  deserialize_program := inr; gzip bytes := bytes; program_functions p := [p];
  circuit_return_values _ := []; acvm_new _ c w := {| bm_rest := c; bm_witness := w |};
  acvm_solve := bm_solve; resolve_pending_foreign_call m _ := m;
  resolve_pending_acir_call m _ := m; acvm_finalize m := bm_witness m |}.

(** ** A node that refuses *)

Definition node_refuses {A : Type} : M InMemoryKvStore A := λ w, (w, Err (Transport "refused")).

#[local] Instance refusing_node : AztecNode InMemoryKvStore := {|
  get_node_info := node_refuses; get_block_number := node_refuses;
  get_proven_block_number := node_refuses; get_tx_receipt _ := node_refuses;
  get_public_logs _ := node_refuses; send_tx _ := node_refuses; get_contract _ := node_refuses;
  get_contract_class _ := node_refuses; get_block_header n := node_refuses;
  get_block _ := node_refuses; get_note_hash_membership_witness _ _ := node_refuses;
  get_nullifier_membership_witness _ _ := node_refuses;
  get_low_nullifier_membership_witness _ _ := node_refuses;
  get_public_storage_at _ _ _ := node_refuses; get_public_storage_at_by_hash _ _ _ := node_refuses;
  get_public_data_witness _ _ := node_refuses; get_public_data_witness_by_hash _ _ := node_refuses;
  get_l1_to_l2_message_membership_witness _ _ := node_refuses;
  get_l1_to_l2_message_checkpoint _ := node_refuses; simulate_public_calls _ _ := node_refuses;
  is_valid_tx _ := node_refuses; get_private_logs_by_tags _ := node_refuses;
  get_public_logs_by_tags_from_contract _ _ := node_refuses;
  register_contract_function_signatures _ := node_refuses; get_tx_effect _ := node_refuses;
  get_block_hash_membership_witness _ _ := node_refuses; find_leaves_indexes _ _ _ := node_refuses;
  get_tx_by_hash _ := node_refuses |}.

#[local] Instance example_random : RandCrate InMemoryKvStore := {| rand_fr s := (s, Ok Fr_one) |}.

(** ** JSON values as they are built *)

Fixpoint tree_value (t : JsonTree) : jvalue :=
  match t with
  | TNull => JNull
  | TBool b => JBool b
  | TNumber n => JString n
  | TString s => JString s
  | TArray l => JArray (tree_value <$> l)
  | TObject m => JObject ((λ kv, (kv.1, tree_value kv.2)) <$> m)
  end.
#[local] Instance example_json_make : JsonMake := {| json_of := tree_value |}.

Module Instances.
#[export] Existing Instance example_json_make.
#[export] Existing Instance example_artifact_serde.
#[export] Existing Instance example_instance_serde.
#[export] Existing Instance example_complete_serde.
#[export] Existing Instance example_note_serde.
#[export] Existing Instance example_strings_serde.
#[export] Existing Instance example_fields_serde.
#[export] Existing Instance example_arrays_serde.
#[export] Existing Instance example_u64_serde.
#[export] Existing Instance example_tags_serde.
#[export] Existing Instance example_acvm.
#[export] Existing Instance refusing_node.
#[export] Existing Instance example_random.
End Instances.

(** ** A contract with one function *)

Definition one_function (code : string) : example_function :=
  {| fa_name := "run"; function_type := Private; is_initializer := false; fa_is_static := false;
     is_only_self := None; parameters := []; return_types := []; error_types := None;
     fa_selector := Some [Z_byte 0; Z_byte 0; Z_byte 0; Z_byte 7]; bytecode := Some code;
     verification_key_hash := None; verification_key := None; custom_attributes := None;
     is_unconstrained := None; debug_symbols := None |}.

Definition one_artifact (code : string) : example_artifact :=
  {| art_name := "Example"; functions := [one_function code]; outputs := None; file_map := None;
     context_inputs_sizes := None |}.

Definition example_keys : PublicKeys :=
  {| master_nullifier_public_key := Point_default;
     master_incoming_viewing_public_key := Point_default;
     master_outgoing_viewing_public_key := Point_default;
     master_tagging_public_key := Point_default |}.

Definition example_instance (address class_id : Fr) : ContractInstanceWithAddress :=
  {| instance_address := address;
     instance_inner := {| ci_version := 1; ci_salt := Fr_zero; ci_deployer := Fr_zero;
                          ci_current_contract_class_id := class_id;
                          ci_original_contract_class_id := class_id;
                          ci_initialization_hash := Fr_zero; ci_public_keys := example_keys |} |}.
