(* ===== verification/Oracle.v ===== *)
(** [crates/pxe/src/execution/oracle.rs]: the oracle of a private execution, which answers
    the foreign calls of a circuit from the local stores and the node and collects the
    side effects, those of nested private calls included. *)

From Stdlib Require Import Ascii String.
From coqutil Require Import Datatypes.RecordSetters.
From S2P Require Import Prelude Bytes Ordered Deps Concrete Types Constants Poseidon Grumpkin Crypto AbiTypes KernelTypes Tx Hash Deploy Kv Simulated Rpc Node LocalStores TaggingStores NoteStore PickNotes AcvmExecutor Entrypoint OracleCommon TaggingSecret.
Import DoubleBraceUpdate.

(** ** State *)

Section state.
Context {FR : PrimeField fr_modulus} {HX : HexCrate} {AC : AcirCrate} {JS : JsonCrate}.

(** The stores and the node are in the world.  Counters are [u32]. *)
Record PrivateExecutionOracle := {
  po_block_header : json_value;
  po_contract_address : AztecAddress;
  protocol_nullifier : Fr;
  execution_cache : gmap Fr (list Fr);
  auth_witnesses : list (Fr * list Fr);
  sender_for_tags : option AztecAddress;
  po_scopes : list AztecAddress;
  call_is_static : bool;
  side_effect_counter : Z;
  new_notes : list NoteAndSlot;
  note_hashes : list ScopedNoteHash;
  nullifiers : list ScopedNullifier;
  note_hash_nullifier_counter_map : gmap Z Z;
  consumed_db_nullifiers : gset Fr;
  private_logs : list PrivateLogData;
  contract_class_logs : list CountedContractClassLog;
  offchain_effects : list (list Fr);
  public_call_requests : list PublicCallRequestData;
  public_teardown_call_request : option PublicCallRequestData;
  note_hash_read_requests : list ScopedReadRequest;
  nullifier_read_requests : list ScopedReadRequest;
  min_revertible_side_effect_counter : Z;
  in_revertible_phase : bool;
  public_function_calldata : list HashedValues;
  nested_results : list PrivateCallExecutionResult;
  context_witness_prefix : list Fr;
  capsules : list Capsule;
}.

Definition PrivateExecutionOracle_new (block_header : json_value) (contract_address : AztecAddress)
    (nullifier : Fr) (sender : option AztecAddress) (scopes : list AztecAddress) (is_static : bool)
    : PrivateExecutionOracle :=
  {| po_block_header := block_header; po_contract_address := contract_address;
     protocol_nullifier := nullifier; execution_cache := ∅; auth_witnesses := [];
     sender_for_tags := sender; po_scopes := scopes; call_is_static := is_static;
     side_effect_counter := 0; new_notes := []; note_hashes := []; nullifiers := [];
     note_hash_nullifier_counter_map := ∅; consumed_db_nullifiers := ∅; private_logs := [];
     contract_class_logs := []; offchain_effects := []; public_call_requests := [];
     public_teardown_call_request := None; note_hash_read_requests := [];
     nullifier_read_requests := []; min_revertible_side_effect_counter := 0;
     in_revertible_phase := false; public_function_calldata := []; nested_results := [];
     context_witness_prefix := []; capsules := [] |}.

Definition set_auth_witnesses (witnesses : list (Fr * list Fr)) (self : PrivateExecutionOracle)
    : PrivateExecutionOracle := self {{ auth_witnesses := witnesses }}.

Definition set_capsules (caps : list Capsule) (self : PrivateExecutionOracle)
    : PrivateExecutionOracle := self {{ capsules := caps }}.

Definition seed_execution_cache (hashed_values : list HashedValues) (self : PrivateExecutionOracle)
    : PrivateExecutionOracle :=
  self {{ execution_cache := foldl (λ cache hv, <[hv_hash hv := hv_values hv]> cache)
                               (execution_cache self) hashed_values }}.

Definition take_public_call_requests (self : PrivateExecutionOracle)
    : PrivateExecutionOracle * list PublicCallRequestData :=
  (self {{ public_call_requests := [] }}, public_call_requests self).

Definition take_public_function_calldata (self : PrivateExecutionOracle)
    : PrivateExecutionOracle * list HashedValues :=
  (self {{ public_function_calldata := [] }}, public_function_calldata self).

Definition take_teardown_call_request (self : PrivateExecutionOracle)
    : PrivateExecutionOracle * option PublicCallRequestData :=
  (self {{ public_teardown_call_request := None }}, public_teardown_call_request self).

(** [self.side_effect_counter += 1]. *)
Definition bump (self : PrivateExecutionOracle) : PrivateExecutionOracle :=
  self {{ side_effect_counter := wrap 32 (side_effect_counter self + 1) }}.

(** The counter of the circuit, or the next one of the oracle. *)
Definition counter_or_next (given : option Z) (self : PrivateExecutionOracle)
    : PrivateExecutionOracle * Z :=
  match given with
  | Some counter => (self, counter)
  | None => (bump self, side_effect_counter (bump self))
  end.

(** ** Effects read from a witness *)

Definition PCPI_LENGTH : Z := 870.
Definition NOTE_HASHES_OFFSET : nat := 454.
Definition NOTE_HASH_LEN : nat := 2.
Definition MAX_NOTE_HASHES : nat := 16.
Definition NULLIFIERS_OFFSET : nat := 487.
Definition NULLIFIER_LEN : nat := 3.
Definition MAX_NULLIFIERS : nat := 16.
Definition PRIVATE_LOGS_OFFSET : nat := 561.
Definition PRIVATE_LOG_DATA_LEN : nat := 19.
Definition PRIVATE_LOG_FIELDS : nat := 16.
Definition MAX_LOGS : nat := 16.

(** The used entries of an array of [max] entries of [len] fields, whose last field counts
    them. *)
Definition witness_entries (pcpi : list Fr) (offset len max : nat) : list (list Fr) :=
  let slice := take (max * len + 1) (drop offset pcpi) in
  let count := Z.to_nat (Z.min (Fr_to_usize (default Fr_zero (slice !! (max * len)%nat))) (Z.of_nat max)) in
  (λ i, take len (drop (i * len) slice)) <$> seq 0 count.

Definition entry_field (entry : list Fr) (i : nat) : Fr := default Fr_zero (entry !! i).
Definition entry_u32 (entry : list Fr) (i : nat) : Z := wrap 32 (Fr_to_usize (entry_field entry i)).

Definition note_hash_entry (contract_address : AztecAddress) (e : list Fr) : option ScopedNoteHash :=
  if decide (entry_field e 0 = Fr_zero) then None
  else Some {| snh_note_hash := {| nh_value := entry_field e 0; nh_counter := entry_u32 e 1 |};
               snh_contract_address := contract_address |}.

Definition nullifier_entry (contract_address : AztecAddress) (e : list Fr) : option ScopedNullifier :=
  if decide (entry_field e 0 = Fr_zero) then None
  else Some {| snf_nullifier := {| nf_value := entry_field e 0; nf_note_hash := entry_field e 1;
                                   nf_counter := entry_u32 e 2 |};
               snf_contract_address := contract_address |}.

Definition private_log_entry (contract_address : AztecAddress) (e : list Fr) : option PrivateLogData :=
  if entry_u32 e 16 =? 0 then None
  else Some {| pld_fields := take PRIVATE_LOG_FIELDS e; pld_emitted_length := entry_u32 e 16;
               pld_note_hash_counter := entry_u32 e 17; pld_counter := entry_u32 e 18;
               pld_contract_address := contract_address |}.

Definition extract_side_effects_from_witness (witness : list (Z * fe)) (params_size : Z)
    (contract_address : AztecAddress)
    : list ScopedNoteHash * list ScopedNullifier * list PrivateLogData :=
  let pcpi := (λ i, default Fr_zero
      (fe_to_fr <$> bt_get (wrap 32 (wrap 64 (params_size + i))) witness)) <$> seqZ 0 PCPI_LENGTH in
  (omap (note_hash_entry contract_address)
     (witness_entries pcpi NOTE_HASHES_OFFSET NOTE_HASH_LEN MAX_NOTE_HASHES),
   omap (nullifier_entry contract_address)
     (witness_entries pcpi NULLIFIERS_OFFSET NULLIFIER_LEN MAX_NULLIFIERS),
   omap (private_log_entry contract_address)
     (witness_entries pcpi PRIVATE_LOGS_OFFSET PRIVATE_LOG_DATA_LEN MAX_LOGS)).

(** [find(..)] and replace, or push. *)
Fixpoint merge_log (log : PrivateLogData) (merged : list PrivateLogData) : list PrivateLogData :=
  match merged with
  | [] => [log]
  | existing :: merged' =>
      if pld_counter existing =? pld_counter log then log :: merged'
      else existing :: merge_log log merged'
  end.

Definition merge_nested_private_logs (nested_logs circuit_logs : list PrivateLogData)
    : list PrivateLogData :=
  foldl (λ merged log, merge_log log merged) nested_logs circuit_logs.
End state.

(** ** Handlers *)

Section handlers.
Context {W : Type} {FR : PrimeField fr_modulus} {FQ : PrimeField fq_modulus} {HX : HexCrate}.
Context {AC : AcirCrate} {P2 : Poseidon2Crate} {HC : HashCrates} {AG : GrumpkinCrate} {SQ : SqrtField}.
Context {B64 : Base64Crate} `{JT : JsonText} `{KV : KvStore W} `{AN : !AztecNode W} `{RW : !RandCrate W}.
Context {SN : SerdeJson StoredNote} {SL : SerdeJson (list string)}.
Context {SI : SerdeJson ContractInstanceWithAddress} {SA : SerdeJson (ContractArtifact FR JS)}.
Context {SC : SerdeJson CompleteAddress} {SK : SerdeJson (list (list Fr))}.
Context {SZ : SerdeJson Z} {SP : SerdeJson (list PendingTagIndex)}.
Notation O := PrivateExecutionOracle.
Notation args_t := (list (list Fr)).

Definition get_self : M (W * O) O := λ s, (s, Ok s.2).
Definition update (f : O → O) : M (W * O) () := in_snd (λ self, (f self, ())).

Definition ensure_mutable_context : M (W * O) () :=
  let! self := get_self in
  if call_is_static self then mlift (Err (InvalidData "Static call cannot update the state")) else mok ().

(** *** Protocol contracts *)

(** The result of a nested call that a handler answers without running a circuit. *)
Definition protocol_result (self : O) (target_address : AztecAddress) (selector : FunctionSelector)
    (start end_ : Z) : PrivateCallExecutionResult :=
  {| ce_acir := []; ce_vk := []; ce_partial_witness := []; ce_contract_address := target_address;
     ce_call_context := {| cc_msg_sender := po_contract_address self;
                           cc_contract_address := target_address;
                           cc_function_selector := FunctionSelector_to_field selector;
                           cc_is_static_call := false |};
     ce_return_values := []; ce_public_inputs_fields := []; ce_new_notes := [];
     ce_note_hash_nullifier_counter_map := ∅; ce_offchain_effects := []; ce_pre_tags := [];
     ce_nested_execution_results := []; ce_contract_class_logs := []; ce_note_hashes := [];
     ce_nullifiers := []; ce_note_hash_read_requests := []; ce_nullifier_read_requests := [];
     ce_private_logs := []; ce_public_call_requests := []; ce_public_teardown_call_request := None;
     ce_start_side_effect_counter := start; ce_end_side_effect_counter := end_;
     ce_min_revertible_side_effect_counter := start |}.

(** [u32::saturating_add(1)]. *)
Definition saturating_succ (n : Z) : Z := Z.min (n + 1) (2 ^ 32 - 1).

Definition emitted_nullifier (value : Fr) (counter : Z) (contract : AztecAddress) : ScopedNullifier :=
  {| snf_nullifier := {| nf_value := value; nf_note_hash := Fr_zero; nf_counter := counter |};
     snf_contract_address := contract |}.

(** What both protocol handlers end with. *)
Definition finish_protocol_call (target_address : AztecAddress) (selector : FunctionSelector)
    (start end_ : Z) : M (W * O) (option args_t) :=
  let returns_hash := compute_var_args_hash [] in
  update (λ self,
    self {{ side_effect_counter := Z.max (side_effect_counter self) end_;
            execution_cache := match execution_cache self !! returns_hash with
                               | Some _ => execution_cache self
                               | None => <[returns_hash := []]> (execution_cache self)
                               end;
            nested_results := nested_results self
                                ++ [protocol_result self target_address selector start end_] }}) ;;!
  mok (Some [[Fr_from_u64 end_; returns_hash]]).

Definition handle_nested_publish_class (target_address : AztecAddress) (selector : FunctionSelector)
    (encoded_args : list Fr) (circuit_side_effect_counter : Z) : M (W * O) (option args_t) :=
  match encoded_args with
  | artifact_hash :: private_functions_root :: public_bytecode_commitment :: _ =>
      let class_id := compute_contract_class_id artifact_hash private_functions_root
                        public_bytecode_commitment in
      let! self := get_self in
      let! slot := mlift contract_class_registry_bytecode_capsule_slot in
      let bytecode_fields := default [] (cap_data <$>
        List.find (λ capsule, bool_decide (cap_contract_address capsule
                                           = protocol_contract_address.contract_class_registry)
                              && bool_decide (cap_storage_slot capsule = slot)) (capsules self)) in
      let! magic := mlift contract_class_published_magic_value in
      let emitted_fields := [magic; class_id; Fr_from_u64 1; artifact_hash; private_functions_root]
                              ++ bytecode_fields in
      let nullifier_counter := circuit_side_effect_counter in
      let class_log_counter := saturating_succ nullifier_counter in
      let end_side_effect_counter := saturating_succ class_log_counter in
      update (λ self,
        self {{ nullifiers := nullifiers self
                                ++ [emitted_nullifier class_id nullifier_counter target_address];
                contract_class_logs := contract_class_logs self ++
                  [{| cccl_log := {| ccl_contract_address := target_address;
                                     ccl_fields := emitted_fields;
                                     ccl_emitted_length := wrap 32 (Z.of_nat (length emitted_fields)) |};
                      cccl_counter := class_log_counter |}] }}) ;;!
      finish_protocol_call target_address selector nullifier_counter end_side_effect_counter
  | _ => mlift (Err (InvalidData ("nested publish args too short: "
                                  +:+ pretty (length encoded_args))))
  end.

Definition arg (encoded_args : list Fr) (i : nat) : Fr := default Fr_zero (encoded_args !! i).

Definition arg_point (encoded_args : list Fr) (i : nat) : Point :=
  {| pt_x := arg encoded_args i; pt_y := arg encoded_args (i + 1);
     pt_is_infinite := bool_decide (arg encoded_args (i + 2) ≠ Fr_zero) |}.

Definition published_instance (encoded_args : list Fr) (origin : AztecAddress) : ContractInstance :=
  {| ci_version := 1; ci_salt := arg encoded_args 0;
     ci_deployer := if decide (arg encoded_args 15 = Fr_zero) then origin else AztecAddress_zero;
     ci_current_contract_class_id := arg encoded_args 1;
     ci_original_contract_class_id := arg encoded_args 1;
     ci_initialization_hash := arg encoded_args 2;
     ci_public_keys := {| master_nullifier_public_key := arg_point encoded_args 3;
                          master_incoming_viewing_public_key := arg_point encoded_args 6;
                          master_outgoing_viewing_public_key := arg_point encoded_args 9;
                          master_tagging_public_key := arg_point encoded_args 12 |} |}.

Definition instance_event (magic instance_address : Fr) (inner : ContractInstance) : list Fr :=
  [magic; instance_address; Fr_from_u64 1; ci_salt inner; ci_current_contract_class_id inner;
   ci_initialization_hash inner]
  ++ mjoin ((λ p, [pt_x p; pt_y p]) <$> public_key_list (ci_public_keys inner))
  ++ [ci_deployer inner].

Definition handle_nested_publish_instance (target_address : AztecAddress) (selector : FunctionSelector)
    (encoded_args : list Fr) (circuit_side_effect_counter : Z) : M (W * O) (option args_t) :=
  if (length encoded_args <? 16)%nat then
    mlift (Err (InvalidData ("nested publish_for_public_execution args too short: "
                             +:+ pretty (length encoded_args))))
  else
    let! self := get_self in
    let origin := default (po_contract_address self) (sender_for_tags self) in
    let inner := published_instance encoded_args origin in
    let! instance_address := mlift (compute_contract_address_from_instance inner) in
    let! magic := mlift contract_instance_published_magic_value in
    let nullifier_counter := circuit_side_effect_counter in
    let private_log_counter := saturating_succ nullifier_counter in
    let end_side_effect_counter := saturating_succ private_log_counter in
    update (λ self,
      self {{ nullifiers := nullifiers self
                              ++ [emitted_nullifier instance_address nullifier_counter target_address];
              private_logs := private_logs self ++
                [{| pld_fields := instance_event magic instance_address inner ++ [Fr_zero];
                    pld_emitted_length := 15; pld_note_hash_counter := 0;
                    pld_counter := private_log_counter; pld_contract_address := target_address |}] }}) ;;!
    finish_protocol_call target_address selector nullifier_counter end_side_effect_counter.

Definition publish_class_selector : FunctionSelector :=
  FunctionSelector_from_signature "publish(Field,Field,Field)".
Definition publish_instance_selector : FunctionSelector :=
  FunctionSelector_from_signature
    "publish_for_public_execution(Field,(Field),Field,(((Field,Field,bool)),((Field,Field,bool)),((Field,Field,bool)),((Field,Field,bool))),bool)".

Definition try_handle_protocol_nested_private_call (target_address : AztecAddress)
    (selector : FunctionSelector) (encoded_args : list Fr) (circuit_side_effect_counter : Z)
    (is_static : bool) : M (W * O) (option args_t) :=
  if is_static then mok None
  else if bool_decide (target_address = protocol_contract_address.contract_class_registry)
          && bool_decide (selector = publish_class_selector)
  then handle_nested_publish_class target_address selector encoded_args circuit_side_effect_counter
  else if bool_decide (target_address = protocol_contract_address.contract_instance_registry)
          && bool_decide (selector = publish_instance_selector)
  then handle_nested_publish_instance target_address selector encoded_args circuit_side_effect_counter
  else mok None.

(** *** Keys *)

(** Only the keys of the accounts in the scopes; no scopes at all deny nothing. *)
Definition get_secret_key (args : args_t) : M (W * O) args_t :=
  let! pk_m_hash := field_arg args 0 "getKeyValidationRequest: missing pk_m_hash" in
  let! self := get_self in
  let! allowed := if decide (po_scopes self = []) then mok true
                  else in_fst (key_in_scope pk_m_hash (po_scopes self)) in
  if allowed then in_fst (key_validation_answer pk_m_hash (po_contract_address self))
  else mlift (Err key_request_denied).

(** *** Notes *)

(** How many pending notes with this hash were nullified: the note hashes found by the
    counters of the map. *)
Definition nullified_count (self : O) (note_hash : Fr) : nat :=
  length (List.filter (λ nh_counter,
      match List.find (λ h, snh_counter h =? nh_counter) (note_hashes self) with
      | Some nh => bool_decide (nh_value (snh_note_hash nh) = note_hash)
      | None => false
      end) (elements (dom (note_hash_nullifier_counter_map self)))).

Definition stored_pending (pending : NoteAndSlot) : StoredNote :=
  {| sn_contract_address := ns_contract_address pending; sn_owner := ns_owner pending;
     sn_storage_slot := ns_storage_slot pending; sn_randomness := ns_randomness pending;
     sn_note_nonce := Fr_zero; sn_note_hash := ns_note_hash pending;
     sn_siloed_nullifier := Fr_zero; sn_note_data := ns_note_items pending; sn_nullified := false;
     sn_is_pending := true; sn_nullification_block_number := None; sn_leaf_index := None;
     sn_block_number := None; sn_tx_index_in_block := None; sn_note_index_in_tx := None;
     sn_scopes := [ns_owner pending] |}.

Definition matches_query (self : O) (storage_slot : Fr) (owner : option AztecAddress)
    (pending : NoteAndSlot) : bool :=
  bool_decide (ns_contract_address pending = po_contract_address self)
  && bool_decide (ns_storage_slot pending = storage_slot)
  && match owner with Some o => bool_decide (ns_owner pending = o) | None => true end.

(** The pending notes, less as many of each hash as were nullified; the map counts those
    that were left out. *)
Definition push_pending (self : O) (storage_slot : Fr) (owner : option AztecAddress)
    (acc : list StoredNote * gmap Fr nat) (pending : NoteAndSlot) : list StoredNote * gmap Fr nat :=
  let '(notes, consumed) := acc in
  if matches_query self storage_slot owner pending then
    let h := ns_note_hash pending in
    let already_consumed := default 0%nat (consumed !! h) in
    if (already_consumed <? nullified_count self h)%nat then (notes, <[h := S already_consumed]> consumed)
    else (notes ++ [stored_pending pending], consumed)
  else (notes, consumed).

Definition not_consumed (self : O) (n : StoredNote) : bool :=
  Fr_is_zero (sn_siloed_nullifier n) || bool_decide (sn_siloed_nullifier n ∉ consumed_db_nullifiers self).

Definition notes_query (self : O) (storage_slot : Fr) (owner : option AztecAddress) (status : NoteStatus)
    : NoteFilter :=
  {| nf_contract_address := Some (po_contract_address self); nf_storage_slot := Some storage_slot;
     nf_owner := owner; nf_status := status; nf_scopes := []; nf_siloed_nullifier := None |}.

(** The notes of the store that are not consumed, then the pending ones. *)
Definition gather_notes (self : O) (storage_slot : Fr) (owner : option AztecAddress)
    (stored : list StoredNote) : list StoredNote :=
  (foldl (push_pending self storage_slot owner) (List.filter (not_consumed self) stored, ∅)
     (new_notes self)).1.

Definition get_notes (args : args_t) : M (W * O) args_t :=
  let! self := get_self in
  let owner := owner_arg args in
  let! storage_slot := field_arg args 2 "getNotes: missing storage_slot" in
  let! status := mlift (note_status_from_field (field_or_zero args 15)) in
  let! notes := in_fst (get_notes (notes_query self storage_slot owner status)) in
  mlift (pick_and_pack args (gather_notes self storage_slot owner notes)).

Definition check_note_hash_exists (args : args_t) : M (W * O) args_t :=
  let! self := get_self in
  let! note_hash := field_arg args 0 "missing note_hash" in
  let! stored := in_fst (has_note (po_contract_address self) note_hash) in
  mok [[Fr_from_bool (stored || existsb (λ nh, bool_decide (nh_value (snh_note_hash nh) = note_hash))
                                  (note_hashes self))]].

Definition notify_created_note (args : args_t) : M (W * O) args_t :=
  ensure_mutable_context ;;!
  let! counter := in_snd (counter_or_next (u32_at args 6)) in
  update (λ self,
    self {{ new_notes := new_notes self ++
              [{| ns_contract_address := po_contract_address self; ns_owner := field_or_zero args 0;
                  ns_storage_slot := field_or_zero args 1; ns_randomness := field_or_zero args 2;
                  ns_note_type_id := field_or_zero args 3; ns_note_items := array_at args 4;
                  ns_note_hash := field_or_zero args 5; ns_counter := counter |}];
            note_hashes := note_hashes self ++
              [{| snh_note_hash := {| nh_value := field_or_zero args 5; nh_counter := counter |};
                  snh_contract_address := po_contract_address self |}] }}) ;;!
  mok [].

(** The first note hash with this value maps its counter to that of the nullifier. *)
Definition record_nullified (note_hash : Fr) (counter : Z) (self : O) : gmap Z Z :=
  if decide (note_hash = Fr_zero) then note_hash_nullifier_counter_map self
  else match List.find (λ nh, bool_decide (nh_value (snh_note_hash nh) = note_hash)) (note_hashes self) with
       | Some nh => <[snh_counter nh := counter]> (note_hash_nullifier_counter_map self)
       | None => note_hash_nullifier_counter_map self
       end.

Definition notify_nullified_note (args : args_t) : M (W * O) args_t :=
  ensure_mutable_context ;;!
  let inner_nullifier := field_or_zero args 0 in
  let note_hash := field_or_zero args 1 in
  let! counter := in_snd (counter_or_next (u32_at args 2)) in
  update (λ self,
    let siloed := silo_nullifier (po_contract_address self) inner_nullifier in
    self {{ consumed_db_nullifiers := {[siloed]} ∪ consumed_db_nullifiers self;
            nullifiers := nullifiers self ++
              [{| snf_nullifier := {| nf_value := inner_nullifier; nf_note_hash := note_hash;
                                      nf_counter := counter |};
                  snf_contract_address := po_contract_address self |}];
            note_hash_nullifier_counter_map := record_nullified note_hash counter self }}) ;;!
  mok [].

Definition notify_created_nullifier (args : args_t) : M (W * O) args_t :=
  ensure_mutable_context ;;!
  let! counter := in_snd (counter_or_next None) in
  update (λ self,
    self {{ nullifiers := nullifiers self
              ++ [emitted_nullifier (field_or_zero args 0) counter (po_contract_address self)] }}) ;;!
  mok [].

Definition has_nullifier (value : Fr) (self : O) : bool :=
  existsb (λ n, bool_decide (nf_value (snf_nullifier n) = value)) (nullifiers self).

Definition is_nullifier_pending (args : args_t) : M (W * O) args_t :=
  let! nullifier := field_arg args 0 "missing nullifier" in
  let! self := get_self in
  mok [[Fr_from_bool (has_nullifier nullifier self)]].

(** The pending nullifiers are compared with the siloed one. *)
Definition check_nullifier_exists (args : args_t) : M (W * O) args_t :=
  let! inner_nullifier := field_arg args 0 "missing nullifier" in
  let! self := get_self in
  let nullifier := silo_nullifier (po_contract_address self) inner_nullifier in
  if has_nullifier nullifier self then mok [[Fr_from_bool true]]
  else
    let! witness := in_fst (get_nullifier_membership_witness 0 nullifier) in
    mok [[Fr_from_bool (bool_decide (is_Some witness))]].

(** *** Capsules, logs and the execution cache *)

Definition get_capsule (args : args_t) : M (W * O) args_t :=
  let! contract_id := field_arg args 0 "missing capsule contract id" in
  let! capsule := in_fst (CapsuleStore.pop contract_id) in
  required capsule (InvalidData "no capsule available").

Definition emit_private_log (args : args_t) : M (W * O) args_t :=
  ensure_mutable_context ;;!
  let! counter := in_snd (counter_or_next None) in
  let fields := array_at args 0 in
  update (λ self,
    self {{ private_logs := private_logs self ++
              [{| pld_fields := fields; pld_emitted_length := wrap 32 (Z.of_nat (length fields));
                  pld_note_hash_counter := 0; pld_counter := counter;
                  pld_contract_address := po_contract_address self |}] }}) ;;!
  mok [].

Definition emit_contract_class_log (args : args_t) : M (W * O) args_t :=
  ensure_mutable_context ;;!
  let fields := array_at args 1 in
  let emitted_length := default (wrap 32 (Z.of_nat (length fields))) (u32_at args 2) in
  let! counter := in_snd (counter_or_next (u32_at args 3)) in
  update (λ self,
    self {{ contract_class_logs := contract_class_logs self ++
              [{| cccl_log := {| ccl_contract_address := field_or_zero args 0; ccl_fields := fields;
                                 ccl_emitted_length := emitted_length |};
                  cccl_counter := counter |}] }}) ;;!
  mok [].

Definition store_in_execution_cache (args : args_t) : M (W * O) args_t :=
  update (λ self, self {{ execution_cache :=
                            <[field_or_zero args 1 := array_at args 0]> (execution_cache self) }}) ;;!
  mok [].

Definition get_execution_cache_entry (hash : Fr) (self : O) : option (list Fr) :=
  execution_cache self !! hash.

Definition load_from_execution_cache (args : args_t) : M (W * O) args_t :=
  let! hash := field_arg args 0 "missing hash" in
  let! self := get_self in
  match execution_cache self !! hash with
  | Some values => mok [values]
  | None => mlift (Err (InvalidData "value not found in execution cache"))
  end.

Definition get_auth_witness (args : args_t) : M (W * O) args_t :=
  let! self := get_self in mlift (auth_witness (auth_witnesses self) args).

(** *** Public calls *)

(** The oracle's counter advances even when the circuit gives one. *)
Definition enqueue_public_function_call (is_teardown : bool) (args : args_t) : M (W * O) args_t :=
  let calldata_hash := field_or_zero args 1 in
  update bump ;;!
  update (λ self,
    let request :=
      {| pcd_contract_address := field_or_zero args 0; pcd_msg_sender := po_contract_address self;
         pcd_is_static_call := flag_at args 3; pcd_calldata_hash := calldata_hash;
         pcd_counter := default (side_effect_counter self) (u32_at args 2) |} in
    self {{ public_function_calldata :=
              match execution_cache self !! calldata_hash with
              | Some calldata => public_function_calldata self ++ [HashedValues_from_calldata calldata]
              | None => public_function_calldata self
              end;
            public_teardown_call_request :=
              if is_teardown then Some request else public_teardown_call_request self;
            public_call_requests :=
              if is_teardown then public_call_requests self else public_call_requests self ++ [request] }}) ;;!
  mok [].

(** *** The revertible phase *)

Definition revertible_twice (self : O) (counter : Z) : Error :=
  InvalidData ("cannot enter the revertible phase twice: previous "
    +:+ pretty (min_revertible_side_effect_counter self) +:+ ", new " +:+ pretty counter).

Definition set_min_revertible (args : args_t) : M (W * O) args_t :=
  match first_at args 0 with
  | Some counter =>
      let! self := get_self in
      if in_revertible_phase self then mlift (Err (revertible_twice self (Fr_to_usize counter)))
      else
        update (λ self, self {{ in_revertible_phase := true;
                                min_revertible_side_effect_counter := wrap 32 (Fr_to_usize counter) }}) ;;!
        mok []
  | None => mok []
  end.

Definition is_revertible (counter : Z) (self : O) : bool :=
  in_revertible_phase self && (min_revertible_side_effect_counter self <=? counter).

Definition is_side_effect_counter_revertible (args : args_t) : M (W * O) args_t :=
  let! self := get_self in
  mok [[Fr_from_bool (is_revertible (default 0 (u32_at args 0)) self)]].

(** *** Tagging *)

Definition get_sender_for_tags : M (W * O) args_t :=
  let! self := get_self in
  mok (match sender_for_tags self with
       | Some sender => [[Fr_one]; [sender]]
       | None => [[Fr_zero]; [Fr_zero]]
       end).

Definition set_sender_for_tags (args : args_t) : M (W * O) args_t :=
  let! sender := field_arg args 0 "missing sender_for_tags" in
  update (λ self, self {{ sender_for_tags := Some sender }}) ;;! mok [].

Definition get_next_app_tag_as_sender (args : args_t) : M (W * O) args_t :=
  let! sender := field_arg args 0 "missing sender" in
  let! recipient := field_arg args 1 "missing recipient" in
  let! self := get_self in
  let! found := in_fst (AddressStore.get sender) in
  let! sender_complete := required found
    (InvalidData ("sender " +:+ Fr_to_string sender +:+ " not in address store")) in
  let pk_hash := PublicKeys_hash (ca_public_keys sender_complete) in
  let! found := in_fst (KeyStore.get_master_incoming_viewing_secret_key pk_hash) in
  let! ivsk := required found
    (InvalidData ("ivsk not found for sender " +:+ Fr_to_string sender)) in
  let! secret := mlift (compute_directional_tagging_secret sender_complete ivsk recipient
                          (po_contract_address self) recipient) in
  let! index := in_fst (SenderTaggingStore.get_next_index secret) in
  mok [[poseidon2_hash [secret; Fr_from_u64 index]]].

(** *** Membership witnesses *)

(** [value.get(i)] on an array. *)
Definition element (v : json_value) (i : nat) : option json_value := json_as_array v ≫= λ l, l !! i.

Definition header_block_number (header : json_value) : Z :=
  default 0 (match json_pointer header "/globalVariables/blockNumber" ≫= json_as_u64 with
             | Some n => Some n
             | None => json_get header "blockNumber" ≫= json_as_u64
             end).

(** Hexadecimal first, then decimal. *)
Definition leaf_index_text (s : string) : option Fr :=
  match ok_opt (Fr_from_hex s) with
  | Some f => Some f
  | None => Fr_from_u64 <$> parse_u64 s
  end.

Definition l1_leaf_index (witness_json : json_value) : Fr :=
  default Fr_zero
    (match (element witness_json 0 ≫= json_as_str) ≫= leaf_index_text with
     | Some f => Some f
     | None => Fr_from_u64 <$> (element witness_json 0 ≫= json_as_u64)
     end).

Definition path_entry (node : json_value) : Fr :=
  default Fr_zero (json_as_str node ≫= λ s, ok_opt (Fr_from_hex s)).

(** The whole chunks of 32 bytes behind a four-byte count. *)
Definition decode_l1_path (b64 : string) : list Fr :=
  match base64_decode b64 with
  | inr bytes =>
      let data := if (4 <=? length bytes)%nat then drop 4 bytes else bytes in
      Fr_from_be <$> filter (λ chunk, length chunk = 32%nat) (chunks 32 data)
  | inl _ => []
  end.

Definition l1_sibling_path (witness_json : json_value) : list Fr :=
  let path := match element witness_json 1 ≫= json_as_array with
              | Some path_arr => path_entry <$> path_arr
              | None => default [] (decode_l1_path <$> (element witness_json 1 ≫= json_as_str))
              end in
  vec_resize (Z.to_nat L1_TO_L2_MSG_TREE_HEIGHT) Fr_zero path.

Definition get_l1_to_l2_membership_witness (args : args_t) : M (W * O) args_t :=
  let! msg_hash := field_arg args 1 "missing L1→L2 message hash" in
  let! self := get_self in
  let block_number := header_block_number (po_block_header self) in
  let! found := in_fst (get_l1_to_l2_message_membership_witness block_number msg_hash) in
  let! witness_json := required found
    (InvalidData ("L1→L2 message membership witness not found for " +:+ Fr_to_string msg_hash
                  +:+ " at block " +:+ pretty block_number)) in
  mok [[l1_leaf_index witness_json]; l1_sibling_path witness_json].

(** The witnesses that are asked for and not passed on. *)
Definition ask_note_hash_witness (args : args_t) : M (W * O) args_t :=
  let! note_hash := field_arg args 1 "missing note hash" in
  in_fst (get_note_hash_membership_witness 0 note_hash) ;;! mok [].

Definition ask_nullifier_witness (args : args_t) : M (W * O) args_t :=
  let! nullifier := field_arg args 1 "missing nullifier" in
  in_fst (get_nullifier_membership_witness 0 nullifier) ;;! mok [].

Definition ask_block_hash_witness (args : args_t) : M (W * O) args_t :=
  let! block_hash := field_arg args 1 "missing block hash" in
  in_fst (get_block_hash_membership_witness 0 block_hash) ;;! mok [].

Definition push_offchain_effect (args : args_t) : M (W * O) args_t :=
  update (λ self, self {{ offchain_effects := offchain_effects self ++ [array_at args 0] }}) ;;! mok [].

Definition random_field : M (W * O) args_t := let! f := in_fst Fr_random in mok [[f]].

Definition not_implemented (name : string) : M (W * O) args_t :=
  mlift (Err (InvalidData (name +:+ " not implemented"))).

(** *** The name of a call *)

(** A first character outside ASCII is left as it is: no handler starts with one. *)
Definition lower_first (s : string) : string :=
  match s with
  | String c s' => let b := byte_Z c in
                   String (if (65 <=? b) && (b <=? 90) then Z_byte (b + 32) else c) s'
  | EmptyString => s
  end.

Definition handler_name (first_prefix second_prefix name : string) : string :=
  let stripped := match strip_prefix first_prefix name with
                  | Some s => s
                  | None => default name (strip_prefix second_prefix name)
                  end in
  match stripped with EmptyString => name | _ => lower_first stripped end.

(** The arms of the match, with the names of each. *)
Definition local_handlers (args : args_t) : list (list string * M (W * O) args_t) :=
  [(["getSecretKey"; "getKeyValidationRequest"], get_secret_key args);
   (["getPublicKeysAndPartialAddress"; "tryGetPublicKeysAndPartialAddress"],
     in_fst (public_keys_and_partial_address args));
   (["getNotes"], get_notes args);
   (["checkNoteHashExists"], check_note_hash_exists args);
   (["notifyCreatedNote"; "emitNote"], notify_created_note args);
   (["notifyNullifiedNote"], notify_nullified_note args);
   (["notifyCreatedNullifier"; "emitNullifier"], notify_created_nullifier args);
   (["isNullifierPending"], is_nullifier_pending args);
   (["getPublicStorageAt"; "storageRead"], in_fst (public_storage_at args));
   (["getContractInstance"], in_fst (contract_instance_at args));
   (["getCapsule"; "loadCapsule"], get_capsule args);
   (["storeCapsule"; "getBlockHeader"], mok []);
   (["emitPrivateLog"; "emitEncryptedLog"], emit_private_log args);
   (["notifyCreatedContractClassLog"], emit_contract_class_log args);
   (["storeInExecutionCache"], store_in_execution_cache args);
   (["loadFromExecutionCache"], load_from_execution_cache args);
   (["getAuthWitness"], get_auth_witness args);
   (["notifyEnqueuedPublicFunctionCall"; "enqueuePublicFunctionCall"],
     enqueue_public_function_call false args);
   (["notifySetPublicTeardownFunctionCall"], enqueue_public_function_call true args);
   (["notifySetMinRevertibleSideEffectCounter"], set_min_revertible args);
   (["isSideEffectCounterRevertible"], is_side_effect_counter_revertible args);
   (["getSenderForTags"], get_sender_for_tags);
   (["setSenderForTags"], set_sender_for_tags args);
   (["getNextAppTagAsSender"], get_next_app_tag_as_sender args);
   (["getRandomField"], random_field);
   (["assertCompatibleOracleVersion"; "log"; "getUtilityContext"], mok []);
   (["aes128Decrypt"], not_implemented "aes128Decrypt");
   (["getSharedSecret"], not_implemented "getSharedSecret");
   (["emitOffchainEffect"], push_offchain_effect args);
   (["getNoteHashMembershipWitness"], ask_note_hash_witness args);
   (["getNullifierMembershipWitness"], ask_nullifier_witness args);
   (["getPublicDataWitness"], in_fst (public_data_witness args));
   (["getBlockHashMembershipWitness"], ask_block_hash_witness args);
   (["getL1ToL2MembershipWitness"; "utilityGetL1ToL2MembershipWitness"],
     get_l1_to_l2_membership_witness args);
   (["fetchTaggedLogs"; "bulkRetrieveLogs"; "validateAndStoreEnqueuedNotesAndEvents"], mok []);
   (["checkNullifierExists"], check_nullifier_exists args)].

Definition find_handler {A : Type} (handler : string) (table : list (list string * A)) : option A :=
  snd <$> List.find (λ e, bool_decide (handler ∈ e.1)) table.

Definition unsupported_oracle_call (name handler : string) : Error :=
  InvalidData ("unsupported oracle call: '" +:+ name +:+ "' (handler: '" +:+ handler
               +:+ "'). All production oracle calls must be implemented.").

(** *** Nested private calls *)

Context {AV : AcvmCrate}.

(** The arguments of a nested call. *)
Record NestedCall := {
  target_address : AztecAddress;
  selector_field : Fr;
  args_hash : Fr;
  circuit_side_effect_counter : Z;
  is_static : bool;
}.

Definition nested_call_args (args : args_t) (self : O) : Outcome NestedCall :=
  let? target := ok_or (first_at args 0) (InvalidData "missing target address") in
  let? selector := ok_or (first_at args 1) (InvalidData "missing function selector") in
  let? hash := ok_or (first_at args 2) (InvalidData "missing args hash") in
  Ok {| target_address := target; selector_field := selector; args_hash := hash;
        circuit_side_effect_counter := default (side_effect_counter self) (u32_at args 3);
        is_static := flag_at args 4 |}.

Definition nested_error (what : string) (target : AztecAddress) : Error :=
  InvalidData ("nested call: " +:+ what +:+ Fr_to_string target).

(** The artifact and the function a call names. *)
Definition find_nested_function (call : NestedCall)
    : M W (ContractArtifact FR JS * FunctionArtifact FR JS) :=
  let selector := FunctionSelector_from_field (selector_field call) in
  let! found := ContractStore.get_instance (target_address call) in
  let! instance := required found (nested_error "contract not found: " (target_address call)) in
  let! found := ContractStore.get_artifact (ci_current_contract_class_id (instance_inner instance)) in
  let! artifact := required found (nested_error "artifact not found for contract " (target_address call)) in
  let! function := required (find_function_by_selector artifact selector)
    (InvalidData ("nested call: function with selector " +:+ FunctionSelector_to_string selector
                  +:+ " not found in " +:+ Fr_to_string (target_address call))) in
  if fa_is_static function && negb (is_static call) then
    mlift (Err (InvalidData "can only be called statically"))
  else mok (artifact, function).

(** The inputs of the nested circuit: the call context, then the parent's header and
    transaction context and the counter where they fit, then the arguments. *)
Definition nested_witness (self : O) (call : NestedCall) (context_inputs_size : nat)
    (cached_args : list Fr) : list Fr :=
  let context := [po_contract_address self; target_address call; selector_field call;
                  Fr_from_bool (is_static call)] in
  let prefix := context_witness_prefix self in
  (if negb (bool_decide (prefix = [])) && (length prefix + 4 <=? context_inputs_size)%nat then
     vec_resize context_inputs_size Fr_zero
       (context ++ prefix ++ [Fr_from_u64 (circuit_side_effect_counter call)])
   else if (4 <=? context_inputs_size)%nat then vec_resize context_inputs_size Fr_zero context
   else replicate context_inputs_size Fr_zero) ++ cached_args.

(** The oracle of the nested call, which sees the state of its parent. *)
Definition nested_oracle (self : O) (call : NestedCall) : O :=
  (PrivateExecutionOracle_new (po_block_header self) (target_address call) (protocol_nullifier self)
     (sender_for_tags self) (po_scopes self) (is_static call))
  {{ execution_cache := execution_cache self; auth_witnesses := auth_witnesses self;
     side_effect_counter := circuit_side_effect_counter call;
     min_revertible_side_effect_counter := min_revertible_side_effect_counter self;
     in_revertible_phase := in_revertible_phase self;
     context_witness_prefix := context_witness_prefix self; capsules := capsules self;
     new_notes := new_notes self; note_hashes := note_hashes self; nullifiers := nullifiers self;
     note_hash_nullifier_counter_map := note_hash_nullifier_counter_map self;
     consumed_db_nullifiers := consumed_db_nullifiers self }}.

Definition PCPI_RETURNS_HASH_OFFSET : Z := 5.
Definition PCPI_START_SIDE_EFFECT_COUNTER_OFFSET : nat := 41.
Definition PCPI_END_SIDE_EFFECT_COUNTER_OFFSET : nat := 42.

(** What the parent reads from the witness of the nested call. *)
Record NestedOutcome := {
  no_public_inputs_fields : list Fr;
  no_start_counter : Z;
  no_end_counter : Z;
  no_returns_hash : Fr;
  no_note_hashes : list ScopedNoteHash;
  no_logs : list PrivateLogData;
}.

Definition read_nested_outcome (call : NestedCall) (output : AcvmExecutionOutput) (pcpi_start : Z)
    : NestedOutcome :=
  let fields := extract_public_inputs_fields (witness output) pcpi_start in
  let '(circuit_note_hashes, _, circuit_logs) :=
    extract_side_effects_from_witness (witness output) pcpi_start (target_address call) in
  {| no_public_inputs_fields := fields;
     no_start_counter := entry_u32 fields PCPI_START_SIDE_EFFECT_COUNTER_OFFSET;
     no_end_counter := entry_u32 fields PCPI_END_SIDE_EFFECT_COUNTER_OFFSET;
     no_returns_hash :=
       match bt_get (wrap 32 (wrap 64 (pcpi_start + PCPI_RETURNS_HASH_OFFSET))) (witness output) with
       | Some x => fe_to_fr x
       | None => compute_var_args_hash (return_values output)
       end;
     no_note_hashes := circuit_note_hashes; no_logs := circuit_logs |}.

(** What the nested oracle adds to what it inherited. *)
Definition own {A : Type} (inherited nested : list A) : list A := drop (length inherited) nested.

Definition own_map (self nested : O) : gmap Z Z :=
  filter (λ kv, kv.1 ∉ dom (note_hash_nullifier_counter_map self)) (note_hash_nullifier_counter_map nested).

Definition nested_call_result (self nested : O) (call : NestedCall) (output : AcvmExecutionOutput)
    (outcome : NestedOutcome) : PrivateCallExecutionResult :=
  {| ce_acir := acir_bytecode output; ce_vk := ao_verification_key output;
     ce_partial_witness := witness output; ce_contract_address := target_address call;
     ce_call_context := {| cc_msg_sender := po_contract_address self;
                           cc_contract_address := target_address call;
                           cc_function_selector := selector_field call;
                           cc_is_static_call := is_static call |};
     ce_return_values := if decide (first_acir_call_return_values output = [])
                         then return_values output else first_acir_call_return_values output;
     ce_public_inputs_fields := no_public_inputs_fields outcome;
     ce_new_notes := own (new_notes self) (new_notes nested);
     ce_note_hash_nullifier_counter_map := own_map self nested;
     ce_offchain_effects := offchain_effects nested; ce_pre_tags := [];
     ce_nested_execution_results := nested_results nested;
     ce_contract_class_logs := contract_class_logs nested;
     ce_note_hashes := own (note_hashes self) (note_hashes nested);
     ce_nullifiers := own (nullifiers self) (nullifiers nested);
     ce_note_hash_read_requests := note_hash_read_requests nested;
     ce_nullifier_read_requests := nullifier_read_requests nested;
     ce_private_logs := merge_nested_private_logs (private_logs nested) (no_logs outcome);
     ce_public_call_requests := public_call_requests nested;
     ce_public_teardown_call_request := public_teardown_call_request nested;
     ce_start_side_effect_counter := no_start_counter outcome;
     ce_end_side_effect_counter := no_end_counter outcome;
     ce_min_revertible_side_effect_counter := min_revertible_side_effect_counter nested |}.

(** The parent's cache gets the return values, then what the nested cache adds. *)
Definition merge_cache (self nested : O) (returns_hash : Fr) (values : list Fr) : gmap Fr (list Fr) :=
  let cache := execution_cache self in
  let cache := match cache !! returns_hash with
               | Some _ => cache
               | None => <[returns_hash := default values (execution_cache nested !! returns_hash)]> cache
               end in
  cache ∪ execution_cache nested.

Definition merge_nested (self nested : O) (call : NestedCall) (output : AcvmExecutionOutput)
    (outcome : NestedOutcome) : O :=
  let new_note_hashes := own (note_hashes self) (note_hashes nested) in
  self {{ execution_cache := merge_cache self nested (no_returns_hash outcome) (return_values output);
          nested_results := nested_results self ++ [nested_call_result self nested call output outcome];
          note_hashes := note_hashes self ++
            (if decide (new_note_hashes = []) then no_note_hashes outcome else new_note_hashes);
          nullifiers := nullifiers self ++ own (nullifiers self) (nullifiers nested);
          private_logs := private_logs self
            ++ merge_nested_private_logs (private_logs nested) (no_logs outcome);
          contract_class_logs := contract_class_logs self ++ contract_class_logs nested;
          new_notes := new_notes self ++ own (new_notes self) (new_notes nested);
          note_hash_read_requests := note_hash_read_requests self ++ note_hash_read_requests nested;
          nullifier_read_requests := nullifier_read_requests self ++ nullifier_read_requests nested;
          public_call_requests := public_call_requests self ++ public_call_requests nested;
          public_function_calldata := public_function_calldata self ++ public_function_calldata nested;
          offchain_effects := offchain_effects self ++ offchain_effects nested;
          note_hash_nullifier_counter_map :=
            own_map self nested ∪ note_hash_nullifier_counter_map self;
          public_teardown_call_request := match public_teardown_call_request nested with
                                          | Some request => Some request
                                          | None => public_teardown_call_request self
                                          end;
          consumed_db_nullifiers := consumed_db_nullifiers self ∪ consumed_db_nullifiers nested;
          side_effect_counter := no_end_counter outcome }}.

(** The way a nested circuit is run: an artifact, a function, a witness, and the state of
    the oracle that answers its calls. *)
Definition NestedExecutor : Type :=
  ContractArtifact FR JS → string → list Fr → M (W * O) (option AcvmExecutionOutput).

(** [m] beside another state: the final one is answered. *)
Definition run_with (nested : O) (m : M (W * O) (option AcvmExecutionOutput))
    : M W (option (AcvmExecutionOutput * O)) := λ w,
  let '((w', nested'), r) := m (w, nested) in
  (w', omap_ok (λ o, (λ output, (output, nested')) <$> o) r).

Definition call_private_function (execute : NestedExecutor) (args : args_t)
    : M (W * O) (option args_t) :=
  let! self := get_self in
  let! call := mlift (nested_call_args args self) in
  let cached_args := default [] (execution_cache self !! args_hash call) in
  let! handled := try_handle_protocol_nested_private_call (target_address call)
    (FunctionSelector_from_field (selector_field call)) cached_args (circuit_side_effect_counter call)
    (is_static call) in
  match handled with
  | Some result => mok (Some result)
  | None =>
      let! found := in_fst (find_nested_function call) in
      let '(artifact, function) := found in
      let size := private_context_inputs_size artifact (fa_name function) in
      mlift (vec_with_capacity 32 size) ;;!
      let full_witness := nested_witness self call (Z.to_nat size) cached_args in
      let?! ran := in_fst (run_with (nested_oracle self call)
                             (execute artifact (fa_name function) full_witness)) in
      let '(output, nested) := ran in
      let outcome := read_nested_outcome call output (size + Z.of_nat (length cached_args)) in
      update (λ self, merge_nested self nested call output outcome) ;;!
      mok (Some [[Fr_from_u64 (no_end_counter outcome); no_returns_hash outcome]])
  end.

(** A call by its name; each level of nesting uses one unit of fuel, which also bounds the
    rounds of each machine. *)
Fixpoint handle_foreign_call (fuel : nat) (name : string) (args : args_t)
    : M (W * O) (option args_t) :=
  match fuel with
  | 0%nat => mok None
  | Datatypes.S n =>
      let handler := handler_name "private" "utility" name in
      match find_handler handler (local_handlers args) with
      | Some m => let! result := m in mok (Some result)
      | None =>
          if String.eqb handler "callPrivateFunction"
          then call_private_function (execute_private (handle_foreign_call n) n) args
          else mlift (Err (unsupported_oracle_call name handler))
      end
  end.

(** ** The result of an execution *)

Definition build_execution_result (self : O) (acvm_output : AcvmExecutionOutput)
    (contract_address : AztecAddress) (expiration_timestamp : Z) : PrivateExecutionResult :=
  {| er_entrypoint :=
       {| ce_acir := acir_bytecode acvm_output; ce_vk := ao_verification_key acvm_output;
          ce_partial_witness := witness acvm_output; ce_contract_address := contract_address;
          ce_call_context := {| cc_msg_sender := AztecAddress_zero;
                                cc_contract_address := contract_address;
                                cc_function_selector := Fr_zero;
                                cc_is_static_call := call_is_static self |};
          ce_return_values := return_values acvm_output; ce_public_inputs_fields := [];
          ce_new_notes := new_notes self;
          ce_note_hash_nullifier_counter_map := note_hash_nullifier_counter_map self;
          ce_offchain_effects := offchain_effects self; ce_pre_tags := [];
          ce_nested_execution_results := nested_results self;
          ce_contract_class_logs := contract_class_logs self; ce_note_hashes := note_hashes self;
          ce_nullifiers := nullifiers self;
          ce_note_hash_read_requests := note_hash_read_requests self;
          ce_nullifier_read_requests := nullifier_read_requests self;
          ce_private_logs := private_logs self; ce_public_call_requests := public_call_requests self;
          ce_public_teardown_call_request := public_teardown_call_request self;
          ce_start_side_effect_counter := 0; ce_end_side_effect_counter := side_effect_counter self;
          ce_min_revertible_side_effect_counter := min_revertible_side_effect_counter self |};
     er_first_nullifier := protocol_nullifier self;
     er_expiration_timestamp := expiration_timestamp;
     er_public_function_calldata := public_function_calldata self |}.
End handlers.
