(* ===== verification/OracleSpec.v ===== *)
(** What the private execution oracle of Oracle.v guarantees: effects are only added, a
    static context adds none of its own, a nested call adds to its parent what its result
    reports, notes are gathered without those that are nullified, and running a call
    with enough fuel ends. *)

From Stdlib Require Import Ascii String.
From coqutil Require Import Datatypes.RecordSetters.
From S2P Require Import Prelude Bytes Ordered Deps Concrete Types Constants Poseidon Grumpkin Crypto AbiTypes KernelTypes Tx Hash Deploy Kv Simulated Rpc Node LocalStores TaggingStores NoteStore PickNotes AcvmExecutor ExecutorSpec Entrypoint OracleCommon TaggingSecret ExampleWorld Oracle.
Import DoubleBraceUpdate.

Lemma within_mtry {S A : Type} (R : S → S → Prop) (m : M S A) : within R m → within R (mtry m).
Proof. intros Hm s. specialize (Hm s). unfold mtry. by destruct (m s) as [s' [a|e|]]. Qed.

(** Taking a monadic term apart, one construct at a time. *)
Ltac within_step :=
  lazymatch goal with
  | |- within _ (mok _) => apply within_ok; exact _
  | |- within _ (mlift _) => apply within_lift; exact _
  | |- within _ (mthen _ _) => apply within_then; [exact _| |intros ?]
  | |- within _ (mthen_opt _ _) => apply within_then_opt; [exact _| |intros ?]
  | |- within _ (match ?x with _ => _ end) => destruct x eqn:?
  | |- within _ (required _ _) => unfold required
  | |- within _ (field_arg _ _ _) => unfold field_arg
  end.

Section effects.
Context {W : Type} {FR : PrimeField fr_modulus} {FQ : PrimeField fq_modulus} {HX : HexCrate}.
Context {AC : AcirCrate} {P2 : Poseidon2Crate} {HC : HashCrates} {AG : GrumpkinCrate} {SQ : SqrtField}.
Context {B64 : Base64Crate} `{JT : JsonText} `{KV : KvStore W} `{AN : !AztecNode W} `{RW : !RandCrate W}.
Context {SN : SerdeJson StoredNote} {SL : SerdeJson (list string)}.
Context {SI : SerdeJson ContractInstanceWithAddress} {SA : SerdeJson (ContractArtifact FR JS)}.
Context {SC : SerdeJson CompleteAddress} {SK : SerdeJson (list (list Fr))}.
Context {SZ : SerdeJson Z} {SP : SerdeJson (list PendingTagIndex)} {AV : AcvmCrate}.
Notation O := PrivateExecutionOracle.
Notation args_t := (list (list Fr)).

(** ** Effects are only added *)

Record grows (o o' : O) : Prop := {
  gr_fixed : (po_block_header o', po_contract_address o', protocol_nullifier o', auth_witnesses o',
              po_scopes o', call_is_static o', context_witness_prefix o', capsules o')
             = (po_block_header o, po_contract_address o, protocol_nullifier o, auth_witnesses o,
                po_scopes o, call_is_static o, context_witness_prefix o, capsules o);
  gr_notes : new_notes o `prefix_of` new_notes o';
  gr_note_hashes : note_hashes o `prefix_of` note_hashes o';
  gr_nullifiers : nullifiers o `prefix_of` nullifiers o';
  gr_private_logs : private_logs o `prefix_of` private_logs o';
  gr_class_logs : contract_class_logs o `prefix_of` contract_class_logs o';
  gr_offchain : offchain_effects o `prefix_of` offchain_effects o';
  gr_public_calls : public_call_requests o `prefix_of` public_call_requests o';
  gr_calldata : public_function_calldata o `prefix_of` public_function_calldata o';
  gr_nested : nested_results o `prefix_of` nested_results o';
  gr_teardown : is_Some (public_teardown_call_request o) → is_Some (public_teardown_call_request o');
  gr_consumed : consumed_db_nullifiers o ⊆ consumed_db_nullifiers o';
  gr_map : dom (note_hash_nullifier_counter_map o) ⊆ dom (note_hash_nullifier_counter_map o');
  gr_cache : dom (execution_cache o) ⊆ dom (execution_cache o');
  gr_phase : in_revertible_phase o = true →
    in_revertible_phase o' = true ∧
    min_revertible_side_effect_counter o' = min_revertible_side_effect_counter o;
}.

#[local] Instance grows_preorder : PreOrder grows.
Proof.
  split.
  - intros o. split; auto.
  - intros o1 o2 o3 [] []. split; try (by etransitivity); [auto|].
    intros Hp. destruct (gr_phase0 Hp) as [Hp2 ?]. destruct (gr_phase1 Hp2). split; congruence.
Qed.

(** The state of the oracle beside the world. *)
Definition beside (R : O → O → Prop) (s s' : W * O) : Prop := R s.2 s'.2.

#[local] Instance beside_preorder R `{!PreOrder R} : PreOrder (beside R).
Proof. split; [intros [w o]|intros [? ?] [? ?] [? ?]; unfold beside; simpl; intros]; [by red|by etransitivity]. Qed.

Section relation.
Context (R : O → O → Prop) `{!PreOrder R}.

Lemma beside_in_fst {A : Type} (m : M W A) : within (beside R) (in_fst m).
Proof. intros [w o]. unfold in_fst, beside. simpl. destruct (m w). simpl. reflexivity. Qed.

Lemma beside_get_self : within (beside R) get_self.
Proof. intros [w o]. unfold beside. simpl. reflexivity. Qed.

Lemma beside_update f : (∀ o, R o (f o)) → within (beside R) (update f).
Proof. intros Hf [w o]. apply Hf. Qed.

Lemma beside_counter given :
  (∀ o, R o (bump o)) → within (beside R) (in_snd (St := W) (counter_or_next given)).
Proof.
  intros Hb [w o]. unfold in_snd, beside, counter_or_next. simpl.
  destruct given; simpl; [reflexivity|apply Hb].
Qed.
End relation.

(** ** The handlers *)

Lemma grows_bump o : grows o (bump o).
Proof. split; simpl; auto. Qed.

Ltac handler :=
  repeat within_step;
  try (apply beside_in_fst; exact _); try (apply beside_get_self; exact _);
  try (apply beside_counter; [exact _|exact grows_bump]).

(** An update that appends, inserts or sets. *)
Ltac grown :=
  apply beside_update; intros []; split; simpl; eauto using prefix_app_r;
  try set_solver.

#[local] Notation grown_within := (within (beside grows)).

Lemma ensure_grows : grown_within ensure_mutable_context.
Proof. unfold ensure_mutable_context. handler. Qed.

Lemma set_min_revertible_grows args : grown_within (set_min_revertible args).
Proof.
  unfold set_min_revertible. destruct (first_at args 0) as [counter|]; [|apply within_ok; exact _].
  intros [w o]. unfold mthen, get_self, beside. simpl.
  destruct (in_revertible_phase o) eqn:E; simpl; [reflexivity|].
  destruct o; simpl in *; subst. by split; simpl; auto.
Qed.

Lemma handlers_grow args : Forall (λ e, grown_within e.2) (local_handlers args).
Proof.
  repeat (apply Forall_cons; split); [..|apply Forall_nil_2]; simpl;
    try (apply beside_in_fst; exact _); try (apply within_ok; exact _);
    try apply set_min_revertible_grows.
  all: unfold get_secret_key, Oracle.get_notes, check_note_hash_exists, notify_created_note,
    notify_nullified_note, notify_created_nullifier, is_nullifier_pending, get_capsule,
    emit_private_log, emit_contract_class_log, store_in_execution_cache, load_from_execution_cache,
    get_auth_witness, enqueue_public_function_call, is_side_effect_counter_revertible,
    get_sender_for_tags, set_sender_for_tags, get_next_app_tag_as_sender, random_field,
    not_implemented, push_offchain_effect, ask_note_hash_witness, ask_nullifier_witness,
    ask_block_hash_witness, get_l1_to_l2_membership_witness, check_nullifier_exists.
  all: handler; try apply ensure_grows.
  all: try (apply beside_update; exact grows_bump).
  all: grown.
  - unfold constant, record_nullified. simpl. destruct (decide _); [done|].
    destruct (List.find _ _); [set_solver|done].
  - unfold constant. destruct (_ !! _); auto using prefix_app_r.
  - unfold constant. destruct (_ !! _); auto using prefix_app_r.
Qed.

(** ** Nested calls *)

Lemma merge_nested_grows self nested call output outcome :
  grows self (merge_nested self nested call output outcome).
Proof.
  destruct self. split; simpl; unfold constant; auto using prefix_app_r; [|set_solver..|].
  - by destruct (Oracle.public_teardown_call_request nested).
  - unfold merge_cache. simpl. destruct (_ !! _); rewrite dom_union_L; set_solver.
Qed.

Lemma protocol_call_grows target selector encoded counter static :
  grown_within (try_handle_protocol_nested_private_call target selector encoded counter static).
Proof.
  unfold try_handle_protocol_nested_private_call, handle_nested_publish_class,
    handle_nested_publish_instance, finish_protocol_call.
  handler. all: grown.
  all: unfold constant; destruct (_ !! _); set_solver.
Qed.

Lemma call_private_function_grows execute args : grown_within (call_private_function execute args).
Proof.
  unfold call_private_function. handler; [apply protocol_call_grows|].
  apply beside_update. intros o. apply merge_nested_grows.
Qed.

Lemma find_handler_elem {A : Type} handler (table : list (list string * A)) m :
  find_handler handler table = Some m → ∃ names, (names, m) ∈ table.
Proof.
  unfold find_handler. intros ([names m'] & E & ->)%fmap_Some.
  apply List.find_some in E as [E%list_elem_of_In _]. by exists names.
Qed.

(** Whatever a foreign call does and however it ends. *)
Lemma foreign_call_grows fuel name args : grown_within (handle_foreign_call fuel name args).
Proof.
  destruct fuel as [|n]; simpl; [apply within_ok; exact _|].
  destruct (find_handler _ _) as [m|] eqn:E.
  - apply find_handler_elem in E as [names E].
    pose proof (handlers_grow args) as Hh. rewrite Forall_forall in Hh.
    apply within_then; [exact _|apply (Hh _ E)|intros r; apply within_ok; exact _].
  - destruct (String.eqb _ _); [apply call_private_function_grows|apply within_lift; exact _].
Qed.

(** C7: a foreign call, whatever it is, however deep the calls it nests and however it
    ends, only adds effects: notes, note hashes, nullifiers, logs, public calls, calldata,
    nested results and offchain effects keep what they had as a prefix, the consumed
    nullifiers, the nullified counters and the execution cache keep their keys, the
    teardown call is not forgotten, the revertible phase and its counter are final, and
    the identity, the scopes and the static flag of the oracle do not change. *)
Theorem foreign_calls_append fuel name args (w : W) o :
  grows o (handle_foreign_call fuel name args (w, o)).1.2.
Proof. apply (foreign_call_grows fuel name args (w, o)). Qed.

(** The state a circuit leaves its oracle in extends the one it starts from. *)
Lemma run_with_grows n artifact name fields o (w w' : W) output o' :
  run_with o (execute_private (handle_foreign_call n) n artifact name fields) w
    = (w', Ok (Some (output, o'))) → grows o o'.
Proof.
  unfold run_with. intros E.
  pose proof (execute_private_within (beside grows) (handle_foreign_call n)
    (foreign_call_grows n) n artifact name fields (w, o)) as Hg.
  destruct (execute_private _ _ _ _ _ _) as [[w1 o1] [[x|]|e|]]; simpl in *; simplify_eq. done.
Qed.

Lemma own_prefix {A : Type} (l l' : list A) : l `prefix_of` l' → l ++ own l l' = l'.
Proof. intros [k ->]. unfold own. by rewrite drop_app_length. Qed.

Definition protocol_target (target : AztecAddress) : Prop :=
  target = protocol_contract_address.contract_class_registry ∨
  target = protocol_contract_address.contract_instance_registry.

Lemma protocol_call_none target selector encoded counter static (s : W * O) :
  ¬ protocol_target target →
  try_handle_protocol_nested_private_call target selector encoded counter static s = (s, Ok None).
Proof.
  intros Hp. unfold try_handle_protocol_nested_private_call. destruct static; [done|].
  assert (target ≠ protocol_contract_address.contract_class_registry) by (intros E; apply Hp; by left).
  assert (target ≠ protocol_contract_address.contract_instance_registry) by (intros E; apply Hp; by right).
  by rewrite (bool_decide_false (target = protocol_contract_address.contract_class_registry)),
    (bool_decide_false (target = protocol_contract_address.contract_instance_registry)).
Qed.

Lemma call_private_function_ok execute args (w : W) self w' self' call r :
  call_private_function execute args (w, self) = ((w', self'), Ok (Some r)) →
  nested_call_args args self = Ok call → ¬ protocol_target (target_address call) →
  ∃ artifact name fields pcpi w1 w2 output nested,
    run_with (nested_oracle self call) (execute artifact name fields) w1
      = (w2, Ok (Some (output, nested))) ∧
    let outcome := read_nested_outcome call output pcpi in
    self' = merge_nested self nested call output outcome ∧
    r = [[Fr_from_u64 (no_end_counter outcome); no_returns_hash outcome]].
Proof.
  intros E Hc Hp. unfold call_private_function in E.
  apply mthen_ok in E as (s1 & o & [= <- <-] & E).
  rewrite Hc in E. apply mthen_ok in E as (s1 & c & [= <- <-] & E).
  apply mthen_ok in E as (s1 & h & Eh & E). rewrite protocol_call_none in Eh by done.
  injection Eh as <- <-.
  apply mthen_ok in E as ([w1 o1] & [artifact function] & [-> _]%in_fst_ok & E).
  apply mthen_ok in E as (s1 & u & Eu & E). injection Eu as <- _.
  apply mthen_ok in E as ([w2 o2] & [[output nested]|] & [-> Er]%in_fst_ok & E); [|done].
  apply mthen_ok in E as (s1 & u' & Eu & E). injection Eu as <- _. injection E as <- <- <-.
  by repeat eexists.
Qed.

Lemma nested_handler args :
  find_handler (handler_name "private" "utility" "privateCallPrivateFunction")
    (local_handlers (W := W) args) = None.
Proof. reflexivity. Qed.


(** ** Static contexts *)

(** The effects that a static context must not have. *)
Definition state_effects (o : O) :=
  (new_notes o, note_hashes o, nullifiers o, private_logs o, contract_class_logs o,
   note_hash_nullifier_counter_map o, consumed_db_nullifiers o).

Definition quiet (o o' : O) : Prop :=
  call_is_static o' = call_is_static o ∧
  (call_is_static o = true → state_effects o' = state_effects o).

#[local] Instance quiet_preorder : PreOrder quiet.
Proof.
  split; [by split|]. intros o1 o2 o3 [E1 H1] [E2 H2]. split; [congruence|].
  intros Hs. rewrite H2 by congruence. auto.
Qed.

#[local] Notation quiet_within := (within (beside quiet)).

Lemma quiet_guarded {A : Type} (m : M (W * O) A) :
  grown_within (ensure_mutable_context ;;! m)%rust →
  quiet_within (ensure_mutable_context ;;! m)%rust.
Proof.
  intros Hm [w o]. specialize (Hm (w, o)). revert Hm.
  unfold ensure_mutable_context, mthen, get_self, beside. simpl.
  destruct (call_is_static o) eqn:E; simpl; [reflexivity|].
  intros Hf%gr_fixed. split; [by simplify_eq|congruence].
Qed.

Lemma quiet_bump o : quiet o (bump o).
Proof. by split. Qed.

Lemma handlers_quiet args : Forall (λ e, quiet_within e.2) (local_handlers args).
Proof.
  pose proof (handlers_grow args) as Hg. unfold local_handlers in *.
  repeat (apply Forall_cons in Hg as [? Hg]; apply Forall_cons; split);
    [..|apply Forall_nil_2]; clear Hg; cbn [snd] in *;
    try (apply beside_in_fst; exact _); try (apply within_ok; exact _).
  all: try match goal with H : grown_within _ |- _ => exact (quiet_guarded _ H) end.
  all: unfold get_secret_key, Oracle.get_notes, check_note_hash_exists, is_nullifier_pending,
    get_capsule, store_in_execution_cache, load_from_execution_cache, get_auth_witness,
    enqueue_public_function_call, set_min_revertible, is_side_effect_counter_revertible,
    get_sender_for_tags, set_sender_for_tags, get_next_app_tag_as_sender, random_field,
    not_implemented, push_offchain_effect, ask_note_hash_witness, ask_nullifier_witness,
    ask_block_hash_witness, get_l1_to_l2_membership_witness, check_nullifier_exists.
  all: repeat within_step; try (apply beside_in_fst; exact _); try (apply beside_get_self; exact _).
  all: apply beside_update; intros []; by split.
Qed.

(** C29: in a static context no foreign call that is not a nested call adds a note, a note
    hash, a nullifier, a private log or a contract class log, or consumes a stored note,
    whether it answers or fails. *)
Theorem static_context_safe fuel name args (w : W) o :
  call_is_static o = true → handler_name "private" "utility" name ≠ "callPrivateFunction" →
  state_effects (handle_foreign_call fuel name args (w, o)).1.2 = state_effects o.
Proof.
  intros Hs Hn. enough (quiet_within (handle_foreign_call fuel name args)) as Hq.
  { by apply (Hq (w, o)). }
  destruct fuel as [|n]; simpl; [apply within_ok; exact _|].
  destruct (find_handler _ _) as [m|] eqn:E.
  - apply find_handler_elem in E as [names E]. pose proof (handlers_quiet args) as Hh.
    rewrite Forall_forall in Hh.
    apply within_then; [exact _|apply (Hh _ E)|intros r; apply within_ok; exact _].
  - apply String.eqb_neq in Hn. rewrite Hn. apply within_lift; exact _.
Qed.

(** ** Fuel *)

Lemma in_fst_more {T A : Type} (m m' : M W (option A)) :
  more m m' → more (in_fst (S := T) m) (in_fst m').
Proof.
  intros Hm [w t]. specialize (Hm w). unfold in_fst. simpl.
  destruct (m w) as [w1 r]. simpl. intros Hr. by rewrite Hm.
Qed.

Lemma run_with_more nested (m m' : M (W * O) (option AcvmExecutionOutput)) :
  more m m' → more (run_with nested m) (run_with nested m').
Proof.
  intros Hm w. specialize (Hm (w, nested)). unfold run_with. simpl.
  destruct (m (w, nested)) as [[w1 o1] [[x|]|e|]]; simpl in *; intros Hr; try done; by rewrite Hm.
Qed.

Lemma call_private_function_more (execute execute' : NestedExecutor (W := W)) args :
  (∀ artifact name fields, more (execute artifact name fields) (execute' artifact name fields)) →
  more (call_private_function execute args) (call_private_function execute' args).
Proof.
  intros He. unfold call_private_function.
  do 3 (apply more_then; intros ?). destruct a1; [apply more_refl|].
  apply more_then. intros [artifact function]. apply more_then. intros [].
  apply more_then_opt; [by apply in_fst_more, run_with_more|]. intros [? ?]. apply more_refl.
Qed.

Lemma foreign_call_more n n' : (n ≤ n')%nat → ∀ name args,
  more (handle_foreign_call (W := W) n name args) (handle_foreign_call n' name args).
Proof.
  revert n'. induction n as [|n IH]; intros n' Hn name args; [apply more_none|].
  destruct n' as [|n']; [lia|]. simpl. destruct (find_handler _ _); [apply more_refl|].
  destruct (String.eqb _ _); [|apply more_refl].
  apply call_private_function_more. intros artifact function fields.
  apply execute_private_more; [|lia]. apply IH. lia.
Qed.

Lemma local_call_ends n name args :
  handler_name "private" "utility" name ≠ "callPrivateFunction" →
  ends (handle_foreign_call (W := W) (S n) name args).
Proof.
  intros Hn. simpl. destruct (find_handler _ _); [apply ends_then; by intros r s|].
  apply String.eqb_neq in Hn. by rewrite Hn.
Qed.


(** ** Gathering notes *)

(** The pending notes of a query with the hash [h], and the notes with that hash. *)
Definition pending_with (self : O) slot owner (h : Fr) : list NoteAndSlot → list NoteAndSlot :=
  List.filter (λ p, matches_query self slot owner p && bool_decide (ns_note_hash p = h)).
Definition with_hash (h : Fr) : list StoredNote → list StoredNote :=
  List.filter (λ n, bool_decide (sn_note_hash n = h)).

Lemma push_pending_spec self slot owner l notes consumed :
  ∃ pend, (foldl (push_pending self slot owner) (notes, consumed) l).1 = notes ++ pend ∧
    pend `sublist_of` (stored_pending <$> List.filter (matches_query self slot owner) l) ∧
    ∀ h, with_hash h pend = stored_pending <$>
           drop (nullified_count self h - default 0%nat (consumed !! h)) (pending_with self slot owner h l).
Proof.
  revert notes consumed. induction l as [|p l IH]; intros notes consumed.
  { exists []. simpl. split_and!; [by rewrite app_nil_r|constructor|]. intros h. by rewrite drop_nil. }
  cbn [foldl]. unfold push_pending at 2, pending_with. cbn [List.filter].
  destruct (matches_query self slot owner p) eqn:Em; cbn [andb]; [|apply IH].
  destruct (_ <? _)%nat eqn:El.
  - apply Nat.ltb_lt in El. destruct (IH notes (<[ns_note_hash p := S (default 0%nat (consumed !! ns_note_hash p))]> consumed))
      as (pend & E & Hs & Hh). exists pend. split_and!; [done|by constructor|].
    intros h. rewrite Hh. destruct (decide (ns_note_hash p = h)) as [<-|Hne].
    + rewrite bool_decide_true, lookup_insert_eq by done. cbn [default from_option id].
      set (d := default 0%nat (consumed !! ns_note_hash p)) in *.
      by replace (nullified_count self (ns_note_hash p) - d)%nat
        with (S (nullified_count self (ns_note_hash p) - S d)) by lia.
    + by rewrite bool_decide_false, lookup_insert_ne by done.
  - apply Nat.ltb_ge in El. destruct (IH (notes ++ [stored_pending p]) consumed) as (pend & E & Hs & Hh).
    exists (stored_pending p :: pend). split_and!; [by rewrite E, <- app_assoc|by constructor|].
    intros h. unfold with_hash. cbn [List.filter stored_pending sn_note_hash].
    fold (with_hash h pend). rewrite Hh. destruct (decide (ns_note_hash p = h)) as [<-|Hne].
    + rewrite bool_decide_true by done.
      replace (nullified_count self (ns_note_hash p) - _)%nat with 0%nat by lia. done.
    + by rewrite bool_decide_false by done.
Qed.


(** What [notifyNullifiedNote] does outside a static context. *)
Lemma notify_nullified_note_runs args (w : W) self :
  call_is_static self = false → ∃ self' counter,
    notify_nullified_note args (w, self) = ((w, self'), Ok []) ∧
    call_is_static self' = false ∧ note_hashes self' = note_hashes self ∧
    nullifiers self' = nullifiers self ++
      [{| snf_nullifier := {| nf_value := field_or_zero args 0; nf_note_hash := field_or_zero args 1;
                              nf_counter := counter |};
          snf_contract_address := po_contract_address self |}] ∧
    note_hash_nullifier_counter_map self' = record_nullified (field_or_zero args 1) counter self.
Proof.
  intros Hs. unfold notify_nullified_note, ensure_mutable_context, mthen, get_self. simpl. rewrite Hs.
  unfold mlift, mok, in_snd, counter_or_next, update. simpl.
  destruct (u32_at args 2) as [c|]; repeat eexists; assumption.
Qed.

(** Of two equal pending notes that are both nullified only one is left out by
    [getNotes].  With no note nullified yet and every note hash under its own counter,
    two calls of [notifyNullifiedNote] with a hash that is pending add two nullifiers for
    it, but the map they record them in has one key, the counter of the first note with
    that hash, so that one note is counted as nullified. *)
Theorem equal_notes_nullified_once h args1 args2 (w : W) self :
  call_is_static self = false → note_hash_nullifier_counter_map self = ∅ → h ≠ Fr_zero →
  NoDup (snh_counter <$> note_hashes self) →
  h ∈ (λ nh, nh_value (snh_note_hash nh)) <$> note_hashes self →
  field_or_zero args1 1 = h → field_or_zero args2 1 = h →
  let self2 := (notify_nullified_note args2 (notify_nullified_note args1 (w, self)).1).1.2 in
  (∃ n1 n2, nullifiers self2 = nullifiers self ++ [n1; n2] ∧
     nf_note_hash (snf_nullifier n1) = h ∧ nf_note_hash (snf_nullifier n2) = h) ∧
  nullified_count self2 h = 1%nat.
Proof.
  intros Hs Hm Hh Hd Hin H1 H2.
  destruct (notify_nullified_note_runs args1 w self Hs) as (s1 & c1 & -> & Hs1 & Hn1 & Hf1 & Hm1).
  cbn [fst]. destruct (notify_nullified_note_runs args2 w s1 Hs1) as (s2 & c2 & -> & _ & Hn2 & Hf2 & Hm2).
  cbn [fst snd]. split.
  { rewrite Hf2, Hf1, <- app_assoc. by repeat eexists. }
  set (first := List.find (λ nh, bool_decide (nh_value (snh_note_hash nh) = h)) (note_hashes self)).
  assert (∃ nh, first = Some nh ∧ nh ∈ note_hashes self ∧ nh_value (snh_note_hash nh) = h)
    as (nh & Hf & Hel & Hv).
  { destruct first as [nh|] eqn:Ef; subst first.
    - apply List.find_some in Ef as [Hel%list_elem_of_In Hv%bool_decide_eq_true]. by exists nh.
    - apply list_elem_of_fmap in Hin as (nh & -> & Hel%list_elem_of_In).
      apply (List.find_none _ _ Ef) in Hel. by rewrite bool_decide_true in Hel. }
  assert (dom (note_hash_nullifier_counter_map s2) = {[snh_counter nh]}) as Hdom.
  { rewrite Hm2, H2. unfold record_nullified. rewrite decide_False by done. rewrite Hn1.
    fold first. rewrite Hf, dom_insert_L, Hm1, H1. unfold record_nullified.
    rewrite decide_False by done. fold first. rewrite Hf, Hm. set_solver. }
  unfold nullified_count. rewrite Hdom, elements_singleton, Hn2, Hn1. cbn [List.filter].
  clear first Hf Hdom. destruct (List.find _ _) as [nh'|] eqn:Ef.
  - apply List.find_some in Ef as [Hel'%list_elem_of_In Hc%Z.eqb_eq].
    assert (nh' = nh) as ->; [|by rewrite bool_decide_true].
    apply list_elem_of_lookup in Hel as [i Hi], Hel' as [j Hj].
    assert (i = j) as ->; [|congruence].
    apply (NoDup_lookup _ i j (snh_counter nh) Hd); by rewrite list_lookup_fmap, ?Hi, ?Hj; simpl; rewrite ?Hc.
  - apply list_elem_of_In in Hel. apply (List.find_none _ _ Ef) in Hel. by rewrite Z.eqb_refl in Hel.
Qed.
End effects.

(** ** Witnesses *)

Import Concrete.Instances ExampleWorld.Instances.

(** A contract whose function emits a nullifier twice and then works for a round. *)
Definition target : AztecAddress := Fr_from_u64 77.
Definition class : Fr := Fr_from_u64 5.

Definition stored_world : InMemoryKvStore :=
  ((ContractStore.add_instance (example_instance target class) ;;!
    write_json (ContractStore.artifact_key class) (one_artifact "AwMA"))%rust []).1.

Definition parent (static : bool) : PrivateExecutionOracle :=
  PrivateExecutionOracle_new (JNull : json_value) (Fr_from_u64 9) Fr_one None [] static.

Definition call_args : list (list Fr) := [[target]; [Fr_from_u64 7]; [Fr_zero]].

Definition answered {A : Type} (r : Outcome (option A)) : bool :=
  match r with Ok (Some _) => true | _ => false end.

Lemma answered_some {A : Type} (r : Outcome (option A)) : answered r = true → ∃ a, r = Ok (Some a).
Proof. destruct r as [[a|]|e|]; by eauto. Qed.


Lemma static_context_safe_witness :
  (handle_foreign_call 5 "privateNotifyCreatedNullifier" [[Fr_one]] (stored_world, parent true)).2
    = Err (InvalidData "Static call cannot update the state") ∧
  state_effects (handle_foreign_call 5 "privateNotifyCreatedNullifier" [[Fr_one]]
                   (stored_world, parent true)).1.2
    = state_effects (parent true).
Proof. split; [reflexivity|]. apply static_context_safe; [reflexivity|]. by vm_compute. Defined.

(** The machine of the contract lowers the number of opcodes that are left. *)
Definition no_nested_call (m : byte_machine) : Prop := Forall (λ b, byte_Z b ≠ 1) (bm_rest m).

Lemma bm_solve_lowers m : bm_rest m ≠ [] →
  (length (bm_rest (bm_solve m).1) < length (bm_rest m))%nat.
Proof.
  unfold bm_solve. destruct (bm_rest m) as [|b rest]; [done|]. intros _.
  destruct (byte_Z b =? 0); [simpl; lia|]. destruct (bm_call _) as [[]|]; simpl; lia.
Qed.

Lemma byte_machine_progress (program : list byte) :
  Forall (λ b, byte_Z b ≠ 1) program →
  progress (no_nested_call : ACVM → Prop) (λ m : byte_machine, length (bm_rest m)) (S (length program))
    (program : Program) (λ name _, handler_name "private" "utility" name ≠ "callPrivateFunction").
Proof.
  intros Hp. split.
  - intros circuit w Hc%list_elem_of_singleton. subst circuit. split; [exact Hp|]. simpl. lia.
  - intros m m' Hg E. simpl in E. pose proof (bm_solve_lowers m) as Hl. revert E Hl Hg.
    unfold bm_solve, no_nested_call. destruct (bm_rest m) as [|b rest]; [done|].
    destruct (byte_Z b =? 0); [|by destruct (bm_call _) as [[]|]].
    intros [= <-] Hl Hg. apply Forall_cons in Hg as [_ Hg]. split; [exact Hg|by apply Hl].
  - intros m m' f i Hg E. simpl in E. revert E Hg. unfold bm_solve, no_nested_call.
    destruct (bm_rest m) as [|b rest]; [done|]. destruct (byte_Z b =? 0); [done|].
    destruct (bm_call (byte_Z b)) as [[function inputs]|] eqn:Ec; [|done].
    intros [= <- <- <-] [Hb Hg]%Forall_cons. split; [|intros r; split; [exact Hg|simpl; lia]].
    revert Ec. unfold bm_call. rewrite (proj2 (Z.eqb_neq _ _) Hb).
    repeat (destruct (_ =? _)); intros [= <- _]; by vm_compute.
  - intros m m' id w Hg E. simpl in E. revert E. unfold bm_solve.
    destruct (bm_rest m) as [|b rest]; [done|].
    destruct (byte_Z b =? 0); [done|]. by destruct (bm_call _) as [[]|].
Qed.


Definition two_equal_notes : PrivateExecutionOracle :=
  (handle_foreign_call 1 "privateNotifyCreatedNote" [[]; []; []; []; []; [Fr_from_u64 8]]
    (handle_foreign_call 1 "privateNotifyCreatedNote" [[]; []; []; []; []; [Fr_from_u64 8]]
      (stored_world, parent false)).1).1.2.

Lemma equal_notes_nullified_once_witness :
  let self2 := (notify_nullified_note [[Fr_from_u64 3]; [Fr_from_u64 8]]
                 (notify_nullified_note [[Fr_from_u64 4]; [Fr_from_u64 8]]
                    (stored_world, two_equal_notes)).1).1.2 in
  length (new_notes two_equal_notes) = 2%nat ∧
  (∃ n1 n2, nullifiers self2 = nullifiers two_equal_notes ++ [n1; n2] ∧
     nf_note_hash (snf_nullifier n1) = Fr_from_u64 8 ∧ nf_note_hash (snf_nullifier n2) = Fr_from_u64 8) ∧
  nullified_count self2 (Fr_from_u64 8) = 1%nat.
Proof.
  intros self2. split; [by vm_compute|].
  apply (equal_notes_nullified_once (Fr_from_u64 8)); [reflexivity|reflexivity| | | |reflexivity|reflexivity];
    apply (bool_decide_unpack _); vm_compute; exact I.
Defined.
