(* ===== verification/UtilityOracle.v ===== *)
(** [crates/pxe/src/execution/utility_oracle.rs]: the oracle of a utility function, which
    reads notes, keys and the chain, and writes the capsules, notes and events of the
    contract that runs. *)

From Stdlib Require Import Ascii String.
From S2P Require Import Prelude Bytes Ordered Deps Concrete Types Constants Poseidon Grumpkin Crypto AbiTypes KernelTypes Tx Hash Deploy Kv Rpc Node LocalStores TaggingStores NoteStore EventStore Sync PickNotes Entrypoint OracleCommon TaggingSecret Oracle.

(** [aes] with [cbc]: decryption with PKCS #7 padding, or the text of its error. *)
Class AesCrate := { aes128_cbc_decrypt : list byte → list byte → list byte → string + list byte }.

(** ** Parsing a block header *)

Section header.
Context {FR : PrimeField fr_modulus} {HX : HexCrate} {JS : JsonCrate}.

Definition fr_at (val : json_value) (path : string) : Fr :=
  match json_pointer val path with
  | Some v => match json_as_str v with
              | Some s => default Fr_zero (ok_opt (Fr_from_hex s))
              | None => Fr_from_u64 (default 0 (json_as_u64 v))
              end
  | None => Fr_zero
  end.

(** A number, or a text in hexadecimal or decimal. *)
Definition number_at (parse_hex parse : string → option Z) (val : json_value) (path : string) : Z :=
  match json_pointer val path with
  | Some v => match json_as_str v with
              | Some s => default 0 (match strip_prefix "0x" s with
                                     | Some hex => parse_hex hex
                                     | None => parse s
                                     end)
              | None => default 0 (json_as_u64 v)
              end
  | None => 0
  end.

Definition u64_at : json_value → string → Z := number_at parse_hex_u64 parse_u64.
Definition u128_at : json_value → string → Z := number_at parse_hex_u128 parse_u128.

Definition eth_at (val : json_value) (path : string) : EthAddress :=
  match json_pointer val path ≫= json_as_str with
  | Some s => drop 12 (Fr_to_be_bytes (default Fr_zero (ok_opt (Fr_from_hex s))))
  | None => replicate 20 zero_byte
  end.

Definition snapshot_at (val : json_value) (prefix : string) : AppendOnlyTreeSnapshot :=
  {| ts_root := fr_at val (prefix +:+ "/root");
     next_available_leaf_index := wrap 32 (u64_at val (prefix +:+ "/nextAvailableLeafIndex")) |}.

Definition parse_block_header (h : json_value) : BlockHeader :=
  {| last_archive := snapshot_at h "/lastArchive";
     bh_state :=
       {| l1_to_l2_message_tree := snapshot_at h "/state/l1ToL2MessageTree";
          st_partial := {| note_hash_tree := snapshot_at h "/state/partial/noteHashTree";
                           nullifier_tree := snapshot_at h "/state/partial/nullifierTree";
                           public_data_tree := snapshot_at h "/state/partial/publicDataTree" |} |};
     sponge_blob_hash := fr_at h "/spongeBlobHash";
     global_variables :=
       {| gv_chain_id := fr_at h "/globalVariables/chainId";
          gv_version := fr_at h "/globalVariables/version";
          gv_block_number := u64_at h "/globalVariables/blockNumber";
          gv_slot_number := u64_at h "/globalVariables/slotNumber";
          gv_timestamp := u64_at h "/globalVariables/timestamp";
          gv_coinbase := eth_at h "/globalVariables/coinbase";
          gv_fee_recipient := fr_at h "/globalVariables/feeRecipient";
          gv_gas_fees := {| fee_per_da_gas := u128_at h "/globalVariables/gasFees/feePerDaGas";
                            fee_per_l2_gas := u128_at h "/globalVariables/gasFees/feePerL2Gas" |} |};
     total_fees := fr_at h "/totalFees";
     total_mana_used := fr_at h "/totalManaUsed" |}.
End header.

(** ** Requests and answers that pass through capsules *)

Section serialization.
Context {FR : PrimeField fr_modulus} {HX : HexCrate}.

Definition MAX_NOTE_PACKED_LEN : nat := 8.
Definition MAX_EVENT_SERIALIZED_LEN : nat := 10.
Definition MAX_NOTE_HASHES_PER_TX : Z := 64.
Definition PRIVATE_LOG_CIPHERTEXT_LEN : Z := 15.

Record ParsedNoteValidationRequest := {
  nv_contract_address : AztecAddress;
  nv_owner : AztecAddress;
  nv_storage_slot : Fr;
  nv_randomness : Fr;
  nv_note_nonce : Fr;
  nv_content : list Fr;
  nv_note_hash : Fr;
  nv_nullifier : Fr;
  nv_tx_hash : TxHash;
  nv_recipient : AztecAddress;
}.

Record ParsedEventValidationRequest := {
  evr_contract_address : AztecAddress;
  evr_event_type_id : Fr;
  evr_randomness : Fr;
  evr_serialized_event : list Fr;
  evr_event_commitment : Fr;
  evr_tx_hash : TxHash;
  evr_recipient : AztecAddress;
}.

Definition tx_hash_from_field (field : Fr) : TxHash := Fr_to_be_bytes field.
Definition tx_hash_to_field (hash : TxHash) : Outcome Fr := Fr_from_hex (TxHash_to_string hash).

Definition parse_log_retrieval_request (fields : list Fr) : Outcome LogService.LogRetrievalRequest :=
  match fields with
  | contract :: tag :: _ =>
      Ok {| LogService.lr_is_public := true; LogService.lr_tag := tag;
            LogService.lr_contract_address := Some contract |}
  | _ => Err (InvalidData "log retrieval request too short")
  end.

Definition serialize_bounded_vec (values : list Fr) (max_length : Z) : Outcome (list Fr) :=
  let n := Z.of_nat (length values) in
  if max_length <? n then Err (bounded_overflow n max_length)
  else Ok (vec_resize (Z.to_nat max_length) Fr_zero values ++ [Fr_from_u64 n]).

(** [MAX_NOTE_PACKED_LEN.max(PRIVATE_LOG_CIPHERTEXT_LEN)]. *)
Definition MAX_LOG_PAYLOAD : Z := Z.max (Z.of_nat MAX_NOTE_PACKED_LEN) PRIVATE_LOG_CIPHERTEXT_LEN.

(** The payload is the log without its tag. *)
Definition serialize_log_retrieval_option (log : option LogService.TaggedLog) : Outcome (list Fr) :=
  match log with
  | Some log =>
      let? payload := serialize_bounded_vec (tail (LogService.tl_data log)) MAX_LOG_PAYLOAD in
      let? hash := tx_hash_to_field (LogService.tl_tx_hash log) in
      let? hashes := serialize_bounded_vec (LogService.tl_note_hashes log) MAX_NOTE_HASHES_PER_TX in
      Ok ([Fr_from_bool true] ++ payload ++ [hash] ++ hashes ++ [LogService.tl_first_nullifier log])
  | None =>
      Ok ([Fr_zero] ++ replicate (Z.to_nat (MAX_LOG_PAYLOAD + 1)) Fr_zero ++ [Fr_zero]
          ++ replicate (Z.to_nat (MAX_NOTE_HASHES_PER_TX + 1)) Fr_zero ++ [Fr_zero])
  end.

Definition serialize_pending_tagged_log (recipient : AztecAddress) (log : LogService.TaggedLog)
    : Outcome (list Fr) :=
  let? data := serialize_bounded_vec (LogService.tl_data log) PRIVATE_LOG_SIZE_IN_FIELDS in
  let? hash := tx_hash_to_field (LogService.tl_tx_hash log) in
  let? hashes := serialize_bounded_vec (LogService.tl_note_hashes log) MAX_NOTE_HASHES_PER_TX in
  Ok (data ++ [hash] ++ hashes ++ [LogService.tl_first_nullifier log; recipient]).

(** [fields[from..from + max][..len]] where the field after them is the length. *)
Definition bounded_content (fields : list Fr) (from max : nat) : list Fr :=
  let len := Z.to_nat (Z.min (Fr_to_usize (arg fields (from + max))) (Z.of_nat max)) in
  take len (take max (drop from fields)).

Definition parse_note_validation_request (fields : list Fr) : Outcome ParsedNoteValidationRequest :=
  if (length fields <? 5 + MAX_NOTE_PACKED_LEN + 5)%nat then
    Err (InvalidData "note validation request too short")
  else
    let after := (5 + MAX_NOTE_PACKED_LEN)%nat in
    Ok {| nv_contract_address := arg fields 0; nv_owner := arg fields 1;
          nv_storage_slot := arg fields 2; nv_randomness := arg fields 3;
          nv_note_nonce := arg fields 4; nv_content := bounded_content fields 5 MAX_NOTE_PACKED_LEN;
          nv_note_hash := arg fields (after + 1); nv_nullifier := arg fields (after + 2);
          nv_tx_hash := tx_hash_from_field (arg fields (after + 3));
          nv_recipient := arg fields (after + 4) |}.

Definition parse_event_validation_request (fields : list Fr) : Outcome ParsedEventValidationRequest :=
  if (length fields <? 3 + MAX_EVENT_SERIALIZED_LEN + 4)%nat then
    Err (InvalidData "event validation request too short")
  else
    let after := (3 + MAX_EVENT_SERIALIZED_LEN)%nat in
    Ok {| evr_contract_address := arg fields 0; evr_event_type_id := arg fields 1;
          evr_randomness := arg fields 2;
          evr_serialized_event := bounded_content fields 3 MAX_EVENT_SERIALIZED_LEN;
          evr_event_commitment := arg fields (after + 1);
          evr_tx_hash := tx_hash_from_field (arg fields (after + 2));
          evr_recipient := arg fields (after + 3) |}.

(** The note that a request describes. *)
Definition requested_note `{P2 : !Poseidon2Crate} (r : ParsedNoteValidationRequest) : StoredNote :=
  {| sn_contract_address := nv_contract_address r; sn_owner := nv_owner r;
     sn_storage_slot := nv_storage_slot r; sn_randomness := nv_randomness r;
     sn_note_nonce := nv_note_nonce r; sn_note_hash := nv_note_hash r;
     sn_siloed_nullifier := silo_nullifier (nv_contract_address r) (nv_nullifier r);
     sn_note_data := nv_content r; sn_nullified := false; sn_is_pending := false;
     sn_nullification_block_number := None; sn_leaf_index := None; sn_block_number := None;
     sn_tx_index_in_block := None; sn_note_index_in_tx := None; sn_scopes := [nv_recipient r] |}.
End serialization.

(** ** Handlers *)

Section handlers.
Context {W : Type} {FR : PrimeField fr_modulus} {FQ : PrimeField fq_modulus} {HX : HexCrate}.
Context {P2 : Poseidon2Crate} {HC : HashCrates} {AG : GrumpkinCrate} {SQ : SqrtField} {AES : AesCrate}.
Context {B64 : Base64Crate} `{JT : JsonText} `{KV : KvStore W} `{AN : !AztecNode W} `{RW : !RandCrate W}.
Context {SN : SerdeJson StoredNote} {SL : SerdeJson (list string)}.
Context {SE : SerdeJson StoredPrivateEvent} {SH : SerdeJson AnchorBlockStore.AnchorBlockHeader}.
Context {SI : SerdeJson ContractInstanceWithAddress} {SC : SerdeJson CompleteAddress}.
Context {SF : SerdeJson (list Fr)} {SZ : SerdeJson Z}.
Notation args_t := (list (list Fr)).

(** The stores and the node are in the world; nothing here changes. *)
Record UtilityExecutionOracle := {
  uo_block_header : json_value;
  uo_contract_address : AztecAddress;
  uo_scopes : list AztecAddress;
  uo_auth_witnesses : list (Fr * list Fr);
}.

Definition UtilityExecutionOracle_new (block_header : json_value) (contract_address : AztecAddress)
    (scopes : list AztecAddress) : UtilityExecutionOracle :=
  {| uo_block_header := block_header; uo_contract_address := contract_address; uo_scopes := scopes;
     uo_auth_witnesses := [] |}.

Definition uo_set_auth_witnesses (witnesses : list (Fr * list Fr)) (self : UtilityExecutionOracle)
    : UtilityExecutionOracle :=
  {| uo_block_header := uo_block_header self; uo_contract_address := uo_contract_address self;
     uo_scopes := uo_scopes self; uo_auth_witnesses := witnesses |}.

Variable self : UtilityExecutionOracle.

Definition header_fields : list Fr := BlockHeader_to_fields (parse_block_header (uo_block_header self)).

Definition get_utility_context : args_t :=
  ((λ f, [f]) <$> header_fields) ++ [[uo_contract_address self]].

Definition get_block_header : args_t := (λ f, [f]) <$> header_fields.

Definition uo_get_notes (args : args_t) : M W args_t :=
  let! storage_slot := field_arg args 2 "getNotes: missing storage_slot" in
  let! status := mlift (note_status_from_field (field_or_zero args 15)) in
  let! notes := NoteStore.get_notes
    {| nf_contract_address := Some (uo_contract_address self); nf_storage_slot := Some storage_slot;
       nf_owner := owner_arg args; nf_status := status; nf_scopes := uo_scopes self;
       nf_siloed_nullifier := None |} in
  mlift (pick_and_pack args notes).

(** *** Capsules *)

Definition ensure_contract_db_access (contract_address : AztecAddress) : M W () :=
  if decide (contract_address = uo_contract_address self) then mok ()
  else mlift (Err (InvalidData ("contract " +:+ Fr_to_string contract_address
         +:+ " is not allowed to access " +:+ Fr_to_string (uo_contract_address self)
         +:+ "'s PXE DB"))).

Definition store_capsule (args : args_t) : M W args_t :=
  let! contract_address := field_arg args 0 "storeCapsule: missing contract address" in
  let! slot := field_arg args 1 "storeCapsule: missing slot" in
  ensure_contract_db_access contract_address ;;!
  CapsuleStore.store_capsule contract_address slot (array_at args 2) ;;! mok [].

Definition load_capsule (args : args_t) : M W args_t :=
  let! contract_address := field_arg args 0 "loadCapsule: missing contract address" in
  let! slot := field_arg args 1 "loadCapsule: missing slot" in
  ensure_contract_db_access contract_address ;;!
  let! maybe_values := CapsuleStore.load_capsule contract_address slot in
  mlift (vec_with_capacity 32 (usize_or_zero args 2)) ;;!
  mok [[Fr_from_bool (bool_decide (is_Some maybe_values))];
       vec_resize (Z.to_nat (usize_or_zero args 2)) Fr_zero (default [] maybe_values)].

Definition delete_capsule (args : args_t) : M W args_t :=
  let! contract_address := field_arg args 0 "deleteCapsule: missing contract address" in
  let! slot := field_arg args 1 "deleteCapsule: missing slot" in
  ensure_contract_db_access contract_address ;;!
  CapsuleStore.delete_capsule contract_address slot ;;! mok [].

Definition copy_capsule (args : args_t) : M W args_t :=
  let! contract_address := field_arg args 0 "copyCapsule: missing contract address" in
  let! src_slot := field_arg args 1 "copyCapsule: missing src slot" in
  let! dst_slot := field_arg args 2 "copyCapsule: missing dst slot" in
  ensure_contract_db_access contract_address ;;!
  CapsuleStore.copy_capsule contract_address src_slot dst_slot (usize_or_zero args 3) ;;! mok [].

(** *** Logs *)

(** The known senders, every account of the address store and the recipient. *)
Definition potential_senders (senders : list AztecAddress) (accounts : list CompleteAddress)
    (recipient : AztecAddress) : list AztecAddress :=
  let push senders a := if decide (a ∈ senders) then senders else senders ++ [a] in
  push (foldl push senders (ca_address <$> accounts)) recipient.

Definition tagging_secrets_for_recipient (recipient : AztecAddress) : M W (list Fr) :=
  let! found := AddressStore.get recipient in
  match found with
  | None => mok []
  | Some complete_address =>
      let! found := KeyStore.get_master_incoming_viewing_secret_key
                      (PublicKeys_hash (ca_public_keys complete_address)) in
      match found with
      | None => mok []
      | Some ivsk =>
          let! senders := SenderStore.get_all in
          let! accounts := AddressStore.get_all in
          mlift (omapM (λ sender, compute_directional_tagging_secret complete_address ivsk sender
                                    (uo_contract_address self) recipient)
                   (potential_senders senders accounts recipient))
      end
  end.

Definition fetch_for_scope (base_slot : Fr) (scope : AztecAddress) : M W () :=
  let! secrets := tagging_secrets_for_recipient scope in
  if decide (secrets = []) then mok ()
  else
    let! logs := LogService.fetch_tagged_logs (uo_contract_address self) scope secrets in
    if (length logs =? 0)%nat then mok ()
    else
      let! serialized := mlift (omapM (serialize_pending_tagged_log scope) logs) in
      CapsuleStore.append_to_capsule_array (uo_contract_address self) base_slot serialized.

Definition fetch_tagged_logs (args : args_t) : M W args_t :=
  let! base_slot := field_arg args 0 "fetchTaggedLogs: missing capsule array base slot" in
  for_each (fetch_for_scope base_slot) (uo_scopes self) ;;! mok [].

Definition bulk_retrieve_logs (args : args_t) : M W args_t :=
  let! contract_address := field_arg args 0 "bulkRetrieveLogs: missing contract address" in
  let! requests_slot := field_arg args 1 "bulkRetrieveLogs: missing requests slot" in
  let! responses_slot := field_arg args 2 "bulkRetrieveLogs: missing responses slot" in
  ensure_contract_db_access contract_address ;;!
  let! raw := CapsuleStore.read_capsule_array contract_address requests_slot in
  let! requests := mlift (omapM parse_log_retrieval_request raw) in
  let! maybe_responses := LogService.bulk_retrieve_logs requests in
  CapsuleStore.set_capsule_array contract_address requests_slot [] ;;!
  let! serialized := mlift (omapM (λ logs, serialize_log_retrieval_option (head logs)) maybe_responses) in
  CapsuleStore.set_capsule_array contract_address responses_slot serialized ;;! mok [].

(** *** Enqueued notes and events *)

Definition store_requested_note (fields : list Fr) : M W () :=
  let! request := mlift (parse_note_validation_request fields) in
  NoteService.validate_and_store_note (requested_note request) (nv_recipient request).

Definition store_requested_event (fields : list Fr) : M W () :=
  let! r := mlift (parse_event_validation_request fields) in
  EventService.validate_and_store_event (evr_contract_address r) (evr_event_type_id r)
    (evr_randomness r) (evr_serialized_event r) (evr_event_commitment r) (evr_tx_hash r)
    (evr_recipient r).

Definition validate_prefix : string := "validateAndStoreEnqueuedNotesAndEvents: ".

Definition validate_and_store_enqueued_notes_and_events (args : args_t) : M W args_t :=
  let! contract_address := field_arg args 0 (validate_prefix +:+ "missing contract address") in
  let! note_requests_slot := field_arg args 1 (validate_prefix +:+ "missing note requests slot") in
  let! event_requests_slot := field_arg args 2 (validate_prefix +:+ "missing event requests slot") in
  ensure_contract_db_access contract_address ;;!
  let! note_requests := CapsuleStore.read_capsule_array contract_address note_requests_slot in
  for_each store_requested_note note_requests ;;!
  let! event_requests := CapsuleStore.read_capsule_array contract_address event_requests_slot in
  for_each store_requested_event event_requests ;;!
  CapsuleStore.set_capsule_array contract_address note_requests_slot [] ;;!
  CapsuleStore.set_capsule_array contract_address event_requests_slot [] ;;! mok [].

(** *** Nullifiers *)

Definition uo_check_nullifier_exists (args : args_t) : M W args_t :=
  let! inner_nullifier := field_arg args 0 "missing nullifier" in
  let siloed := silo_nullifier (uo_contract_address self) inner_nullifier in
  let! witness := get_nullifier_membership_witness 0 siloed in
  mok [[Fr_from_bool (bool_decide (is_Some witness))]].

(** An element as a text or a number, zero where there is none. *)
Definition parse_field_or_number (val : option json_value) : Fr :=
  default Fr_zero (val ≫= λ v, match json_as_str v with
                               | Some s => ok_opt (parse_field_string s)
                               | None => Fr_from_u64 <$> json_as_u64 v
                               end).

Definition hex_member (v : option json_value) : Fr :=
  default Fr_zero ((v ≫= json_as_str) ≫= λ s, ok_opt (Fr_from_hex s)).

Definition first_some {A : Type} (a b : option A) : option A :=
  match a with Some _ => a | None => b end.

Definition nullifier_witness_answer (witness_json : option json_value) : args_t :=
  match witness_json with
  | Some json =>
      let preimage := default json (json_get json "leafPreimage") in
      let leaf := default preimage (json_get preimage "leaf") in
      let path := default (replicate 42 Fr_zero)
        ((json_get json "siblingPath" ≫= json_as_str) ≫= λ s, ok_opt (decode_base64_sibling_path s)) in
      [[parse_field_or_number (json_get json "index")]; [hex_member (json_get leaf "nullifier")];
       [hex_member (first_some (json_get preimage "nextKey") (json_get preimage "nextNullifier"))];
       [parse_field_or_number (json_get preimage "nextIndex")]; vec_resize 42 Fr_zero path]
  | None => replicate 4 [Fr_zero] ++ [replicate 42 Fr_zero]
  end.

Definition uo_get_nullifier_membership_witness (args : args_t) : M W args_t :=
  let! nullifier := field_arg args 1 "getNullifierMembershipWitness: missing nullifier" in
  let! witness_json := get_nullifier_membership_witness 0 nullifier in
  mok (nullifier_witness_answer witness_json).

Definition uo_get_low_nullifier_membership_witness (args : args_t) : M W args_t :=
  let! nullifier := field_arg args 1 "getLowNullifierMembershipWitness: missing nullifier" in
  let! witness_json := get_low_nullifier_membership_witness 0 nullifier in
  mok (nullifier_witness_answer witness_json).

(** *** Keys and secrets *)

(** Only the keys of the accounts in the scopes. *)
Definition get_key_validation_request (args : args_t) : M W args_t :=
  let! pk_m_hash := field_arg args 0 "missing pk_m_hash" in
  let! in_scope := key_in_scope pk_m_hash (uo_scopes self) in
  if in_scope then key_validation_answer pk_m_hash (uo_contract_address self)
  else mlift (Err key_request_denied).

Definition get_shared_secret (args : args_t) : M W args_t :=
  let! recipient := field_arg args 0 "getSharedSecret: missing recipient" in
  let! eph_pk_x := field_arg args 1 "getSharedSecret: missing eph_pk.x" in
  let! eph_pk_y := field_arg args 2 "getSharedSecret: missing eph_pk.y" in
  if default false ((λ f, negb (Fr_to_usize f =? 0)) <$> first_at args 3)
  then mok [[Fr_zero]; [Fr_zero]; [Fr_from_bool true]]
  else
    let! found := AddressStore.get recipient in
    let! complete := required found
      (InvalidData ("getSharedSecret: recipient " +:+ Fr_to_string recipient +:+ " not in address store")) in
    let! found := KeyStore.get_master_incoming_viewing_secret_key
                    (PublicKeys_hash (ca_public_keys complete)) in
    let! ivsk := required found
      (InvalidData ("getSharedSecret: ivsk not found for " +:+ Fr_to_string recipient)) in
    let address_secret := compute_address_secret (preaddress complete) ivsk in
    let eph_pk := {| pt_x := eph_pk_x; pt_y := eph_pk_y; pt_is_infinite := false |} in
    let shared := scalar_mul address_secret eph_pk in
    mok [[pt_x shared]; [pt_y shared]; [Fr_from_bool (pt_is_infinite shared)]].

(** The bytes of the first 16 fields, or zeroes when there are fewer. *)
Definition sixteen_bytes (fields : list Fr) : list byte :=
  if decide (length fields < 16)%nat then replicate 16 zero_byte
  else (λ f, Z_byte (Fr_to_usize f)) <$> take 16 fields.

Definition aes128_decrypt (args : args_t) : Outcome args_t :=
  let ct_storage := array_at args 0 in
  let ct_len := Z.min (default 0 (Fr_to_usize <$> first_at args 1)) (Z.of_nat (length ct_storage)) in
  let ciphertext := (λ f, Z_byte (Fr_to_usize f)) <$> take (Z.to_nat ct_len) ct_storage in
  match aes128_cbc_decrypt (sixteen_bytes (array_at args 3)) (sixteen_bytes (array_at args 2)) ciphertext with
  | inr plaintext =>
      Ok [vec_resize (length ct_storage) Fr_zero ((λ b, Fr_from_u64 (byte_Z b)) <$> plaintext);
          [Fr_from_u64 (Z.of_nat (length plaintext))]]
  | inl e => Err (InvalidData ("aes128 decrypt error: " +:+ e))
  end.

(** The arms of the match; a name without one is answered with nothing. *)
Definition utility_handlers (args : args_t) : list (list string * M W args_t) :=
  [(["getPublicStorageAt"; "storageRead"], public_storage_at args);
   (["getContractInstance"], contract_instance_at args);
   (["getNotes"], uo_get_notes args);
   (["checkNullifierExists"], uo_check_nullifier_exists args);
   (["getPublicKeysAndPartialAddress"; "tryGetPublicKeysAndPartialAddress"],
     public_keys_and_partial_address args);
   (["getKeyValidationRequest"; "getSecretKey"], get_key_validation_request args);
   (["getBlockHeader"], mok get_block_header);
   (["getUtilityContext"], mok get_utility_context);
   (["getAuthWitness"], mlift (auth_witness (uo_auth_witnesses self) args));
   (["getNoteHashMembershipWitness"; "getBlockHashMembershipWitness"; "getL1ToL2MembershipWitness"],
     mok [[]]);
   (["getNullifierMembershipWitness"], uo_get_nullifier_membership_witness args);
   (["getLowNullifierMembershipWitness"], uo_get_low_nullifier_membership_witness args);
   (["getPublicDataWitness"], public_data_witness args);
   (["getRandomField"], let! f := Fr_random in mok [[f]]);
   (["assertCompatibleOracleVersion"; "log"; "emitOffchainEffect"], mok []);
   (["aes128Decrypt"], mlift (aes128_decrypt args));
   (["getSharedSecret"], get_shared_secret args);
   (["loadCapsule"; "getCapsule"], load_capsule args);
   (["storeCapsule"], store_capsule args);
   (["deleteCapsule"], delete_capsule args);
   (["copyCapsule"], copy_capsule args);
   (["fetchTaggedLogs"], fetch_tagged_logs args);
   (["bulkRetrieveLogs"], bulk_retrieve_logs args);
   (["validateAndStoreEnqueuedNotesAndEvents"], validate_and_store_enqueued_notes_and_events args)].

Definition utility_foreign_call (name : string) (args : args_t) : M W args_t :=
  default (mok []) (find_handler (handler_name "utility" "private" name) (utility_handlers args)).
End handlers.
