(* ===== verification/UtilitySpec.v ===== *)
(** What the handlers that both oracles share, and those of the utility oracle, guarantee:
    the slots that a storage read visits, the notes that a query answers and the shape of
    the answer, who may ask for a key and which capsules a contract reaches. *)

From Stdlib Require Import Ascii String.
From S2P Require Import Prelude Bytes Ordered Deps Concrete Types Constants Poseidon Grumpkin Crypto AbiTypes KernelTypes Tx Hash Deploy Kv Rpc Node LocalStores CapsuleSpec TaggingStores NoteStore EventStore EventSpec Sync SyncSpec PickNotes AcvmExecutor ExecutorSpec Entrypoint OracleCommon TaggingSecret ExampleWorld Oracle UtilityOracle.

(** ** Storage slots *)

(** The number that bytes stand for, the least significant first. *)
Definition le_Z (bs : list byte) : Z := be_Z (rev bs).

Lemma le_Z_cons b bs : le_Z (b :: bs) = byte_Z b + 256 * le_Z bs.
Proof. unfold le_Z. cbn [rev]. rewrite be_Z_snoc. lia. Qed.

Lemma length_add_carry carry bs : length (add_carry carry bs) = length bs.
Proof. revert carry. induction bs as [|b bs IH]; intros c; [done|]. simpl. destruct (c =? 0); simpl; auto. Qed.

Lemma le_Z_range bs : 0 ≤ le_Z bs < 256 ^ Z.of_nat (length bs).
Proof. unfold le_Z. rewrite <- length_rev. apply be_Z_range. Qed.

Lemma mod_low_byte x y n : 0 ≤ x < 256 → 0 ≤ n →
  (x + 256 * y) mod 256 ^ (n + 1) = x + 256 * (y mod 256 ^ n).
Proof.
  intros Hx Hn. rewrite Z.pow_add_r, Z.pow_1_r by lia. symmetry.
  assert (0 < 256 ^ n) by (apply Z.pow_pos_nonneg; lia).
  pose proof (Z.div_mod y (256 ^ n) ltac:(lia)). pose proof (Z.mod_pos_bound y (256 ^ n) ltac:(lia)).
  apply (Z.mod_unique _ _ (y / 256 ^ n)); nia.
Qed.

(** The carry is added, modulo what the bytes can hold. *)
Lemma le_Z_add_carry carry bs : 0 ≤ carry →
  le_Z (add_carry carry bs) = (le_Z bs + carry) mod 256 ^ Z.of_nat (length bs).
Proof.
  revert carry. induction bs as [|b bs IH]; intros carry Hc.
  { simpl. by rewrite Z.mod_1_r. }
  cbn [add_carry]. destruct (Z.eqb_spec carry 0) as [->|Hne].
  { rewrite Z.add_0_r, Z.mod_small; [done|apply le_Z_range]. }
  change 255 with (Z.ones 8). rewrite !Z.land_ones, !Z.shiftr_div_pow2 by lia.
  change (2 ^ 8) with 256. set (s := byte_Z b + carry mod 256). pose proof (byte_Z_range b).
  pose proof (Z.div_mod carry 256 ltac:(lia)). pose proof (Z.mod_pos_bound carry 256 ltac:(lia)).
  pose proof (Z.div_mod s 256 ltac:(lia)). pose proof (Z.mod_pos_bound s 256 ltac:(lia)).
  assert (0 ≤ carry / 256) by (apply Z.div_pos; lia).
  assert (0 ≤ s / 256) by (apply Z.div_pos; lia).
  rewrite !le_Z_cons, IH, byte_Z_of_Z, Z.mod_mod by lia.
  cbn [length]. rewrite Nat2Z.inj_succ, <- Z.add_1_r.
  replace (byte_Z b + 256 * le_Z bs + carry)
    with (s mod 256 + 256 * (le_Z bs + (carry / 256 + s / 256))) by lia.
  by rewrite mod_low_byte by lia.
Qed.

Section storage.
Context {W : Type} {FR : PrimeField fr_modulus} {HX : HexCrate} {B64 : Base64Crate} `{JT : JsonText}.
Context `{AN : !AztecNode W}.

(** Adding to the bytes is adding in the field: 2^256 is not reached. *)
Lemma slot_with_offset_add slot n : in_u 64 n → slot_with_offset slot n = pf_add slot (Fr_from_u64 n).
Proof.
  intros Hn. apply (inj pf_val). unfold slot_with_offset. rewrite Fr_val_from_be.
  fold (le_Z (add_carry n (rev (Fr_to_be_bytes slot)))).
  rewrite le_Z_add_carry by (unfold in_u in Hn; lia).
  unfold le_Z. rewrite rev_involutive, length_rev, Fr_to_be_bytes_length, Fr_to_be_bytes_eq.
  transitivity ((pf_val slot + pf_val (Fr_from_u64 n)) mod fr_modulus);
    [|symmetry; apply pf_val_add].
  rewrite Fr_val_from_u64 by done. fold (pf_val slot). f_equal. apply Z.mod_small.
  pose proof (pf_val_range slot). pose proof fr_modulus_bounds. unfold in_u in Hn.
  change (256 ^ Z.of_nat 32) with (2 ^ 256). lia.
Qed.

Lemma read_slots (storage : Fr → Fr) contract start hash (w : W) l values :
  (∀ slot, match hash with
           | Some h => get_public_storage_at_by_hash h contract slot
           | None => get_public_storage_at 0 contract slot
           end w = (w, Ok (storage slot))) →
  Forall (in_u 64) l →
  for_fold (read_slot hash contract start) values l w
  = (w, Ok (values ++ ((λ i, storage (pf_add start (Fr_from_u64 i))) <$> l))).
Proof.
  intros Hs. revert values. induction l as [|i l IH]; intros values Hl; simpl.
  { by rewrite app_nil_r. }
  apply Forall_cons in Hl as [Hi Hl]. unfold mthen at 1, read_slot. unfold mthen at 1.
  rewrite Hs. simpl. rewrite IH, <- app_assoc, slot_with_offset_add by done. done.
Qed.

(** A public storage read of [count] elements at a block answers the values of
    the consecutive slots [start], [start + 1], ... in the field, in that order, and with
    no count or a count of zero the value of [start] alone.  Any count whose answer fits
    a vector is served. *)
Theorem public_storage_read (storage : Fr → Fr) block_hash contract start count args (w : W) :
  args = [[block_hash]; [contract]; [start]; [count]] →
  (∀ slot, get_public_storage_at_by_hash block_hash contract slot w = (w, Ok (storage slot))) →
  32 * Z.max (Fr_to_usize count) 1 < 2 ^ 63 →
  public_storage_at args w
  = (w, Ok [(λ i, storage (pf_add start (Fr_from_u64 i))) <$> seqZ 0 (Z.max (Fr_to_usize count) 1)]).
Proof.
  intros -> Hs Hn. unfold public_storage_at, vec_with_capacity.
  change (usize_or_zero [[block_hash]; [contract]; [start]; [count]] 3) with (Fr_to_usize count).
  change (4 <=? length [[block_hash]; [contract]; [start]; [count]])%nat with true. cbn iota.
  assert (32 * Z.max (Fr_to_usize count) 1 <=? 2 ^ 63 - 1 = true) as -> by (apply Z.leb_le; lia).
  cbv beta iota zeta delta [field_arg required first_at mlift mthen ok_or mbind option_bind head lookup list_lookup].
  cbn [from_option]. rewrite (read_slots storage) by
    (done || (apply Forall_forall; intros i Hi%elem_of_seqZ; unfold in_u; lia)).
  done.
Qed.
End storage.

(** ** Queries of notes *)

Section queries.
Context {FR : PrimeField fr_modulus}.

(** A page is a slice: what follows the offset, at most the limit and the capacity. *)
Lemma page_slice {A : Type} (offset limit max_notes : Z) (notes : list A) :
  0 ≤ offset → 0 ≤ limit → 0 ≤ max_notes →
  page offset limit max_notes notes
  = take (Z.to_nat max_notes)
      ((if 0 <? limit then take (Z.to_nat limit) else id) (drop (Z.to_nat offset) notes)).
Proof.
  intros Ho Hl Hm. unfold page.
  assert ((if Z.of_nat (length notes) <=? offset then [] else drop (Z.to_nat offset) notes)
          = drop (Z.to_nat offset) notes) as ->.
  { destruct (Z.leb_spec (Z.of_nat (length notes)) offset); [|done]. by rewrite drop_ge by lia. }
  set (l1 := drop (Z.to_nat offset) notes).
  assert (∀ n (l : list A), 0 ≤ n →
    (if n <? Z.of_nat (length l) then take (Z.to_nat n) l else l) = take (Z.to_nat n) l) as Ht.
  { intros n l Hn. destruct (Z.ltb_spec n (Z.of_nat (length l))); [done|]. by rewrite take_ge by lia. }
  rewrite Ht by done. f_equal. destruct (0 <? limit); simpl; [|done]. by apply Ht.
Qed.

Lemma checked_arrays (n : Z) (packed : list (list Fr)) :
  Forall (λ p, Z.of_nat (length p) = n) packed → omapM (check_length n) packed = Ok packed.
Proof.
  induction 1 as [|p packed Hp _ IH]; [done|]. simpl. unfold check_length at 1.
  rewrite (proj2 (Z.eqb_eq _ _) Hp). simpl. by rewrite IH.
Qed.

(** Arrays of one length, one after the other. *)
Lemma mjoin_nth {A : Type} (k : nat) (ls : list (list A)) i l :
  Forall (λ l, length l = k) ls → ls !! i = Some l → take k (drop (i * k) (mjoin ls)) = l.
Proof.
  intros Hk. revert i. induction Hk as [|l' ls Hl' _ IH]; intros i Hi; [done|].
  destruct i as [|i]; simpl in *.
  - injection Hi as ->. by rewrite drop_0, take_app_length' by done.
  - rewrite <- Hl' at 2. rewrite drop_app_add. by apply IH.
Qed.

Lemma length_mjoin_arrays {A : Type} (k : nat) (ls : list (list A)) :
  Forall (λ l, length l = k) ls → length (mjoin ls) = (length ls * k)%nat.
Proof. induction 1 as [|l ls Hl _ IH]; [done|]. simpl. rewrite length_app. lia. Qed.

Lemma Fr_to_usize_range f : in_u 64 (Fr_to_usize f).
Proof. rewrite Fr_to_usize_val. unfold in_u. apply Z.mod_pos_bound. lia. Qed.

End queries.

(** ** Capsules of the contract that runs *)

Section isolation.
Context {W : Type} {FR : PrimeField fr_modulus} {FQ : PrimeField fq_modulus} {HX : HexCrate}.
Context {P2 : Poseidon2Crate} {HC : HashCrates} {AG : GrumpkinCrate} {SQ : SqrtField} {AES : AesCrate}.
Context {B64 : Base64Crate} `{JT : JsonText} `{KL : KvStoreLaws W} `{AN : !AztecNode W} `{RW : !RandCrate W}.
Context {SN : SerdeJson StoredNote} {SL : SerdeJson (list string)}.
Context {SE : SerdeJson StoredPrivateEvent} {SH : SerdeJson AnchorBlockStore.AnchorBlockHeader}.
Context {SI : SerdeJson ContractInstanceWithAddress} {SC : SerdeJson CompleteAddress}.
Context {SF : SerdeJson (list Fr)} {SZ : SerdeJson Z}.
Notation args_t := (list (list Fr)).

(** The store is well formed after, and nothing but the capsules of [c] has changed. *)
Definition only_capsules (c : AztecAddress) (w w' : W) : Prop :=
  kv_wf w → kv_wf w' ∧
    ∀ key, (∀ slot, key ≠ CapsuleStore.db_slot_key c slot) → kv_view w' !! key = kv_view w !! key.

#[local] Instance only_capsules_preorder c : PreOrder (only_capsules c).
Proof.
  split; [intros w; by split|]. intros w1 w2 w3 H1 H2 Hw. destruct (H1 Hw) as [Hw2 E1].
  destruct (H2 Hw2) as [Hw3 E2]. split; [done|]. intros key Hk. by rewrite E2, E1.
Qed.

Section contract.
Context (c : AztecAddress).
#[local] Notation capsules_within := (within (only_capsules c)).

Lemma put_capsule slot b : capsules_within (kv_put (CapsuleStore.db_slot_key c slot) b).
Proof.
  intros w Hw. destruct (kv_put_ok w (CapsuleStore.db_slot_key c slot) b Hw) as (w' & -> & Hw' & Hv).
  split; [done|]. intros key Hk. simpl. rewrite Hv. apply lookup_insert_ne. intros E. by eapply Hk.
Qed.

Lemma delete_capsule_within slot : capsules_within (CapsuleStore.delete_capsule c slot).
Proof.
  intros w Hw. destruct (kv_delete_ok w (CapsuleStore.db_slot_key c slot) Hw) as (w' & E & Hw' & Hv).
  unfold CapsuleStore.delete_capsule. rewrite E.
  split; [done|]. intros key Hk. simpl. rewrite Hv. apply lookup_delete_ne. intros Ek. by eapply Hk.
Qed.

Lemma store_capsule_within slot values : capsules_within (CapsuleStore.store_capsule c slot values).
Proof.
  apply within_then; [exact _|apply within_lift; exact _|]. intros b. apply put_capsule.
Qed.

Lemma get_within key : capsules_within (kv_get key).
Proof. intros w Hw. by rewrite kv_get_ok. Qed.

Lemma load_capsule_within slot : capsules_within (CapsuleStore.load_capsule c slot).
Proof.
  apply within_then; [exact _|apply get_within|]. intros [b|]; [|apply within_ok; exact _].
  apply within_then; [exact _|apply within_lift; exact _|intros a; apply within_ok; exact _].
Qed.

Lemma copy_capsule_within src dst n : capsules_within (CapsuleStore.copy_capsule c src dst n).
Proof.
  unfold CapsuleStore.copy_capsule. destruct (n =? 0); [apply within_ok; exact _|].
  apply within_then; [exact _|apply within_lift; exact _|]. intros _.
  apply within_then; [exact _| |intros copied].
  - apply within_for_fold; [exact _|]. intros copied i.
    apply within_then; [exact _| |intros data; apply within_ok; exact _].
    apply within_then; [exact _|apply load_capsule_within|]. intros o. apply within_lift; exact _.
  - apply within_for_each; [exact _|]. intros e. apply store_capsule_within.
Qed.
End contract.

Implicit Types (self : UtilityExecutionOracle).

(** A capsule call reads its contract, and goes on only for the one that runs. *)
Definition capsule_call self (args : args_t) (m : M W args_t) : Prop :=
  within (only_capsules (uo_contract_address self)) m ∧
  ∀ w c, first_at args 0 = Some c → c ≠ uo_contract_address self → ∃ e, m w = (w, Err e).

(** The calls read their contract, then other arguments, then check the contract. *)
Lemma denied self (c : AztecAddress) (k : M W args_t) w : c ≠ uo_contract_address self →
  ∃ e, (ensure_contract_db_access self c ;;! k)%rust w = (w, Err e).
Proof. intros Hc. unfold ensure_contract_db_access. rewrite decide_False by done. by eexists. Qed.

Lemma checked self (c : AztecAddress) (k : M W args_t) :
  (c = uo_contract_address self → within (only_capsules c) k) →
  within (only_capsules (uo_contract_address self)) (ensure_contract_db_access self c ;;! k)%rust.
Proof.
  intros Hk. unfold ensure_contract_db_access. destruct (decide _) as [E|]; [|intros w; reflexivity].
  subst c. by apply Hk.
Qed.

Lemma field_arg_some (args : args_t) i msg (f : Fr → M W args_t) x :
  first_at args i = Some x → mthen (field_arg args i msg) f = f x.
Proof. intros E. unfold field_arg, required, mthen, mlift. by rewrite E. Qed.

Lemma field_arg_none (args : args_t) i msg (f : Fr → M W args_t) w :
  first_at args i = None → mthen (field_arg args i msg) f w = (w, Err (InvalidData msg)).
Proof. intros E. unfold field_arg, required, mthen, mlift. by rewrite E. Qed.

Ltac capsule_args :=
  match goal with
  | |- within _ (mthen (field_arg ?args ?i ?msg) ?f) =>
      let E := fresh in destruct (first_at args i) eqn:E;
      [rewrite (field_arg_some _ _ _ _ _ E)
      |intros w; rewrite (field_arg_none _ _ _ _ w E); reflexivity]
  | |- ∃ e, mthen (field_arg ?args ?i ?msg) ?f ?w = _ =>
      let E := fresh in destruct (first_at args i) eqn:E;
      [rewrite (field_arg_some _ _ _ _ _ E)|rewrite (field_arg_none _ _ _ _ w E); by eexists]
  end.

Ltac capsule_call H :=
  split; [|intros w c Hc Hne];
  [repeat capsule_args; apply checked; intros ->; apply within_then; [exact _|apply H|];
   intros ?; repeat (apply within_then; [exact _|apply within_lift; exact _|intros ?]);
   apply within_ok; exact _
  |repeat capsule_args; simplify_eq; by apply denied].

Lemma store_capsule_call self args : capsule_call self args (UtilityOracle.store_capsule self args).
Proof. unfold UtilityOracle.store_capsule. capsule_call store_capsule_within. Qed.
Lemma load_capsule_call self args : capsule_call self args (UtilityOracle.load_capsule self args).
Proof. unfold UtilityOracle.load_capsule. capsule_call load_capsule_within. Qed.
Lemma delete_capsule_call self args : capsule_call self args (UtilityOracle.delete_capsule self args).
Proof. unfold UtilityOracle.delete_capsule. capsule_call delete_capsule_within. Qed.
Lemma copy_capsule_call self args : capsule_call self args (UtilityOracle.copy_capsule self args).
Proof. unfold UtilityOracle.copy_capsule. capsule_call copy_capsule_within. Qed.

(** C32: a utility function reaches the capsules of its own contract only.  Whatever the
    arguments and the outcome of a capsule call, the store stays well formed and every
    entry of it that is not a capsule of the contract that runs, the capsules of other
    contracts among them, is what it was; a call that names another contract fails and
    changes nothing. *)
Theorem capsule_calls_isolated self name args (w : W) :
  handler_name "utility" "private" name
    ∈ ["storeCapsule"; "loadCapsule"; "getCapsule"; "deleteCapsule"; "copyCapsule"] → kv_wf w →
  let run := utility_foreign_call self name args w in
  kv_wf run.1 ∧
  (∀ key, (∀ slot, key ≠ CapsuleStore.db_slot_key (uo_contract_address self) slot) →
     kv_view run.1 !! key = kv_view w !! key) ∧
  (∀ c slot, c ≠ uo_contract_address self →
     kv_view run.1 !! CapsuleStore.db_slot_key c slot = kv_view w !! CapsuleStore.db_slot_key c slot) ∧
  (∀ c, first_at args 0 = Some c → c ≠ uo_contract_address self → ∃ e, run = (w, Err e)).
Proof.
  intros Hn Hw run.
  assert (capsule_call self args (utility_foreign_call self name args)) as [Hc Hd].
  { unfold utility_foreign_call.
    repeat (apply elem_of_cons in Hn as [->|Hn]);
      [apply store_capsule_call|apply load_capsule_call|apply load_capsule_call
      |apply delete_capsule_call|apply copy_capsule_call|set_solver]. }
  destruct (Hc w Hw) as [Hw' Hk]. split_and!; [done|done| |].
  - intros c slot Hne. apply Hk. intros slot' E. apply Hne.
    apply (inj CapsuleSpec.slot_key (c, slot) (_, slot')) in E. congruence.
  - intros c Ha Hne. by apply (Hd w c).
Qed.
End isolation.

(** ** Key requests *)

Section keys.
Context {W : Type} {FR : PrimeField fr_modulus} {FQ : PrimeField fq_modulus} {HX : HexCrate}.
Context {AC : AcirCrate} {P2 : Poseidon2Crate} {HC : HashCrates} {AG : GrumpkinCrate} {SQ : SqrtField}.
Context {B64 : Base64Crate} `{JT : JsonText} `{KL : KvStoreLaws W} `{AN : !AztecNode W}.
Context {SC : SerdeJson CompleteAddress}.

(** An account in the scopes, with its address in the store, owns the key. *)
Definition key_owned (w : W) (scopes : list AztecAddress) (pk_m_hash : Fr) : Prop :=
  ∃ scope bytes complete, scope ∈ scopes ∧
    kv_view w !! AddressStore.address_key scope = Some bytes ∧ from_slice bytes = Ok complete ∧
    owns_key pk_m_hash complete = true.

Lemma key_in_scope_owned pk scopes (w w' : W) b :
  kv_wf w → key_in_scope pk scopes w = (w', Ok b) → w' = w ∧ (b = true ↔ key_owned w scopes pk).
Proof.
  intros Hw. revert b. induction scopes as [|scope scopes IH]; intros b; simpl.
  { intros [= -> <-]. split; [done|]. split; [done|]. intros (s & ? & ? & Hs & _). set_solver. }
  unfold mthen, AddressStore.get, read_json, mthen. rewrite kv_get_ok by done.
  assert (key_owned w scopes pk → key_owned w (scope :: scopes) pk) as Hweak.
  { intros (s & bs & c & Hs & ?). exists s, bs, c. split; [set_solver|done]. }
  assert ((∀ bytes complete, kv_view w !! AddressStore.address_key scope = Some bytes →
    from_slice bytes = Ok complete → owns_key pk complete = false) →
    key_owned w (scope :: scopes) pk → key_owned w scopes pk) as Hcase.
  { intros Hno (s & bs & c & [->|Hs]%elem_of_cons & Hk & Hb & Ho); [|by exists s, bs, c].
    by rewrite (Hno bs c) in Ho. }
  destruct (kv_view w !! AddressStore.address_key scope) as [bytes|] eqn:Ek; simpl.
  - destruct (from_slice bytes) as [complete|e|] eqn:Eb; simpl; [|done..].
    destruct (owns_key pk complete) eqn:Eo.
    + intros [= -> <-]. split; [done|]. split; [|done]. intros _.
      exists scope, bytes, complete. split_and!; [set_solver|done..].
    + intros E. destruct (IH b E) as [-> Hb]. split; [done|]. rewrite Hb. split; [done|].
      apply Hcase. intros bs c [= <-] Hc. congruence.
  - intros E. destruct (IH b E) as [-> Hb]. split; [done|]. rewrite Hb. split; [done|].
    by apply Hcase.
Qed.

(** C33: a key is given for an account in the scopes only.  When the utility oracle answers
    a key request, an account of its scopes has an address in the store one of whose four
    master public keys hashes to the request, and the answer is the key store's for the
    contract that runs.  The private oracle answers under the same condition, or when it
    has no scopes at all: then it denies nothing. *)
Theorem key_request_scoped args pk (w : W) : kv_wf w → first_at args 0 = Some pk →
  (∀ (self : UtilityExecutionOracle) w' r,
     UtilityOracle.get_key_validation_request self args w = (w', Ok r) →
     key_owned w (uo_scopes self) pk ∧
     key_validation_answer pk (uo_contract_address self) w = (w', Ok r)) ∧
  (∀ (o : PrivateExecutionOracle) w' o' r, Oracle.get_secret_key args (w, o) = ((w', o'), Ok r) →
     (po_scopes o = [] ∨ key_owned w (po_scopes o) pk) ∧ o' = o ∧
     key_validation_answer pk (po_contract_address o) w = (w', Ok r)).
Proof.
  intros Hw Hpk. split.
  - intros self w' r E. unfold UtilityOracle.get_key_validation_request, field_arg, required in E.
    apply mthen_ok in E as (w1 & pk' & E1 & E). rewrite Hpk in E1. injection E1 as <- <-.
    apply mthen_ok in E as (w1 & b & Eb & E).
    destruct (key_in_scope_owned _ _ _ _ _ Hw Eb) as [-> Hb]. destruct b; [|done].
    split; [by apply Hb|done].
  - intros o w' o' r E. unfold Oracle.get_secret_key, field_arg, required in E.
    apply mthen_ok in E as (w1 & pk' & E1 & E). rewrite Hpk in E1. injection E1 as <- <-.
    apply mthen_ok in E as (w1 & o1 & [= <- <-] & E). apply mthen_ok in E as ([w1 o1] & b & Eb & E).
    cbn [snd] in *. destruct (decide (po_scopes o = [])) as [Hs|Hs].
    + injection Eb as <- <- <-. apply in_fst_ok in E as [-> E]. split; [by left|done].
    + apply in_fst_ok in Eb as [-> Eb]. destruct (key_in_scope_owned _ _ _ _ _ Hw Eb) as [-> Hb].
      destruct b; [|done]. apply in_fst_ok in E as [-> E]. split; [right; by apply Hb|done].
Qed.
End keys.


(** ** Witnesses *)

Import Concrete.Instances ExampleWorld.Instances.

(** A node whose storage holds the double of each slot. *)
#[local] Instance doubling_node : AztecNode () := {|
  get_node_info := mlift Panic; get_block_number := mlift Panic;
  get_proven_block_number := mlift Panic; get_tx_receipt _ := mlift Panic;
  get_public_logs _ := mlift Panic; send_tx _ := mlift Panic; get_contract _ := mlift Panic;
  get_contract_class _ := mlift Panic; Node.get_block_header n := mlift Panic;
  get_block _ := mlift Panic; get_note_hash_membership_witness _ _ := mlift Panic;
  get_nullifier_membership_witness _ _ := mlift Panic;
  get_low_nullifier_membership_witness _ _ := mlift Panic;
  get_public_storage_at _ _ slot := mok (pf_add slot slot);
  get_public_storage_at_by_hash _ _ slot := mok (pf_add slot slot);
  get_public_data_witness _ _ := mlift Panic; get_public_data_witness_by_hash _ _ := mlift Panic;
  get_l1_to_l2_message_membership_witness _ _ := mlift Panic;
  get_l1_to_l2_message_checkpoint _ := mlift Panic; simulate_public_calls _ _ := mlift Panic;
  is_valid_tx _ := mlift Panic; get_private_logs_by_tags _ := mlift Panic;
  get_public_logs_by_tags_from_contract _ _ := mlift Panic;
  register_contract_function_signatures _ := mlift Panic; get_tx_effect _ := mlift Panic;
  get_block_hash_membership_witness _ _ := mlift Panic; find_leaves_indexes _ _ _ := mlift Panic;
  get_tx_by_hash _ := mlift Panic |}.

Definition read_args : list (list Fr) :=
  [[Fr_from_u64 6]; [Fr_from_u64 9]; [Fr_from_u64 100]; [Fr_from_u64 3]].

Lemma public_storage_read_witness :
  public_storage_at read_args ()
  = ((), Ok [(λ i, pf_add (pf_add (Fr_from_u64 100) (Fr_from_u64 i))
                          (pf_add (Fr_from_u64 100) (Fr_from_u64 i)))
               <$> seqZ 0 (Z.max (Fr_to_usize (Fr_from_u64 3)) 1)]) ∧
  Z.max (Fr_to_usize (Fr_from_u64 3)) 1 = 3.
Proof.
  assert (Fr_to_usize (Fr_from_u64 3) = 3) as E by (apply Fr_to_usize_from_u64; unfold in_u; lia).
  split; [|by rewrite E].
  apply (public_storage_read (λ s, pf_add s s) (Fr_from_u64 6) (Fr_from_u64 9)); [done|done|].
  rewrite E. lia.
Defined.

(** Two notes with one field; the query selects those whose field is above 4. *)
Definition query_note (value : Z) : StoredNote :=
  {| sn_contract_address := Fr_one; sn_owner := Fr_one; sn_storage_slot := Fr_zero;
     sn_randomness := Fr_zero; sn_note_nonce := Fr_one; sn_note_hash := Fr_one;
     sn_siloed_nullifier := Fr_one; sn_note_data := [Fr_from_u64 value]; sn_nullified := false;
     sn_is_pending := false; sn_nullification_block_number := None; sn_leaf_index := None;
     sn_block_number := None; sn_tx_index_in_block := None; sn_note_index_in_tx := None;
     sn_scopes := [] |}.

Definition query_args : list (list Fr) :=
  [[]; []; []; [Fr_one]; [Fr_zero]; [Fr_zero]; [Fr_from_u64 32]; [Fr_from_u64 4]; [Fr_from_u64 5];
   []; []; []; []; []; []; []; [Fr_from_u64 10]; [Fr_from_u64 7]].


#[local] Instance no_aes : AesCrate := {| aes128_cbc_decrypt _ _ _ := inl "unpad error"%string |}.
#[local] Instance example_event_serde : SerdeJson StoredPrivateEvent := EventSpec.event_serde.
#[local] Instance example_anchor_serde : SerdeJson AnchorBlockStore.AnchorBlockHeader := SyncSpec.header_serde.

Definition utility_oracle : UtilityExecutionOracle :=
  UtilityExecutionOracle_new (JNull : json_value) (Fr_from_u64 9) [Fr_from_u64 77].

Lemma capsule_calls_isolated_witness :
  (∃ e, utility_foreign_call utility_oracle "utilityStoreCapsule"
          [[Fr_from_u64 8]; [Fr_one]; [Fr_one]] InMemoryKvStore_new = (InMemoryKvStore_new, Err e)) ∧
  kv_view (utility_foreign_call utility_oracle "utilityStoreCapsule"
             [[Fr_from_u64 9]; [Fr_one]; [Fr_one]] InMemoryKvStore_new).1
    !! CapsuleStore.db_slot_key (Fr_from_u64 8) Fr_one = None ∧
  (utility_foreign_call utility_oracle "utilityStoreCapsule"
     [[Fr_from_u64 9]; [Fr_one]; [Fr_one]] InMemoryKvStore_new).2 = Ok [].
Proof.
  assert (Fr_from_u64 8 ≠ uo_contract_address utility_oracle) as Hne
    by (apply (bool_decide_unpack _); vm_compute; exact I).
  assert (kv_wf InMemoryKvStore_new) as Hw by constructor.
  assert (handler_name "utility" "private" "utilityStoreCapsule"
    ∈ ["storeCapsule"; "loadCapsule"; "getCapsule"; "deleteCapsule"; "copyCapsule"])%string as Hn
    by (apply (bool_decide_unpack _); vm_compute; exact I).
  split_and!.
  - destruct (capsule_calls_isolated utility_oracle "utilityStoreCapsule"
      [[Fr_from_u64 8]; [Fr_one]; [Fr_one]] InMemoryKvStore_new Hn Hw) as (_ & _ & _ & Hf).
    by apply (Hf (Fr_from_u64 8)).
  - destruct (capsule_calls_isolated utility_oracle "utilityStoreCapsule"
      [[Fr_from_u64 9]; [Fr_one]; [Fr_one]] InMemoryKvStore_new Hn Hw) as (_ & _ & Ho & _).
    by rewrite (Ho (Fr_from_u64 8) Fr_one Hne).
  - apply (bool_decide_unpack _). vm_compute. exact I.
Defined.

Definition scoped_account : CompleteAddress :=
  {| ca_address := Fr_from_u64 77; ca_public_keys := example_keys; ca_partial_address := Fr_one |}.
Definition scoped_world : InMemoryKvStore := (AddressStore.add scoped_account InMemoryKvStore_new).1.
Definition scoped_key : Fr := poseidon2_hash (OracleCommon.point_fields Point_default).

Lemma key_request_scoped_witness : ∃ w' r,
  UtilityOracle.get_key_validation_request utility_oracle [[scoped_key]] scoped_world = (w', Ok r) ∧
  key_owned scoped_world [Fr_from_u64 77] scoped_key.
Proof.
  assert (is_Some (ok_opt (UtilityOracle.get_key_validation_request utility_oracle [[scoped_key]]
    scoped_world).2)) as Hr by (apply (bool_decide_unpack _); vm_compute; exact I).
  destruct (UtilityOracle.get_key_validation_request utility_oracle [[scoped_key]] scoped_world)
    as [w' [r|e|]] eqn:E; [|by destruct Hr..].
  exists w', r. split; [done|].
  assert (kv_wf scoped_world) as Hw.
  { unfold scoped_world, AddressStore.add, write_json, mthen, mlift.
    destruct (serde_roundtrip scoped_account) as (b & Hb & _). rewrite Hb.
    by destruct (kv_put_ok InMemoryKvStore_new (AddressStore.address_key (ca_address scoped_account)) b)
      as (w1 & -> & Hw1 & _); [constructor|]. }
  by apply (proj1 (key_request_scoped [[scoped_key]] scoped_key scoped_world Hw eq_refl) utility_oracle w' r).
Defined.
