(* ===== verification/Host.v ===== *)
(** What the prover takes from the operating system through the standard library: variables
    of the environment, files, processes.  Their behaviour is the world's. *)

From Stdlib Require Import Ascii String SpecFloat.
From S2P Require Import Prelude Bytes Ordered Deps Types Kv Rpc Node.

(** The output of a process: its success, its exit code and the text of its standard error. *)
Record CommandOutput := { co_success : bool; co_code : option Z; co_stderr : string }.

(** [env_var] is [std::env::var(..).ok()] and [current_dir] [std::env::current_dir().ok()];
    the file operations answer the [Display] text of an [io::Error].  A child has its
    standard input and output piped: [child_exited] is [try_wait] that answers a status,
    [child_read_line] answers an empty text at the end of the output, and [child_kill] kills
    the process and waits for it. *)
Class HostSystem (W : Type) := {
  env_var : string → M W (option string);
  current_dir : M W (option string);
  path_exists : string → M W bool;
  fs_read : string → M W (string + list byte);
  fs_read_to_string : string → M W (string + string);
  fs_write : string → list byte → M W (string + ());
  fs_create_dir_all : string → M W (string + ());
  fs_remove_dir_all : string → M W (string + ());
  run_command : string → list string → list (string * string) → M W (string + CommandOutput);
  child : Type;
  child_spawn : string → list string → list (string * string) → M W (string + child);
  child_exited : child → M W (string + bool);
  child_write : child → list byte → M W (string + ());
  child_flush : child → M W (string + ());
  child_read_line : child → M W (string + string);
  child_kill : child → M W ();
}.
#[global] Hint Mode HostSystem ! : typeclass_instances.
Arguments child W {_}.

(** [serde_json::to_vec] of a value, and the encoder of [base64]'s standard alphabet. *)
Class JsonWrite `{JS : JsonCrate} := { json_to_vec : json_value → list byte }.
Class Base64Encoder := { base64_encode : list byte → string }.
(** [impl Debug for str]: the quoted text with its escapes. *)
Class StrDebug := { str_debug : string → string }.
(** [Value::as_f64] of a number, from its text. *)
Class JsonFloat := { number_as_f64 : string → option spec_float }.

Section host.
Context {W : Type}.

(** [.map_err(|err| Error::InvalidData(format!("{what}: {err}")))]. *)
Definition or_invalid {A : Type} (what : string) (m : M W (string + A)) : M W A :=
  let! r := m in
  match r with
  | inl err => mlift (Err (InvalidData (what +:+ ": " +:+ err)))
  | inr a => mok a
  end.

(** [let _ = m.await]: only a panic is not ignored. *)
Definition ignoring {A : Type} (m : M W A) : M W () := let! _ := mtry m in mok ().

(** [start.elapsed().as_millis() as u64]. *)
Definition elapsed_millis `{!Clock W} (start : Z) : M W Z :=
  let! t := now in mok (wrap 64 ((t - start) / 1000000)).

(** [serde_json::from_slice]. *)
Definition json_from_slice {JS : JsonCrate} (bytes : list byte) : Outcome json_value :=
  json_from_str (from_bytes bytes).
End host.

(** [Path::join]: an absolute path replaces what it is joined to. *)
Definition path_join (dir path : string) : string :=
  match strip_prefix "/" path with
  | Some _ => path
  | None => match last (as_bytes dir) with
            | None => path
            | Some c => if decide (c = Ascii.ascii_of_nat 47) then dir +:+ path
                        else dir +:+ "/" +:+ path
            end
  end.

(** A variable that is set to a word for true. *)
Definition is_flag (value : option string) : bool :=
  match value with
  | Some v => bool_decide (v ∈ ["1"; "true"; "TRUE"])
  | None => false
  end.

(** ** [f64]

    Sums in IEEE 754 double precision; [round_u64] is [x.round().max(0.0) as u64]: halves
    are rounded away from zero, no number and the negative numbers are 0, and what is out of
    range is the last [u64]. *)

Definition f64_zero : spec_float := S754_zero false.
Definition f64_add : spec_float → spec_float → spec_float := SFadd 53 1024.
Definition f64_sum (l : list spec_float) : spec_float := foldl f64_add (S754_zero true) l.

Definition round_u64 (x : spec_float) : Z :=
  match x with
  | S754_zero _ | S754_nan | S754_infinity true | S754_finite true _ _ => 0
  | S754_infinity false => 2 ^ 64 - 1
  | S754_finite false m e =>
      Z.min (2 ^ 64 - 1)
        (if 0 <=? e then Zpos m * 2 ^ e else (Zpos m + 2 ^ (- e - 1)) / 2 ^ (- e))
  end.
