(* ===== verification/KernelOracle.v ===== *)
(** [crates/pxe/src/kernel/oracle.rs]: the hints of the private kernel circuits, preimages
    and membership witnesses from the local stores, the node and the table of the protocol's
    verification keys. *)

From Stdlib Require Import Ascii String SpecFloat.
From S2P Require Import Prelude Bytes Ordered Deps Types Constants Poseidon Merkle Grumpkin Crypto AbiTypes KernelTypes Tx Hash Deploy Kv Rpc Node LocalStores Host.

Section kernel_oracle.
Context {W : Type} {FR : PrimeField fr_modulus} {FQ : PrimeField fq_modulus} {HX : HexCrate}.
Context {P2 : Poseidon2Crate} {HC : HashCrates} {AG : GrumpkinCrate} {B64 : Base64Crate}.
Context `{JT : JsonText} {JM : JsonMake} `{KV : KvStore W} `{AN : !AztecNode W} `{HS : !HostSystem W}.
Context {AS : AbiSerde} {PK : ToValue PublicKeys}.
Context {SI : SerdeJson ContractInstanceWithAddress} {SA : SerdeJson (ContractArtifact FR JS)}.
Context {SV : SerdeJson json_value}.

(** A value inside [json!], whose serialization does not fail. *)
Definition serialized {T : Type} `{!ToValue T} (x : T) : Outcome JsonTree :=
  match to_value x with inl _ => Panic | inr v => Ok (json_tree v) end.

(** *** Preimages *)

Definition address_preimage (instance : ContractInstanceWithAddress) : Outcome json_value :=
  let inner := instance_inner instance in
  let? public_keys := serialized (ci_public_keys inner) in
  Ok (json_of (TObject
    [("address", fr_json (instance_address instance));
     ("saltedInitializationHash",
       fr_json (compute_salted_initialization_hash (ci_salt inner) (ci_initialization_hash inner)
                  (ci_deployer inner)));
     ("version", TNumber (pretty (ci_version inner)));
     ("salt", fr_json (ci_salt inner)); ("deployer", fr_json (ci_deployer inner));
     ("currentContractClassId", fr_json (ci_current_contract_class_id inner));
     ("originalContractClassId", fr_json (ci_original_contract_class_id inner));
     ("initializationHash", fr_json (ci_initialization_hash inner));
     ("publicKeys", public_keys)])).

Definition get_contract_address_preimage (address : AztecAddress) : M W json_value :=
  let! stored := ContractStore.get_instance address in
  let! instance := match stored with
    | Some instance => mok instance
    | None =>
        let! known := get_contract address in
        required known (InvalidData ("contract instance not found for address "
                                     +:+ Fr_to_string address))
    end in
  mlift (address_preimage instance).

(** The kernel's decoder answers no bytes where the hash of an artifact falls back to the
    text itself; a pair of digits is read as a number of base 16. *)
Fixpoint decode_pairs (bytes : list byte) : option (list byte) :=
  match bytes with
  | [] => Some []
  | [_] => None
  | a :: b :: rest =>
      match parse_hex_u64 (from_bytes [a; b]) with
      | Some n => cons (Z_byte n) <$> decode_pairs rest
      | None => None
      end
  end.

Definition decode_bytecode (encoded : string) : list byte :=
  match strip_prefix "0x" encoded with
  | Some hex => default [] (decode_pairs (as_bytes hex))
  | None => match base64_decode encoded with inr bs => bs | inl _ => [] end
  end.

Definition kernel_packed_bytecode (artifact : ContractArtifact FR JS) : list byte :=
  default [] ((find_first (λ f, bool_decide (function_type f = Public)
                                && String.eqb (fa_name f) "public_dispatch") (functions artifact)
                 ≫= bytecode) ≫= λ bc, Some (decode_bytecode bc)).

(** The three hashes of a class. *)
Record ClassPreimage := { cp_artifact_hash : Fr; cp_private_root : Fr; cp_commitment : Fr }.

Definition class_preimage (artifact : ContractArtifact FR JS) : Outcome ClassPreimage :=
  let artifact_hash := compute_artifact_hash artifact in
  let? private_functions_root := compute_private_functions_root_from_artifact artifact in
  let? public_bytecode_commitment :=
    compute_public_bytecode_commitment (kernel_packed_bytecode artifact) in
  Ok {| cp_artifact_hash := artifact_hash; cp_private_root := private_functions_root;
        cp_commitment := public_bytecode_commitment |}.

Definition contract_class_preimage (artifact : ContractArtifact FR JS) : Outcome json_value :=
  let? p := class_preimage artifact in
  Ok (json_of (TObject [("artifactHash", fr_json (cp_artifact_hash p));
                        ("privateFunctionsRoot", fr_json (cp_private_root p));
                        ("publicBytecodeCommitment", fr_json (cp_commitment p))])).

Definition get_contract_class_id_preimage (class_id : Fr) : M W json_value :=
  let! stored := ContractStore.get_class_preimage class_id in
  match stored with
  | Some preimage => mok preimage
  | None =>
      let! artifact := ContractStore.get_artifact class_id in
      match artifact with
      | Some artifact => mlift (contract_class_preimage artifact)
      | None =>
          let! class_data := get_contract_class class_id in
          required class_data (InvalidData ("contract class not found for id "
                                            +:+ Fr_to_string class_id))
      end
  end.

(** *** Membership witnesses *)

Definition membership_witness_json (witness : nat * list Fr) : json_value :=
  json_of (TObject [("leafIndex", TNumber (pretty (Z.of_nat witness.1)));
                    ("siblingPath", TArray (fr_json <$> witness.2))]).

Definition get_function_membership_witness (class_id function_selector : Fr) : M W json_value :=
  let! found := ContractStore.get_artifact class_id in
  let! artifact := required found
    (InvalidData ("contract artifact not found for private function witness class "
                  +:+ Fr_to_string class_id)) in
  let! witness := mlift (private_function_membership_witness artifact
                           (FunctionSelector_from_field function_selector)) in
  mok (membership_witness_json witness).

(** The text holds the nodes as 64 digits between single quotes; after a node the search
    goes on behind its closing quote. *)
Definition quote : byte := Z_byte 39.

Definition node_here (bytes : list byte) : option (list byte) :=
  match bytes with
  | c :: rest =>
      if decide (c = quote) then
        let hex := take 64 rest in
        if decide (rest !! 64%nat = Some quote) then
          if forallb is_hex_digit hex then Some hex else None
        else None
      else None
  | [] => None
  end.

Fixpoint vk_tree_nodes (fuel : nat) (bytes : list byte) : Outcome (list Fr) :=
  match fuel with
  | 0%nat => Ok []
  | S n =>
      if (66 <=? length bytes)%nat then
        match node_here bytes with
        | Some hex =>
            let? node := Fr_from_hex ("0x" +:+ from_bytes hex) in
            let? nodes := vk_tree_nodes n (drop 66 bytes) in
            Ok (node :: nodes)
        | None => vk_tree_nodes n (drop 1 bytes)
        end
      else Ok []
  end.

Definition is_power_of_two (n : Z) : bool := (0 <? n) && (n =? 2 ^ Z.log2 n).

Definition parse_vk_tree_nodes (contents : string) : Outcome (list Fr) :=
  let bytes := as_bytes contents in
  let? nodes := vk_tree_nodes (length bytes) bytes in
  let count := Z.of_nat (length nodes) in
  if decide (nodes = []) then Err (InvalidData "VK tree contains no nodes")
  else if negb (is_power_of_two count) && is_power_of_two (count + 1) then Ok nodes
  else Err (InvalidData ("VK tree has invalid flat node count " +:+ pretty count
                         +:+ "; expected 2^(height + 1) - 1")).

(** [into_iter().find(|path| path.exists())]. *)
Fixpoint first_existing (paths : list string) : M W (option string) :=
  match paths with
  | [] => mok None
  | path :: paths' =>
      let! exists_ := path_exists path in if (exists_ : bool) then mok (Some path) else first_existing paths'
  end.

Definition existing (path : option string) : M W (option string) :=
  match path with Some path => first_existing [path] | None => mok None end.

Definition locate_vk_tree_path : M W (option string) :=
  let! given := env_var "PXE_VK_TREE_PATH" in
  let! found := existing given in
  match found with
  | Some path => mok (Some path)
  | None =>
      let! packages := env_var "AZTEC_PACKAGES_PATH" in
      let! cwd := current_dir in
      let under root rest := (λ dir, path_join dir rest) <$> match root with
                                                            | Some dir => [dir] | None => [] end in
      first_existing
        (under packages "yarn-project/noir-protocol-circuits-types/src/vk_tree.ts"
         ++ under packages "noir-protocol-circuits-types/src/vk_tree.ts"
         ++ under cwd "../aztec-packages/yarn-project/noir-protocol-circuits-types/src/vk_tree.ts"
         ++ under cwd
              "../../aztec-packages/yarn-project/noir-protocol-circuits-types/src/vk_tree.ts")
  end.

Definition load_vk_tree : M W (list Fr) :=
  let! located := locate_vk_tree_path in
  let! path := required located (InvalidData
    "VK tree not found; set PXE_VK_TREE_PATH or AZTEC_PACKAGES_PATH so Rust can load noir-protocol-circuits-types/src/vk_tree.ts") in
  let! contents := or_invalid ("failed to read VK tree from " +:+ path) (fs_read_to_string path) in
  mlift (parse_vk_tree_nodes contents).

(** The leaf a key is at, and its path. *)
Definition vk_membership (nodes : list Fr) (vk_hash : Fr) : Outcome (nat * list Fr) :=
  let leaf_count := Nat.div2 (length nodes + 1) in
  let? leaf_index := ok_or (position (λ leaf, bool_decide (leaf = vk_hash)) (take leaf_count nodes))
    (InvalidData ("VK hash " +:+ Fr_to_string vk_hash +:+ " not found in VK tree")) in
  let? path := sibling_path_from_flat_tree nodes leaf_index in
  Ok (leaf_index, path).

Definition get_vk_membership_witness (vk_hash : Fr) : M W json_value :=
  let! nodes := load_vk_tree in
  let! witness := mlift (vk_membership nodes vk_hash) in
  mok (membership_witness_json witness).

(** *** What the node and the key store answer *)

Definition ko_note_hash_witness (note_hash : Fr) : M W (option json_value) :=
  get_note_hash_membership_witness 0 note_hash.
Definition ko_nullifier_witness (nullifier : Fr) : M W (option json_value) :=
  get_nullifier_membership_witness 0 nullifier.
Definition ko_block_hash_witness (block_hash : Fr) : M W (option json_value) :=
  get_block_hash_membership_witness 0 block_hash.

Definition get_note_hash_tree_root : M W Fr :=
  let! header := Node.get_block_header 0 in
  match json_pointer header "/state/partial/noteHashTree/root" ≫= json_as_str with
  | Some root => mlift (Fr_from_hex root)
  | None => mlift (Err (InvalidData "note hash tree root not found in block header"))
  end.

Definition get_master_secret_key (pk_hash : Fr) : M W (option Fr) := KeyStore.get_secret_key pk_hash.

Definition get_updated_class_id_hints (address : AztecAddress) : M W json_value :=
  mlift (Err (InvalidData ("updated class-id hints for contract " +:+ Fr_to_string address
                           +:+ " are not implemented yet"))).

Definition get_debug_function_name (contract_address : AztecAddress)
    (function_selector : FunctionSelector) : M W (option string) :=
  let! instance := ContractStore.get_instance contract_address in
  match instance with
  | None => mok None
  | Some instance =>
      let! artifact := ContractStore.get_artifact
                         (ci_current_contract_class_id (instance_inner instance)) in
      mok (artifact ≫= λ artifact,
             fa_name <$> find_function_by_selector artifact function_selector)
  end.
End kernel_oracle.
