(* ===== verification/KernelProver.v ===== *)
(** [crates/pxe/src/kernel/prover.rs] and [execution_prover.rs]: the interface of a prover of
    kernel circuits, the one that runs the [bb] binary, and the sequence of circuits that a
    transaction is proved by. *)

From Stdlib Require Import Ascii String SpecFloat.
From S2P Require Import Prelude Bytes Ordered Deps Types Constants Poseidon Merkle Grumpkin Crypto AbiTypes KernelTypes Tx Hash Deploy Kv Simulated Rpc Node LocalStores Host KernelOracle.

(** ** The interface *)

Section types.
Context {JS : JsonCrate}.

Record PrivateKernelSimulateOutput := {
  ks_public_inputs : json_value;
  ks_verification_key : list byte;
  ks_output_witness : list byte;
  ks_bytecode : list byte;
}.

Record StepTimings := { witgen_ms : Z; gate_count : option Z; oracles_ms : Z }.

Definition StepTimings_default : StepTimings :=
  {| witgen_ms := 0; gate_count := None; oracles_ms := 0 |}.

Record PrivateExecutionStep := {
  st_function_name : string;
  st_bytecode : list byte;
  st_witness : list byte;
  st_vk : list byte;
  st_timings : StepTimings;
}.

Record ChonkProofWithPublicInputs := { cp_proof : list byte; cp_public_inputs : list byte }.

Record ProvingTimings := { total_ms : Z; circuits : list (string * Z) }.

(** [trait PrivateKernelProver]. *)
Record PrivateKernelProver (W : Type) := {
  generate_init_output : json_value → M W PrivateKernelSimulateOutput;
  simulate_init : json_value → M W PrivateKernelSimulateOutput;
  generate_inner_output : json_value → M W PrivateKernelSimulateOutput;
  simulate_inner : json_value → M W PrivateKernelSimulateOutput;
  generate_reset_output : json_value → M W PrivateKernelSimulateOutput;
  simulate_reset : json_value → M W PrivateKernelSimulateOutput;
  generate_tail_output : json_value → M W PrivateKernelSimulateOutput;
  simulate_tail : json_value → M W PrivateKernelSimulateOutput;
  generate_hiding_to_rollup_output : json_value → M W PrivateKernelSimulateOutput;
  generate_hiding_to_public_output : json_value → M W PrivateKernelSimulateOutput;
  create_chonk_proof : list PrivateExecutionStep → M W ChonkProofWithPublicInputs;
  compute_gate_count_for_circuit : list byte → string → M W Z;
}.
End types.
#[global] Arguments generate_init_output {JS W} _ _.
#[global] Arguments simulate_init {JS W} _ _.
#[global] Arguments generate_inner_output {JS W} _ _.
#[global] Arguments simulate_inner {JS W} _ _.
#[global] Arguments generate_reset_output {JS W} _ _.
#[global] Arguments simulate_reset {JS W} _ _.
#[global] Arguments generate_tail_output {JS W} _ _.
#[global] Arguments simulate_tail {JS W} _ _.
#[global] Arguments generate_hiding_to_rollup_output {JS W} _ _.
#[global] Arguments generate_hiding_to_public_output {JS W} _ _.
#[global] Arguments create_chonk_proof {JS W} _ _.
#[global] Arguments compute_gate_count_for_circuit {JS W} _ _ _.

(** ** The [bb] binary *)

Inductive ProofRequestFormat := ReqJson | ReqBinaryV1.
#[global] Instance ProofRequestFormat_eq_dec : EqDecision ProofRequestFormat.
Proof. solve_decision. Defined.

Definition ProofRequestFormat_as_str (f : ProofRequestFormat) : string :=
  match f with ReqJson => "json" | ReqBinaryV1 => "binary-v1" end.

Record BbProverConfig := {
  bb_binary_path : string;
  working_directory : string;
  hardware_concurrency : option Z;
  skip_cleanup : bool;
}.

(** The paths of a success are not set anywhere. *)
Inductive BbResult :=
  | BbSuccess (duration_ms : Z)
  | BbFailure (reason : string) (retry : bool).

Section bb.
Context {W : Type} `{HS : !HostSystem W} `{CL : !Clock W} {SD : StrDebug}.
Context `{JT : JsonText} {JM : JsonMake} {JW : JsonWrite} {B64 : Base64Crate} {B64E : Base64Encoder}.
(** [env!("CARGO_MANIFEST_DIR")], where the crate was built. *)
Context (CARGO_MANIFEST_DIR : string).

Definition format_unsupported (other : string) : Error :=
  InvalidData ("unsupported PXE_REAL_PROOF_REQUEST_FORMAT " +:+ str_debug other
               +:+ "; expected json or binary-v1").

Definition ProofRequestFormat_selected : M W ProofRequestFormat :=
  let! given := env_var "PXE_REAL_PROOF_REQUEST_FORMAT" in
  let value := default "binary-v1" given in
  if String.eqb value "json" then mok ReqJson
  else if String.eqb value "binary-v1" then mok ReqBinaryV1
  else mlift (Err (format_unsupported value)).

Definition parse_u32_text (s : string) : option Z :=
  parse_u64 s ≫= λ n, if n <? 2 ^ 32 then Some n else None.

Definition BbProverConfig_default : M W BbProverConfig :=
  let! given := env_var "HOME" in
  let home := default "" given in
  let! bb_path := env_var "BB_BINARY_PATH" in
  let! work_dir := env_var "BB_WORKING_DIRECTORY" in
  let! concurrency := env_var "HARDWARE_CONCURRENCY" in
  let! cleanup := env_var "BB_SKIP_CLEANUP" in
  mok {| bb_binary_path := default (home +:+
           "/.aztec/versions/4.2.0-aztecnr-rc.2/node_modules/@aztec/bb.js/build/arm64-macos/bb") bb_path;
         working_directory := default (home +:+ "/.aztec/bb-working") work_dir;
         hardware_concurrency := concurrency ≫= parse_u32_text;
         skip_cleanup := match cleanup with
                         | Some v => bool_decide (v ∈ ["true"; "1"]) | None => false end |}.

Fixpoint first_with (file : string) (paths : list string) : M W (option string) :=
  match paths with
  | [] => mok None
  | path :: paths' =>
      let! there := path_exists (path_join path file) in
      if (there : bool) then mok (Some path) else first_with file paths'
  end.

Definition locate_aztec_packages_path : M W (option string) :=
  let! given := env_var "AZTEC_PACKAGES_PATH" in
  let! found := existing given in
  match found with
  | Some path => mok (Some path)
  | None =>
      let! cwd := current_dir in
      match cwd with
      | None => mok None
      | Some cwd =>
          first_with "yarn-project/package.json"
            [path_join cwd "../aztec-packages"; path_join cwd "../../aztec-packages";
             "/Users/alexmetelli/source/aztec-packages"]
      end
  end.

(** [command.env("AZTEC_PACKAGES_PATH", path)]. *)
Definition packages_env : M W (list (string * string)) :=
  let! located := locate_aztec_packages_path in
  mok match located with Some path => [("AZTEC_PACKAGES_PATH", path)] | None => [] end.

Definition tool (script : string) : string := path_join CARGO_MANIFEST_DIR ("../../tools/" +:+ script).

Section prover.
Context (config : BbProverConfig).

Definition exit_code_debug (code : option Z) : string :=
  match code with Some n => "Some(" +:+ pretty n +:+ ")" | None => "None" end.

Definition execute_bb (command : string) (args : list string) : M W BbResult :=
  let bb_path := bb_binary_path config in
  let! there := path_exists bb_path in
  if negb there then mok (BbFailure ("bb binary not found at " +:+ bb_path) false)
  else
    let! start := now in
    let! output := or_invalid "failed to execute bb binary"
      (run_command bb_path (command :: args)
         match hardware_concurrency config with
         | Some n => [("HARDWARE_CONCURRENCY", pretty n)] | None => [] end) in
    let! duration_ms := elapsed_millis start in
    if co_success output then mok (BbSuccess duration_ms)
    else mok (BbFailure ("bb " +:+ command +:+ " failed with exit code "
                         +:+ exit_code_debug (co_code output) +:+ ": " +:+ co_stderr output) false).

Definition ensure_working_dir : M W string :=
  let dir := working_directory config in
  or_invalid "failed to create working directory" (fs_create_dir_all dir) ;;!
  mok dir.

Definition simulate_circuit (circuit_type : string) (inputs : json_value)
    : M W PrivateKernelSimulateOutput :=
  mlift (Err (InvalidData ("kernel circuit simulation for " +:+ circuit_type
                           +:+ " is not wired to real artifacts yet"))).

Definition generate_circuit_output (circuit_type : string) (inputs : json_value)
    : M W PrivateKernelSimulateOutput :=
  ensure_working_dir ;;!
  mlift (Err (InvalidData ("kernel witness generation for " +:+ circuit_type
                           +:+ " is not wired to real artifacts yet"))).

(** One step of a request, inside it or in three files beside it. *)
Definition request_step (request_format : ProofRequestFormat) (sidecar_dir : string)
    (index : nat) (step : PrivateExecutionStep) : M W JsonTree :=
  let name := ("functionName", TString (st_function_name step)) in
  match request_format with
  | ReqJson =>
      mok (TObject [name; ("bytecodeBase64", TString (base64_encode (st_bytecode step)));
                    ("witnessBase64", TString (base64_encode (st_witness step)));
                    ("vkBase64", TString (base64_encode (st_vk step)))])
  | ReqBinaryV1 =>
      let file what := path_join sidecar_dir ("step-" +:+ pretty (Z.of_nat index) +:+ "-" +:+ what +:+ ".bin") in
      or_invalid "failed to write ClientIVC bytecode" (fs_write (file "bytecode") (st_bytecode step)) ;;!
      or_invalid "failed to write ClientIVC witness" (fs_write (file "witness") (st_witness step)) ;;!
      or_invalid "failed to write ClientIVC VK" (fs_write (file "vk") (st_vk step)) ;;!
      mok (TObject [name; ("bytecodePath", TString (file "bytecode"));
                    ("witnessPath", TString (file "witness")); ("vkPath", TString (file "vk"))])
  end.

Fixpoint request_steps (request_format : ProofRequestFormat) (sidecar_dir : string) (index : nat)
    (steps : list PrivateExecutionStep) : M W (list JsonTree) :=
  match steps with
  | [] => mok []
  | step :: steps' =>
      let! json := request_step request_format sidecar_dir index step in
      let! rest := request_steps request_format sidecar_dir (S index) steps' in
      mok (json :: rest)
  end.

(** A member of a response that holds bytes in base 64. *)
Definition response_bytes (response : json_value) (member : string) (missing : string)
    (invalid : string) : Outcome (list byte) :=
  match json_get response member ≫= json_as_str with
  | None => Err (InvalidData missing)
  | Some text => match base64_decode text with
                 | inr bytes => Ok bytes
                 | inl e => Err (InvalidData (invalid +:+ ": " +:+ e))
                 end
  end.

Definition bb_create_chonk_proof (execution_steps : list PrivateExecutionStep)
    : M W ChonkProofWithPublicInputs :=
  let! start := now in
  let! work_dir := ensure_working_dir in
  let chonk_dir := path_join work_dir "chonk" in
  or_invalid "failed to create chonk dir" (fs_create_dir_all chonk_dir) ;;!
  let request_path := path_join chonk_dir "client_ivc_request.json" in
  let response_path := path_join chonk_dir "client_ivc_response.json" in
  let sidecar_dir := path_join chonk_dir "binary-v1" in
  let! request_format := ProofRequestFormat_selected in
  (if decide (request_format = ReqBinaryV1) then
     or_invalid "failed to create ClientIVC sidecar dir" (fs_create_dir_all sidecar_dir)
   else mok ()) ;;!
  let! steps := request_steps request_format sidecar_dir 0 execution_steps in
  let request := json_of (TObject
    [("threads", match hardware_concurrency config with
                 | Some n => TNumber (pretty n) | None => TNull end);
     ("requestFormat", TString (ProofRequestFormat_as_str request_format));
     ("executionSteps", TArray steps)]) in
  or_invalid "failed to write ClientIVC request" (fs_write request_path (json_to_vec request)) ;;!
  let! env := packages_env in
  let! output := or_invalid "failed to execute ClientIVC helper"
    (run_command "node" [tool "client_ivc_prove.mjs"; request_path; response_path] env) in
  if negb (co_success output) then
    mlift (Err (InvalidData ("ClientIVC proof helper failed: " +:+ co_stderr output)))
  else
    let! bytes := or_invalid "failed to read ClientIVC response" (fs_read response_path) in
    let! response := mlift (json_from_slice bytes) in
    let! proof := mlift (response_bytes response "proofBase64"
      "ClientIVC response missing proof" "invalid base64 ClientIVC proof") in
    let! public_inputs := mlift (response_bytes response "publicInputsBase64"
      "ClientIVC response missing public inputs" "invalid base64 ClientIVC public inputs") in
    (if skip_cleanup config then mok () else ignoring (fs_remove_dir_all chonk_dir)) ;;!
    mok {| cp_proof := proof; cp_public_inputs := public_inputs |}.

(** The count itself is not read: a success answers 0. *)
Definition bb_compute_gate_count (bytecode : list byte) (circuit_name : string) : M W Z :=
  let! work_dir := ensure_working_dir in
  let gates_dir := path_join work_dir "gates" in
  or_invalid "failed to create gates dir" (fs_create_dir_all gates_dir) ;;!
  let bytecode_path := path_join gates_dir (circuit_name +:+ "-bytecode") in
  or_invalid "failed to write bytecode" (fs_write bytecode_path bytecode) ;;!
  let! result := execute_bb "gates" ["--scheme"; "ultra_honk"; "-b"; bytecode_path; "-v"] in
  (if skip_cleanup config then mok () else ignoring (fs_remove_dir_all gates_dir)) ;;!
  match result with
  | BbSuccess _ => mok 0
  | BbFailure reason _ => mlift (Err (InvalidData ("gate count failed: " +:+ reason)))
  end.

Definition BbPrivateKernelProver : PrivateKernelProver W :=
  {| generate_init_output := generate_circuit_output "PrivateKernelInitArtifact";
     simulate_init := simulate_circuit "PrivateKernelInitArtifact";
     generate_inner_output := generate_circuit_output "PrivateKernelInnerArtifact";
     simulate_inner := simulate_circuit "PrivateKernelInnerArtifact";
     generate_reset_output := generate_circuit_output "PrivateKernelResetArtifact";
     simulate_reset := simulate_circuit "PrivateKernelResetArtifact";
     generate_tail_output := generate_circuit_output "PrivateKernelTailArtifact";
     simulate_tail := simulate_circuit "PrivateKernelTailArtifact";
     generate_hiding_to_rollup_output := generate_circuit_output "HidingKernelToRollup";
     generate_hiding_to_public_output := generate_circuit_output "HidingKernelToPublic";
     create_chonk_proof := bb_create_chonk_proof;
     compute_gate_count_for_circuit := bb_compute_gate_count |}.
End prover.
End bb.

(** ** The sequence of circuits *)

(** [WitnessMap::serialize] of [acir]. *)
Class WitnessCode `{AC : AcirCrate} := { serialize_witness : list (Z * fe) → string + list byte }.

Record KernelExecutionConfig := {
  kx_simulate : bool;
  kx_skip_fee_enforcement : bool;
  kx_profile_mode : string;
}.

Definition KernelExecutionConfig_default : KernelExecutionConfig :=
  {| kx_simulate := false; kx_skip_fee_enforcement := false; kx_profile_mode := "none" |}.

Section execution_prover.
Context {W : Type} {FR : PrimeField fr_modulus} {FQ : PrimeField fq_modulus} {HX : HexCrate}.
Context {AC : AcirCrate} {WC : WitnessCode} {P2 : Poseidon2Crate} {HC : HashCrates}.
Context {AG : GrumpkinCrate} {B64 : Base64Crate} `{JT : JsonText} {JM : JsonMake}.
Context `{KV : KvStore W} `{AN : !AztecNode W} `{HS : !HostSystem W} `{CL : !Clock W}.
Context {PK : ToValue PublicKeys}.
Context {SI : SerdeJson ContractInstanceWithAddress} {SA : SerdeJson (ContractArtifact FR JS)}.

Record PrivateCallExecution := {
  pce_contract_address : AztecAddress;
  pce_tx_request : json_value;
  pce_call_stack_item : json_value;
  pce_execution_result_json : json_value;
  pce_execution_result : PrivateCallExecutionResult;
}.

Record KernelProvingResult := {
  kp_public_inputs : json_value;
  kp_chonk_proof : option ChonkProofWithPublicInputs;
  kp_execution_steps : list PrivateExecutionStep;
  kp_timings : ProvingTimings;
}.

Context (prover : PrivateKernelProver W) (config : KernelExecutionConfig).

(** *** Inputs *)

Definition private_call_json (call : PrivateCallExecution) : string * JsonTree :=
  ("privateCall", TObject [("callStackItem", json_tree (pce_call_stack_item call));
                           ("executionResult", json_tree (pce_execution_result_json call))]).

Definition previous_json (output : PrivateKernelSimulateOutput) : string * JsonTree :=
  ("previousKernelData", TObject [("publicInputs", json_tree (ks_public_inputs output))]).

(** The key looked up is the zero hash. *)
Definition call_inputs (call : PrivateCallExecution) (first_member : string * JsonTree)
    : M W json_value :=
  let! contract_preimage := get_contract_address_preimage (pce_contract_address call) in
  let! vk := get_vk_membership_witness Fr_zero in
  mok (json_of (TObject [first_member; private_call_json call;
                         ("contractInstance", json_tree contract_preimage);
                         ("vkMembershipWitness", json_tree vk)])).

Definition build_init_inputs (call : PrivateCallExecution) : M W json_value :=
  call_inputs call ("txRequest", json_tree (pce_tx_request call)).

Definition build_inner_inputs (call : PrivateCallExecution) (previous : PrivateKernelSimulateOutput)
    : M W json_value := call_inputs call (previous_json previous).

Definition build_reset_inputs (current : PrivateKernelSimulateOutput) : json_value :=
  json_of (TObject [previous_json current; ("silo", TBool false)]).
Definition build_final_reset_inputs (current : PrivateKernelSimulateOutput) : json_value :=
  json_of (TObject [previous_json current; ("silo", TBool true)]).
Definition build_tail_inputs (current : PrivateKernelSimulateOutput) : json_value :=
  json_of (TObject [previous_json current]).
Definition build_hiding_inputs (tail_output : PrivateKernelSimulateOutput) : json_value :=
  json_of (TObject [previous_json tail_output]).

(** No reset is made between the calls. *)
Definition needs_reset (output : PrivateKernelSimulateOutput) : bool := false.

Definition output_is_for_public (output : PrivateKernelSimulateOutput) : bool :=
  match json_pointer (ks_public_inputs output) "/end/publicCallRequests" ≫= json_as_array with
  | Some requests => negb (bool_decide (length requests = 0%nat))
  | None => false
  end.

(** *** Steps *)

Definition output_to_step (output : PrivateKernelSimulateOutput) (function_name : string)
    : PrivateExecutionStep :=
  {| st_function_name := function_name; st_bytecode := ks_bytecode output;
     st_witness := ks_output_witness output; st_vk := ks_verification_key output;
     st_timings := StepTimings_default |}.

Definition call_to_step (call : PrivateCallExecution) : M W PrivateExecutionStep :=
  let result := pce_execution_result call in
  let context := ce_call_context result in
  let! name := get_debug_function_name (cc_contract_address context)
                 (FunctionSelector_from_field (cc_function_selector context)) in
  let! witness := or_invalid "failed to serialize private app witness"
                    (mok (serialize_witness (ce_partial_witness result))) in
  mok {| st_function_name := default "private_call" name; st_bytecode := ce_acir result;
         st_witness := witness; st_vk := ce_vk result; st_timings := StepTimings_default |}.

(** The mutable variables of [prove_with_kernels]. *)
Record Sequence := {
  sq_output : PrivateKernelSimulateOutput;
  sq_steps : list PrivateExecutionStep;
  sq_circuits : list (string * Z);
}.

(** The step of the application's own circuit, which a simulation does not need. *)
Definition push_call (call : PrivateCallExecution) (steps : list PrivateExecutionStep)
    : M W (list PrivateExecutionStep) :=
  if kx_simulate config then mok steps
  else let! step := call_to_step call in mok (steps ++ [step]).

(** One kernel circuit: its output, and its step where it is not only simulated. *)
Definition run_circuit (simulate generate : json_value → M W PrivateKernelSimulateOutput)
    (step_name : string) (inputs : json_value) (steps : list PrivateExecutionStep)
    : M W (PrivateKernelSimulateOutput * list PrivateExecutionStep) :=
  if kx_simulate config then let! output := simulate inputs in mok (output, steps)
  else let! output := generate inputs in mok (output, steps ++ [output_to_step output step_name]).

Definition timed_from {A : Type} (start : Z) (label : string) (circuits : list (string * Z))
    (m : M W A) : M W (A * list (string * Z)) :=
  let! a := m in
  let! ms := elapsed_millis start in
  mok (a, circuits ++ [(label, ms)]).

Definition timed_now {A : Type} (label : string) (circuits : list (string * Z)) (m : M W A)
    : M W (A * list (string * Z)) := let! start := now in timed_from start label circuits m.

Definition init_circuit (start : Z) (first : PrivateCallExecution) : M W Sequence :=
  let! ran := timed_from start "init" [] (
    let! steps := push_call first [] in
    let! inputs := build_init_inputs first in
    run_circuit (simulate_init prover) (generate_init_output prover) "private_kernel_init" inputs steps) in
  let '((output, steps), circuits) := ran in
  mok {| sq_output := output; sq_steps := steps; sq_circuits := circuits |}.

Definition reset_circuit (label step_name : string) (inputs : json_value) (s : Sequence)
    : M W Sequence :=
  let! ran := timed_now label (sq_circuits s)
    (run_circuit (simulate_reset prover) (generate_reset_output prover) step_name inputs (sq_steps s)) in
  let '((output, steps), circuits) := ran in
  mok {| sq_output := output; sq_steps := steps; sq_circuits := circuits |}.

Definition inner_circuit (i : nat) (call : PrivateCallExecution) (s : Sequence) : M W Sequence :=
  let number := pretty (Z.of_nat i) in
  let! ran := timed_now ("inner_" +:+ number) (sq_circuits s) (
    let! steps := push_call call (sq_steps s) in
    let! inputs := build_inner_inputs call (sq_output s) in
    run_circuit (simulate_inner prover) (generate_inner_output prover)
      ("private_kernel_inner_" +:+ number) inputs steps) in
  let '((output, steps), circuits) := ran in
  let s := {| sq_output := output; sq_steps := steps; sq_circuits := circuits |} in
  if needs_reset output then
    reset_circuit ("reset_" +:+ number) ("private_kernel_reset_" +:+ number)
      (build_reset_inputs output) s
  else mok s.

(** [enumerate().skip(1)]. *)
Fixpoint inner_circuits (i : nat) (calls : list PrivateCallExecution) (s : Sequence) : M W Sequence :=
  match calls with
  | [] => mok s
  | call :: calls' => let! s := inner_circuit i call s in inner_circuits (S i) calls' s
  end.

Definition tail_circuit (s : Sequence) : M W Sequence :=
  let name := if output_is_for_public (sq_output s) then "private_kernel_tail_to_public"
              else "private_kernel_tail" in
  let! ran := timed_now "tail" (sq_circuits s)
    (run_circuit (simulate_tail prover) (generate_tail_output prover) name
       (build_tail_inputs (sq_output s)) (sq_steps s)) in
  let '((output, steps), circuits) := ran in
  mok {| sq_output := output; sq_steps := steps; sq_circuits := circuits |}.

(** The output of the hiding kernel is only a step: the result keeps that of the tail. *)
Definition hiding_circuit (for_public : bool) (s : Sequence) : M W Sequence :=
  if kx_simulate config then mok s
  else
    let inputs := build_hiding_inputs (sq_output s) in
    let! ran := timed_now "hiding" (sq_circuits s)
      (if for_public then
         let! output := generate_hiding_to_public_output prover inputs in
         mok (sq_steps s ++ [output_to_step output "hiding_kernel_to_public"])
       else
         let! output := generate_hiding_to_rollup_output prover inputs in
         mok (sq_steps s ++ [output_to_step output "hiding_kernel_to_rollup"])) in
    let '(steps, circuits) := ran in
    mok {| sq_output := sq_output s; sq_steps := steps; sq_circuits := circuits |}.

Definition aggregate_proof (s : Sequence)
    : M W (option ChonkProofWithPublicInputs * list (string * Z)) :=
  if negb (kx_simulate config) && negb (bool_decide (length (sq_steps s) = 0%nat)) then
    let! ran := timed_now "chonk" (sq_circuits s) (create_chonk_proof prover (sq_steps s)) in
    mok (Some ran.1, ran.2)
  else mok (None, sq_circuits s).

Definition prove_with_kernels (execution_results : list PrivateCallExecution)
    : M W KernelProvingResult :=
  let! start := now in
  match execution_results with
  | [] => mlift (Err (InvalidData "no execution results to prove"))
  | first :: nested =>
      let! s := init_circuit start first in
      let! s := inner_circuits 1 nested s in
      let! s := reset_circuit "reset_final" "private_kernel_reset_final"
                  (build_final_reset_inputs (sq_output s)) s in
      let for_public := output_is_for_public (sq_output s) in
      let! s := tail_circuit s in
      let! s := hiding_circuit for_public s in
      let! proof := aggregate_proof s in
      let! total := elapsed_millis start in
      mok {| kp_public_inputs := ks_public_inputs (sq_output s); kp_chonk_proof := proof.1;
             kp_execution_steps := sq_steps s;
             kp_timings := {| total_ms := total; circuits := proof.2 |} |}
  end.
End execution_prover.
