(* ===== verification/PxeExecution.v ===== *)
(** [crates/pxe/src/embedded_pxe.rs], the execution of a transaction request: the calls its
    entrypoint payload encodes, each executed through the oracle or answered for a protocol
    contract, the bundle of their results, and the constants of the transaction. *)

From Stdlib Require Import Ascii String.
From coqutil Require Import Datatypes.RecordSetters.
From S2P Require Import Prelude Bytes Ordered Deps Concrete Types Constants Poseidon Grumpkin Crypto AbiTypes KernelTypes Tx Hash Deploy Kv Simulated Rpc Node LocalStores TaggingStores NoteStore EventStore Sync PickNotes AcvmExecutor Pxe Entrypoint OracleCommon TaggingSecret Oracle UtilityOracle.
Import DoubleBraceUpdate.

(** ** Requests *)

Section requests.
Context {FR : PrimeField fr_modulus} {HX : HexCrate} {AC : AcirCrate}.

Record DecodedTxExecutionRequest := {
  dr_origin : AztecAddress;
  dr_first_call_args_hash : Fr;
  dr_args_of_calls : list HashedValues;
  dr_fee_payer : option AztecAddress;
}.

(** [WireTxRequest] of [tx_request_hash] and of [tx_request_fields_for_kernel]. *)
Record WireTxRequest := {
  wr_origin : AztecAddress;
  wr_function_selector : FunctionSelector;
  wr_first_call_args_hash : Fr;
  wr_tx_context : TxContext;
  wr_salt : Fr;
}.

Record ParsedEntrypointCall := {
  pe_args_hash : Fr;
  pe_selector : FunctionSelector;
  pe_to : AztecAddress;
  pe_is_public : bool;
  pe_hide_msg_sender : bool;
  pe_is_static : bool;
}.

Record DecodedEntrypointCall := {
  de_to : AztecAddress;
  de_selector : FunctionSelector;
  de_encoded_args : list Fr;
  de_hide_msg_sender : bool;
  de_is_static : bool;
}.

Record CallExecutionBundle := {
  cb_execution_result : PrivateExecutionResult;
  cb_contract_class_log_fields : list ContractClassLogFields;
  cb_public_function_calldata : list HashedValues;
  cb_first_acir_call_return_values : list Fr;
  cb_simulated_return_values : list Fr;
}.

Definition CALL_FIELDS : nat := 6.
Definition APP_MAX_CALLS : nat := 5.

Definition is_nonzero (f : Fr) : bool := bool_decide (f ≠ Fr_zero).

Definition encoded_call_at (fields : list Fr) (idx : nat) : ParsedEntrypointCall :=
  let offset := (idx * CALL_FIELDS)%nat in
  {| pe_args_hash := arg fields offset;
     pe_selector := FunctionSelector_from_field (arg fields (offset + 1));
     pe_to := arg fields (offset + 2); pe_is_public := is_nonzero (arg fields (offset + 3));
     pe_hide_msg_sender := is_nonzero (arg fields (offset + 4));
     pe_is_static := is_nonzero (arg fields (offset + 5)) |}.

Definition parse_encoded_calls (fields : list Fr) : Outcome (list ParsedEntrypointCall) :=
  let required := (CALL_FIELDS * APP_MAX_CALLS + 1)%nat in
  if (length fields <? required)%nat then
    Err (InvalidData ("entrypoint args too short: " +:+ pretty (length fields) +:+ " < "
                      +:+ pretty required))
  else Ok (encoded_call_at fields <$> seq 0 APP_MAX_CALLS).

(** [iter().find(|hv| hv.hash == hash)]. *)
Definition find_hashed (hash : Fr) (values : list HashedValues) : option HashedValues :=
  List.find (λ hv, bool_decide (hv_hash hv = hash)) values.

Definition entrypoint_values (request : DecodedTxExecutionRequest) : Outcome HashedValues :=
  ok_or (find_hashed (dr_first_call_args_hash request) (dr_args_of_calls request))
    (InvalidData "firstCallArgsHash not found in argsOfCalls").

(** One iteration over the encoded calls: a slot without a call is skipped, and the
    calldata of a public call starts with its selector. *)
Definition decode_call (request : DecodedTxExecutionRequest) (decoded : list DecodedEntrypointCall)
    (call : ParsedEntrypointCall) : Outcome (list DecodedEntrypointCall) :=
  if bool_decide (pe_to call = AztecAddress_zero)
     || bool_decide (pe_selector call = FunctionSelector_empty)
  then Ok decoded
  else
    let? hashed_args := ok_or (find_hashed (pe_args_hash call) (dr_args_of_calls request))
      (InvalidData ("call args hash " +:+ Fr_to_string (pe_args_hash call)
                    +:+ " not found in argsOfCalls")) in
    Ok (decoded ++
        [{| de_to := pe_to call; de_selector := pe_selector call;
            de_encoded_args := if pe_is_public call then drop 1 (hv_values hashed_args)
                               else hv_values hashed_args;
            de_hide_msg_sender := pe_hide_msg_sender call; de_is_static := pe_is_static call |}]).

Definition decode_entrypoint_calls (request : DecodedTxExecutionRequest)
    : Outcome (list DecodedEntrypointCall) :=
  let? entrypoint_args := entrypoint_values request in
  let? encoded_calls := parse_encoded_calls (hv_values entrypoint_args) in
  ofoldl (decode_call request) [] encoded_calls.

Definition decode_entrypoint_call (request : DecodedTxExecutionRequest)
    : Outcome (option DecodedEntrypointCall) :=
  let? calls := decode_entrypoint_calls request in Ok (head calls).

(** [has_public_calls] of [prove_tx]: a payload that does not parse has none. *)
Definition has_public_calls (request : DecodedTxExecutionRequest) : bool :=
  match find_hashed (dr_first_call_args_hash request) (dr_args_of_calls request) with
  | Some entrypoint_args =>
      match parse_encoded_calls (hv_values entrypoint_args) with
      | Ok calls => existsb pe_is_public calls
      | _ => false
      end
  | None => false
  end.

Context {JS : JsonCrate} {P2 : Poseidon2Crate} {FW : FromValue WireTxRequest}.

Definition wire_request (tx_request : pxe.TxExecutionRequest) : Outcome WireTxRequest :=
  match from_value (pxe.tr_data tx_request) with
  | Ok request => Ok request
  | Err (Json text) => Err (InvalidData ("invalid tx request payload: " +:+ text))
  | Err e => Err e
  | Panic => Panic
  end.

Definition tx_request_hash (tx_request : pxe.TxExecutionRequest) : Outcome Fr :=
  let? request := wire_request tx_request in
  Ok (compute_tx_request_hash (wr_origin request) (wr_first_call_args_hash request)
        (wr_tx_context request) (wr_function_selector request) true (wr_salt request)).

Definition tx_request_fields_for_kernel (tx_request : pxe.TxExecutionRequest) : Outcome (list Fr) :=
  let? request := wire_request tx_request in
  Ok (tx_request_fields (wr_origin request) (wr_first_call_args_hash request)
        (wr_tx_context request) (wr_function_selector request) true (wr_salt request)).

Definition extract_origin (tx_request : pxe.TxExecutionRequest) : AztecAddress :=
  default Fr_zero ((json_get (pxe.tr_data tx_request) "origin" ≫= json_as_str)
                     ≫= λ s, ok_opt (Fr_from_hex s)).

Definition extract_args (data : json_value) : list Fr := LogService.fields_of (json_get data "args").
End requests.

(** ** Bundles of results *)

Section bundles.
Context {FR : PrimeField fr_modulus} {HX : HexCrate} {AC : AcirCrate}.

(** [..Default::default()]. *)
Definition CallContext_default : CallContext :=
  {| cc_msg_sender := AztecAddress_zero; cc_contract_address := AztecAddress_zero;
     cc_function_selector := Fr_zero; cc_is_static_call := false |}.

Definition CallResult_default : PrivateCallExecutionResult :=
  {| ce_acir := []; ce_vk := []; ce_partial_witness := []; ce_contract_address := AztecAddress_zero;
     ce_call_context := CallContext_default; ce_return_values := []; ce_public_inputs_fields := [];
     ce_new_notes := []; ce_note_hash_nullifier_counter_map := ∅; ce_offchain_effects := [];
     ce_pre_tags := []; ce_nested_execution_results := []; ce_contract_class_logs := [];
     ce_note_hashes := []; ce_nullifiers := []; ce_note_hash_read_requests := [];
     ce_nullifier_read_requests := []; ce_private_logs := []; ce_public_call_requests := [];
     ce_public_teardown_call_request := None; ce_start_side_effect_counter := 0;
     ce_end_side_effect_counter := 0; ce_min_revertible_side_effect_counter := 0 |}.

(** A result without calldata, return values or an expiration. *)
Definition bare_bundle (entrypoint : PrivateCallExecutionResult) (first_nullifier : Fr)
    (logs : list ContractClassLogFields) (calldata : list HashedValues) : CallExecutionBundle :=
  {| cb_execution_result := {| er_entrypoint := entrypoint; er_first_nullifier := first_nullifier;
                               er_expiration_timestamp := 0; er_public_function_calldata := calldata |};
     cb_contract_class_log_fields := logs; cb_public_function_calldata := calldata;
     cb_first_acir_call_return_values := []; cb_simulated_return_values := [] |}.

(** *** Joining the bundles of the calls *)

(** [u32::saturating_add]. *)
Definition saturating_add (offset n : Z) : Z := Z.min (n + offset) (2 ^ 32 - 1).

Section offset.
Context (offset : Z).
Notation add := (saturating_add offset).

Definition offset_note (n : NoteAndSlot) : NoteAndSlot := n {{ ns_counter := add (ns_counter n) }}.
Definition offset_class_log (l : CountedContractClassLog) : CountedContractClassLog :=
  {| cccl_log := cccl_log l; cccl_counter := add (cccl_counter l) |}.
Definition offset_note_hash (n : ScopedNoteHash) : ScopedNoteHash :=
  {| snh_note_hash := {| nh_value := nh_value (snh_note_hash n);
                         nh_counter := add (nh_counter (snh_note_hash n)) |};
     snh_contract_address := snh_contract_address n |}.
Definition offset_nullifier (n : ScopedNullifier) : ScopedNullifier :=
  {| snf_nullifier := {| nf_value := nf_value (snf_nullifier n);
                         nf_note_hash := nf_note_hash (snf_nullifier n);
                         nf_counter := add (nf_counter (snf_nullifier n)) |};
     snf_contract_address := snf_contract_address n |}.
Definition offset_read_request (r : ScopedReadRequest) : ScopedReadRequest :=
  {| srr_read_request := {| rr_value := rr_value (srr_read_request r);
                            rr_counter := add (rr_counter (srr_read_request r)) |};
     srr_contract_address := srr_contract_address r |}.
(** The counter of the note hash that a log belongs to is left as it is. *)
Definition offset_private_log (l : PrivateLogData) : PrivateLogData :=
  {| pld_fields := pld_fields l; pld_emitted_length := pld_emitted_length l;
     pld_note_hash_counter := pld_note_hash_counter l; pld_counter := add (pld_counter l);
     pld_contract_address := pld_contract_address l |}.
Definition offset_public_call (r : PublicCallRequestData) : PublicCallRequestData :=
  {| pcd_contract_address := pcd_contract_address r; pcd_msg_sender := pcd_msg_sender r;
     pcd_is_static_call := pcd_is_static_call r; pcd_calldata_hash := pcd_calldata_hash r;
     pcd_counter := add (pcd_counter r) |}.
(** Where two counters saturate to one the entry that stays is not determined. *)
Definition offset_counter_map (m : gmap Z Z) : gmap Z Z :=
  list_to_map ((λ nc, (add nc.1, add nc.2)) <$> map_to_list m).

Fixpoint offset_private_call_result (call : PrivateCallExecutionResult) : PrivateCallExecutionResult :=
  {| ce_acir := ce_acir call; ce_vk := ce_vk call; ce_partial_witness := ce_partial_witness call;
     ce_contract_address := ce_contract_address call; ce_call_context := ce_call_context call;
     ce_return_values := ce_return_values call;
     ce_public_inputs_fields := ce_public_inputs_fields call;
     ce_new_notes := offset_note <$> ce_new_notes call;
     ce_note_hash_nullifier_counter_map := offset_counter_map (ce_note_hash_nullifier_counter_map call);
     ce_offchain_effects := ce_offchain_effects call; ce_pre_tags := ce_pre_tags call;
     ce_nested_execution_results := map offset_private_call_result (ce_nested_execution_results call);
     ce_contract_class_logs := offset_class_log <$> ce_contract_class_logs call;
     ce_note_hashes := offset_note_hash <$> ce_note_hashes call;
     ce_nullifiers := offset_nullifier <$> ce_nullifiers call;
     ce_note_hash_read_requests := offset_read_request <$> ce_note_hash_read_requests call;
     ce_nullifier_read_requests := offset_read_request <$> ce_nullifier_read_requests call;
     ce_private_logs := offset_private_log <$> ce_private_logs call;
     ce_public_call_requests := offset_public_call <$> ce_public_call_requests call;
     ce_public_teardown_call_request := offset_public_call <$> ce_public_teardown_call_request call;
     ce_start_side_effect_counter := add (ce_start_side_effect_counter call);
     ce_end_side_effect_counter := add (ce_end_side_effect_counter call);
     ce_min_revertible_side_effect_counter := add (ce_min_revertible_side_effect_counter call) |}.
End offset.

(** The variables of the loop over the bundles. *)
Record Aggregate := {
  ag_offset : Z;
  ag_nested : list PrivateCallExecutionResult;
  ag_expiration : Z;
  ag_calldata : list HashedValues;
  ag_log_fields : list ContractClassLogFields;
}.

(** The earliest of the expirations that are set; 0 is none. *)
Definition join_expiration (so_far next : Z) : Z :=
  if next =? 0 then so_far else if so_far =? 0 then next else Z.min so_far next.

Definition aggregate_step (acc : Aggregate) (bundle : CallExecutionBundle) : Aggregate :=
  let adjusted := offset_private_call_result (ag_offset acc)
                    (er_entrypoint (cb_execution_result bundle)) in
  {| ag_offset := ce_end_side_effect_counter adjusted; ag_nested := ag_nested acc ++ [adjusted];
     ag_expiration := join_expiration (ag_expiration acc)
                        (er_expiration_timestamp (cb_execution_result bundle));
     ag_calldata := ag_calldata acc ++ cb_public_function_calldata bundle;
     ag_log_fields := ag_log_fields acc ++ cb_contract_class_log_fields bundle |}.

(** The first nullifier, the return values and the revertible counter are those of the
    first bundle. *)
Definition aggregate_call_bundles (origin : AztecAddress) (bundles : list CallExecutionBundle)
    : CallExecutionBundle :=
  let first {A} (f : CallExecutionBundle → A) (d : A) := default d (f <$> head bundles) in
  let acc := foldl aggregate_step
    {| ag_offset := 0; ag_nested := []; ag_expiration := 0; ag_calldata := []; ag_log_fields := [] |}
    bundles in
  let root := CallResult_default
    {{ ce_contract_address := origin;
       ce_call_context := {| cc_msg_sender := origin; cc_contract_address := origin;
                             cc_function_selector := Fr_zero; cc_is_static_call := false |};
       ce_nested_execution_results := ag_nested acc; ce_start_side_effect_counter := 0;
       ce_end_side_effect_counter := ag_offset acc;
       ce_min_revertible_side_effect_counter :=
         first (λ b, ce_min_revertible_side_effect_counter (er_entrypoint (cb_execution_result b))) 0 }} in
  {| cb_execution_result :=
       {| er_entrypoint := root;
          er_first_nullifier := first (λ b, er_first_nullifier (cb_execution_result b)) Fr_zero;
          er_expiration_timestamp := ag_expiration acc;
          er_public_function_calldata := ag_calldata acc |};
     cb_contract_class_log_fields := ag_log_fields acc;
     cb_public_function_calldata := ag_calldata acc;
     cb_first_acir_call_return_values := first cb_first_acir_call_return_values [];
     cb_simulated_return_values := first cb_simulated_return_values [] |}.
End bundles.

(** ** Constants of a transaction *)

Section constants.
Context {FR : PrimeField fr_modulus} {HX : HexCrate} {JS : JsonCrate}.

(** [fr_at] and its like are those that parse a header for the utility oracle. *)
Definition request_tx_context (req : json_value) : TxContext :=
  {| tc_chain_id := fr_at req "/txContext/chainId"; tc_version := fr_at req "/txContext/version";
     tc_gas_settings :=
       {| gas_limits := Some (MkGas (u64_at req "/txContext/gasSettings/gasLimits/daGas")
                                    (u64_at req "/txContext/gasSettings/gasLimits/l2Gas"));
          teardown_gas_limits :=
            Some (MkGas (u64_at req "/txContext/gasSettings/teardownGasLimits/daGas")
                        (u64_at req "/txContext/gasSettings/teardownGasLimits/l2Gas"));
          max_fee_per_gas :=
            Some (MkGasFees (u128_at req "/txContext/gasSettings/maxFeePerGas/feePerDaGas")
                            (u128_at req "/txContext/gasSettings/maxFeePerGas/feePerL2Gas"));
          max_priority_fee_per_gas :=
            Some (MkGasFees (u128_at req "/txContext/gasSettings/maxPriorityFeePerGas/feePerDaGas")
                            (u128_at req "/txContext/gasSettings/maxPriorityFeePerGas/feePerL2Gas")) |} |}.

Definition build_tx_constant_data (anchor : AnchorBlockStore.AnchorBlockHeader)
    (tx_request : pxe.TxExecutionRequest) (vk_root contracts_hash : Fr) : TxConstantData :=
  {| anchor_block_header := parse_block_header (AnchorBlockStore.ah_data anchor);
     tx_context := request_tx_context (pxe.tr_data tx_request);
     vk_tree_root := vk_root; protocol_contracts_hash := contracts_hash |}.

Definition compute_expiration (anchor : AnchorBlockStore.AnchorBlockHeader) : Z :=
  let timestamp := default 0 (json_pointer (AnchorBlockStore.ah_data anchor) "/globalVariables/timestamp"
    ≫= λ v, match json_as_u64 v with
             | Some n => Some n
             | None => json_as_str v ≫= λ s, match strip_prefix "0x" s with
                                              | Some hex => parse_hex_u64 hex
                                              | None => parse_u64 s
                                              end
             end) in
  wrap 64 (timestamp + MAX_TX_LIFETIME).

(** Half as much again as the fee of the block. *)
Definition min_fee (block_fee : Z) : Z := wrap 128 (block_fee + block_fee / 2).

Definition raise_to (minimum fee : Z) : Z := if fee <? minimum then minimum else fee.

Definition ensure_min_fees (anchor : AnchorBlockStore.AnchorBlockHeader) (constants : TxConstantData)
    : TxConstantData :=
  let header := AnchorBlockStore.ah_data anchor in
  let min_da := min_fee (u128_at header "/globalVariables/gasFees/feePerDaGas") in
  let min_l2 := min_fee (u128_at header "/globalVariables/gasFees/feePerL2Gas") in
  let settings := tc_gas_settings (tx_context constants) in
  let fees := match max_fee_per_gas settings with
              | Some fees => MkGasFees (raise_to min_da (fee_per_da_gas fees))
                                       (raise_to min_l2 (fee_per_l2_gas fees))
              | None => MkGasFees min_da min_l2
              end in
  {| anchor_block_header := anchor_block_header constants;
     tx_context := {| tc_chain_id := tc_chain_id (tx_context constants);
                      tc_version := tc_version (tx_context constants);
                      tc_gas_settings :=
                        {| gas_limits := gas_limits settings;
                           teardown_gas_limits := teardown_gas_limits settings;
                           max_fee_per_gas := Some fees;
                           max_priority_fee_per_gas := max_priority_fee_per_gas settings |} |};
     vk_tree_root := vk_tree_root constants;
     protocol_contracts_hash := protocol_contracts_hash constants |}.

(** The arguments of a utility call: an integer keeps its low 64 bits, and a text gives
    its characters. *)
Fixpoint abi_value_to_fields (v : AbiValue) : list Fr :=
  match v with
  | AbiValue.Field f => [f]
  | AbiValue.Integer i => [Fr_from_u64 (wrap 64 i)]
  | AbiValue.Boolean b => [Fr_from_bool b]
  | AbiValue.String s => Fr_from_u64 <$> utf8_chars (as_bytes s)
  | AbiValue.Array arr => mjoin (abi_value_to_fields <$> arr)
  | AbiValue.Struct fields => mjoin ((λ kv, abi_value_to_fields kv.2) <$> fields)
  | AbiValue.Tuple elems => mjoin (abi_value_to_fields <$> elems)
  end.
End constants.

(** ** Protocol contracts *)

Section protocol.
Context {FR : PrimeField fr_modulus} {FQ : PrimeField fq_modulus} {HX : HexCrate} {AC : AcirCrate}.
Context {JS : JsonCrate} {P2 : Poseidon2Crate} {HC : HashCrates} {AG : GrumpkinCrate}.
Context {FC : FromValue (list Capsule)}.

Definition resolve_protocol_function_name (addr : AztecAddress) (sel : FunctionSelector)
    : option string :=
  if bool_decide (addr = protocol_contract_address.contract_class_registry)
     && bool_decide (sel = publish_class_selector)
  then Some "publish"
  else if bool_decide (addr = protocol_contract_address.contract_instance_registry)
          && bool_decide (sel = publish_instance_selector)
  then Some "publish_for_public_execution"
  else if bool_decide (addr = protocol_contract_address.auth_registry) then
    if bool_decide (sel = FunctionSelector_from_signature "set_authorized(Field,bool)")
    then Some "set_authorized(Field,bool)"
    else if bool_decide (sel = FunctionSelector_from_signature "consume((Field),Field)")
    then Some "consume((Field),Field)"
    else None
  else None.

(** [get("capsules").cloned().map(from_value).transpose()?]. *)
Definition request_capsules (tx_request : pxe.TxExecutionRequest) : Outcome (option (list Capsule)) :=
  match json_get (pxe.tr_data tx_request) "capsules" with
  | None => Ok None
  | Some v => omap_ok Some (from_value v)
  end.

(** The call a protocol contract is answered for, with its one nullifier. *)
Definition published_call (origin contract_address : AztecAddress) (selector : FunctionSelector)
    (nullifier : Fr) : PrivateCallExecutionResult :=
  CallResult_default
    {{ ce_contract_address := contract_address;
       ce_call_context := {| cc_msg_sender := origin; cc_contract_address := contract_address;
                             cc_function_selector := FunctionSelector_to_field selector;
                             cc_is_static_call := false |};
       ce_nullifiers := [emitted_nullifier nullifier 2 contract_address];
       ce_start_side_effect_counter := 2; ce_end_side_effect_counter := 4;
       ce_min_revertible_side_effect_counter := 2 }}.

Definition protocol_publish_class (tx_request : pxe.TxExecutionRequest) (contract_address : AztecAddress)
    (encoded_args : list Fr) (origin : AztecAddress) (first_nullifier : Fr)
    : Outcome (option CallExecutionBundle) :=
  let? artifact_hash := ok_or (encoded_args !! 0%nat) (InvalidData "publish missing artifact_hash") in
  let? private_functions_root := ok_or (encoded_args !! 1%nat)
    (InvalidData "publish missing private_functions_root") in
  let? public_bytecode_commitment := ok_or (encoded_args !! 2%nat)
    (InvalidData "publish missing public_bytecode_commitment") in
  let class_id := compute_contract_class_id artifact_hash private_functions_root
                    public_bytecode_commitment in
  let? given := request_capsules tx_request in
  let? slot := contract_class_registry_bytecode_capsule_slot in
  let bytecode_fields := default [] (cap_data <$>
    List.find (λ capsule, bool_decide (cap_contract_address capsule
                                       = protocol_contract_address.contract_class_registry)
                          && bool_decide (cap_storage_slot capsule = slot)) (default [] given)) in
  let? magic := contract_class_published_magic_value in
  let emitted_fields := [magic; class_id; Fr_from_u64 1; artifact_hash; private_functions_root]
                          ++ bytecode_fields in
  let entrypoint := (published_call origin contract_address publish_class_selector class_id)
    {{ ce_contract_class_logs :=
         [{| cccl_log := {| ccl_contract_address := contract_address; ccl_fields := emitted_fields;
                            ccl_emitted_length := wrap 32 (Z.of_nat (length emitted_fields)) |};
             cccl_counter := 3 |}] }} in
  Ok (Some (bare_bundle entrypoint first_nullifier [from_emitted_fields emitted_fields] [])).

Definition protocol_publish_instance (contract_address : AztecAddress) (encoded_args : list Fr)
    (origin : AztecAddress) (first_nullifier : Fr) : Outcome (option CallExecutionBundle) :=
  if (length encoded_args <? 16)%nat then
    Err (InvalidData ("publish_for_public_execution args too short: "
                      +:+ pretty (length encoded_args)))
  else
    let inner := published_instance encoded_args origin in
    let? address := compute_contract_address_from_instance inner in
    let? magic := contract_instance_published_magic_value in
    let entrypoint := (published_call origin contract_address publish_instance_selector address)
      {{ ce_private_logs :=
           [{| pld_fields := instance_event magic address inner ++ [Fr_zero];
               pld_emitted_length := 15; pld_note_hash_counter := 0; pld_counter := 3;
               pld_contract_address := contract_address |}] }} in
    Ok (Some (bare_bundle entrypoint first_nullifier [] [])).

Definition protocol_private_execution (tx_request : pxe.TxExecutionRequest)
    (contract_address : AztecAddress) (function_name : string) (encoded_args : list Fr)
    (origin : AztecAddress) (first_nullifier : Fr) : Outcome (option CallExecutionBundle) :=
  if String.eqb function_name "publish"
     && bool_decide (contract_address = protocol_contract_address.contract_class_registry)
  then protocol_publish_class tx_request contract_address encoded_args origin first_nullifier
  else if String.eqb function_name "publish_for_public_execution"
          && bool_decide (contract_address = protocol_contract_address.contract_instance_registry)
  then protocol_publish_instance contract_address encoded_args origin first_nullifier
  else Ok None.

(** The one public call that a bundle enqueues. *)
Definition enqueued_call (contract_address : AztecAddress) (selector : FunctionSelector)
    (encoded_args : list Fr) (origin : AztecAddress) (first_nullifier : Fr)
    (hide_msg_sender is_static_call : bool) : CallExecutionBundle :=
  let hashed := HashedValues_from_calldata (FunctionSelector_to_field selector :: encoded_args) in
  let msg_sender := if hide_msg_sender then AztecAddress_zero else origin in
  let entrypoint := CallResult_default
    {{ ce_contract_address := origin;
       ce_public_call_requests :=
         [{| pcd_contract_address := contract_address; pcd_msg_sender := msg_sender;
             pcd_is_static_call := is_static_call; pcd_calldata_hash := hv_hash hashed;
             pcd_counter := 2 |}];
       ce_start_side_effect_counter := 2; ce_end_side_effect_counter := 3;
       ce_min_revertible_side_effect_counter := 2 }} in
  bare_bundle entrypoint first_nullifier [] [hashed].

Definition protocol_public_execution (contract_address : AztecAddress) (function_name : string)
    (encoded_args : list Fr) (origin : AztecAddress) (first_nullifier : Fr)
    (hide_msg_sender is_static_call : bool) : Outcome (option CallExecutionBundle) :=
  if negb (bool_decide (contract_address = protocol_contract_address.auth_registry)) then Ok None
  else Ok (Some (enqueued_call contract_address (FunctionSelector_from_signature function_name)
                   encoded_args origin first_nullifier hide_msg_sender is_static_call)).

Definition build_public_call_execution (artifact : ContractArtifact FR JS) (function_name : string)
    (encoded_args : list Fr) (contract_address origin : AztecAddress) (first_nullifier : Fr)
    (hide_msg_sender is_static_call : bool) : Outcome CallExecutionBundle :=
  let? func := find_function artifact function_name in
  let? selector := ok_or (fa_selector func) (InvalidData "public function has no selector") in
  Ok (enqueued_call contract_address selector encoded_args origin first_nullifier hide_msg_sender
        is_static_call).
End protocol.

(** ** Calls *)

Section execution.
Context {W : Type} {FR : PrimeField fr_modulus} {FQ : PrimeField fq_modulus} {HX : HexCrate}.
Context {AC : AcirCrate} {P2 : Poseidon2Crate} {HC : HashCrates} {AG : GrumpkinCrate} {SQ : SqrtField}.
Context {B64 : Base64Crate} `{JT : JsonText} `{KV : KvStore W} `{AN : !AztecNode W} `{RW : !RandCrate W}.
Context {SN : SerdeJson StoredNote} {SL : SerdeJson (list string)}.
Context {SI : SerdeJson ContractInstanceWithAddress} {SA : SerdeJson (ContractArtifact FR JS)}.
Context {SC : SerdeJson CompleteAddress} {SK : SerdeJson (list (list Fr))}.
Context {SZ : SerdeJson Z} {SP : SerdeJson (list PendingTagIndex)}.
Context {FC : FromValue (list Capsule)} {FA : FromValue (list AuthWitness)}.
Context {FD : FromValue DecodedTxExecutionRequest} {AV : AcvmCrate}.
Notation AnchorBlockHeader := AnchorBlockStore.AnchorBlockHeader.

(** *** Names *)

Definition resolve_function_name_by_selector (addr : AztecAddress) (sel : FunctionSelector)
    : M W string :=
  match resolve_protocol_function_name addr sel with
  | Some name => mok name
  | None =>
      let! found := mtry (ContractStore.get_instance addr) in
      match found with
      | Ok (Some inst) =>
          let! found := mtry (ContractStore.get_artifact
                                (ci_current_contract_class_id (instance_inner inst))) in
          match found with
          | Ok (Some artifact) =>
              mok (default "unknown" (fa_name <$> find_function_by_selector artifact sel))
          | _ => mok "unknown"
          end
      | _ => mok "unknown"
      end
  end.

(** The answer for a request without calls is the first registered contract. *)
Definition extract_call_info (tx_request : pxe.TxExecutionRequest)
    : M W (AztecAddress * string * list Fr * AztecAddress) :=
  let! request := mlift (from_value (pxe.tr_data tx_request)) in
  let! decoded := mlift (decode_entrypoint_call request) in
  match decoded with
  | Some call =>
      let! function_name := resolve_function_name_by_selector (de_to call) (de_selector call) in
      mok (de_to call, function_name, de_encoded_args call, dr_origin request)
  | None =>
      let! contracts := ContractStore.get_contract_addresses in
      match contracts with
      | addr :: _ => mok (addr, "unknown", [], dr_origin request)
      | [] => mlift (Err (InvalidData "could not determine target contract from TxExecutionRequest"))
      end
  end.

(** *** Witnesses *)

(** The transaction as its circuits see it: the request, the header it is anchored to and
    the constants of the PXE. *)
Record TxEnvironment := {
  te_request : pxe.TxExecutionRequest;
  te_anchor : AnchorBlockHeader;
  te_vk_tree_root : Fr;
  te_protocol_contracts_hash : Fr;
}.

(** The call context, the anchor header, the transaction context and the first counter. *)
Definition private_context (env : TxEnvironment) (call_context : CallContext) : list Fr :=
  let tx_constants := build_tx_constant_data (te_anchor env) (te_request env)
                        (te_vk_tree_root env) (te_protocol_contracts_hash env) in
  CallContext_to_fields call_context ++ BlockHeader_to_fields (anchor_block_header tx_constants)
  ++ TxContext_to_fields (tx_context tx_constants) ++ [Fr_from_u64 2].

Definition build_private_witness (env : TxEnvironment) (artifact : ContractArtifact FR JS)
    (function_name : string) (user_args : list Fr) (call_context : CallContext) : Outcome (list Fr) :=
  let context_size := private_context_inputs_size artifact function_name in
  if context_size =? 0 then Ok user_args
  else
    let? _ := vec_with_capacity 32 (wrap 64 (context_size + Z.of_nat (length user_args))) in
    Ok (vec_resize (Z.to_nat context_size) Fr_zero (private_context env call_context) ++ user_args).

(** The fields between the call context and the counter. *)
Definition context_prefix (context_size : Z) (full_witness : list Fr) : list Fr :=
  if 5 <? context_size then drop 4 (take (Z.to_nat (context_size - 1)) full_witness) else [].

Definition request_auth_witnesses (tx_request : pxe.TxExecutionRequest) : option (list AuthWitness) :=
  json_get (pxe.tr_data tx_request) "authWitnesses" ≫= λ v, ok_opt (from_value v).

Definition auth_pairs (auth_witnesses : list AuthWitness) : list (Fr * list Fr) :=
  (λ aw, (aw_request_hash aw, aw_fields aw)) <$> auth_witnesses.

Definition seed_auth_witnesses (tx_request : pxe.TxExecutionRequest) (oracle : PrivateExecutionOracle)
    : PrivateExecutionOracle :=
  match request_auth_witnesses tx_request with
  | Some auth_witnesses => set_auth_witnesses (auth_pairs auth_witnesses) oracle
  | None => oracle
  end.

Definition seed_context (prefix : list Fr) (oracle : PrivateExecutionOracle) : PrivateExecutionOracle :=
  oracle {{ context_witness_prefix := prefix }}.

Definition extract_expiration_timestamp_from_witness (witness : list (Z * fe))
    (params_size context_inputs_size : Z) : Z :=
  let expiration_offset := Z.max 0 (context_inputs_size - 5) + 8 in
  default 0 ((λ e, Fr_to_usize (fe_to_fr e))
               <$> bt_get (wrap 32 (wrap 64 (params_size + expiration_offset))) witness).

(** *** Pending notes *)

Definition nullifiers_by_counter (exec_result : PrivateExecutionResult) : gmap Z Fr :=
  foldl (λ m n, <[snf_counter n := nf_value (snf_nullifier n)]> m) ∅ (all_nullifiers exec_result).

Definition pending_note (by_counter : gmap Z Fr) (note_to_nullifier_counter : gmap Z Z)
    (note : NoteAndSlot) : StoredNote :=
  let nullifier := (note_to_nullifier_counter !! ns_counter note) ≫= λ c, by_counter !! c in
  (stored_pending note)
    {{ sn_siloed_nullifier := default Fr_zero nullifier;
       sn_nullified := bool_decide (is_Some nullifier); sn_scopes := [] }}.

(** A note whose owner is not in the scopes is stored under its owner all the same, unless
    there are no scopes. *)
Definition persist_note (scopes : list AztecAddress) (stored : StoredNote) : M W () :=
  for_each (λ scope, if decide (scope = sn_owner stored) then NoteStore.add_notes [stored] scope
                     else mok ()) scopes ;;!
  if decide (sn_owner stored ∈ scopes) then mok ()
  else if decide (scopes = []) then mok ()
  else NoteStore.add_notes [stored] (sn_owner stored).

Definition persist_pending_notes (exec_result : PrivateExecutionResult) (scopes : list AztecAddress)
    : M W () :=
  let by_counter := nullifiers_by_counter exec_result in
  let counters := all_note_hash_nullifier_counter_maps exec_result in
  for_each (λ call, for_each (λ note, persist_note scopes (pending_note by_counter counters note))
                      (ce_new_notes call))
    (iter_all_calls exec_result).

(** *** Authorization witnesses *)

(** The first active note with two fields, as a point. *)
Definition signing_key (notes : list StoredNote) : option Point :=
  head (omap (λ note, match sn_note_data note with
                      | x :: y :: _ => if sn_nullified note then None
                                       else Some {| pt_x := x; pt_y := y; pt_is_infinite := false |}
                      | _ => None
                      end) notes).

Definition signature_failed : Error :=
  InvalidData "Cannot satisfy constraint: auth witness signature verification failed".

Definition verify_witness (pk : Point) (aw : AuthWitness) : Outcome () :=
  if (length (aw_fields aw) =? 64)%nat then
    let sig_bytes := (λ f, Z_byte (wrap 8 (Fr_to_usize f))) <$> aw_fields aw in
    let? valid := schnorr_verify pk (aw_request_hash aw) (SchnorrSignature_from_bytes sig_bytes) in
    if valid then Ok () else Err signature_failed
  else Ok ().

Definition verify_auth_witness_signatures (tx_request : pxe.TxExecutionRequest)
    (origin : AztecAddress) : M W () :=
  let auth_witnesses := default [] (request_auth_witnesses tx_request) in
  if decide (length auth_witnesses = 0%nat) then mok ()
  else
    let! found := mtry (NoteStore.get_notes_by_slot origin (Fr_from_u64 1)) in
    match signing_key (default [] (ok_opt found)) with
    | None => mok ()
    | Some pk => for_each (λ aw, mlift (verify_witness pk aw)) auth_witnesses
    end.

(** *** One call *)

(** The artifact that the class of a registered contract has. *)
Definition artifact_of (address : AztecAddress) (no_contract : Error) (no_artifact : Fr → Error)
    : M W (ContractArtifact FR JS) :=
  let! contract_instance := ContractStore.get_instance address in
  let! instance := required contract_instance no_contract in
  let class_id := ci_current_contract_class_id (instance_inner instance) in
  let! artifact := ContractStore.get_artifact class_id in
  required artifact (no_artifact class_id).

Definition contract_not_found (address : AztecAddress) : Error :=
  InvalidData ("contract not found: " +:+ Fr_to_string address).
Definition artifact_not_found (class_id : Fr) : Error :=
  InvalidData ("artifact not found for class " +:+ Fr_to_string class_id).

Definition solved_field (witness : list (Z * fe)) (i : Z) : option Fr :=
  fe_to_fr <$> bt_get (wrap 32 (wrap 64 i)) witness.

(** The values of the databus: those the returns hash of the circuit names in the cache. *)
Definition acir_call_returns (oracle : PrivateExecutionOracle) (output : AcvmExecutionOutput)
    (pcpi_start : Z) : list Fr :=
  match solved_field (witness output) (pcpi_start + PCPI_RETURNS_HASH_OFFSET) with
  | Some rh => default [] (get_execution_cache_entry rh oracle)
  | None => first_acir_call_return_values output
  end.

(** The result of the oracle with what the circuit alone says: its context, its public
    inputs, its expiration, its logs, and its note hashes where the oracle saw none. *)
Definition complete_result (result : PrivateExecutionResult) (call_context : CallContext)
    (witness_len params_size ctx_size : Z) : PrivateExecutionResult :=
  let entrypoint := er_entrypoint result in
  let partial_witness := ce_partial_witness entrypoint in
  let '(circuit_note_hashes, _, circuit_logs) :=
    extract_side_effects_from_witness partial_witness params_size (ce_contract_address entrypoint) in
  {| er_entrypoint := entrypoint
       {{ ce_call_context := call_context;
          ce_public_inputs_fields := extract_public_inputs_fields partial_witness witness_len;
          ce_note_hashes := if decide (length (ce_note_hashes entrypoint) = 0%nat)
                            then circuit_note_hashes else ce_note_hashes entrypoint;
          ce_private_logs := ce_private_logs entrypoint ++ circuit_logs }};
     er_first_nullifier := er_first_nullifier result;
     er_expiration_timestamp :=
       extract_expiration_timestamp_from_witness partial_witness params_size ctx_size;
     er_public_function_calldata := er_public_function_calldata result |}.

Definition or_else (values fallback : list Fr) : list Fr :=
  if decide (length values = 0%nat) then fallback else values.

(** A private function of a registered contract. *)
Definition execute_private_call (fuel : nat) (env : TxEnvironment) (call : DecodedEntrypointCall)
    (origin : AztecAddress) (protocol_nullifier : Fr) (scopes : list AztecAddress)
    (artifact : ContractArtifact FR JS) (function : FunctionArtifact FR JS)
    : M W (option CallExecutionBundle) :=
  let! selector := mlift match fa_selector function with Some sel => Ok sel | None => Panic end in
  let call_context := {| cc_msg_sender := origin; cc_contract_address := de_to call;
                         cc_function_selector := FunctionSelector_to_field selector;
                         cc_is_static_call := fa_is_static function |} in
  let! full_witness := mlift (build_private_witness env artifact (fa_name function)
                                (de_encoded_args call) call_context) in
  let ctx_size := private_context_inputs_size artifact (fa_name function) in
  let oracle := seed_context (context_prefix ctx_size full_witness) (seed_auth_witnesses (te_request env)
    (PrivateExecutionOracle_new (AnchorBlockStore.ah_data (te_anchor env)) (de_to call)
       protocol_nullifier (Some origin) scopes (de_is_static call))) in
  let?! ran := run_with oracle (execute_private (handle_foreign_call fuel) fuel artifact
                                  (fa_name function) full_witness) in
  let '(acvm_output, oracle) := ran in
  let params_size := ctx_size + Z.of_nat (length (de_encoded_args call)) in
  let returns := acir_call_returns oracle acvm_output params_size in
  let execution_result := complete_result (build_execution_result oracle acvm_output (de_to call) 0)
    call_context (Z.of_nat (length full_witness)) params_size ctx_size in
  persist_pending_notes execution_result scopes ;;!
  mok (Some {| cb_execution_result := execution_result;
               cb_contract_class_log_fields :=
                 (λ ccl, from_emitted_fields (ccl_fields (cccl_log ccl)))
                   <$> all_contract_class_logs_sorted execution_result;
               cb_public_function_calldata := er_public_function_calldata execution_result;
               cb_first_acir_call_return_values := returns;
               cb_simulated_return_values :=
                 or_else returns (ce_return_values (er_entrypoint execution_result)) |}).

Definition execute_entrypoint_call_bundle (fuel : nat) (env : TxEnvironment)
    (call : DecodedEntrypointCall) (origin : AztecAddress) (protocol_nullifier : Fr)
    (scopes : list AztecAddress) : M W (option CallExecutionBundle) :=
  let contract_address := de_to call in
  let! function_name := resolve_function_name_by_selector contract_address (de_selector call) in
  let! handled := mlift (protocol_private_execution (te_request env) contract_address function_name
                           (de_encoded_args call) origin protocol_nullifier) in
  match handled with
  | Some bundle => mok (Some bundle)
  | None =>
  let! handled := mlift (protocol_public_execution contract_address function_name
    (de_encoded_args call) origin protocol_nullifier (de_hide_msg_sender call) (de_is_static call)) in
  match handled with
  | Some bundle => mok (Some bundle)
  | None =>
  let! artifact := artifact_of contract_address (contract_not_found contract_address)
                     artifact_not_found in
  let! function := mlift (find_function artifact function_name) in
  if decide (function_type function = Public) then
    let! bundle := mlift (build_public_call_execution artifact function_name (de_encoded_args call)
      contract_address origin protocol_nullifier (de_hide_msg_sender call) (de_is_static call)) in
    mok (Some bundle)
  else execute_private_call fuel env call origin protocol_nullifier scopes artifact function
  end end.

(** The loop over the decoded calls. *)
Fixpoint execute_calls (fuel : nat) (env : TxEnvironment) (calls : list DecodedEntrypointCall)
    (origin : AztecAddress) (protocol_nullifier : Fr) (scopes : list AztecAddress)
    : M W (option (list CallExecutionBundle)) :=
  match calls with
  | [] => mok (Some [])
  | call :: calls' =>
      let?! bundle := execute_entrypoint_call_bundle fuel env call origin protocol_nullifier scopes in
      let?! bundles := execute_calls fuel env calls' origin protocol_nullifier scopes in
      mok (Some (bundle :: bundles))
  end.

(** *** The account's entrypoint *)

Definition entrypoint_name (tx_request : pxe.TxExecutionRequest) (origin : AztecAddress)
    : M W string :=
  match (json_get (pxe.tr_data tx_request) "functionSelector" ≫= json_as_str)
        ≫= λ s, ok_opt (FunctionSelector_from_hex s) with
  | Some sel => resolve_function_name_by_selector origin sel
  | None => mok "entrypoint"
  end.

Definition account_contract_not_found (origin : AztecAddress) : Error :=
  InvalidData ("account contract not found: " +:+ Fr_to_string origin).
Definition account_artifact_not_found (class_id : Fr) : Error :=
  InvalidData ("account contract artifact not found for class " +:+ Fr_to_string class_id).

(** The whole result is read from the oracle. *)
Definition entrypoint_result (oracle : PrivateExecutionOracle) (output : AcvmExecutionOutput)
    (call_context : CallContext) (witness_len : Z) : PrivateCallExecutionResult :=
  {| ce_acir := acir_bytecode output; ce_vk := ao_verification_key output;
     ce_partial_witness := witness output;
     ce_contract_address := cc_contract_address call_context; ce_call_context := call_context;
     ce_return_values := return_values output;
     ce_public_inputs_fields := extract_public_inputs_fields (witness output) witness_len;
     ce_new_notes := new_notes oracle;
     ce_note_hash_nullifier_counter_map := note_hash_nullifier_counter_map oracle;
     ce_offchain_effects := []; ce_pre_tags := [];
     ce_nested_execution_results := nested_results oracle;
     ce_contract_class_logs := contract_class_logs oracle; ce_note_hashes := note_hashes oracle;
     ce_nullifiers := nullifiers oracle;
     ce_note_hash_read_requests := note_hash_read_requests oracle;
     ce_nullifier_read_requests := nullifier_read_requests oracle;
     ce_private_logs := private_logs oracle; ce_public_call_requests := public_call_requests oracle;
     ce_public_teardown_call_request := public_teardown_call_request oracle;
     ce_start_side_effect_counter := 2;
     ce_end_side_effect_counter := side_effect_counter oracle;
     ce_min_revertible_side_effect_counter := min_revertible_side_effect_counter oracle |}.

Definition execute_entrypoint_via_acvm (fuel : nat) (env : TxEnvironment) (origin : AztecAddress)
    (protocol_nullifier : Fr) (scopes : list AztecAddress) : M W (option CallExecutionBundle) :=
  let tx_request := te_request env in
  let! request := mlift (from_value (pxe.tr_data tx_request)) in
  let! artifact := artifact_of origin (account_contract_not_found origin) account_artifact_not_found in
  let! entrypoint_args := mlift (entrypoint_values request) in
  let! function_name := entrypoint_name tx_request origin in
  let! function := mlift (find_function artifact function_name) in
  let! sender := mlift protocol_contract_address.null_msg_sender in
  let context selector static :=
    {| cc_msg_sender := sender; cc_contract_address := origin; cc_function_selector := selector;
       cc_is_static_call := static |} in
  let! full_witness := mlift (build_private_witness env artifact function_name
    (hv_values entrypoint_args)
    (context (FunctionSelector_to_field (default FunctionSelector_empty (fa_selector function)))
             (fa_is_static function))) in
  let oracle := seed_auth_witnesses tx_request (seed_execution_cache (dr_args_of_calls request)
    (PrivateExecutionOracle_new (AnchorBlockStore.ah_data (te_anchor env)) origin protocol_nullifier
       (Some origin) scopes false)) in
  let! given := mlift (request_capsules tx_request) in
  let oracle := match given with Some capsules => set_capsules capsules oracle | None => oracle end in
  let context_inputs_size := private_context_inputs_size artifact function_name in
  let oracle := seed_context (context_prefix context_inputs_size full_witness) oracle in
  let?! ran := run_with oracle (execute_private (handle_foreign_call fuel) fuel artifact
                                  function_name full_witness) in
  let '(acvm_output, oracle) := ran in
  let witness_len := Z.of_nat (length full_witness) in
  let entrypoint := entrypoint_result oracle acvm_output
    (context (default Fr_zero (FunctionSelector_to_field <$> fa_selector function)) false)
    witness_len in
  let calldata := public_function_calldata oracle in
  mok (Some {| cb_execution_result :=
                 {| er_entrypoint := entrypoint; er_first_nullifier := protocol_nullifier;
                    er_expiration_timestamp := extract_expiration_timestamp_from_witness
                      (witness acvm_output) witness_len context_inputs_size;
                    er_public_function_calldata := calldata |};
               cb_contract_class_log_fields :=
                 (λ log, from_emitted_fields (ccl_fields (cccl_log log)))
                   <$> ce_contract_class_logs entrypoint;
               cb_public_function_calldata := calldata;
               cb_first_acir_call_return_values := first_acir_call_return_values acvm_output;
               cb_simulated_return_values := or_else (first_acir_call_return_values acvm_output)
                                               (return_values acvm_output) |}).
End execution.
