(* ===== verification/RealProof.v ===== *)
(** [crates/pxe/src/embedded_pxe.rs], proofs by the real kernels: the helper process that
    runs them, its daemon, the caches of what it is told about contracts, and its request
    and response. *)

From Stdlib Require Import Ascii String SpecFloat.
From coqutil Require Import Datatypes.RecordSetters.
From S2P Require Import Prelude Bytes Ordered Deps Types Constants Poseidon Merkle Grumpkin Crypto AbiTypes KernelTypes Tx Hash Deploy Kv Simulated Rpc Node LocalStores Host KernelOracle KernelProver Pxe PxeExecution.
Import DoubleBraceUpdate.

(** ** Choices of the environment *)

Inductive RealProofBackend := TsDaemon | TsProcess | BbSubprocess.
#[global] Instance RealProofBackend_eq_dec : EqDecision RealProofBackend.
Proof. solve_decision. Defined.

Definition RealProofBackend_as_str (b : RealProofBackend) : string :=
  match b with TsDaemon => "ts-daemon" | TsProcess => "ts-process" | BbSubprocess => "bb-subprocess" end.

(** The same two formats as those of the prover. *)
Definition RealProofRequestFormat : Type := ProofRequestFormat.
Definition RealProofRequestFormat_as_str : RealProofRequestFormat → string := ProofRequestFormat_as_str.

Section choices.
Context {W : Type} `{HS : !HostSystem W} {SD : StrDebug}.

Definition RealProofRequestFormat_selected : M W RealProofRequestFormat := ProofRequestFormat_selected.

Definition backend_unsupported (other : string) : Error :=
  InvalidData ("unsupported PXE_REAL_PROOF_BACKEND " +:+ str_debug other
               +:+ "; expected ts-daemon, ts-process, or bb-subprocess").

Definition RealProofBackend_selected : M W RealProofBackend :=
  let! given := env_var "PXE_REAL_PROOF_BACKEND" in
  match given with
  | Some value =>
      if String.eqb value "ts-daemon" then mok TsDaemon
      else if String.eqb value "ts-process" then mok TsProcess
      else if String.eqb value "bb-subprocess" then mok BbSubprocess
      else mlift (Err (backend_unsupported value))
  | None =>
      let! disabled := env_var "PXE_REAL_PROOF_DISABLE_DAEMON" in
      mok (if is_flag disabled then TsProcess else TsDaemon)
  end.
End choices.

(** ** State *)

Section state.
Context {W : Type} {FR : PrimeField fr_modulus} {JS : JsonCrate} `{HS : !HostSystem W}.

Record CachedContractAddressPreimage := { cca_preimage : json_value; cca_class_id : Fr }.

Record RealProofMetadataCache := {
  contract_address_preimages : gmap (Fr * AztecAddress) CachedContractAddressPreimage;
  contract_class_preimages : gmap Fr json_value;
  function_membership_witnesses : gmap (Fr * Fr) json_value;
}.

Definition RealProofMetadataCache_default : RealProofMetadataCache :=
  {| contract_address_preimages := ∅; contract_class_preimages := ∅;
     function_membership_witnesses := ∅ |}.

Definition metadata_clear (cache : RealProofMetadataCache) : RealProofMetadataCache :=
  RealProofMetadataCache_default.

(** The cache of one PXE and the daemon, of which a process has one. *)
Record RealProofState := {
  real_proof_metadata_cache : RealProofMetadataCache;
  real_kernel_prove_daemon : option (child W);
}.
End state.
Arguments RealProofState W {FR JS HS}.

(** ** The daemon *)

Section daemon.
Context {W : Type} {FR : PrimeField fr_modulus} {JS : JsonCrate} {JM : JsonMake} {JW : JsonWrite}.
Context `{HS : !HostSystem W} (CARGO_MANIFEST_DIR : string).
Notation T := (W * RealProofState W)%type.

Definition set_daemon (daemon : option (child W)) : M T () :=
  in_snd (λ st, ({| real_proof_metadata_cache := real_proof_metadata_cache st;
                    real_kernel_prove_daemon := daemon |}, ())).

Definition get_daemon : M T (option (child W)) := in_snd (λ st, (st, real_kernel_prove_daemon st)).

Definition is_alive (daemon : child W) : M W bool :=
  let! exited := or_invalid "check private kernel daemon" (child_exited daemon) in mok (negb exited).

(** [serde_json::from_..] with another error. *)
Definition parse_or (what : string) (parsed : Outcome json_value) : Outcome json_value :=
  match parsed with
  | Err (Json err) => Err (InvalidData (what +:+ ": " +:+ err))
  | _ => parsed
  end.

Definition read_protocol_line (daemon : child W) : M W json_value :=
  let! line := or_invalid "read private kernel daemon" (child_read_line daemon) in
  if decide (line = "") then mlift (Err (InvalidData "private kernel daemon closed stdout"))
  else mlift (parse_or "parse private kernel daemon line" (json_from_str line)).

(** [guard.take()], which drops the daemon: its process is killed. *)
Definition stop_real_kernel_prove_daemon : M T () :=
  let! daemon := get_daemon in
  match daemon with
  | Some d => in_fst (child_kill d) ;;! set_daemon None
  | None => mok ()
  end.

Definition not_ready (ready : json_value) : Error :=
  InvalidData ("private kernel daemon did not become ready: " +:+ from_bytes (json_to_vec ready)).

Definition is_true_at (v : json_value) (member : string) : bool :=
  match json_get v member ≫= json_as_bool with Some b => b | None => false end.

(** A new process: it is dropped, and so killed, unless its first line says that it is
    ready. *)
Definition spawn_daemon : M T () :=
  let! env := in_fst packages_env in
  let! d := in_fst (or_invalid "start private kernel daemon"
    (child_spawn "node" [tool CARGO_MANIFEST_DIR "private_kernel_prove_daemon_from_rust.mjs"; "--daemon"] env)) in
  let! ready := in_fst (mtry (read_protocol_line d)) in
  match ready with
  | Ok ready =>
      if is_true_at ready "ready" then set_daemon (Some d)
      else in_fst (child_kill d) ;;! mlift (Err (not_ready ready))
  | Err e => in_fst (child_kill d) ;;! mlift (Err e)
  | Panic => mlift Panic
  end.

Definition start_real_kernel_prove_daemon : M T () :=
  let! daemon := get_daemon in
  match daemon with
  | None => spawn_daemon
  | Some d =>
      let! alive := in_fst (is_alive d) in
      if (alive : bool) then mok () else stop_real_kernel_prove_daemon ;;! spawn_daemon
  end.

Definition proof_failed (response : json_value) : Error :=
  InvalidData ("private kernel daemon proof failed: "
               +:+ default "unknown error" (json_get response "error" ≫= json_as_str)).

(** One request to a daemon that runs: a line with the two paths. *)
Definition ask_daemon (d : child W) (request_path response_path : string) : M W json_value :=
  let message := json_of (TObject [("inputPath", TString request_path);
                                   ("outputPath", TString response_path)]) in
  let! written := child_write d (json_to_vec message) in
  match written with
  | inl err => mlift (Err (Json err))
  | inr _ =>
      or_invalid "write private kernel daemon" (child_write d [Z_byte 10]) ;;!
      or_invalid "flush private kernel daemon" (child_flush d) ;;!
      let! response := read_protocol_line d in
      if is_true_at response "ok" then
        let! bytes := or_invalid "read private kernel response" (fs_read response_path) in
        mlift (parse_or "parse private kernel response" (json_from_slice bytes))
      else mlift (Err (proof_failed response))
  end.

Definition prove_with_real_kernel_daemon_once (request_path response_path : string) : M T json_value :=
  start_real_kernel_prove_daemon ;;!
  let! daemon := get_daemon in
  match daemon with
  | None => mlift (Err (InvalidData "private kernel daemon is not running"))
  | Some d =>
      let! alive := in_fst (is_alive d) in
      if (alive : bool) then in_fst (ask_daemon d request_path response_path)
      else mlift (Err (InvalidData "private kernel daemon exited before request"))
  end.

Definition retry_failed (second_err first_err : Error) : Error :=
  InvalidData (Error_display second_err +:+ "; retry after private kernel daemon failure also failed: "
               +:+ Error_display first_err).

(** A second attempt with a fresh process. *)
Definition prove_with_real_kernel_daemon (request_path response_path : string) : M T json_value :=
  let! first := mtry (prove_with_real_kernel_daemon_once request_path response_path) in
  match first with
  | Err first_err =>
      stop_real_kernel_prove_daemon ;;!
      let! second := mtry (prove_with_real_kernel_daemon_once request_path response_path) in
      mlift match second with
            | Err second_err => Err (retry_failed second_err first_err)
            | other => other
            end
  | other => mlift other
  end.
End daemon.

(** ** The steps that the helper answers *)

Record ExternalClientIvcStepTimings := {
  ct_witgen : spec_float;
  ct_gate_count : option Z;
  ct_oracles : JsonTree;
}.

Record ExternalClientIvcStep := {
  ci_function_name : string;
  bytecode_base64 : option string;
  witness_base64 : option string;
  vk_base64 : option string;
  bytecode_path : option string;
  witness_path : option string;
  vk_path : option string;
  ci_timings : ExternalClientIvcStepTimings;
}.

Section steps.
Context {W : Type} `{HS : !HostSystem W} {B64 : Base64Crate} {JF : JsonFloat}.

Definition decode_external_client_ivc_field (function_name label : string)
    (path base64 : option string) : M W (list byte) :=
  let step := "external ClientIVC step " +:+ function_name +:+ " " in
  match path with
  | Some path => or_invalid ("read " +:+ step +:+ label) (fs_read path)
  | None =>
      let! value := required base64 (InvalidData (step +:+ "missing " +:+ label)) in
      or_invalid ("decode " +:+ step +:+ label) (mok (base64_decode value))
  end.

Definition tree_get (member : string) (t : JsonTree) : option JsonTree :=
  match t with
  | TObject map => snd <$> List.find (λ kv, String.eqb kv.1 member) map
  | _ => None
  end.

(** The [times] of the members of an object, added up. *)
Definition external_oracles_ms (value : JsonTree) : Z :=
  match value with
  | TObject map =>
      let times := mjoin ((λ kv, match tree_get "times" kv.2 with
                                 | Some (TArray times) => times | _ => [] end) <$> map) in
      round_u64 (f64_sum (omap (λ t, match t with TNumber n => number_as_f64 n | _ => None end) times))
  | _ => 0
  end.

Definition into_execution_step (self : ExternalClientIvcStep) : M W PrivateExecutionStep :=
  let field := decode_external_client_ivc_field (ci_function_name self) in
  let! bytecode := field "bytecode" (bytecode_path self) (bytecode_base64 self) in
  let! witness := field "witness" (witness_path self) (witness_base64 self) in
  let! vk := field "vk" (vk_path self) (vk_base64 self) in
  mok {| st_function_name := ci_function_name self; st_bytecode := bytecode; st_witness := witness;
         st_vk := vk;
         st_timings := {| witgen_ms := round_u64 (ct_witgen (ci_timings self));
                          gate_count := ct_gate_count (ci_timings self);
                          oracles_ms := external_oracles_ms (ct_oracles (ci_timings self)) |} |}.

Fixpoint into_execution_steps (steps : list ExternalClientIvcStep) : M W (list PrivateExecutionStep) :=
  match steps with
  | [] => mok []
  | step :: steps' =>
      let! decoded := into_execution_step step in
      let! rest := into_execution_steps steps' in
      mok (decoded :: rest)
  end.
End steps.

(** ** The request *)

Section request.
Context {W : Type} {FR : PrimeField fr_modulus} {FQ : PrimeField fq_modulus} {HX : HexCrate}.
Context {AC : AcirCrate} {P2 : Poseidon2Crate} {HC : HashCrates} {AG : GrumpkinCrate}.
Context {B64 : Base64Crate} {B64E : Base64Encoder} `{JT : JsonText} {JM : JsonMake} {JW : JsonWrite}.
Context {JF : JsonFloat} {SD : StrDebug} `{KV : KvStore W} `{AN : !AztecNode W} `{HS : !HostSystem W}.
Context `{CL : !Clock W} {AS : AbiSerde} {PK : ToValue PublicKeys} {TH : ToValue (list HashedValues)}.
Context {SI : SerdeJson ContractInstanceWithAddress} {SA : SerdeJson (ContractArtifact FR JS)}.
Context {SV : SerdeJson json_value} {FW : FromValue WireTxRequest} {FS : FromValue (list ExternalClientIvcStep)}.
Context (CARGO_MANIFEST_DIR : string) (config : BbProverConfig).
Notation T := (W * RealProofState W)%type.

(** A count of four bytes, then each index in four bytes and its value in 32, in the order
    of the indexes. *)
Definition encode_witness_binary_v1 (witness_map : list (Z * fe)) : list byte :=
  let entries := sort_by_key fst witness_map in
  be_bytes 4 (Z.of_nat (length entries))
  ++ mjoin ((λ e, be_bytes 4 e.1 ++ Fr_to_be_bytes (fe_to_fr e.2)) <$> entries).

Definition write_kernel_call_sidecar (sidecar_dir : string) (call_id : nat) (label : string)
    (bytes : list byte) : M W string :=
  let path := path_join sidecar_dir ("call-" +:+ pretty (Z.of_nat call_id) +:+ "-" +:+ label +:+ ".bin") in
  or_invalid ("write " +:+ label +:+ " sidecar") (fs_write path bytes) ;;!
  mok path.

(** The members that hold the circuit, its key and its witness. *)
Definition circuit_members (request_format : RealProofRequestFormat) (sidecar_dir : option string)
    (call_id : nat) (call : PrivateCallExecutionResult) : M W (list (string * JsonTree)) :=
  match request_format with
  | ReqJson =>
      mok [("acirBase64", TString (base64_encode (ce_acir call)));
           ("vkBase64", TString (base64_encode (ce_vk call)));
           ("partialWitness", TArray ((λ e, TArray [TNumber (pretty e.1); fr_json (fe_to_fr e.2)])
                                        <$> ce_partial_witness call))]
  | ReqBinaryV1 =>
      let! dir := required sidecar_dir (InvalidData "binary-v1 request missing sidecar directory") in
      let! acir := write_kernel_call_sidecar dir call_id "acir" (ce_acir call) in
      let! vk := write_kernel_call_sidecar dir call_id "vk" (ce_vk call) in
      let! witness := write_kernel_call_sidecar dir call_id "witness"
                        (encode_witness_binary_v1 (ce_partial_witness call)) in
      mok [("acirPath", TString acir); ("vkPath", TString vk); ("witnessPath", TString witness)]
  end.

(** A call and the calls it made, numbered in the order in which they are met. *)
Fixpoint kernel_proof_call_json (request_format : RealProofRequestFormat)
    (sidecar_dir : option string) (call : PrivateCallExecutionResult) (call_id : nat)
    : M W (JsonTree * nat) :=
  let! nested := (fix go (calls : list PrivateCallExecutionResult) (next_call_id : nat)
      : M W (list JsonTree * nat) :=
      match calls with
      | [] => mok ([], next_call_id)
      | call :: calls' =>
          let! value := kernel_proof_call_json request_format sidecar_dir call next_call_id in
          let! rest := go calls' value.2 in
          mok (value.1 :: rest.1, rest.2)
      end) (ce_nested_execution_results call) (S call_id) in
  let! circuit := circuit_members request_format sidecar_dir call_id call in
  mok (TObject
    ([("functionName", TString "private_call");
      ("publicInputsFields", TArray (fr_json <$> ce_public_inputs_fields call));
      ("minRevertibleSideEffectCounter", TNumber (pretty (ce_min_revertible_side_effect_counter call)));
      ("startSideEffectCounter", TNumber (pretty (ce_start_side_effect_counter call)));
      ("endSideEffectCounter", TNumber (pretty (ce_end_side_effect_counter call)));
      ("returnValues", TArray (fr_json <$> ce_return_values call));
      ("noteHashNullifierCounterMap",
        TObject ((λ nc, (pretty nc.1, TNumber (pretty nc.2)))
                   <$> map_to_list (ce_note_hash_nullifier_counter_map call)));
      ("nestedExecutionResults", TArray nested.1)] ++ circuit), nested.2).

(** *** Metadata of the contracts *)

Definition get_cache : M T RealProofMetadataCache :=
  in_snd (λ st, (st, real_proof_metadata_cache st)).
Definition update_cache (f : RealProofMetadataCache → RealProofMetadataCache) : M T () :=
  in_snd (λ st, ({| real_proof_metadata_cache := f (real_proof_metadata_cache st);
                    real_kernel_prove_daemon := real_kernel_prove_daemon st |}, ())).

Definition clear_real_proof_metadata_cache : M T () := update_cache metadata_clear.

Definition address_preimage_of (address : AztecAddress) : M W CachedContractAddressPreimage :=
  let! preimage := get_contract_address_preimage address in
  let! text := required (json_get preimage "currentContractClassId" ≫= json_as_str)
                 (InvalidData "contract preimage missing class id") in
  let! class_id := mlift (Fr_from_hex text) in
  mok {| cca_preimage := preimage; cca_class_id := class_id |}.

Definition cached_contract_address_preimage (block_hash : Fr) (address : AztecAddress)
    : M T CachedContractAddressPreimage :=
  let! cache := get_cache in
  match contract_address_preimages cache !! (block_hash, address) with
  | Some value => mok value
  | None =>
      let! value := in_fst (address_preimage_of address) in
      update_cache (λ c, c {{ contract_address_preimages :=
        <[(block_hash, address) := value]> (contract_address_preimages c) }}) ;;!
      mok value
  end.

Definition cached_contract_class_preimage (class_id : Fr) : M T json_value :=
  let! cache := get_cache in
  match contract_class_preimages cache !! class_id with
  | Some value => mok value
  | None =>
      let! preimage := in_fst (get_contract_class_id_preimage class_id) in
      update_cache (λ c, c {{ contract_class_preimages :=
        <[class_id := preimage]> (contract_class_preimages c) }}) ;;!
      mok preimage
  end.

Definition cached_function_membership_witness (class_id selector : Fr) : M T json_value :=
  let! cache := get_cache in
  match function_membership_witnesses cache !! (class_id, selector) with
  | Some value => mok value
  | None =>
      let! witness := in_fst (get_function_membership_witness class_id selector) in
      update_cache (λ c, c {{ function_membership_witnesses :=
        <[(class_id, selector) := witness]> (function_membership_witnesses c) }}) ;;!
      mok witness
  end.

Definition metadata_key (call : PrivateCallExecutionResult) : string :=
  Fr_to_string (ce_contract_address call) +:+ ":"
    +:+ Fr_to_string (cc_function_selector (ce_call_context call)).

(** One entry for each contract and function that ran a circuit. *)
Definition add_metadata (block_hash : Fr) (metadata : list (string * JsonTree))
    (call : PrivateCallExecutionResult) : M T (list (string * JsonTree)) :=
  let key := metadata_key call in
  if bool_decide (length (ce_public_inputs_fields call) = 0%nat)
     || bool_decide (key ∈ metadata.*1)
  then mok metadata
  else
    let! contract_preimage := cached_contract_address_preimage block_hash (ce_contract_address call) in
    let! preimage := cached_contract_class_preimage (cca_class_id contract_preimage) in
    let! membership := cached_function_membership_witness (cca_class_id contract_preimage)
                         (cc_function_selector (ce_call_context call)) in
    mok (metadata ++
      [(key, TObject [("contractAddressPreimage", json_tree (cca_preimage contract_preimage));
                      ("contractClassIdPreimage", json_tree preimage);
                      ("functionMembershipWitness", json_tree membership)])]).

Definition kernel_entrypoint (result : PrivateExecutionResult) : PrivateCallExecutionResult :=
  let entrypoint := er_entrypoint result in
  match ce_public_inputs_fields entrypoint, ce_nested_execution_results entrypoint with
  | [], first :: _ => first
  | _, _ => entrypoint
  end.

Definition kernel_master_secret_keys : M W (list Fr) :=
  let! accounts := KeyStore.get_accounts in
  for_fold (λ secrets pk_hash,
    let! secret := KeyStore.get_secret_key pk_hash in
    mok (secrets ++ option_list secret)) [] accounts.

(** *** The helper *)

Definition optional_path (format : RealProofRequestFormat) (path : string) : option string :=
  if decide (format = ReqBinaryV1) then Some path else None.

Definition work_directory : M W string :=
  let! given := env_var "BB_WORKING_DIRECTORY" in
  match given with
  | Some dir => mok dir
  | None => let! home := env_var "HOME" in mok (path_join (default "." home) ".aztec/bb-working")
  end.

Definition prepare_directories (format : RealProofRequestFormat) (work_dir sidecar_dir : string)
    : M W () :=
  or_invalid "create bb working dir" (fs_create_dir_all work_dir) ;;!
  if decide (format = ReqBinaryV1) then
    ignoring (fs_remove_dir_all sidecar_dir) ;;!
    or_invalid "create sidecar dir" (fs_create_dir_all sidecar_dir) ;;!
    or_invalid "create response sidecar dir" (fs_create_dir_all (path_join sidecar_dir "response"))
  else mok ().

Definition kernel_request (backend : RealProofBackend) (format : RealProofRequestFormat)
    (tx_request : pxe.TxExecutionRequest) (result : PrivateExecutionResult)
    (anchor : AnchorBlockStore.AnchorBlockHeader) (block_hash : Fr) (sidecar_dir : string)
    (metadata : list (string * JsonTree)) : M W json_value :=
  let! fields := mlift (tx_request_fields_for_kernel tx_request) in
  let! calldata := mlift (serialized (er_public_function_calldata result)) in
  let! entrypoint := kernel_proof_call_json format (optional_path format sidecar_dir)
                       (kernel_entrypoint result) 0 in
  let! secrets := kernel_master_secret_keys in
  let! threads := env_var "HARDWARE_CONCURRENCY" in
  mok (json_of (TObject
    [("txRequestFields", TArray (fr_json <$> fields));
     ("firstNullifier", fr_json (er_first_nullifier result));
     ("publicFunctionCalldata", calldata); ("entrypoint", entrypoint.1);
     ("callMetadata", TObject metadata); ("masterSecretKeys", TArray (fr_json <$> secrets));
     ("blockHash", fr_json block_hash);
     ("blockNumber", TNumber (pretty (AnchorBlockStore.ah_block_number anchor)));
     ("threads", match threads ≫= parse_u32_text with
                 | Some n => TNumber (pretty n) | None => TNull end);
     ("proofBackend", TString (RealProofBackend_as_str backend));
     ("requestFormat", TString (RealProofRequestFormat_as_str format));
     ("responseSidecarDir", match optional_path format (path_join sidecar_dir "response") with
                            | Some path => TString path | None => TNull end)])).

Definition run_helper (backend : RealProofBackend) (request_path response_path : string)
    : M T json_value :=
  match backend with
  | TsProcess => in_fst (
      let! env := packages_env in
      let! output := or_invalid "execute private kernel proof helper"
        (run_command "node" [tool CARGO_MANIFEST_DIR "private_kernel_prove_from_rust.mjs"; request_path;
                             response_path] env) in
      if negb (co_success output) then
        mlift (Err (InvalidData ("private kernel proof helper failed: " +:+ co_stderr output)))
      else
        let! bytes := or_invalid "read private kernel response" (fs_read response_path) in
        mlift (json_from_slice bytes))
  | TsDaemon | BbSubprocess =>
      prove_with_real_kernel_daemon CARGO_MANIFEST_DIR request_path response_path
  end.

(** [Map::insert]. *)
Definition object_insert (k : string) (v : JsonTree) (map : list (string * JsonTree))
    : list (string * JsonTree) := List.filter (λ kv, negb (String.eqb kv.1 k)) map ++ [(k, v)].

Definition with_ivc_timing (millis : Z) (backend : RealProofBackend) (response : json_value) : json_value :=
  match json_tree response with
  | TObject map =>
      json_of (TObject (object_insert "rustProofBackend" (TString (RealProofBackend_as_str backend))
                          (object_insert "rustClientIvcMs" (TNumber (pretty millis)) map)))
  | _ => response
  end.

(** The proof of the helper, or that of [bb] from the steps the helper answers. *)
Definition helper_proof (backend : RealProofBackend) (response : json_value)
    : M W (list byte * json_value) :=
  if decide (backend = BbSubprocess) then
    let! value := required (json_get response "externalExecutionSteps")
      (InvalidData "private kernel helper missing external execution steps") in
    let! steps := mlift match from_value value with
      | Err (Json err) =>
          Err (InvalidData ("decode external ClientIVC execution steps: " +:+ err))
      | other => other
      end in
    let! steps := into_execution_steps steps in
    let! start := now in
    let! chonk := bb_create_chonk_proof CARGO_MANIFEST_DIR config steps in
    let! millis := elapsed_millis start in
    mok (cp_proof chonk, with_ivc_timing millis backend response)
  else
    let! proof := mlift (response_bytes response "proofBase64" "private kernel helper missing proof"
                           "decode helper proof") in
    mok (proof, response).

Definition prove_with_real_kernel_helper (tx_request : pxe.TxExecutionRequest)
    (result : PrivateExecutionResult) (anchor : AnchorBlockStore.AnchorBlockHeader)
    : M T (list byte * list byte * json_value) :=
  let! backend := in_fst RealProofBackend_selected in
  let! format := in_fst RealProofRequestFormat_selected in
  let! work_dir := in_fst work_directory in
  let request_path := path_join work_dir "rust-private-kernel-request.json" in
  let response_path := path_join work_dir "rust-private-kernel-response.json" in
  let sidecar_dir := path_join work_dir "rust-private-kernel-request-binary-v1" in
  in_fst (prepare_directories format work_dir sidecar_dir) ;;!
  let! block_hash := mlift (Fr_from_hex (AnchorBlockStore.ah_block_hash anchor)) in
  let! metadata := for_fold (add_metadata block_hash) [] (iter_all_calls result) in
  let! request := in_fst (kernel_request backend format tx_request result anchor block_hash
                            sidecar_dir metadata) in
  in_fst (or_invalid "write private kernel request"
            (fs_write request_path (json_to_vec request))) ;;!
  let! response := run_helper backend request_path response_path in
  let! answer := in_fst (helper_proof backend response) in
  let! public_inputs := mlift (response_bytes answer.2 "publicInputsBase64"
    "private kernel helper missing public inputs" "decode helper public inputs") in
  mok (answer.1, public_inputs, answer.2).

Definition helper_script (backend : RealProofBackend) : string :=
  match backend with
  | TsProcess => "private_kernel_prove_from_rust.mjs"
  | TsDaemon => "private_kernel_prove_daemon_from_rust.mjs"
  | BbSubprocess => "private_kernel_prove_daemon_from_rust.mjs + rust bb-subprocess ClientIVC"
  end.

Definition prove_tx_with_real_kernels (tx_request : pxe.TxExecutionRequest)
    (result : PrivateExecutionResult) (anchor : AnchorBlockStore.AnchorBlockHeader)
    (log_fields : list ContractClassLogFields) (calldata : list HashedValues)
    : M T pxe.TxProvingResult :=
  let! answer := prove_with_real_kernel_helper tx_request result anchor in
  let '(proof, public_inputs, helper_response) := answer in
  let! tx_hash := mlift match json_get helper_response "txHash" ≫= json_as_str with
                        | Some text => omap_ok Some (TxHash_from_hex text)
                        | None => Ok None
                        end in
  let! backend := in_fst RealProofBackend_selected in
  mok {| pxe.pr_tx_hash := tx_hash;
         pxe.pr_private_execution_result :=
           json_of (TObject [("realProofs", TBool true); ("helper", TString (helper_script backend));
                             ("proofBackend", TString (RealProofBackend_as_str backend))]);
         pxe.pr_public_inputs := {| pki_bytes := public_inputs |};
         pxe.pr_chonk_proof := {| chonk_bytes := proof |};
         pxe.pr_contract_class_log_fields := log_fields;
         pxe.pr_public_function_calldata := calldata;
         pxe.pr_stats := Some (json_of (TObject [("provingTimings", json_tree helper_response)])) |}.
End request.
