(* ===== verification/EmbeddedPxe.v ===== *)
(** [crates/pxe/src/embedded_pxe.rs], the PXE itself: its state, the synchronisation with
    the chain, and the methods of the [Pxe] trait. *)

From Stdlib Require Import Ascii String SpecFloat.
From coqutil Require Import Datatypes.RecordSetters.
From S2P Require Import Prelude Bytes Ordered Deps Types Constants Poseidon Merkle Grumpkin Crypto AbiTypes KernelTypes Tx Hash Deploy Kv Simulated Rpc Node LocalStores TaggingStores NoteStore EventStore Sync PickNotes AcvmExecutor Pxe Entrypoint OracleCommon TaggingSecret Oracle UtilityOracle Host KernelOracle KernelProver PxeExecution RealProof.
Import DoubleBraceUpdate.

(** ** State *)

Section state.
Context {W : Type} {FR : PrimeField fr_modulus} {JS : JsonCrate} `{HS : !HostSystem W}.

(** What does not change; the stores and the node are in the world. *)
Record EmbeddedPxe := {
  ep_vk_tree_root : Fr;
  ep_protocol_contracts_hash : Fr;
  ep_block_sync_config : BlockStateSynchronizer.BlockSyncConfig;
  ep_prover_config : BbProverConfig;
}.

(** What does: the flags of the synchroniser, the cache of synced contracts, the state of
    the real proofs, and the switch between the kernels. *)
Record PxeState := {
  px_flags : BlockStateSynchronizer.SyncFlags;
  px_cache : ContractSync.SyncCache;
  px_real : RealProofState W;
  px_prover_enabled : bool;
}.

Record EmbeddedPxeConfig := {
  prover_config : BbProverConfig;
  block_sync_config : BlockStateSynchronizer.BlockSyncConfig;
  prover_enabled : option bool;
}.

Definition EmbeddedPxeConfig_default : M W EmbeddedPxeConfig :=
  let! config := BbProverConfig_default in
  mok {| prover_config := config;
         block_sync_config := BlockStateSynchronizer.BlockSyncConfig_default;
         prover_enabled := Some false |}.

(** The parts of the state that a computation is about. *)
Notation T := (W * PxeState)%type.

Definition on_flags {A : Type} (m : M (W * BlockStateSynchronizer.SyncFlags) A) : M T A := λ s,
  let '((w, flags), r) := m (s.1, px_flags s.2) in ((w, s.2 {{ px_flags := flags }}), r).

Definition on_cache {A : Type} (f : ContractSync.SyncCache → ContractSync.SyncCache * A) : M T A := λ s,
  let (cache, a) := f (px_cache s.2) in ((s.1, s.2 {{ px_cache := cache }}), Ok a).

Definition on_real {A : Type} (m : M (W * RealProofState W) A) : M T A := λ s,
  let '((w, real), r) := m (s.1, px_real s.2) in ((w, s.2 {{ px_real := real }}), r).

Definition get_prover_enabled : M T bool := in_snd (λ st, (st, px_prover_enabled st)).
End state.
Arguments PxeState W {FR JS HS}.

(** ** The PXE *)

Section pxe.
Context {W : Type} {FR : PrimeField fr_modulus} {FQ : PrimeField fq_modulus} {HX : HexCrate}.
Context {AC : AcirCrate} {P2 : Poseidon2Crate} {HC : HashCrates} {AG : GrumpkinCrate} {SQ : SqrtField}.
Context {AES : AesCrate} {B64 : Base64Crate} {B64E : Base64Encoder} `{JT : JsonText} {JM : JsonMake}.
Context {JW : JsonWrite} {JF : JsonFloat} {SD : StrDebug} `{KV : KvStore W} `{AN : !AztecNode W}.
Context `{RW : !RandCrate W} `{HS : !HostSystem W} `{CL : !Clock W} {AV : AcvmCrate} {AS : AbiSerde}.
Context {SN : SerdeJson StoredNote} {SL : SerdeJson (list string)}.
Context {SE : SerdeJson StoredPrivateEvent} {SH : SerdeJson AnchorBlockStore.AnchorBlockHeader}.
Context {SI : SerdeJson ContractInstanceWithAddress} {SA : SerdeJson (ContractArtifact FR JS)}.
Context {SC : SerdeJson CompleteAddress} {SK : SerdeJson (list (list Fr))} {SF : SerdeJson (list Fr)}.
Context {SZ : SerdeJson Z} {SP : SerdeJson (list PendingTagIndex)} {SV : SerdeJson json_value}.
Context {FC : FromValue (list Capsule)} {FA : FromValue (list AuthWitness)}.
Context {FD : FromValue DecodedTxExecutionRequest} {FW : FromValue WireTxRequest}.
Context {FS : FromValue (list ExternalClientIvcStep)} {PK : ToValue PublicKeys}.
Context {TH : ToValue (list HashedValues)} (CARGO_MANIFEST_DIR : string).
Notation T := (W * PxeState W)%type.
Notation AnchorBlockHeader := AnchorBlockStore.AnchorBlockHeader.
Notation in_world := (λ A (m : M W A), in_fst (S := PxeState W) m).
Notation in_cache := (λ A (f : ContractSync.SyncCache → ContractSync.SyncCache * A), on_cache (W := W) f).

(** *** Creation *)

(** A root from the node when it gives one that parses, the built-in one otherwise. *)
Definition root_or (given : option string) (built_in : Outcome Fr) : Outcome Fr :=
  match given ≫= λ s, ok_opt (Fr_from_hex s) with
  | Some root => Ok root
  | None => built_in
  end.

Definition PxeState_new (enabled : bool) : PxeState W :=
  {| px_flags := BlockStateSynchronizer.SyncFlags_new; px_cache := ContractSync.SyncCache_new;
     px_real := {| real_proof_metadata_cache := RealProofMetadataCache_default;
                   real_kernel_prove_daemon := None |};
     px_prover_enabled := enabled |}.

Definition create_with_config (config : EmbeddedPxeConfig) : M W (EmbeddedPxe * PxeState W) :=
  let! node_info := get_node_info in
  let enabled := default (real_proofs node_info) (prover_enabled config) in
  let! vk_root := mlift (root_or (l2_circuits_vk_tree_root node_info) current_vk_tree_root) in
  let! contracts_hash := mlift (root_or (l2_protocol_contracts_hash node_info)
                                  compute_protocol_contracts_hash) in
  λ w, let '((w', st), r) := on_flags (BlockStateSynchronizer.run_sync (block_sync_config config))
                               (w, PxeState_new enabled) in
       (w', omap_ok (λ _, ({| ep_vk_tree_root := vk_root; ep_protocol_contracts_hash := contracts_hash;
                              ep_block_sync_config := block_sync_config config;
                              ep_prover_config := prover_config config |}, st)) r).

Definition create_with_prover_config (config : BbProverConfig) : M W (EmbeddedPxe * PxeState W) :=
  create_with_config {| prover_config := config;
                        block_sync_config := BlockStateSynchronizer.BlockSyncConfig_default;
                        prover_enabled := Some false |}.

Definition create : M W (EmbeddedPxe * PxeState W) :=
  let! config := EmbeddedPxeConfig_default in create_with_config config.

(** The daemon is started ahead of the first proof; that it does not start is only logged. *)
Definition set_prover_enabled (enabled : bool) : M T () :=
  in_snd (λ st, (st {{ px_prover_enabled := enabled }}, ())) ;;!
  if enabled then ignoring (on_real (start_real_kernel_prove_daemon CARGO_MANIFEST_DIR))
  else on_real stop_real_kernel_prove_daemon.

Variable self : EmbeddedPxe.

(** *** Synchronisation *)

Definition sync_block_state : M T () :=
  on_flags (BlockStateSynchronizer.run_sync (ep_block_sync_config self)) ;;!
  let! changed := on_flags BlockStateSynchronizer.take_anchor_changed in
  if (changed : bool) then ContractSync.wipe in_cache else mok ().

Definition get_anchor_block_header : M T AnchorBlockHeader :=
  sync_block_state ;;!
  let! header := in_fst BlockStateSynchronizer.get_anchor_block_header in
  required header (InvalidData "anchor block header not set after sync").

Definition get_anchor_block_number : M T Z :=
  sync_block_state ;;! in_fst BlockStateSynchronizer.get_anchor_block_number.

(** *** Utility functions *)

Definition UtilityExecutor : Type :=
  FunctionCall → pxe.ExecuteUtilityOpts → M T (option pxe.UtilityExecutionResult).

Definition sync_state_call (contract_address : AztecAddress) (selector : FunctionSelector)
    (function : FunctionArtifact FR JS) : FunctionCall :=
  {| fc_to := contract_address; fc_selector := selector; fc_args := [];
     fc_function_type := Utility; fc_is_static := fa_is_static function;
     fc_hide_msg_sender := false |}.

(** A contract that is not registered, or has no utility function [sync_state], has nothing
    to run. *)
Definition execute_sync_state_for_contract (execute : UtilityExecutor)
    (contract_address : AztecAddress) (scopes : list AztecAddress) : M T (option ()) :=
  let! instance := in_fst (ContractStore.get_instance contract_address) in
  match instance with
  | None => mok (Some ())
  | Some instance =>
      let! artifact := in_fst (ContractStore.get_artifact
                                 (ci_current_contract_class_id (instance_inner instance))) in
      match artifact with
      | None => mok (Some ())
      | Some artifact =>
          match find_function artifact "sync_state" with
          | Ok function =>
              if decide (function_type function = Utility) then
                let! selector := required (fa_selector function)
                  (InvalidData ("sync_state missing selector in artifact " +:+ art_name artifact)) in
                let?! _ := execute (sync_state_call contract_address selector function)
                             {| pxe.authwits := []; pxe.eu_scopes := scopes |} in
                mok (Some ())
              else mok (Some ())
          | _ => mok (Some ())
          end
      end
  end.

Definition ensure_synced (execute : UtilityExecutor) (contract_address : AztecAddress)
    (scopes : list AztecAddress) (hash : string) : M T (option ()) :=
  ContractSync.ensure_contract_synced in_world in_cache contract_address scopes hash
    (execute_sync_state_for_contract execute).

(** The function with the selector, or the first utility function. *)
Definition utility_function (artifact : ContractArtifact FR JS) (call : FunctionCall)
    : Outcome (FunctionArtifact FR JS) :=
  ok_or (match find_function_by_selector artifact (fc_selector call) with
         | Some function => Some function
         | None => find_first (λ f, bool_decide (function_type f = Utility)) (functions artifact)
         end)
    (InvalidData ("utility function with selector " +:+ FunctionSelector_to_string (fc_selector call)
                  +:+ " not found in " +:+ art_name artifact)).

Definition utility_oracle_for (anchor : AnchorBlockHeader) (call : FunctionCall)
    (opts : pxe.ExecuteUtilityOpts) : UtilityExecutionOracle :=
  uo_set_auth_witnesses (auth_pairs (pxe.authwits opts))
    (UtilityExecutionOracle_new (AnchorBlockStore.ah_data anchor) (fc_to call) (pxe.eu_scopes opts)).

(** One unit of fuel for each utility call that runs inside another's synchronisation, which
    also bounds the rounds of the machine. *)
Fixpoint execute_utility (fuel : nat) (call : FunctionCall) (opts : pxe.ExecuteUtilityOpts)
    : M T (option pxe.UtilityExecutionResult) :=
  match fuel with
  | 0%nat => mok None
  | Datatypes.S n =>
      let! anchor := get_anchor_block_header in
      let! artifact := in_fst (artifact_of (fc_to call) (contract_not_found (fc_to call))
                                 artifact_not_found) in
      let! function := mlift (utility_function artifact call) in
      let?! _ := if String.eqb (fa_name function) "sync_state" then mok (Some ())
                 else ensure_synced (execute_utility n) (fc_to call) (pxe.eu_scopes opts)
                        (AnchorBlockStore.ah_block_hash anchor) in
      let args := mjoin (abi_value_to_fields <$> fc_args call) in
      let oracle := utility_oracle_for anchor call opts in
      let?! result := in_fst (AcvmExecutor.execute_utility
        (λ name inputs, let! answer := utility_foreign_call oracle name inputs in mok (Some answer))
        n artifact (fa_name function) args) in
      mok (Some {| pxe.ut_result := result; pxe.ut_stats := None |})
  end.

(** *** Registration *)

Definition get_synced_block_header : M T pxe.BlockHeader :=
  let! anchor := get_anchor_block_header in
  mok {| pxe.bh_data := AnchorBlockStore.ah_data anchor |}.

(** The local store first, the node when it has nothing. *)
Definition get_contract_instance (address : AztecAddress) : M W (option ContractInstanceWithAddress) :=
  let! stored := ContractStore.get_instance address in
  match stored with
  | Some inst => mok (Some inst)
  | None => get_contract address
  end.

Definition get_contract_artifact (id : Fr) : M W (option (ContractArtifact FR JS)) :=
  ContractStore.get_artifact id.
Definition get_contracts : M W (list AztecAddress) := ContractStore.get_contract_addresses.

Definition register_account (secret_key partial_address : Fr) : M W CompleteAddress :=
  let! derived := KeyStore.add_account secret_key in
  let! address := mlift (compute_address (dk_public_keys derived) partial_address) in
  let complete := {| ca_address := address; ca_public_keys := dk_public_keys derived;
                     ca_partial_address := partial_address |} in
  AddressStore.add complete ;;!
  mok complete.

Definition get_registered_accounts : M W (list CompleteAddress) :=
  let! accounts := KeyStore.get_accounts in
  let! complete_addresses := AddressStore.get_all in
  mok (List.filter (λ complete, bool_decide (PublicKeys_hash (ca_public_keys complete) ∈ accounts))
         complete_addresses).

Definition is_registered_account (address : AztecAddress) : M W bool :=
  let! found := AddressStore.get address in
  match found with
  | None => mok false
  | Some complete =>
      let! accounts := KeyStore.get_accounts in
      mok (bool_decide (PublicKeys_hash (ca_public_keys complete) ∈ accounts))
  end.

(** An account of this PXE is not a sender. *)
Definition register_sender (sender : AztecAddress) : M W AztecAddress :=
  let! registered := is_registered_account sender in
  if (registered : bool) then mok sender else SenderStore.add sender ;;! mok sender.

Definition get_senders : M W (list AztecAddress) := SenderStore.get_all.
Definition remove_sender (sender : AztecAddress) : M W () := SenderStore.remove sender.

Definition clear_metadata : M T () := on_real clear_real_proof_metadata_cache.

Definition register_contract_class (artifact : ContractArtifact FR JS) : M T () :=
  in_fst (ContractStore.add_class artifact) ;;! clear_metadata.

Definition public_function_signatures (artifact : ContractArtifact FR JS) : list string :=
  (λ function, fa_name function +:+ "(" +:+
     join "," ((λ p, abi_type_signature (AbiType.p_typ p)) <$> parameters function) +:+ ")")
    <$> List.filter (λ f, bool_decide (function_type f = Public)) (functions artifact).

Definition class_mismatch (computed given : Fr) : Error :=
  InvalidData ("artifact class id " +:+ Fr_to_string computed
               +:+ " does not match instance class id " +:+ Fr_to_string given).
Definition address_mismatch (given computed : AztecAddress) : Error :=
  InvalidData ("artifact instance address " +:+ Fr_to_string given
               +:+ " does not match computed contract address " +:+ Fr_to_string computed).

(** The artifact hashes to the class of the instance and the instance to its address, unless
    the environment allows other ids. *)
Definition check_artifact (instance : ContractInstanceWithAddress) (artifact : ContractArtifact FR JS)
    : M W () :=
  let inner := instance_inner instance in
  let! flag := env_var "PXE_BENCH_REAL_PROOFS" in
  let allow_bbjs_canonical_ids := is_flag flag in
  let! computed_class_id := mlift (compute_contract_class_id_from_artifact artifact) in
  if negb (bool_decide (computed_class_id = ci_current_contract_class_id inner))
     && negb allow_bbjs_canonical_ids
  then mlift (Err (class_mismatch computed_class_id (ci_current_contract_class_id inner)))
  else
    let! computed_address := mlift (compute_contract_address_from_instance inner) in
    if negb (bool_decide (computed_address = instance_address instance))
       && negb allow_bbjs_canonical_ids
    then mlift (Err (address_mismatch (instance_address instance) computed_address))
    else
      let signatures := public_function_signatures artifact in
      if decide (length signatures = 0%nat) then mok ()
      else register_contract_function_signatures signatures.

Definition class_artifact_missing (class_id : Fr) : Error :=
  InvalidData ("artifact not found for contract class " +:+ Fr_to_string class_id).

Definition register_contract (request : pxe.RegisterContractRequest) : M T () :=
  let instance := pxe.rcr_instance request in
  let class_id := ci_current_contract_class_id (instance_inner instance) in
  in_fst match pxe.rcr_artifact request with
         | Some artifact => check_artifact instance artifact
         | None =>
             let! known := ContractStore.get_artifact class_id in
             match known with
             | None => mlift (Err (class_artifact_missing class_id))
             | Some _ => mok ()
             end
         end ;;!
  in_fst (ContractStore.add_instance instance) ;;!
  in_fst match pxe.rcr_artifact request with
         | Some artifact => ContractStore.add_artifact class_id artifact
         | None => mok ()
         end ;;!
  clear_metadata.

(** The artifact of the instance's class is replaced, whatever class it hashes to. *)
Definition update_contract (address : AztecAddress) (artifact : ContractArtifact FR JS) : M T () :=
  in_fst (ContractStore.update_artifact address artifact) ;;! clear_metadata.

(** *** Transactions *)

Definition environment (tx_request : pxe.TxExecutionRequest) (anchor : AnchorBlockHeader) : TxEnvironment :=
  {| te_request := tx_request; te_anchor := anchor; te_vk_tree_root := ep_vk_tree_root self;
     te_protocol_contracts_hash := ep_protocol_contracts_hash self |}.

Definition protocol_nullifier_of (tx_request : pxe.TxExecutionRequest) : Outcome Fr :=
  let? hash := tx_request_hash tx_request in compute_protocol_nullifier hash.

(** The constants of a transaction, its fees raised to those of the block. *)
Definition transaction_constants (env : TxEnvironment) : TxConstantData :=
  ensure_min_fees (te_anchor env)
    (build_tx_constant_data (te_anchor env) (te_request env) (te_vk_tree_root env)
       (te_protocol_contracts_hash env)).

Definition expiration_of (anchor : AnchorBlockHeader) (result : PrivateExecutionResult) : Z :=
  if negb (er_expiration_timestamp result =? 0) then er_expiration_timestamp result
  else compute_expiration anchor.

Definition execute_and_aggregate (fuel : nat) (env : TxEnvironment) (calls : list DecodedEntrypointCall)
    (origin : AztecAddress) (protocol_nullifier : Fr) (scopes : list AztecAddress)
    : M W (option CallExecutionBundle) :=
  let?! bundles := execute_calls fuel env calls origin protocol_nullifier scopes in
  mok (Some (aggregate_call_bundles origin bundles)).

(** The values of the user's function in the tree of calls, or those of the databus. *)
Definition private_return_values (aggregated : CallExecutionBundle) : list Fr :=
  let from_tree := default [] (
    head (ce_nested_execution_results (er_entrypoint (cb_execution_result aggregated)))
      ≫= λ ep, ce_return_values <$> match ce_nested_execution_results ep with
                                    | first :: _ => Some first
                                    | [] => Some ep
                                    end) in
  or_else from_tree (cb_first_acir_call_return_values aggregated).

Definition texts (values : list Fr) : JsonTree := TArray (fr_json <$> values).

Definition simulation_data (bundles : list CallExecutionBundle) (aggregated : CallExecutionBundle)
    (pi : PrivateKernelTailPublicInputs) : json_value :=
  json_of (TObject
    [("returnValues", if (1 <? length bundles)%nat
                      then TArray ((λ b, texts (cb_simulated_return_values b)) <$> bundles)
                      else texts (private_return_values aggregated));
     ("gasUsed", TObject [("daGas", TNumber (pretty (da_gas (pi_gas_used pi))));
                          ("l2Gas", TNumber (pretty (l2_gas (pi_gas_used pi))))]);
     ("isForPublic", TBool (KernelTypes.is_for_public pi))]).

Definition BlockHeader_default : BlockHeader :=
  let snapshot := {| ts_root := Fr_zero; next_available_leaf_index := 0 |} in
  {| last_archive := snapshot;
     bh_state := {| l1_to_l2_message_tree := snapshot;
                    st_partial := {| note_hash_tree := snapshot; nullifier_tree := snapshot;
                                     public_data_tree := snapshot |} |};
     sponge_blob_hash := Fr_zero;
     global_variables :=
       {| gv_chain_id := Fr_zero; gv_version := Fr_zero; gv_block_number := 0; gv_slot_number := 0;
          gv_timestamp := 0; gv_coinbase := replicate 20 zero_byte;
          gv_fee_recipient := AztecAddress_zero; gv_gas_fees := GasFees_default |};
     total_fees := Fr_zero; total_mana_used := Fr_zero |}.

Definition TxConstantData_default : TxConstantData :=
  {| anchor_block_header := BlockHeader_default;
     tx_context := {| tc_chain_id := Fr_zero; tc_version := Fr_zero;
                      tc_gas_settings := GasSettings_default |};
     vk_tree_root := Fr_zero; protocol_contracts_hash := Fr_zero |}.

(** The simulated kernel gets default constants and no expiration. *)
Definition simulate_tx (fuel : nat) (tx_request : pxe.TxExecutionRequest) (opts : pxe.SimulateTxOpts)
    : M T (option pxe.TxSimulationResult) :=
  sync_block_state ;;!
  let! anchor := get_anchor_block_header in
  let! protocol_nullifier := mlift (protocol_nullifier_of tx_request) in
  let! request := mlift (from_value (pxe.tr_data tx_request)) in
  let origin := dr_origin request in
  let! decoded_calls := mlift (decode_entrypoint_calls request) in
  let?! bundles := in_fst (execute_calls fuel (environment tx_request anchor) decoded_calls origin
                             protocol_nullifier (pxe.st_scopes opts)) in
  let aggregated := aggregate_call_bundles origin bundles in
  in_fst (verify_auth_witness_signatures tx_request origin) ;;!
  let pi := process (cb_execution_result aggregated) TxConstantData_default origin 0 in
  mok (Some {| pxe.sim_data := simulation_data bundles aggregated pi |}).

(** *** Proving *)

(** The errors of a synchronisation before a proof are ignored. *)
Definition sync_quietly (fuel : nat) (scopes : list AztecAddress) (hash : string)
    (call : DecodedEntrypointCall) : M T (option ()) :=
  let! tried := mtry (ensure_synced (execute_utility fuel) (de_to call) scopes hash) in
  mok match tried with Ok o => o | _ => Some () end.

Definition sync_calls (fuel : nat) (scopes : list AztecAddress) (hash : string)
    (calls : list DecodedEntrypointCall) : M T (option ()) :=
  for_each_opt (λ call, for_each_opt (λ _, sync_quietly fuel scopes hash call) scopes) calls.

Definition account_missing (e : Error) : bool :=
  match e with
  | InvalidData msg => contains "account contract not found" msg
                       || contains "account contract artifact not found" msg
  | _ => false
  end.

(** Through the account's entrypoint where it is asked for; a request with public calls
    falls back to its calls when the account is not registered. *)
Definition execute_request (fuel : nat) (env : TxEnvironment) (request : DecodedTxExecutionRequest)
    (calls : list DecodedEntrypointCall) (origin : AztecAddress) (protocol_nullifier : Fr)
    (scopes : list AztecAddress) (real_kernels : bool) : M W (option CallExecutionBundle) :=
  let public_calls := has_public_calls request in
  let call_by_call := execute_and_aggregate fuel env calls origin protocol_nullifier scopes in
  if public_calls || real_kernels then
    let! tried := mtry (execute_entrypoint_via_acvm fuel env origin protocol_nullifier scopes) in
    match tried with
    | Ok bundle => mok bundle
    | Err e => if public_calls && account_missing e then call_by_call else mlift (Err e)
    | Panic => mlift Panic
    end
  else call_by_call.

(** The calldata of the public calls, paired with their requests and sorted by counter. *)
Definition sorted_calldata (aggregated : CallExecutionBundle) : list HashedValues :=
  let requests := all_public_call_requests (cb_execution_result aggregated) in
  let calldata := cb_public_function_calldata aggregated in
  if (length requests =? length calldata)%nat && negb (bool_decide (length calldata = 0%nat)) then
    snd <$> sort_by_key (λ rc : PublicCallRequestData * HashedValues, pcd_counter rc.1)
              (zip requests calldata)
  else calldata.

(** As many zero fields as a proof has, after their count. *)
Definition dummy_chonk_proof : list byte :=
  vec_resize (Z.to_nat (4 + CHONK_PROOF_LENGTH * 32)) zero_byte (be_bytes 4 CHONK_PROOF_LENGTH).

Definition simulated_proof (aggregated : CallExecutionBundle) (calldata : list HashedValues)
    (public_inputs : PrivateKernelTailPublicInputs) : pxe.TxProvingResult :=
  {| pxe.pr_tx_hash := Some (Fr_to_be_bytes (PrivateKernelTailPublicInputs_hash public_inputs));
     pxe.pr_private_execution_result := json_of (TObject []);
     pxe.pr_public_inputs := {| pki_bytes := PrivateKernelTailPublicInputs_to_buffer public_inputs |};
     pxe.pr_chonk_proof := {| chonk_bytes := dummy_chonk_proof |};
     pxe.pr_contract_class_log_fields := cb_contract_class_log_fields aggregated;
     pxe.pr_public_function_calldata := calldata; pxe.pr_stats := None |}.

Definition prove_tx (fuel : nat) (tx_request : pxe.TxExecutionRequest) (scopes : list AztecAddress)
    : M T (option pxe.TxProvingResult) :=
  sync_block_state ;;!
  let! anchor := get_anchor_block_header in
  let! protocol_nullifier := mlift (protocol_nullifier_of tx_request) in
  let origin := extract_origin tx_request in
  let env := environment tx_request anchor in
  let tx_constants := transaction_constants env in
  let! request := mlift (from_value (pxe.tr_data tx_request)) in
  let fee_payer := default origin (dr_fee_payer request) in
  let! decoded_calls := mlift (decode_entrypoint_calls request) in
  let?! _ := sync_calls fuel scopes (AnchorBlockStore.ah_block_hash anchor) decoded_calls in
  let! real_kernels := get_prover_enabled in
  let?! aggregated := in_fst (execute_request fuel env request decoded_calls origin
                                protocol_nullifier scopes real_kernels) in
  let result := cb_execution_result aggregated in
  in_fst (verify_auth_witness_signatures tx_request origin) ;;!
  let calldata := sorted_calldata aggregated in
  if (real_kernels : bool) then
    let! proved := on_real (prove_tx_with_real_kernels CARGO_MANIFEST_DIR (ep_prover_config self)
      tx_request result anchor (cb_contract_class_log_fields aggregated) calldata) in
    mok (Some proved)
  else
    mok (Some (simulated_proof aggregated calldata
                 (process result tx_constants fee_payer (expiration_of anchor result)))).

Definition profile_data (expiration_timestamp : Z) : json_value :=
  let member := ("expirationTimestamp", TNumber (pretty expiration_timestamp)) in
  json_of (TObject [member; ("data", TObject [member])]).

Definition profile_tx (fuel : nat) (tx_request : pxe.TxExecutionRequest) (opts : pxe.ProfileTxOpts)
    : M T (option pxe.TxProfileResult) :=
  sync_block_state ;;!
  let! anchor := get_anchor_block_header in
  let! protocol_nullifier := mlift (protocol_nullifier_of tx_request) in
  let! request := mlift (from_value (pxe.tr_data tx_request)) in
  let origin := dr_origin request in
  let! decoded_calls := mlift (decode_entrypoint_calls request) in
  let?! aggregated := in_fst (execute_and_aggregate fuel (environment tx_request anchor) decoded_calls
                                origin protocol_nullifier (pxe.pt_scopes opts)) in
  mok (Some {| pxe.prof_data := profile_data (expiration_of anchor (cb_execution_result aggregated)) |}).

(** *** Events *)

Definition pack_event (e : StoredPrivateEvent) : pxe.PackedPrivateEvent :=
  {| pxe.packed_event := ev_msg_content e; pxe.ppe_tx_hash := ev_tx_hash e;
     pxe.l2_block_number := ev_l2_block_number e;
     pxe.l2_block_hash := default pxe.BlockHash_default (ok_opt (pxe.BlockHash_from_hex (ev_l2_block_hash e)));
     pxe.ppe_event_selector := ev_event_selector e |}.

Definition get_private_events (fuel : nat) (event_selector : Fr) (filter : pxe.PrivateEventFilter)
    : M T (option (list pxe.PackedPrivateEvent)) :=
  sync_block_state ;;!
  let! anchor_block_number := get_anchor_block_number in
  let! anchor := mtry get_anchor_block_header in
  let anchor_hash := default "" (AnchorBlockStore.ah_block_hash <$> ok_opt anchor) in
  let?! _ := ensure_synced (execute_utility fuel) (pxe.pef_contract_address filter)
               (pxe.pef_scopes filter) anchor_hash in
  let! query_filter := mlift (validate_event_filter anchor_block_number filter) in
  let! stored_events := in_fst (PrivateEventStore.get_private_events event_selector query_filter) in
  mok (Some (pack_event <$> stored_events)).

Definition stop : M T () := mok ().
End pxe.
