(* ===== verification/ExamplePxe.v ===== *)
(** Concrete instances for the witnesses of the embedded PXE: a machine without files or
    other processes, a clock that stands still, and requests that hold nothing. *)

From Stdlib Require Import Ascii String SpecFloat.
From S2P Require Import Prelude Bytes Ordered Deps Concrete Types AbiTypes Tx Deploy Kv Rpc Node LocalStores EventStore EventSpec Sync SyncSpec Pxe Entrypoint ExampleWorld UtilityOracle Host KernelProver RealProof EmbeddedPxe.
Import Concrete.Instances ExampleWorld.Instances.
#[local] Existing Instances SyncSpec.header_serde SyncSpec.example_node EventSpec.event_serde.
#[local] Instance example_json_serde : SerdeJson jvalue := countable_serde jvalue.
#[local] Instance no_aes : AesCrate := {| aes128_cbc_decrypt _ _ _ := inl "unpad error"%string |}.
#[local] Instance no_encoder : Base64Encoder := {| base64_encode := from_bytes |}.
#[local] Instance no_writer : JsonWrite := {| json_to_vec _ := [] |}.
#[local] Instance no_floats : JsonFloat := {| number_as_f64 _ := None |}.
#[local] Instance plain_debug : StrDebug := {| str_debug s := s |}.
#[local] Instance no_abi_json : AbiSerde := {| return_types_value _ := Ok TNull |}.
#[local] Instance still_clock : Clock InMemoryKvStore :=
  {| now := mok 0; sleep _ := mok (); instant_max := 2 ^ 62 |}.
#[local] Instance bare_host : HostSystem InMemoryKvStore := {|
  env_var _ := mok None; current_dir := mok None; path_exists _ := mok false;
  fs_read _ := mok (inl "not found"%string); fs_read_to_string _ := mok (inl "not found"%string);
  fs_write _ _ := mok (inl "not found"%string); fs_create_dir_all _ := mok (inl "not found"%string);
  fs_remove_dir_all _ := mok (inl "not found"%string);
  run_command _ _ _ := mok (inl "not found"%string); child := Empty_set;
  child_spawn _ _ _ := mok (inl "not found"%string); child_exited c := match c with end;
  child_write c := match c with end; child_flush c := match c with end;
  child_read_line c := match c with end; child_kill c := match c with end |}.

#[local] Instance no_capsules : FromValue (list Capsule) := {| from_value _ := Ok [] |}.
#[local] Instance no_witnesses : FromValue (list AuthWitness) := {| from_value _ := Ok [] |}.
#[local] Instance no_steps : FromValue (list ExternalClientIvcStep) := {| from_value _ := Ok [] |}.
#[local] Instance no_keys : ToValue PublicKeys := {| to_value _ := inr JNull |}.
#[local] Instance no_values : ToValue (list HashedValues) := {| to_value _ := inr JNull |}.

Definition example_pxe : EmbeddedPxe :=
  {| ep_vk_tree_root := Fr_one; ep_protocol_contracts_hash := Fr_one;
     ep_block_sync_config := BlockStateSynchronizer.BlockSyncConfig_default;
     ep_prover_config := {| bb_binary_path := EmptyString; working_directory := EmptyString;
       hardware_concurrency := None; skip_cleanup := false |} |}.
Definition example_state : InMemoryKvStore * PxeState InMemoryKvStore :=
  (InMemoryKvStore_new, PxeState_new false).

Module Instances.
#[export] Existing Instances SyncSpec.header_serde SyncSpec.example_node EventSpec.event_serde.
#[export] Existing Instance example_json_serde.
#[export] Existing Instance no_aes.
#[export] Existing Instance no_encoder.
#[export] Existing Instance no_writer.
#[export] Existing Instance no_floats.
#[export] Existing Instance plain_debug.
#[export] Existing Instance no_abi_json.
#[export] Existing Instance still_clock.
#[export] Existing Instance bare_host.
#[export] Existing Instance no_capsules.
#[export] Existing Instance no_witnesses.
#[export] Existing Instance no_steps.
#[export] Existing Instance no_keys.
#[export] Existing Instance no_values.
End Instances.
