(* ===== verification/AggregateSpec.v ===== *)
(** What joining the results of a request's calls does to their side effects: each keeps its
    place, and none is lost to another with its counter. *)

From Stdlib Require Import Ascii String.
From coqutil Require Import Datatypes.RecordSetters.
From S2P Require Import Prelude Bytes Ordered Deps Concrete Types Constants Poseidon KernelTypes Tx Hash Simulated SimulatedSpec PxeExecution EmbeddedPxe.
Import DoubleBraceUpdate.

Section aggregate.
Context {FR : PrimeField fr_modulus} {HX : HexCrate} {AC : AcirCrate}.
Implicit Types bundles : list CallExecutionBundle.

(** ** The calls of a result *)

Lemma call_result_nested_ind (P : PrivateCallExecutionResult → Prop) :
  (∀ c, Forall P (ce_nested_execution_results c) → P c) → ∀ c, P c.
Proof.
  intros HP. fix IH 1. intros c. apply HP. destruct c as [? ? ? ? ? ? ? ? ? ? ? nested]. cbn.
  induction nested as [|x l IHl]; constructor; [apply IH|exact IHl].
Qed.

Lemma collect_calls_unfold c :
  collect_calls c = c :: List.flat_map collect_calls (ce_nested_execution_results c).
Proof. by destruct c. Qed.

Lemma flat_map_fmap {A B C} (f : A → B) (g : B → list C) (l : list A) :
  List.flat_map g (f <$> l) = List.flat_map (λ a, g (f a)) l.
Proof. induction l as [|a l IH]; [done|]. by rewrite fmap_cons; simpl; rewrite IH. Qed.

Lemma fmap_flat_map {A B C} (f : B → C) (g : A → list B) (l : list A) :
  f <$> List.flat_map g l = List.flat_map (λ a, f <$> g a) l.
Proof. induction l as [|a l IH]; [done|]. simpl. by rewrite fmap_app, IH. Qed.

Lemma flat_map_forall {A B} (f g : A → list B) (l : list A) :
  Forall (λ a, f a = g a) l → List.flat_map f l = List.flat_map g l.
Proof. induction 1 as [|a l Ha Hl IH]; [done|]. simpl. by rewrite Ha, IH. Qed.

Lemma collect_offset (o : Z) c :
  collect_calls (offset_private_call_result o c) = offset_private_call_result o <$> collect_calls c.
Proof.
  induction c as [c IH] using call_result_nested_ind. rewrite !collect_calls_unfold, fmap_cons. f_equal.
  assert (ce_nested_execution_results (offset_private_call_result o c)
          = offset_private_call_result o <$> ce_nested_execution_results c) as -> by by destruct c.
  rewrite flat_map_fmap, fmap_flat_map. by apply flat_map_forall.
Qed.

(** ** Kinds of effects *)

(** A kind of side effect: where a call keeps it, its counter, and what an offset does. *)
Record EffectKind (A : Type) := {
  effects_of : PrivateCallExecutionResult → list A;
  counter_of : A → Z;
  offset_of : Z → A → A;
}.
Arguments effects_of {A}. Arguments counter_of {A}. Arguments offset_of {A}.

Class OffsetsCounter {A} (k : EffectKind A) : Prop := {
  offset_effects o c : effects_of k (offset_private_call_result o c) = offset_of k o <$> effects_of k c;
  offset_counter o x : counter_of k (offset_of k o x) = saturating_add o (counter_of k x);
  no_effects : effects_of k CallResult_default = [];
}.

Definition note_hash_kind : EffectKind ScopedNoteHash :=
  {| effects_of := ce_note_hashes; counter_of := snh_counter; offset_of := offset_note_hash |}.
Definition nullifier_kind : EffectKind ScopedNullifier :=
  {| effects_of := ce_nullifiers; counter_of := snf_counter; offset_of := offset_nullifier |}.
Definition note_hash_read_kind : EffectKind ScopedReadRequest :=
  {| effects_of := ce_note_hash_read_requests; counter_of := srr_counter; offset_of := offset_read_request |}.
Definition nullifier_read_kind : EffectKind ScopedReadRequest :=
  {| effects_of := ce_nullifier_read_requests; counter_of := srr_counter; offset_of := offset_read_request |}.
Definition private_log_kind : EffectKind PrivateLogData :=
  {| effects_of := ce_private_logs; counter_of := pld_counter; offset_of := offset_private_log |}.
Definition class_log_kind : EffectKind CountedContractClassLog :=
  {| effects_of := ce_contract_class_logs; counter_of := cccl_counter; offset_of := offset_class_log |}.
Definition public_call_kind : EffectKind PublicCallRequestData :=
  {| effects_of := ce_public_call_requests; counter_of := pcd_counter; offset_of := offset_public_call |}.

Ltac offsets_counter := split; [by intros o []|done|done].
#[export] Instance note_hash_offsets : OffsetsCounter note_hash_kind. Proof. offsets_counter. Qed.
#[export] Instance nullifier_offsets : OffsetsCounter nullifier_kind. Proof. offsets_counter. Qed.
#[export] Instance note_hash_read_offsets : OffsetsCounter note_hash_read_kind. Proof. offsets_counter. Qed.
#[export] Instance nullifier_read_offsets : OffsetsCounter nullifier_read_kind. Proof. offsets_counter. Qed.
#[export] Instance private_log_offsets : OffsetsCounter private_log_kind. Proof. offsets_counter. Qed.
#[export] Instance class_log_offsets : OffsetsCounter class_log_kind. Proof. offsets_counter. Qed.
#[export] Instance public_call_offsets : OffsetsCounter public_call_kind. Proof. offsets_counter. Qed.

(** ** The fold over the bundles *)

Definition entry (b : CallExecutionBundle) : PrivateCallExecutionResult :=
  er_entrypoint (cb_execution_result b).
Definition end_of (b : CallExecutionBundle) : Z := ce_end_side_effect_counter (entry b).

(** What is added to the counters of each bundle: the counters of those before it. *)
Fixpoint call_offsets (offset : Z) (bundles : list CallExecutionBundle) : list Z :=
  match bundles with
  | [] => []
  | b :: bundles => offset :: call_offsets (offset + end_of b) bundles
  end.

Definition total_end bundles : Z := foldr (λ b n, end_of b + n) 0 bundles.

(** The effects of the kind [k] of all the bundles, one bundle after the other. *)
Definition joined {A} (k : EffectKind A) bundles : list A :=
  mjoin (zip_with (λ o b, offset_of k o <$> collect_by_counter (effects_of k) (counter_of k) (cb_execution_result b))
           (call_offsets 0 bundles) bundles).

(** Every counter of a bundle is one that its end counts. *)
Definition within_end {A} (k : EffectKind A) (b : CallExecutionBundle) : Prop :=
  0 ≤ end_of b ∧
  Forall (λ x, 0 < counter_of k x ≤ end_of b) (emitted (effects_of k) (cb_execution_result b)).

Definition counters_within (b : CallExecutionBundle) : Prop :=
  within_end note_hash_kind b ∧ within_end nullifier_kind b ∧ within_end note_hash_read_kind b ∧
  within_end nullifier_read_kind b ∧ within_end private_log_kind b ∧ within_end class_log_kind b ∧
  within_end public_call_kind b.

Lemma saturating_add_small o n : n + o < 2 ^ 32 → saturating_add o n = n + o.
Proof. unfold saturating_add. lia. Qed.

Lemma aggregate_fold acc bundles :
  0 ≤ ag_offset acc → Forall (λ b, 0 ≤ end_of b) bundles → ag_offset acc + total_end bundles < 2 ^ 32 →
  let final := foldl aggregate_step acc bundles in
  ag_nested final = ag_nested acc ++ zip_with (λ o b, offset_private_call_result o (entry b))
                                       (call_offsets (ag_offset acc) bundles) bundles ∧
  ag_offset final = ag_offset acc + total_end bundles ∧
  ag_calldata final = ag_calldata acc ++ mjoin (cb_public_function_calldata <$> bundles) ∧
  ag_log_fields final = ag_log_fields acc ++ mjoin (cb_contract_class_log_fields <$> bundles).
Proof.
  revert acc. induction bundles as [|b bundles IH]; intros acc H0 Hb Hsum; cbn zeta.
  { simpl. rewrite !app_nil_r. split_and!; [done|lia|done..]. }
  apply Forall_cons in Hb as [Hb0 Hb]. cbn [total_end foldr] in Hsum. fold (total_end bundles) in Hsum.
  assert (0 ≤ total_end bundles) as Ht.
  { clear -Hb. induction Hb as [|c l Hc Hl IH]; simpl; [done|lia]. }
  assert (ag_offset (aggregate_step acc b) = ag_offset acc + end_of b) as Eo.
  { unfold aggregate_step. cbn [ag_offset]. unfold end_of, entry.
    destruct (er_entrypoint (cb_execution_result b)) eqn:Ec. cbn.
    rewrite saturating_add_small; [lia|]. unfold end_of, entry in *. rewrite Ec in *. cbn in *. lia. }
  cbn [foldl]. destruct (IH (aggregate_step acc b)) as (E1 & E2 & E3 & E4); [lia|done|lia|].
  rewrite E1, E2, E3, E4, Eo. cbn [call_offsets zip_with]. rewrite !fmap_cons, !mjoin_cons.
  cbn [aggregate_step ag_nested ag_calldata ag_log_fields]. rewrite <- !app_assoc.
  split_and!; [done| |done..]. cbn [total_end foldr]. fold (total_end bundles). lia.
Qed.

(** The collection over calls that were moved apart is that over each. *)
Lemma collect_apart {A} (k : EffectKind A) `{!OffsetsCounter k} offset bundles :
  0 ≤ offset → Forall (within_end k) bundles → offset + total_end bundles < 2 ^ 32 →
  let calls := List.flat_map collect_calls
    (zip_with (λ o b, offset_private_call_result o (entry b)) (call_offsets offset bundles) bundles) in
  let effects := List.flat_map (effects_of k) calls in
  Forall (λ x, offset < counter_of k x) effects ∧
  by_counter (counter_of k) effects
  = mjoin (zip_with (λ o b, offset_of k o <$> collect_by_counter (effects_of k) (counter_of k)
                                                (cb_execution_result b))
             (call_offsets offset bundles) bundles).
Proof.
  revert offset. induction bundles as [|b bundles IH]; intros offset H0 Hb Hsum; cbn zeta; [by split|].
  apply Forall_cons in Hb as [[Hend Hb0] Hb]. cbn [total_end foldr] in Hsum. fold (total_end bundles) in Hsum.
  assert (0 ≤ total_end bundles) as Ht.
  { clear -Hb. induction Hb as [|c l [Hc _] Hl IH]; simpl; [done|lia]. }
  destruct (IH (offset + end_of b)) as [IH1 IH2]; [lia|done|lia|].
  cbn [call_offsets zip_with List.flat_map]. rewrite collect_offset, flat_map_app, flat_map_fmap.
  rewrite (flat_map_forall _ (λ c, offset_of k offset <$> effects_of k c))
    by (apply Forall_forall; intros c _; apply offset_effects).
  rewrite <- fmap_flat_map. fold (iter_all_calls (cb_execution_result b)).
  change (List.flat_map (effects_of k) (iter_all_calls (cb_execution_result b)))
    with (emitted (effects_of k) (cb_execution_result b)).
  assert (Forall (λ x, counter_of k (offset_of k offset x) = counter_of k x + offset)
            (emitted (effects_of k) (cb_execution_result b))) as Hs.
  { eapply Forall_impl; [exact Hb0|]. simpl. intros x Hx. rewrite offset_counter. apply saturating_add_small. lia. }
  set (own := emitted _ _) in *. assert (Forall (λ x, offset < counter_of k x ≤ offset + end_of b)
                                          (offset_of k offset <$> own)) as Hown.
  { rewrite Forall_fmap. rewrite Forall_forall in Hs, Hb0 |- *. intros x Hx. simpl. rewrite (Hs x Hx).
    specialize (Hb0 x Hx). simpl in Hb0. lia. }
  split.
  - apply Forall_app. split; [eapply Forall_impl; [exact Hown|]|eapply Forall_impl; [exact IH1|]]; simpl; lia.
  - rewrite (by_counter_app _ (offset + end_of b)); [|eapply Forall_impl; [exact Hown|simpl; lia]|exact IH1].
    rewrite IH2. cbn [mjoin list_join]. f_equal.
    unfold collect_by_counter. by apply (by_counter_shift _ offset).
Qed.

Lemma aggregate_nested (origin : AztecAddress) bundles :
  Forall (λ b, 0 ≤ end_of b) bundles → total_end bundles < 2 ^ 32 →
  let r := aggregate_call_bundles origin bundles in
  ce_nested_execution_results (entry r)
    = zip_with (λ o b, offset_private_call_result o (entry b)) (call_offsets 0 bundles) bundles ∧
  end_of r = total_end bundles ∧
  cb_public_function_calldata r = mjoin (cb_public_function_calldata <$> bundles) ∧
  cb_contract_class_log_fields r = mjoin (cb_contract_class_log_fields <$> bundles).
Proof.
  intros H0 Hsum. apply (aggregate_fold {| ag_offset := 0; ag_nested := []; ag_expiration := 0;
    ag_calldata := []; ag_log_fields := [] |}); [done..|exact Hsum].
Qed.

Lemma aggregate_collect {A} (k : EffectKind A) `{!OffsetsCounter k} (origin : AztecAddress) bundles :
  effects_of k (entry (aggregate_call_bundles origin bundles)) = [] →
  Forall (within_end k) bundles → total_end bundles < 2 ^ 32 →
  collect_by_counter (effects_of k) (counter_of k) (cb_execution_result (aggregate_call_bundles origin bundles))
  = joined k bundles.
Proof.
  intros Hroot Hb Hsum. unfold collect_by_counter, iter_all_calls. fold (entry (aggregate_call_bundles origin bundles)).
  rewrite collect_calls_unfold. cbn [List.flat_map]. rewrite Hroot.
  destruct (aggregate_nested origin bundles) as (-> & _);
    [eapply Forall_impl; [exact Hb|by intros b []]|done|].
  by apply collect_apart.
Qed.

(** C6: joining the calls of a request loses none of their side effects. When the counters
    of every call stay within what its end counts, and all of them together within 32
    bits, the note hashes, nullifiers, read requests, logs and public calls that are
    collected from the joined result are those collected from each call, one call after
    the other, each counter moved past those of the calls before; the calldata and the
    class logs are joined in the same order and the joined result ends where the last call
    does. *)
Theorem aggregate_keeps_effects (origin : AztecAddress) (bundles : list CallExecutionBundle) :
  Forall counters_within bundles → total_end bundles < 2 ^ 32 →
  let aggregated := aggregate_call_bundles origin bundles in
  let r := cb_execution_result aggregated in
  all_note_hashes r = joined note_hash_kind bundles ∧
  all_nullifiers r = joined nullifier_kind bundles ∧
  all_note_hash_read_requests r = joined note_hash_read_kind bundles ∧
  all_nullifier_read_requests r = joined nullifier_read_kind bundles ∧
  all_private_logs r = joined private_log_kind bundles ∧
  all_contract_class_logs_sorted r = joined class_log_kind bundles ∧
  all_public_call_requests r = joined public_call_kind bundles ∧
  cb_public_function_calldata aggregated = mjoin (cb_public_function_calldata <$> bundles) ∧
  cb_contract_class_log_fields aggregated = mjoin (cb_contract_class_log_fields <$> bundles) ∧
  ce_end_side_effect_counter (er_entrypoint r) = total_end bundles.
Proof.
  intros Hb Hsum. cbn zeta.
  assert (Forall (λ b, 0 ≤ end_of b) bundles) as H0 by (eapply Forall_impl; [exact Hb|by intros b [[]]]).
  destruct (aggregate_nested origin bundles H0 Hsum) as (_ & Hend & Hcd & Hlogs).
  assert (∀ (A : Type) (k : EffectKind A), (∀ b, counters_within b → within_end k b) → Forall (within_end k) bundles)
    as Hk by (intros A k H; eapply Forall_impl; [exact Hb|exact H]).
  split_and!; try done.
  - apply (aggregate_collect note_hash_kind); [done|apply Hk; by intros b (? & _)|done].
  - apply (aggregate_collect nullifier_kind); [done|apply Hk; by intros b (_ & ? & _)|done].
  - apply (aggregate_collect note_hash_read_kind); [done|apply Hk; by intros b (_ & _ & ? & _)|done].
  - apply (aggregate_collect nullifier_read_kind); [done|apply Hk; by intros b (_ & _ & _ & ? & _)|done].
  - apply (aggregate_collect private_log_kind); [done|apply Hk; by intros b (_ & _ & _ & _ & ? & _)|done].
  - apply (aggregate_collect class_log_kind); [done|apply Hk; by intros b (_ & _ & _ & _ & _ & ? & _)|done].
  - apply (aggregate_collect public_call_kind); [done|apply Hk; by intros b (_ & _ & _ & _ & _ & _ & ?)|done].
Qed.

(** ** Calldata *)

Lemma strongly_sorted_zip {A B} (R : A → A → Prop) (l : list A) (l' : list B) :
  StronglySorted R l → StronglySorted (λ x y, R x.1 y.1) (zip l l').
Proof.
  intros Hs. revert l'. induction Hs as [|x l Hl IH Hx]; intros [|y l']; cbn; [constructor..|].
  constructor; [apply IH|]. apply Forall_forall. intros [a b] Hin%elem_of_zip_l.
  rewrite Forall_forall in Hx. by apply Hx.
Qed.

(** The requests are sorted before they are paired: the order of the calldata stays. *)
Lemma sorted_calldata_same (aggregated : CallExecutionBundle) :
  sorted_calldata aggregated = cb_public_function_calldata aggregated.
Proof.
  unfold sorted_calldata. destruct (_ && _) eqn:E; [|done]. apply andb_true_iff in E as [El%Nat.eqb_eq _].
  unfold sort_by_key. rewrite sort_by_sorted_id.
  - apply snd_zip. by rewrite El.
  - eapply strongly_sorted_impl; [|apply strongly_sorted_zip, (by_counter_sorted pcd_counter)].
    unfold cmp_le. cbn. intros x y Hxy Hgt%Z.compare_gt_iff. lia.
Qed.

(** Each request has its calldata at its place. *)
Definition calldata_matches (requests : list PublicCallRequestData) (calldata : list HashedValues) : Prop :=
  Forall2 (λ request values, pcd_calldata_hash request = hv_hash values) requests calldata.
Definition bundle_matches (b : CallExecutionBundle) : Prop :=
  calldata_matches (all_public_call_requests (cb_execution_result b)) (cb_public_function_calldata b).


(** *** The bundles that the PXE makes itself *)

Context {P2 : Poseidon2Crate}.

Ltac within := unfold counters_within, within_end; split_and!; cbv [emitted iter_all_calls constant end_of entry]; cbn; unfold constant;
  try lia; repeat (apply Forall_cons; split; [cbn; unfold constant; lia|]); apply Forall_nil; exact I.

Lemma enqueued_within contract_address selector args origin first_nullifier hide static :
  counters_within (enqueued_call contract_address selector args origin first_nullifier hide static).
Proof. within. Qed.

Lemma enqueued_matches contract_address selector args origin first_nullifier hide static :
  bundle_matches (enqueued_call contract_address selector args origin first_nullifier hide static).
Proof. unfold bundle_matches. by repeat constructor. Qed.

Lemma published_within origin contract_address selector nullifier first_nullifier :
  counters_within (bare_bundle (published_call origin contract_address selector nullifier) first_nullifier [] []).
Proof. within. Qed.
End aggregate.

(** ** Examples *)

Import Concrete.Instances.

Definition example_enqueued (to value : Z) : CallExecutionBundle :=
  enqueued_call (Fr_from_u64 to) [] [Fr_from_u64 value] Fr_one Fr_zero false false.
Definition example_published (nullifier : Z) : CallExecutionBundle :=
  bare_bundle (published_call Fr_one (Fr_from_u64 3) [] (Fr_from_u64 nullifier)) Fr_zero [] [].

Definition example_bundles : list CallExecutionBundle :=
  [example_published 7; example_enqueued 5 1; example_published 8; example_enqueued 5 2].

Lemma example_published_within n : counters_within (example_published n).
Proof. exact (published_within Fr_one (Fr_from_u64 3) [] (Fr_from_u64 n) Fr_zero). Qed.
Lemma example_enqueued_within to n : counters_within (example_enqueued to n).
Proof. exact (enqueued_within (Fr_from_u64 to) [] [Fr_from_u64 n] Fr_one Fr_zero false false). Qed.
Lemma example_enqueued_matches to n : bundle_matches (example_enqueued to n).
Proof. exact (enqueued_matches (Fr_from_u64 to) [] [Fr_from_u64 n] Fr_one Fr_zero false false). Qed.

Lemma aggregate_keeps_effects_witness :
  all_nullifiers (cb_execution_result (aggregate_call_bundles Fr_one example_bundles))
    = joined nullifier_kind example_bundles ∧
  (snf_counter <$> joined nullifier_kind example_bundles) = [2; 9] ∧
  (pcd_counter <$> joined public_call_kind example_bundles) = [6; 13].
Proof.
  split; [|split; vm_compute; reflexivity].
  apply (aggregate_keeps_effects Fr_one example_bundles); [|vm_compute; reflexivity].
  apply (Forall_cons_2 _ _ _ (example_published_within 7)).
  apply (Forall_cons_2 _ _ _ (example_enqueued_within 5 1)).
  apply (Forall_cons_2 _ _ _ (example_published_within 8)).
  exact (Forall_cons_2 _ _ _ (example_enqueued_within 5 2) (Forall_nil_2 _)).
Defined.

