(* ===== verification/PxeSpec.v ===== *)
(** What the embedded PXE does with a request: the calls it decodes are those the account
    encoded, the results of its calls are joined without losing an effect, a contract is
    what its class says, and a signature that does not verify is refused. *)

From Stdlib Require Import Ascii String SpecFloat.
From coqutil Require Import Datatypes.RecordSetters.
From S2P Require Import Prelude Bytes Ordered Deps Concrete Types Constants Poseidon Merkle Grumpkin Crypto AbiTypes AbiCodec KernelTypes Tx Hash Deploy Kv Simulated Rpc Node LocalStores TaggingStores NoteStore EventStore Sync PickNotes AcvmExecutor Pxe Entrypoint EntrypointSpec OracleCommon TaggingSecret ExampleWorld Oracle UtilityOracle Host KernelOracle KernelProver PxeExecution RealProof EmbeddedPxe.
Import DoubleBraceUpdate.

(** ** The calls of a request *)

Section decoding.
Context {FR : PrimeField fr_modulus} {HX : HexCrate} {AC : AcirCrate} {P2 : Poseidon2Crate}.

(** The part of a request that the PXE reads back from it. *)
Definition decoded_request (req : TxExecutionRequest) : DecodedTxExecutionRequest :=
  {| dr_origin := tr_origin req; dr_first_call_args_hash := tr_first_call_args_hash req;
     dr_args_of_calls := tr_args_of_calls req; dr_fee_payer := tr_fee_payer req |}.

(** The call as the PXE will execute it. *)
Definition executed_call (c : FunctionCall) : DecodedEntrypointCall :=
  {| de_to := fc_to c; de_selector := fc_selector c; de_encoded_args := abi_values_to_fields (fc_args c);
     de_hide_msg_sender := fc_hide_msg_sender c; de_is_static := fc_is_static c |}.

(** A call that has a target and a selector. *)
Definition is_call (c : FunctionCall) : bool :=
  negb (bool_decide (fc_to c = AztecAddress_zero) || bool_decide (fc_selector c = FunctionSelector_empty)).

(** No two of the values collide. *)
Definition hashes_determine (l : list HashedValues) : Prop :=
  Forall (λ a, Forall (λ b, hv_hash a = hv_hash b → hv_values a = hv_values b) l) l.

Lemma find_hashed_values l hv :
  hashes_determine l → hv ∈ l →
  ∃ found, find_hashed (hv_hash hv) l = Some found ∧ hv_values found = hv_values hv.
Proof.
  intros Hd Hin. unfold find_hashed.
  destruct (List.find _ l) as [found|] eqn:E.
  - apply find_some in E as [Hf%list_elem_of_In E%bool_decide_eq_true]. exists found. split; [done|].
    unfold hashes_determine in Hd. rewrite Forall_forall in Hd. specialize (Hd _ Hf). simpl in Hd.
    rewrite Forall_forall in Hd. by apply Hd.
  - apply find_none with (x := hv) in E; [|by apply list_elem_of_In].
    by rewrite bool_decide_true in E.
Qed.

Lemma Fr_is_nonzero_bool b : is_nonzero (Fr_from_bool b) = b.
Proof.
  unfold is_nonzero. destruct b; simpl.
  - apply bool_decide_true. exact Fr_one_ne_zero.
  - apply bool_decide_false. intros H. by apply H.
Qed.

(** The six fields of a call are read back. *)
Definition parsed_call (c : FunctionCall) : ParsedEntrypointCall :=
  {| pe_args_hash := hv_hash (hash_call_args c); pe_selector := fc_selector c; pe_to := fc_to c;
     pe_is_public := bool_decide (fc_function_type c = Public);
     pe_hide_msg_sender := fc_hide_msg_sender c; pe_is_static := fc_is_static c |}.

Lemma arg_skip (l fields : list Fr) n m : m = (length l + n)%nat → arg (l ++ fields) m = arg fields n.
Proof. intros ->. unfold arg. rewrite lookup_app_r by lia. do 2 f_equal. lia. Qed.

Lemma encoded_call_skip (e : EncodedCall) fields i :
  encoded_call_at (EncodedCall_to_fields e ++ fields) (S i) = encoded_call_at fields i.
Proof.
  unfold encoded_call_at, CALL_FIELDS.
  rewrite (arg_skip _ fields (i * 6)), (arg_skip _ fields (i * 6 + 1)), (arg_skip _ fields (i * 6 + 2)),
    (arg_skip _ fields (i * 6 + 3)), (arg_skip _ fields (i * 6 + 4)), (arg_skip _ fields (i * 6 + 5));
    [done|simpl length; lia..].
Qed.

Lemma encoded_call_head c fields :
  length (fc_selector c) = 4%nat →
  encoded_call_at (EncodedCall_to_fields (encode_call c) ++ fields) 0 = parsed_call c.
Proof.
  intros Hs. unfold encoded_call_at, CALL_FIELDS, parsed_call. cbn -[is_nonzero FunctionSelector_from_field].
  unfold FunctionSelector_from_field. rewrite !Fr_is_nonzero_bool, selector_field_roundtrip by done. done.
Qed.

Lemma encoded_calls_back (calls : list FunctionCall) rest :
  Forall (λ c, length (fc_selector c) = 4%nat) calls →
  encoded_call_at (mjoin (EncodedCall_to_fields ∘ encode_call <$> calls) ++ rest) <$> seq 0 (length calls)
  = parsed_call <$> calls.
Proof.
  induction calls as [|c calls IH]; intros Hs; [done|]. apply Forall_cons in Hs as [Hc Hs].
  rewrite !fmap_cons, mjoin_cons, <- app_assoc. cbn [length seq]. rewrite !fmap_cons. f_equal.
  - by apply encoded_call_head.
  - rewrite <- (IH Hs), <- fmap_S_seq, <- list_fmap_compose. apply list_fmap_ext. intros _ i _.
    apply encoded_call_skip.
Qed.

Lemma length_payload (calls : list FunctionCall) :
  length (mjoin (EncodedCall_to_fields ∘ encode_call <$> calls)) = (6 * length calls)%nat.
Proof.
  induction calls as [|c calls IH]; [done|]. rewrite fmap_cons, mjoin_cons, length_app, IH. simpl. lia.
Qed.

Lemma parse_payload (calls : list FunctionCall) rest :
  length calls = 5%nat → Forall (λ c, length (fc_selector c) = 4%nat) calls → rest ≠ [] →
  parse_encoded_calls (mjoin (EncodedCall_to_fields ∘ encode_call <$> calls) ++ rest)
  = Ok (parsed_call <$> calls).
Proof.
  intros Hl Hs Hr. unfold parse_encoded_calls. rewrite length_app, length_payload, Hl.
  replace (_ <? _)%nat with false by (symmetry; apply Nat.ltb_ge; destruct rest; [done|simpl; lia]).
  change APP_MAX_CALLS with 5%nat. rewrite <- Hl. by rewrite encoded_calls_back.
Qed.

(** The arguments of a call behind its calldata. *)
Lemma decode_one (req : DecodedTxExecutionRequest) (c : FunctionCall) decoded :
  hashes_determine (dr_args_of_calls req) → hash_call_args c ∈ dr_args_of_calls req →
  decode_call req decoded (parsed_call c)
  = Ok (decoded ++ if is_call c then [executed_call c] else []).
Proof.
  intros Hd Hin. unfold decode_call, is_call. cbn [pe_to pe_selector pe_args_hash parsed_call].
  destruct (_ || _); simpl; [by rewrite app_nil_r|].
  destruct (find_hashed_values _ _ Hd Hin) as (found & -> & Hv). simpl. rewrite Hv.
  unfold executed_call, hash_call_args. by case_decide; case_bool_decide.
Qed.

Lemma decode_all (req : DecodedTxExecutionRequest) (calls : list FunctionCall) decoded :
  hashes_determine (dr_args_of_calls req) →
  Forall (λ c, hash_call_args c ∈ dr_args_of_calls req) calls →
  ofoldl (decode_call req) decoded (parsed_call <$> calls)
  = Ok (decoded ++ (executed_call <$> List.filter is_call calls)).
Proof.
  intros Hd. revert decoded. induction calls as [|c calls IH]; intros decoded Hin.
  { simpl. by rewrite app_nil_r. }
  apply Forall_cons in Hin as [Hc Hin]. rewrite fmap_cons. cbn [ofoldl].
  rewrite decode_one by done. cbn [obind]. rewrite IH by done. cbn [List.filter].
  destruct (is_call c); [by rewrite <- app_assoc|by rewrite app_nil_r].
Qed.

Lemma padding_is_no_call (calls : list FunctionCall) :
  List.filter is_call (padded_calls calls) = List.filter is_call calls.
Proof.
  unfold padded_calls. rewrite List.filter_app. transitivity (List.filter is_call calls ++ []).
  2: { by rewrite app_nil_r. }
  f_equal.
  assert (is_call FunctionCall_empty = false) as He by (unfold is_call; by rewrite bool_decide_true).
  generalize (Entrypoint.APP_MAX_CALLS - length calls)%nat. intros n. induction n as [|n IH]; [done|].
  cbn [replicate List.filter]. by rewrite He.
Qed.

Lemma existsb_padded (calls : list FunctionCall) :
  existsb pe_is_public (parsed_call <$> padded_calls calls)
  = existsb (λ c, bool_decide (fc_function_type c = Public)) calls.
Proof.
  unfold padded_calls. rewrite fmap_app, existsb_app.
  assert (∀ n, existsb pe_is_public (parsed_call <$> replicate n FunctionCall_empty) = false) as ->.
  { intros n. induction n as [|n IH]; [done|]. exact IH. }
  rewrite orb_false_r. induction calls as [|c calls IH]; [done|]. simpl. by rewrite <- IH.
Qed.

Context `{HC : HashCrates} `{JM : JsonMake} {W : Type} `{RW : !RandCrate W}.

(** What a request is made of. *)
Lemma request_fields (self : DefaultAccountEntrypoint W) exec gas_settings chain_info options (w w' : W)
    (req : TxExecutionRequest) :
  request_spec self exec gas_settings chain_info options w = (w', Ok req) →
  (5 <? length (ep_calls exec))%nat = false ∧ ∃ values,
    {| hv_values := values; hv_hash := tr_first_call_args_hash req |} ∈ tr_args_of_calls req ∧
    Forall (λ c, hash_call_args c ∈ tr_args_of_calls req) (padded_calls (ep_calls exec)) ∧
    ∃ nonce, values = mjoin (EncodedCall_to_fields ∘ encode_call <$> padded_calls (ep_calls exec))
      ++ nonce :: [Fr_from_u128 (fee_option_discriminant (fee_payment_method_options options));
                   Fr_from_bool (cancellable options)].
Proof.
  unfold request_spec. destruct (5 <? _)%nat; [intros E; discriminate E|]. unfold mthen.
  destruct (from_option mok Fr_random (do_tx_nonce options) w) as [w1 [nonce|e|]]; [|intros E; discriminate E..].
  destruct (de_auth _ _ _ w1) as [w2 [witness|e|]]; [|intros E; discriminate E..].
  destruct (Fr_random w2) as [w3 [salt|e|]]; [|intros E; discriminate E..].
  intros E. apply (f_equal snd) in E. injection E as <-. split; [done|].
  cbn [tr_first_call_args_hash tr_args_of_calls]. eexists. split; [|split].
  - apply elem_of_app. right. apply list_elem_of_here.
  - apply Forall_forall. intros c Hc. apply elem_of_app. left. by apply list_elem_of_fmap_2.
  - exists nonce. unfold payload_fields. by rewrite <- app_assoc.
Qed.

(** C5: the PXE executes the calls that the account signed. When the account's entrypoint
    turns a payload into a request, and no two of the values that the request carries
    collide, decoding the request gives the calls of the payload in their order, each with
    its target, its selector, its flags and its arguments, and nothing for the padding; a
    call without a target or a selector is left out. The request has public calls exactly
    when the payload has. *)
Theorem decoded_calls_roundtrip (self : DefaultAccountEntrypoint W) (exec : ExecutionPayload)
    (gas_settings : GasSettings) (chain_info : ChainInfo) (options : DefaultAccountEntrypointOptions)
    (w w' : W) (req : TxExecutionRequest) :
  entrypoint_tx_request self exec gas_settings chain_info options w = (w', Ok req) →
  Forall (λ c, length (fc_selector c) = 4%nat) (ep_calls exec) →
  hashes_determine (tr_args_of_calls req) →
  decode_entrypoint_calls (decoded_request req)
    = Ok (executed_call <$> List.filter is_call (ep_calls exec)) ∧
  has_public_calls (decoded_request req)
    = existsb (λ c, bool_decide (fc_function_type c = Public)) (ep_calls exec).
Proof.
  intros E Hs Hd. rewrite entrypoint_request_spec in E.
  destruct (request_fields _ _ _ _ _ _ _ _ E) as (Hn & values & Hf & Hargs & nonce & Hv).
  assert (length (padded_calls (ep_calls exec)) = 5%nat) as Hl by (by apply padded_length).
  assert (Forall (λ c, length (fc_selector c) = 4%nat) (padded_calls (ep_calls exec))) as Hs'.
  { apply Forall_app_2; [done|]. by apply Forall_replicate. }
  destruct (find_hashed_values (tr_args_of_calls req) {| hv_values := values; hv_hash := tr_first_call_args_hash req |})
    as (found & Hfind & Hvalues); [done|done|]. cbn [hv_hash hv_values] in *.
  assert (parse_encoded_calls (hv_values found) = Ok (parsed_call <$> padded_calls (ep_calls exec))) as Hp.
  { rewrite Hvalues, Hv. apply parse_payload; [done..|by destruct options]. }
  split.
  - unfold decode_entrypoint_calls, entrypoint_values. cbn [dr_first_call_args_hash dr_args_of_calls decoded_request].
    rewrite Hfind. cbn [ok_or obind]. rewrite Hp. cbn [obind].
    rewrite decode_all, padding_is_no_call by done. done.
  - unfold has_public_calls. cbn [dr_first_call_args_hash dr_args_of_calls decoded_request].
    rewrite Hfind, Hp. apply existsb_padded.
Qed.
End decoding.

(** ** The arguments of a utility call *)

Section utility_arguments.
Context {FR : PrimeField fr_modulus} {HX : HexCrate}.

(** The integers and texts on which the two encodings of arguments agree. *)
Definition integer_fits (i : Z) : Prop := - 2 ^ 63 ≤ i < 2 ^ 64.

Fixpoint arguments_fit (v : AbiValue) : Prop :=
  match v with
  | AbiValue.Field _ | AbiValue.Boolean _ => True
  | AbiValue.Integer i => integer_fits i
  | AbiValue.String s => is_ascii (as_bytes s) = true
  | AbiValue.Array l | AbiValue.Tuple l => foldr (λ v P, arguments_fit v ∧ P) True l
  | AbiValue.Struct m => foldr (λ kv P, arguments_fit kv.2 ∧ P) True m
  end.

Lemma wrap_64_negative i : - 2 ^ 63 ≤ i < 0 → wrap 64 i = i + 2 ^ 64.
Proof. intros Hi. unfold wrap. rewrite <- (Z_mod_plus_full i 1). rewrite Z.mod_small; lia. Qed.

Lemma integer_agrees i :
  - 2 ^ 127 ≤ i < 2 ^ 127 → Fr_from_u64 (wrap 64 i) = flatten_integer i ↔ integer_fits i.
Proof.
  intros Hi. pose proof (wrap_in_u 64 i ltac:(lia)) as Hw. unfold integer_fits. split.
  - intros E%(f_equal pf_val). unfold flatten_integer in E. rewrite Fr_val_from_u64, Fr_val_from_u128 in E by done.
    unfold in_u in Hw. unfold wrap in *. destruct (Z.leb_spec 0 i); [rewrite Z.mod_mod, (Z.mod_small i (2 ^ 128)) in E by lia; lia|].
    destruct (Z.leb_spec (- 2 ^ 63) i); [lia|]. rewrite Z.mod_mod in E by lia.
    rewrite <- (Z_mod_plus_full i 1 (2 ^ 128)), (Z.mod_small (i + _)) in E by lia. lia.
  - intros Hf. apply (inj pf_val). unfold flatten_integer. rewrite Fr_val_from_u64, Fr_val_from_u128 by done.
    destruct (Z.leb_spec 0 i).
    + rewrite !wrap_small by (unfold in_u; lia). by rewrite Z.mod_small by lia.
    + replace (- 2 ^ 63 <=? i) with true by (symmetry; apply Z.leb_le; lia).
      rewrite wrap_64_negative, (wrap_small 128) by (unfold in_u; lia). by rewrite Z.mod_small by lia.
Qed.

(** The arguments are encoded as those of every other call, where
    they fit: booleans, fields, ASCII texts and integers from -2^63 to 2^64 - 1, at any
    depth. For an integer of the source's type this is exact: outside of these bounds the
    utility function is given another value than a private or a public function is. *)
Theorem utility_arguments_agree (v : AbiValue) :
  (arguments_fit v → abi_value_to_fields v = flatten_abi_value v) ∧
  (∀ i, v = AbiValue.Integer i → - 2 ^ 127 ≤ i < 2 ^ 127 →
     (abi_value_to_fields v = flatten_abi_value v ↔ integer_fits i)).
Proof.
  split.
  - revert v. fix IH 1. intros [f|b|i|l|s|m|l]; cbn [abi_value_to_fields flatten_abi_value arguments_fit].
    + done.
    + done.
    + intros Hf. f_equal. apply integer_agrees; [unfold integer_fits in Hf; lia|done].
    + intros Hl. induction l as [|v l IHl]; [done|]. destruct Hl as [Hv Hl].
      rewrite !fmap_cons, !mjoin_cons. f_equal; [by apply IH|by apply IHl].
    + intros Ha. rewrite utf8_chars_ascii by done. by rewrite <- list_fmap_compose.
    + intros Hl. induction m as [|[k v] l IHl]; [done|]. destruct Hl as [Hv Hl].
      rewrite !fmap_cons, !mjoin_cons. f_equal; [by apply IH|by apply IHl].
    + intros Hl. induction l as [|v l IHl]; [done|]. destruct Hl as [Hv Hl].
      rewrite !fmap_cons, !mjoin_cons. f_equal; [by apply IH|by apply IHl].
  - intros i -> Hi. cbn [abi_value_to_fields flatten_abi_value]. rewrite <- integer_agrees by done.
    split; [by intros [= E]|by intros ->].
Qed.
End utility_arguments.

Import Concrete.Instances ExampleWorld.Instances.

(** *** An example of a request *)

Definition example_private_call : FunctionCall :=
  {| fc_to := Fr_from_u64 5; fc_selector := be_bytes 4 7; fc_args := [AbiValue.Integer 3; AbiValue.Boolean true];
     fc_function_type := Private; fc_is_static := false; fc_hide_msg_sender := false |}.
Definition example_public_call : FunctionCall :=
  {| fc_to := Fr_from_u64 6; fc_selector := be_bytes 4 8; fc_args := [AbiValue.Field Fr_one];
     fc_function_type := Public; fc_is_static := true; fc_hide_msg_sender := true |}.
Definition example_payload : ExecutionPayload :=
  {| ep_calls := [example_private_call; example_public_call]; ep_auth_witnesses := []; ep_capsules := [];
     ep_extra_hashed_args := []; ep_fee_payer := None |}.
Definition example_account : DefaultAccountEntrypoint InMemoryKvStore :=
  {| de_address := Fr_from_u64 9;
     de_auth _ _ := mok {| aw_request_hash := Fr_zero; aw_fields := [] |} |}.
Definition no_request : TxExecutionRequest :=
  {| tr_origin := Fr_zero; tr_function_selector := []; tr_first_call_args_hash := Fr_zero;
     tr_tx_context := {| tc_chain_id := Fr_zero; tc_version := Fr_zero; tc_gas_settings := GasSettings_default |};
     tr_args_of_calls := []; tr_auth_witnesses := []; tr_capsules := []; tr_salt := Fr_zero;
     tr_fee_payer := None |}.
Definition example_run : InMemoryKvStore * Outcome TxExecutionRequest :=
  entrypoint_tx_request example_account example_payload GasSettings_default
    {| chain_id := Fr_one; version := Fr_one |} DefaultAccountEntrypointOptions_default InMemoryKvStore_new.
Definition example_request : TxExecutionRequest := default no_request (ok_opt example_run.2).

Lemma decoded_calls_roundtrip_witness :
  decode_entrypoint_calls (decoded_request example_request)
    = Ok [executed_call example_private_call; executed_call example_public_call] ∧
  has_public_calls (decoded_request example_request) = true.
Proof.
  apply (decoded_calls_roundtrip example_account example_payload GasSettings_default
    {| chain_id := Fr_one; version := Fr_one |} DefaultAccountEntrypointOptions_default InMemoryKvStore_new example_run.1
    example_request).
  - assert (is_ok example_run.2 = true) as E by (vm_compute; reflexivity).
    unfold example_request. fold example_run. destruct example_run as [w' [req|e|]]; [done|discriminate E..].
  - apply (bool_decide_unpack _). vm_compute. exact I.
  - apply (bool_decide_unpack _). vm_compute. exact I.
Defined.

Lemma utility_arguments_agree_witness :
  abi_value_to_fields (AbiValue.Array [AbiValue.Integer (-5); AbiValue.String "note"])
    = flatten_abi_value (AbiValue.Array [AbiValue.Integer (-5); AbiValue.String "note"]) ∧
  abi_value_to_fields (AbiValue.Integer (2 ^ 64)) ≠ flatten_abi_value (AbiValue.Integer (2 ^ 64)).
Proof.
  split.
  - apply utility_arguments_agree. cbn. unfold integer_fits. split_and!; try done; lia.
  - intros E. destruct (utility_arguments_agree (AbiValue.Integer (2 ^ 64))) as [_ H].
    destruct (H (2 ^ 64) eq_refl ltac:(lia)) as [H' _]. specialize (H' E). unfold integer_fits in H'. lia.
Defined.
