(* ===== verification/RegisterSpec.v ===== *)
(** What registering a contract promises: what is registered is what its class and its
    address say, and executing a call to it finds it. *)

From Stdlib Require Import Ascii String SpecFloat.
From S2P Require Import Prelude Bytes Ordered Deps Concrete Types Constants Poseidon Merkle Grumpkin Crypto AbiTypes KernelTypes Tx Hash Deploy Kv Simulated Rpc Node LocalStores TaggingStores NoteStore EventStore Sync SyncSpec EventSpec PickNotes AcvmExecutor ExecutorSpec Pxe Entrypoint OracleCommon TaggingSecret ExampleWorld Oracle UtilityOracle Host KernelOracle KernelProver PxeExecution RealProof EmbeddedPxe ExamplePxe.

Section register.
Context {W : Type} {FR : PrimeField fr_modulus} {FQ : PrimeField fq_modulus} {HX : HexCrate}.
Context {AC : AcirCrate} {P2 : Poseidon2Crate} {HC : HashCrates} {AG : GrumpkinCrate} {SQ : SqrtField}.
Context {B64 : Base64Crate} `{JT : JsonText} `{KV : KvStore W} {KL : KvStoreLaws W} `{AN : !AztecNode W}.
Context `{HS : !HostSystem W} {AS : AbiSerde}.
Context {SI : SerdeJson ContractInstanceWithAddress} {SA : SerdeJson (ContractArtifact FR JS)}.

(** ** Values at their keys *)

Lemma write_json_view {A} `{SerdeJson A} key (x : A) (w : W) :
  kv_wf w → ∃ w' bs, write_json key x w = (w', Ok ()) ∧ kv_wf w' ∧
    kv_view w' = <[key := bs]> (kv_view w) ∧ from_slice bs = Ok x.
Proof.
  intros Hw. destruct (serde_roundtrip x) as (bs & Hb & Hx). unfold write_json, mthen, mlift. rewrite Hb.
  destruct (kv_put_ok w key bs Hw) as (w' & E & Hw' & Hv). by exists w', bs.
Qed.

Lemma read_json_view {A} `{SerdeJson A} key bs (x : A) (w : W) :
  kv_wf w → kv_view w !! key = Some bs → from_slice bs = Ok x → read_json key w = (w, Ok (Some x)).
Proof.
  intros Hw Hk Hx. unfold read_json, mthen. rewrite kv_get_ok by done. rewrite Hk. unfold mlift. by rewrite Hx.
Qed.

Lemma instance_key_artifact address class_id :
  ContractStore.instance_key address ≠ ContractStore.artifact_key class_id.
Proof. unfold ContractStore.instance_key, ContractStore.artifact_key. rewrite !as_bytes_app. discriminate. Qed.

(** ** Registration *)

(** The environment says that ids of another implementation are allowed. *)
Definition ids_allowed : Prop :=
  ∃ w w' flag, env_var (W := W) "PXE_BENCH_REAL_PROOFS" w = (w', Ok flag) ∧ is_flag flag = true.

(** The artifact hashes to the class of the instance, and the instance to its address. *)
Definition ids_match (instance : ContractInstanceWithAddress) (artifact : ContractArtifact FR JS) : Prop :=
  compute_contract_class_id_from_artifact artifact
    = Ok (ci_current_contract_class_id (instance_inner instance)) ∧
  compute_contract_address_from_instance (instance_inner instance) = Ok (instance_address instance).

Lemma check_artifact_ok instance artifact (w w' : W) :
  check_artifact instance artifact w = (w', Ok ()) → ids_allowed ∨ ids_match instance artifact.
Proof.
  unfold check_artifact. intros E. apply mthen_ok in E as (w1 & flag & Hf & E).
  destruct (is_flag flag) eqn:Ef; [left; by exists w, w1, flag|right].
  apply mthen_ok in E as (w2 & class & Hc & E). injection Hc as _ Hc.
  destruct (bool_decide_reflect (class = ci_current_contract_class_id (instance_inner instance))) as [->|]; [|done].
  cbn [negb andb] in E. apply mthen_ok in E as (w3 & addr & Ha & E). injection Ha as _ Ha.
  destruct (bool_decide_reflect (addr = instance_address instance)) as [->|]; [by split|done].
Qed.

(** The environment and the node leave the local store as it should be. *)
Definition keeps_store {A : Type} (m : M W A) : Prop := ∀ w : W, kv_wf w → kv_wf (m w).1.

Lemma check_artifact_keeps instance artifact :
  keeps_store (env_var (W := W) "PXE_BENCH_REAL_PROOFS") →
  (∀ signatures, keeps_store (register_contract_function_signatures signatures)) →
  keeps_store (check_artifact instance artifact).
Proof.
  intros He Hn w Hw. unfold check_artifact, mthen at 1. specialize (He w Hw).
  destruct (env_var _ w) as [w1 [flag|e|]]; [|done..]. simpl in He. unfold mthen, mlift.
  destruct (compute_contract_class_id_from_artifact artifact); [|done..]. destruct (_ && _); [done|].
  destruct (compute_contract_address_from_instance _); [|done..]. destruct (_ && _); [done|].
  destruct (decide _); [done|by apply Hn].
Qed.

(** The artifact that a registration is about: the given one, or the one of the class. *)
Definition accepted_artifact (request : pxe.RegisterContractRequest) (w : W)
    (artifact : ContractArtifact FR JS) : Prop :=
  let instance := pxe.rcr_instance request in
  match pxe.rcr_artifact request with
  | Some given => artifact = given ∧ (ids_allowed ∨ ids_match instance artifact)
  | None => ContractStore.get_artifact (ci_current_contract_class_id (instance_inner instance)) w
            = (w, Ok (Some artifact))
  end.

Lemma get_artifact_view class_id (w w' : W) artifact :
  kv_wf w → ContractStore.get_artifact class_id w = (w', Ok (Some artifact)) →
  w' = w ∧ ∃ bs, kv_view w !! ContractStore.artifact_key class_id = Some bs ∧ from_slice bs = Ok artifact.
Proof.
  intros Hw. unfold ContractStore.get_artifact, read_json, mthen. rewrite kv_get_ok by done.
  destruct (kv_view w !! _) as [bs|]; [|done]. unfold mlift. destruct (from_slice bs) eqn:E; [|done..].
  intros [= <- <-]. split; [done|]. by exists bs.
Qed.

(** What an accepted registration leaves in the store. *)
Lemma registered_view (request : pxe.RegisterContractRequest) (w w' : W) (st st' : PxeState W) :
  keeps_store (env_var (W := W) "PXE_BENCH_REAL_PROOFS") →
  (∀ signatures, keeps_store (register_contract_function_signatures signatures)) →
  kv_wf w →
  register_contract request (w, st) = ((w', st'), Ok ()) →
  let instance := pxe.rcr_instance request in
  kv_wf w' ∧ ∃ artifact bs ba, accepted_artifact request w artifact ∧
  kv_view w' !! ContractStore.instance_key (instance_address instance) = Some bs ∧
  from_slice bs = Ok instance ∧
  kv_view w' !! ContractStore.artifact_key (ci_current_contract_class_id (instance_inner instance)) = Some ba ∧
  from_slice ba = Ok artifact.
Proof.
  intros He Hn Hw E. cbn zeta. set (instance := pxe.rcr_instance request).
  set (class_id := ci_current_contract_class_id (instance_inner instance)).
  unfold register_contract in E. apply mthen_ok in E as ([w1 st1] & [] & E1 & E).
  apply in_fst_ok in E1 as [-> E1]. apply mthen_ok in E as ([w2 st2] & [] & E2 & E).
  apply in_fst_ok in E2 as [-> E2]. apply mthen_ok in E as ([w3 st3] & [] & E3 & E).
  apply in_fst_ok in E3 as [-> E3].
  assert (w' = w3) as ->. { unfold clear_metadata, on_real, clear_real_proof_metadata_cache, update_cache, in_snd in E. by injection E. }
  unfold accepted_artifact. fold instance class_id in E1, E2, E3 |- *.
  destruct (pxe.rcr_artifact request) as [given|].
  - assert (kv_wf w1) as Hw1. { pose proof (check_artifact_keeps instance given He Hn w Hw) as K. by rewrite E1 in K. }
    destruct (write_json_view (ContractStore.instance_key (instance_address instance)) instance w1 Hw1)
      as (w2' & bs & Ew & Hw2 & Hv & Hbs). unfold ContractStore.add_instance in E2. rewrite Ew in E2. injection E2 as ->.
    destruct (write_json_view (ContractStore.artifact_key class_id) given w2 Hw2)
      as (w3' & ba & Ea & Hw3 & Hv3 & Hba). unfold ContractStore.add_artifact in E3. rewrite Ea in E3. injection E3 as ->.
    split; [done|]. exists given, bs, ba. split_and!; try done; [by eapply check_artifact_ok| |].
    + rewrite Hv3, lookup_insert_ne, Hv, lookup_insert_eq by (symmetry; apply instance_key_artifact). done.
    + by rewrite Hv3, lookup_insert_eq.
  - apply mthen_ok in E1 as (w0 & [known|] & E0 & E1); [|done]. apply mlift_ok in E1 as [-> _].
    destruct (get_artifact_view _ _ _ _ Hw E0) as [-> (ba & Hba & Hk)].
    destruct (write_json_view (ContractStore.instance_key (instance_address instance)) instance w Hw)
      as (w2' & bs & Ew & Hw2 & Hv & Hbs). unfold ContractStore.add_instance in E2. rewrite Ew in E2. injection E2 as ->.
    apply mlift_ok in E3 as [-> _]. split; [done|]. exists known, bs, ba. split_and!; try done.
    + by rewrite Hv, lookup_insert_eq.
    + by rewrite Hv, lookup_insert_ne by apply instance_key_artifact.
Qed.

(** C12: a contract that is registered is found, and is the one that its class names. When
    a registration is accepted, the instance is then the one found at its address, and a
    call to it runs the given artifact; that artifact hashes to the class of the instance
    and the instance to its address, unless the environment allows ids of another
    implementation. Without an artifact the registration is accepted only when the class
    has one already, which the call then runs. *)
Theorem registered_contract_found (request : pxe.RegisterContractRequest) (w w' : W) (st st' : PxeState W)
    (no_contract : Error) (no_artifact : Fr → Error) :
  keeps_store (env_var (W := W) "PXE_BENCH_REAL_PROOFS") →
  (∀ signatures, keeps_store (register_contract_function_signatures signatures)) →
  kv_wf w →
  register_contract request (w, st) = ((w', st'), Ok ()) →
  let instance := pxe.rcr_instance request in
  kv_wf w' ∧
  EmbeddedPxe.get_contract_instance (instance_address instance) w' = (w', Ok (Some instance)) ∧
  ∃ artifact, accepted_artifact request w artifact ∧
    artifact_of (instance_address instance) no_contract no_artifact w' = (w', Ok artifact).
Proof.
  intros He Hn Hw E. destruct (registered_view request w w' st st' He Hn Hw E)
    as (Hw' & a & bs & ba & Ha & Hi & Hbs & Hc & Hba). cbn zeta. split; [done|]. split.
  - unfold EmbeddedPxe.get_contract_instance, ContractStore.get_instance, mthen.
    by rewrite (read_json_view _ bs (pxe.rcr_instance request)).
  - exists a. split; [done|]. unfold artifact_of, ContractStore.get_instance, ContractStore.get_artifact.
    unfold mthen at 1. rewrite (read_json_view _ bs (pxe.rcr_instance request)) by done.
    unfold mthen at 1. cbn [required]. unfold mthen. cbn. by rewrite (read_json_view _ ba a).
Qed.
End register.

(** ** An example *)

Import Concrete.Instances ExampleWorld.Instances ExamplePxe.Instances.

Definition empty_artifact : ContractArtifact concrete_fr concrete_json :=
  {| art_name := "Empty"; functions := []; outputs := None; file_map := None; context_inputs_sizes := None |}.
Definition empty_class : Fr := default Fr_zero (ok_opt (compute_contract_class_id_from_artifact empty_artifact)).
Definition empty_inner : ContractInstance :=
  {| ci_version := 1; ci_salt := Fr_one; ci_deployer := Fr_zero; ci_current_contract_class_id := empty_class;
     ci_original_contract_class_id := empty_class; ci_initialization_hash := Fr_zero;
     ci_public_keys := dk_public_keys (derive_keys Fr_one) |}.
Definition empty_request : pxe.RegisterContractRequest :=
  {| pxe.rcr_instance :=
       {| instance_address := default Fr_zero (ok_opt (compute_contract_address_from_instance empty_inner));
          instance_inner := empty_inner |};
     pxe.rcr_artifact := Some empty_artifact |}.

Lemma empty_registered : ∃ w' st',
  register_contract empty_request (InMemoryKvStore_new, PxeState_new false) = ((w', st'), Ok ()).
Proof.
  assert (is_ok (register_contract empty_request (InMemoryKvStore_new, PxeState_new false)).2 = true) as E
    by (vm_compute; reflexivity).
  destruct (register_contract _ _) as [[w' st'] [[]|e|]]; [by exists w', st'|discriminate E..].
Qed.

Lemma registered_contract_found_witness :
  ∃ w' : InMemoryKvStore,
    EmbeddedPxe.get_contract_instance (instance_address (pxe.rcr_instance empty_request)) w'
      = (w', Ok (Some (pxe.rcr_instance empty_request))).
Proof.
  destruct empty_registered as (w' & st' & E). exists w'.
  apply (registered_contract_found empty_request InMemoryKvStore_new w' (PxeState_new false) st'
    (Timeout EmptyString) (λ _, Timeout EmptyString)).
  - intros w Hw. exact Hw.
  - intros signatures w Hw. exact Hw.
  - constructor.
  - exact E.
Defined.
