(* ===== verification/ProveSpec.v ===== *)
(** What proving a transaction through the embedded PXE promises when the proofs are
    simulated: what the wallet is given belongs together and to its request, and pays the
    fees of the block. *)

From Stdlib Require Import Ascii String SpecFloat.
From coqutil Require Import Datatypes.RecordSetters.
From S2P Require Import Prelude Bytes Ordered Deps Concrete Types Constants Poseidon Merkle Grumpkin Crypto AbiTypes KernelTypes Tx Hash Deploy Kv Simulated SimulatedSpec Rpc Node LocalStores TaggingStores NoteStore EventStore Sync EventSpec SyncSpec PickNotes AcvmExecutor ExecutorSpec Pxe Entrypoint EntrypointSpec OracleCommon TaggingSecret ExampleWorld Oracle OracleSpec UtilityOracle Host KernelOracle KernelProver PxeExecution RealProof EmbeddedPxe ExamplePxe AggregateSpec PxeSpec.
Import DoubleBraceUpdate.

Section prove.
Context {W : Type} {FR : PrimeField fr_modulus} {FQ : PrimeField fq_modulus} {HX : HexCrate}.
Context {AC : AcirCrate} {P2 : Poseidon2Crate} {HC : HashCrates} {AG : GrumpkinCrate} {SQ : SqrtField}.
Context {AES : AesCrate} {B64 : Base64Crate} {B64E : Base64Encoder} `{JT : JsonText} {JM : JsonMake}.
Context {JW : JsonWrite} {JF : JsonFloat} {SD : StrDebug} `{KV : KvStore W} `{AN : !AztecNode W}.
Context `{RW : !RandCrate W} `{HS : !HostSystem W} `{CL : !Clock W} {AV : AcvmCrate} {AS : AbiSerde}.
Context {SN : SerdeJson StoredNote} {SL : SerdeJson (list string)}.
Context {SE : SerdeJson StoredPrivateEvent} {SH : SerdeJson AnchorBlockStore.AnchorBlockHeader}.
Context {SI : SerdeJson ContractInstanceWithAddress} {SA : SerdeJson (ContractArtifact FR JS)}.
Context {SC : SerdeJson CompleteAddress} {SK : SerdeJson (list (list Fr))} {SF : SerdeJson (list Fr)}.
Context {SZ : SerdeJson Z} {SP : SerdeJson (list PendingTagIndex)} {SV : SerdeJson json_value}.
Context {FC : FromValue (list Capsule)} {FA : FromValue (list AuthWitness)}.
Context {FD : FromValue DecodedTxExecutionRequest} {FW : FromValue WireTxRequest}.
Context {FS : FromValue (list ExternalClientIvcStep)} {PK : ToValue PublicKeys}.
Context {TH : ToValue (list HashedValues)} (CARGO_MANIFEST_DIR : string).
Notation T := (W * PxeState W)%type.

(** ** The switch between the kernels *)

Definition same_switch (s s' : T) : Prop := px_prover_enabled s'.2 = px_prover_enabled s.2.
#[local] Instance same_switch_preorder : PreOrder same_switch.
Proof. split; [done|]. unfold same_switch. intros s1 s2 s3. congruence. Qed.
#[local] Notation keeps_switch := (within same_switch).

Lemma in_fst_keeps {A : Type} (m : M W A) : keeps_switch (in_fst m).
Proof. intros [w st]. unfold in_fst, same_switch. simpl. by destruct (m w). Qed.

Lemma on_flags_keeps {A : Type} (m : M (W * BlockStateSynchronizer.SyncFlags) A) : keeps_switch (on_flags m).
Proof.
  intros [w st]. unfold on_flags, same_switch. simpl. destruct (m (w, px_flags st)) as [[w' flags] r]. by destruct st.
Qed.

Lemma on_cache_keeps {A : Type} (f : ContractSync.SyncCache → ContractSync.SyncCache * A) :
  keeps_switch (on_cache (W := W) f).
Proof. intros [w st]. unfold on_cache, same_switch. simpl. destruct (f (px_cache st)). by destruct st. Qed.

Ltac keeps := repeat first
  [ within_step | apply in_fst_keeps | apply on_flags_keeps | apply on_cache_keeps
  | apply within_mtry | apply within_for_each_opt; [exact _|intros ?] | done ].

Variable self : EmbeddedPxe.

Lemma sync_block_state_keeps : keeps_switch (sync_block_state self).
Proof. unfold sync_block_state, ContractSync.wipe. keeps. Qed.

Lemma anchor_keeps : keeps_switch (get_anchor_block_header self).
Proof. unfold get_anchor_block_header. keeps. apply sync_block_state_keeps. Qed.

Lemma ensure_synced_keeps (execute : UtilityExecutor) contract scopes hash :
  (∀ call opts, keeps_switch (execute call opts)) →
  keeps_switch (ensure_synced execute contract scopes hash).
Proof.
  intros He. unfold ensure_synced, ContractSync.ensure_contract_synced,
    ContractSync.ensure_contract_synced_with, ContractSync.do_sync, execute_sync_state_for_contract.
  keeps; apply He.
Qed.

Lemma execute_utility_keeps fuel call opts : keeps_switch (execute_utility self fuel call opts).
Proof.
  revert call opts. induction fuel as [|n IH]; intros call opts; cbn [execute_utility]; [keeps|].
  keeps; first [apply anchor_keeps|by apply ensure_synced_keeps].
Qed.

Lemma sync_calls_keeps fuel scopes hash calls : keeps_switch (sync_calls self fuel scopes hash calls).
Proof.
  unfold sync_calls, sync_quietly. keeps. apply ensure_synced_keeps. apply execute_utility_keeps.
Qed.

(** ** The first nullifier *)

(** A bundle for the nullifier that it was executed with. *)
Definition nullified_by (nullifier : Fr) (b : CallExecutionBundle) : Prop :=
  er_first_nullifier (cb_execution_result b) = nullifier.

Lemma grows_nullifier (o o' : PrivateExecutionOracle) : grows o o' → protocol_nullifier o' = protocol_nullifier o.
Proof. intros []. congruence. Qed.

Lemma seeded_nullifier prefix tx_request (o : PrivateExecutionOracle) :
  protocol_nullifier (seed_context prefix (seed_auth_witnesses tx_request o)) = protocol_nullifier o.
Proof. unfold seed_auth_witnesses. by destruct (request_auth_witnesses tx_request). Qed.

Lemma private_call_nullifier fuel env call origin nullifier scopes artifact function (w w' : W) b :
  execute_private_call fuel env call origin nullifier scopes artifact function w = (w', Ok (Some b)) →
  nullified_by nullifier b.
Proof.
  unfold execute_private_call. intros E. run_ok. destruct x4 as [output oracle]. run_ok. subst.
  injection E as <-. unfold nullified_by. cbn [cb_execution_result].
  match goal with H : run_with _ _ _ = _ |- _ => apply run_with_grows, grows_nullifier in H end.
  unfold complete_result. destruct (extract_side_effects_from_witness _ _ _) as [[notes ?] logs].
  cbn. rewrite seeded_nullifier in *. done.
Qed.

Lemma call_bundle_nullifier fuel env call origin nullifier scopes (w w' : W) b :
  execute_entrypoint_call_bundle fuel env call origin nullifier scopes w = (w', Ok (Some b)) →
  nullified_by nullifier b.
Proof.
  unfold execute_entrypoint_call_bundle. intros E.
  apply mthen_ok in E as (w1 & name & _ & E). apply mthen_ok in E as (w2 & [b'|] & Hb & E);
    apply mlift_ok in Hb as [-> Hb].
  { apply mlift_ok in E as [_ E]. injection E as ->. revert Hb. unfold protocol_private_execution.
    destruct (_ && _); [|destruct (_ && _); [|done]].
    - unfold protocol_publish_class. intros Hb. ok_inv. done.
    - unfold protocol_publish_instance. destruct (_ <? _)%nat; [done|]. intros Hb. ok_inv. done. }
  apply mthen_ok in E as (w3 & [b'|] & Hp & E); apply mlift_ok in Hp as [-> Hp].
  { apply mlift_ok in E as [_ E]. injection E as ->. revert Hp. unfold protocol_public_execution.
    destruct (negb _); [done|]. by intros [= <-]. }
  apply mthen_ok in E as (w4 & artifact & _ & E). apply mthen_ok in E as (w5 & function & _ & E).
  destruct (decide _).
  - apply mthen_ok in E as (w6 & b' & Hp' & E). apply mlift_ok in Hp' as [-> Hp'].
    apply mlift_ok in E as [_ E]. injection E as ->.
    revert Hp'. unfold build_public_call_execution. intros Hp'. ok_inv. done.
  - by eapply private_call_nullifier.
Qed.

Lemma calls_nullifier fuel env calls origin nullifier scopes (w w' : W) bundles :
  execute_calls fuel env calls origin nullifier scopes w = (w', Ok (Some bundles)) →
  length bundles = length calls ∧ Forall (nullified_by nullifier) bundles.
Proof.
  revert w bundles. induction calls as [|call calls IH]; intros w bundles; cbn [execute_calls]; intros E.
  - run_ok. by simplify_eq.
  - run_ok. simplify_eq. apply IH in H0 as [Hl Hf]. split; [by simpl; f_equal|].
    constructor; [by eapply call_bundle_nullifier|done].
Qed.

Lemma request_nullifier fuel env request calls origin nullifier scopes real (w w' : W) b :
  calls ≠ [] →
  execute_request fuel env request calls origin nullifier scopes real w = (w', Ok (Some b)) →
  nullified_by nullifier b.
Proof.
  intros Hne. assert (∀ (w1 w2 : W), execute_and_aggregate fuel env calls origin nullifier scopes w1 = (w2, Ok (Some b)) →
    nullified_by nullifier b) as Hcalls.
  { intros w1 w2 E. unfold execute_and_aggregate in E. apply mthen_opt_ok in E as (w3 & bundles & Hb & E).
    apply mlift_ok in E as [_ [= <-]]. apply calls_nullifier in Hb as [Hl Hf].
    destruct bundles as [|b0 bundles]; [by destruct calls|]. apply Forall_cons in Hf as [Hf _]. exact Hf. }
  unfold execute_request. destruct (_ || _); [|apply Hcalls]. intros E.
  apply mthen_ok in E as (w1 & [[b'|]|e|] & Hb & E).
  - apply mlift_ok in E as [_ [= ->]]. unfold mtry in Hb.
    destruct (execute_entrypoint_via_acvm _ _ _ _ _ w) as [w2 [r|e|]] eqn:Er; [|done..].
    injection Hb as -> ->. unfold execute_entrypoint_via_acvm in Er. run_ok.
    match goal with p : AcvmExecutionOutput * PrivateExecutionOracle |- _ => destruct p end.
    run_ok. by simplify_eq.
  - done.
  - destruct (_ && _); [by eapply Hcalls|done].
  - done.
Qed.

Definition first_nullifier (pi : PrivateKernelTailPublicInputs) : option Fr :=
  match pi_for_rollup pi, pi_for_public pi with
  | Some rollup, _ => head (pr_nullifiers (fr_end rollup))
  | None, Some public => head (pp_nullifiers (non_revertible_accumulated_data public))
  | None, None => None
  end.

Lemma head_pad_fields (x : Fr) l n : head (pad_fields (x :: l) n) = Some x.
Proof.
  unfold pad_fields. destruct (_ <? _) eqn:E; [|done]. apply Z.ltb_lt in E. unfold vec_resize.
  destruct (Z.to_nat n) eqn:En; [simpl in E; lia|done].
Qed.

Lemma process_first_nullifier r constants payer expiration :
  first_nullifier (process r constants payer expiration) = Some (er_first_nullifier r).
Proof.
  unfold process. destruct (is_private_only r); [by apply head_pad_fields|]. unfold process_public.
  repeat destruct (split_by_counter _ _ _ _). unfold split_note_hashes_by_counter, split_nullifiers_by_counter, split_private_logs.
  repeat destruct (split_by_counter _ _ _ _). by apply head_pad_fields.
Qed.

Lemma process_constants r constants payer expiration :
  pi_constants (process r constants payer expiration) = constants ∧
  pi_fee_payer (process r constants payer expiration) = payer.
Proof. unfold process. by destruct (is_private_only r). Qed.

(** ** Fees *)

(** The greatest fees of the transaction are half as much again as those of the block that
    it is anchored to. *)
Definition pays_block_fees (pi : PrivateKernelTailPublicInputs) : Prop :=
  let block_fees := gv_gas_fees (global_variables (anchor_block_header (pi_constants pi))) in
  ∃ fees, max_fee_per_gas (tc_gas_settings (tx_context (pi_constants pi))) = Some fees ∧
    min_fee (fee_per_da_gas block_fees) ≤ fee_per_da_gas fees ∧
    min_fee (fee_per_l2_gas block_fees) ≤ fee_per_l2_gas fees.

Lemma raise_to_min minimum fee : minimum ≤ raise_to minimum fee.
Proof. unfold raise_to. case (Z.ltb_spec fee minimum); lia. Qed.

Lemma constants_pay_fees env r payer expiration :
  pays_block_fees (process r (transaction_constants env) payer expiration).
Proof.
  unfold pays_block_fees. rewrite (proj1 (process_constants _ _ _ _)).
  eexists. split; [done|]. split; apply raise_to_min.
Qed.

Lemma length_dummy_chonk_proof : length dummy_chonk_proof = Z.to_nat (4 + CHONK_PROOF_LENGTH * 32).
Proof. unfold dummy_chonk_proof, vec_resize. by rewrite length_resize. Qed.

(** What [prove_tx] gives the wallet is of one transaction. *)
Record proved_for (nullifier : Fr) (payer : AztecAddress) (aggregated : CallExecutionBundle)
    (pi : PrivateKernelTailPublicInputs) (proved : pxe.TxProvingResult) : Prop := {
  pf_hash : pxe.pr_tx_hash proved = Some (Fr_to_be_bytes (PrivateKernelTailPublicInputs_hash pi));
  pf_inputs : pki_bytes (pxe.pr_public_inputs proved) = PrivateKernelTailPublicInputs_to_buffer pi;
  pf_result : ∃ constants expiration, pi = process (cb_execution_result aggregated) constants payer expiration;
  pf_nullifier : first_nullifier pi = Some nullifier;
  pf_payer : pi_fee_payer pi = payer;
  pf_fees : pays_block_fees pi;
  pf_calldata : pxe.pr_public_function_calldata proved = cb_public_function_calldata aggregated;
  pf_logs : pxe.pr_contract_class_log_fields proved = cb_contract_class_log_fields aggregated;
  pf_proof : length (chonk_bytes (pxe.pr_chonk_proof proved)) = Z.to_nat (4 + CHONK_PROOF_LENGTH * 32);
}.

(** All of [prove_tx] before the proof itself. *)
Definition executed_request (fuel : nat) (tx_request : pxe.TxExecutionRequest) (scopes : list AztecAddress)
    : M T (option (CallExecutionBundle * DecodedTxExecutionRequest * AnchorBlockStore.AnchorBlockHeader)) :=
  sync_block_state self ;;!
  let! anchor := get_anchor_block_header self in
  let! protocol_nullifier := mlift (protocol_nullifier_of tx_request) in
  let origin := extract_origin tx_request in
  let env := environment self tx_request anchor in
  let! request := mlift (from_value (pxe.tr_data tx_request)) in
  let! decoded_calls := mlift (decode_entrypoint_calls request) in
  let?! _ := sync_calls self fuel scopes (AnchorBlockStore.ah_block_hash anchor) decoded_calls in
  let! real_kernels := get_prover_enabled in
  let?! aggregated := in_fst (execute_request fuel env request decoded_calls origin
                                protocol_nullifier scopes real_kernels) in
  in_fst (verify_auth_witness_signatures tx_request origin) ;;!
  mok (if (real_kernels : bool) then None else Some (aggregated, request, anchor)).

Lemma prove_tx_executed fuel tx_request scopes (s s' : T) aggregated request anchor :
  executed_request fuel tx_request scopes s = (s', Ok (Some (aggregated, request, anchor))) →
  prove_tx CARGO_MANIFEST_DIR self fuel tx_request scopes s
  = (s', Ok (Some (simulated_proof aggregated (sorted_calldata aggregated)
       (process (cb_execution_result aggregated) (transaction_constants (environment self tx_request anchor))
          (default (extract_origin tx_request) (dr_fee_payer request))
          (expiration_of anchor (cb_execution_result aggregated)))))).
Proof.
  unfold executed_request, prove_tx, mthen_opt. intros E.
  apply mthen_ok in E as (s1 & [] & H1 & E). unfold mthen at 1. rewrite H1.
  apply mthen_ok in E as (s2 & a & H2 & E). unfold mthen at 1. rewrite H2.
  apply mthen_ok in E as (s3 & n & H3 & E). unfold mthen at 1. rewrite H3.
  apply mthen_ok in E as (s4 & r & H4 & E). unfold mthen at 1. rewrite H4.
  apply mthen_ok in E as (s5 & c & H5 & E). unfold mthen at 1. rewrite H5.
  apply mthen_ok in E as (s6 & [u|] & H6 & E); [|discriminate E]. unfold mthen at 1. rewrite H6.
  apply mthen_ok in E as (s7 & b & H7 & E). unfold mthen at 1. rewrite H7.
  apply mthen_ok in E as (s8 & [g|] & H8 & E); [|discriminate E]. unfold mthen at 1. rewrite H8.
  apply mthen_ok in E as (s9 & [] & H9 & E). unfold mthen at 1. rewrite H9.
  destruct b; [discriminate E|]. apply mlift_ok in E as [-> E]. by injection E as <- <- <-.
Qed.

Lemma executed_is_proved fuel tx_request scopes (s : T) :
  is_Some (ok_opt (executed_request fuel tx_request scopes s).2 ≫= id) →
  ∃ s' proved, prove_tx CARGO_MANIFEST_DIR self fuel tx_request scopes s = (s', Ok (Some proved)).
Proof.
  intros [[[aggregated request] anchor] E].
  destruct (executed_request fuel tx_request scopes s) as [s' [[x|]|e|]] eqn:Er; [|discriminate E..].
  injection E as ->. rewrite (prove_tx_executed _ _ _ _ _ _ _ _ Er). by eexists _, _.
Qed.

(** C2: what the PXE proves belongs together. When the real proofs are off, a request that
    calls something and is proved is answered with a hash that is that of the public
    inputs sent with it; those are what the simulated kernel makes of one execution, whose
    calldata and class logs are sent too; their first nullifier is the one that is derived
    from the hash of the request, so that no request is included twice; their fee payer is
    the request's, or its origin when it names none; and their fees are at least half as
    much again as those of the block that the inputs are anchored to. *)
Theorem simulated_proof_binds fuel (tx_request : pxe.TxExecutionRequest) scopes (s s' : T)
    (proved : pxe.TxProvingResult) (request : DecodedTxExecutionRequest) (calls : list DecodedEntrypointCall) :
  px_prover_enabled s.2 = false →
  from_value (pxe.tr_data tx_request) = Ok request →
  decode_entrypoint_calls request = Ok calls → calls ≠ [] →
  prove_tx CARGO_MANIFEST_DIR self fuel tx_request scopes s = (s', Ok (Some proved)) →
  ∃ nullifier aggregated pi, protocol_nullifier_of tx_request = Ok nullifier ∧
    proved_for nullifier (default (extract_origin tx_request) (dr_fee_payer request)) aggregated pi proved.
Proof.
  intros Hoff Hreq Hdec Hne E. unfold prove_tx in E.
  apply mthen_ok in E as (s1 & [] & H1 & E). apply mthen_ok in E as (s2 & anchor & H2 & E).
  apply mthen_ok in E as (s3 & nullifier & H3 & E). apply mlift_ok in H3 as [-> H3].
  apply mthen_ok in E as (s4 & request' & H4 & E). apply mlift_ok in H4 as [-> H4]. rewrite Hreq in H4.
  injection H4 as <-. apply mthen_ok in E as (s5 & calls' & H5 & E). apply mlift_ok in H5 as [-> H5].
  rewrite Hdec in H5. injection H5 as <-.
  apply mthen_opt_ok in E as (s6 & [] & H6 & E). apply mthen_ok in E as (s7 & real & H7 & E).
  assert (real = false) as ->.
  { unfold get_prover_enabled, in_snd in H7. injection H7 as _ <-. pose proof (sync_block_state_keeps s) as K1. rewrite H1 in K1.
    pose proof (anchor_keeps s1) as K2. rewrite H2 in K2.
    epose proof (sync_calls_keeps fuel scopes _ calls s2) as K6. rewrite H6 in K6.
    unfold same_switch in *. simpl in *. congruence. }
  apply mthen_opt_ok in E as (s8 & aggregated & H8 & E). apply in_fst_done in H8 as [_ H8].
  apply request_nullifier in H8; [|done]. apply mthen_ok in E as (s9 & [] & _ & E).
  apply mlift_ok in E as [_ E]. injection E as <-.
  eexists nullifier, aggregated, _. split; [done|]. apply Build_proved_for; cbn [simulated_proof
    pxe.pr_tx_hash pxe.pr_public_inputs pxe.pr_public_function_calldata pxe.pr_contract_class_log_fields
    pxe.pr_chonk_proof pki_bytes chonk_bytes]; [reflexivity|reflexivity|..|reflexivity|].
  - by eexists _, _.
  - rewrite process_first_nullifier. by f_equal.
  - apply process_constants.
  - apply constants_pay_fees.
  - apply sorted_calldata_same.
  - apply length_dummy_chonk_proof.
Qed.
End prove.

(** ** An example

    An account sets an authorization. *)

Import Concrete.Instances ExampleWorld.Instances ExamplePxe.Instances.

Definition example_authorization : FunctionCall :=
  {| fc_to := protocol_contract_address.auth_registry;
     fc_selector := FunctionSelector_from_signature "set_authorized(Field,bool)";
     fc_args := [AbiValue.Field (Fr_from_u64 77); AbiValue.Boolean true]; fc_function_type := Public;
     fc_is_static := false; fc_hide_msg_sender := false |}.
Definition example_authorization_request : TxExecutionRequest :=
  default no_request (ok_opt (entrypoint_tx_request example_account
    {| ep_calls := [example_authorization]; ep_auth_witnesses := []; ep_capsules := [];
       ep_extra_hashed_args := []; ep_fee_payer := None |} GasSettings_default
    {| chain_id := Fr_one; version := Fr_one |} DefaultAccountEntrypointOptions_default
    InMemoryKvStore_new).2).
Definition example_decoded : DecodedTxExecutionRequest := decoded_request example_authorization_request.

#[local] Instance read_decoded : FromValue DecodedTxExecutionRequest := {| from_value _ := Ok example_decoded |}.
#[local] Instance read_wire : FromValue WireTxRequest := {|
  from_value _ :=
    let r := example_authorization_request in
    Ok {| wr_origin := tr_origin r; wr_function_selector := tr_function_selector r;
          wr_first_call_args_hash := tr_first_call_args_hash r; wr_tx_context := tr_tx_context r;
          wr_salt := tr_salt r |} |}.
Definition example_tx_request : pxe.TxExecutionRequest :=
  {| pxe.tr_data := JObject [("origin", JString (Fr_to_string (Fr_from_u64 9)))] |}.
Definition example_calls : list DecodedEntrypointCall :=
  default [] (ok_opt (decode_entrypoint_calls example_decoded)).
Lemma example_calls_decoded : decode_entrypoint_calls example_decoded = Ok example_calls ∧ example_calls ≠ [].
Proof.
  assert (match decode_entrypoint_calls example_decoded with Ok [_] => true | _ => false end = true) as E
    by (vm_compute; reflexivity).
  unfold example_calls. destruct (decode_entrypoint_calls example_decoded) as [[|c l]|e|]; [discriminate E| |discriminate E..].
  split; [reflexivity|]. intros E'. discriminate E'.
Qed.

Lemma example_executed :
  is_Some (ok_opt (executed_request example_pxe 3 example_tx_request [] example_state).2 ≫= id).
Proof. apply (bool_decide_unpack _). vm_compute. exact I. Qed.

Lemma example_read : from_value (pxe.tr_data example_tx_request) = Ok example_decoded.
Proof. reflexivity. Qed.

Lemma simulated_proof_binds_witness :
  ∃ s' proved nullifier aggregated pi,
    prove_tx "" example_pxe 3 example_tx_request [] example_state = (s', Ok (Some proved)) ∧
    protocol_nullifier_of example_tx_request = Ok nullifier ∧
    proved_for nullifier (default (extract_origin example_tx_request) (dr_fee_payer example_decoded))
      aggregated pi proved.
Proof.
  destruct (executed_is_proved "" example_pxe 3 example_tx_request [] example_state example_executed)
    as (s' & proved & Hp). destruct example_calls_decoded as [Hd Hne].
  destruct (simulated_proof_binds "" example_pxe 3 example_tx_request [] example_state s' proved
    example_decoded example_calls eq_refl example_read Hd Hne Hp) as (nullifier & agg & pi & H).
  exists s', proved, nullifier, agg, pi. split; [exact Hp|exact H].
Defined.
