(* ===== verification/KernelSpec.v ===== *)
(** What a transaction that is proved circuit by circuit is proved by: the chain of kernel
    circuits over its calls, each from the output of the one before. *)

From Stdlib Require Import Ascii String.
From S2P Require Import Prelude Bytes Ordered Deps Concrete Types Constants Poseidon Merkle Grumpkin Crypto AbiTypes KernelTypes Tx Hash Deploy Kv Simulated Rpc Node LocalStores AcvmExecutor ExecutorSpec Pxe Entrypoint ExampleWorld Host KernelOracle KernelProver RealProof EmbeddedPxe ExamplePxe RegisterSpec.

Section chain.
Context {W : Type} {FR : PrimeField fr_modulus} {FQ : PrimeField fq_modulus} {HX : HexCrate}.
Context {AC : AcirCrate} {WC : WitnessCode} {P2 : Poseidon2Crate} {HC : HashCrates}.
Context {AG : GrumpkinCrate} {B64 : Base64Crate} `{JT : JsonText} {JM : JsonMake}.
Context `{KV : KvStore W} `{AN : !AztecNode W} `{HS : !HostSystem W} `{CL : !Clock W}.
Context {PK : ToValue PublicKeys}.
Context {SI : SerdeJson ContractInstanceWithAddress} {SA : SerdeJson (ContractArtifact FR JS)}.
Context (prover : PrivateKernelProver W) (config : KernelExecutionConfig).
Notation Output := PrivateKernelSimulateOutput.
Notation Step := PrivateExecutionStep.

(** [m] answered [a] at some point. *)
Definition answered {A : Type} (m : M W A) (a : A) : Prop := ∃ w w', m w = (w', Ok a).

(** [output] is what a circuit was run to on a call, with [first] in front. *)
Definition run_on_call (generate : json_value → M W Output) (first : string * JsonTree)
    (call : PrivateCallExecution) (output : Output) : Prop :=
  ∃ preimage vk, answered (get_contract_address_preimage (pce_contract_address call)) preimage ∧
    answered (generate (json_of (TObject [first; private_call_json call;
      ("contractInstance", json_tree preimage); ("vkMembershipWitness", json_tree vk)]))) output.

(** The step of the application's own circuit. *)
Definition app_step (call : PrivateCallExecution) (s : Step) : Prop :=
  let result := pce_execution_result call in
  st_bytecode s = ce_acir result ∧ st_vk s = ce_vk result ∧
  serialize_witness (ce_partial_witness result) = inr (st_witness s).

(** The steps of the calls after the first, from the output [prev] to the output [last]. *)
Inductive inner_chain : nat → list PrivateCallExecution → Output → list Step → Output → Prop :=
  | chain_nil i out : inner_chain i [] out [] out
  | chain_cons i call calls prev app next steps last :
      app_step call app →
      run_on_call (generate_inner_output prover) (previous_json prev) call next →
      inner_chain (S i) calls next steps last →
      inner_chain i (call :: calls) prev
        (app :: output_to_step next ("private_kernel_inner_" +:+ pretty (Z.of_nat i)) :: steps) last.

Lemma chain_length i calls prev steps last :
  inner_chain i calls prev steps last → length steps = (2 * length calls)%nat.
Proof. induction 1; simpl; lia. Qed.

(** ** The steps of the prover *)

Hypothesis proving : kx_simulate config = false.

Lemma call_to_step_app call s (w w' : W) : call_to_step call w = (w', Ok s) → app_step call s.
Proof.
  unfold call_to_step. intros E. apply mthen_ok in E as (w1 & name & _ & E).
  apply mthen_ok in E as (w2 & witness & H & E). unfold or_invalid in H.
  apply mthen_ok in H as (w3 & r & Hr & H). apply mlift_ok in Hr as [-> [= <-]].
  destruct (serialize_witness _) as [e|b] eqn:Es; [discriminate H|]. apply mlift_ok in H as [-> [= <-]].
  apply mlift_ok in E as [_ [= <-]]. split_and!; [done..|exact Es].
Qed.

Lemma push_call_app call steps steps' (w w' : W) :
  push_call config call steps w = (w', Ok steps') → ∃ s, app_step call s ∧ steps' = steps ++ [s].
Proof.
  unfold push_call. rewrite proving. intros E. apply mthen_ok in E as (w1 & s & H & E).
  apply mlift_ok in E as [_ [= <-]]. apply call_to_step_app in H. by exists s.
Qed.

Lemma call_inputs_shape call first inputs (w w' : W) :
  call_inputs call first w = (w', Ok inputs) →
  ∃ preimage vk, answered (get_contract_address_preimage (pce_contract_address call)) preimage ∧
    inputs = json_of (TObject [first; private_call_json call;
      ("contractInstance", json_tree preimage); ("vkMembershipWitness", json_tree vk)]).
Proof.
  unfold call_inputs. intros E. apply mthen_ok in E as (w1 & preimage & Hp & E).
  apply mthen_ok in E as (w2 & vk & _ & E). apply mlift_ok in E as [_ [= <-]].
  exists preimage, vk. split; [by exists w, w1|done].
Qed.

Lemma run_circuit_step simulate generate name inputs steps output steps' (w w' : W) :
  run_circuit config simulate generate name inputs steps w = (w', Ok (output, steps')) →
  answered (generate inputs) output ∧ steps' = steps ++ [output_to_step output name].
Proof.
  unfold run_circuit. rewrite proving. intros E. apply mthen_ok in E as (w1 & o & H & E).
  apply mlift_ok in E as [_ [= <- <-]]. split; [by exists w, w1|done].
Qed.

Lemma timed_from_ok {A : Type} start label circuits (m : M W A) r (w w' : W) :
  timed_from start label circuits m w = (w', Ok r) → ∃ w1, m w = (w1, Ok r.1).
Proof.
  unfold timed_from. intros E. apply mthen_ok in E as (w1 & a & H & E).
  apply mthen_ok in E as (w2 & ms & _ & E). apply mlift_ok in E as [_ [= <-]]. by exists w1.
Qed.

Lemma timed_now_ok {A : Type} label circuits (m : M W A) r (w w' : W) :
  timed_now label circuits m w = (w', Ok r) → ∃ w0 w1, m w0 = (w1, Ok r.1).
Proof.
  unfold timed_now. intros E. apply mthen_ok in E as (w1 & start & _ & E). apply timed_from_ok in E as [w2 E].
  by exists w1, w2.
Qed.

Lemma init_circuit_ok start first s (w w' : W) :
  init_circuit prover config start first w = (w', Ok s) →
  ∃ app, app_step first app ∧
    run_on_call (generate_init_output prover) ("txRequest", json_tree (pce_tx_request first)) first (sq_output s) ∧
    sq_steps s = [app; output_to_step (sq_output s) "private_kernel_init"].
Proof.
  unfold init_circuit. intros E. apply mthen_ok in E as (w1 & [[output steps] circuits] & H & E).
  apply mlift_ok in E as [_ [= <-]]. apply timed_from_ok in H as [w2 H].
  apply mthen_ok in H as (w3 & steps1 & Hp & H). apply push_call_app in Hp as (app & Happ & ->).
  apply mthen_ok in H as (w4 & inputs & Hi & H). apply call_inputs_shape in Hi as (preimage & vk & Hpre & ->).
  apply run_circuit_step in H as [Ho ->]. exists app. split_and!; [done| |done]. by exists preimage, vk.
Qed.

Lemma inner_circuits_ok i calls s s' (w w' : W) :
  inner_circuits prover config i calls s w = (w', Ok s') →
  ∃ steps, inner_chain i calls (sq_output s) steps (sq_output s') ∧ sq_steps s' = sq_steps s ++ steps.
Proof.
  revert i s w. induction calls as [|call calls IH]; intros i s w; cbn [inner_circuits]; intros E.
  { apply mlift_ok in E as [_ [= <-]]. exists []. split; [constructor|by rewrite app_nil_r]. }
  apply mthen_ok in E as (w1 & s1 & H & E). apply IH in E as (steps & Hc & Hs).
  unfold inner_circuit in H. apply mthen_ok in H as (w2 & [[output steps1] circuits] & H & E1).
  apply mlift_ok in E1 as [_ [= <-]]. apply timed_now_ok in H as (w3 & w4 & H).
  apply mthen_ok in H as (w5 & steps2 & Hp & H). apply push_call_app in Hp as (app & Happ & ->).
  apply mthen_ok in H as (w6 & inputs & Hi & H). apply call_inputs_shape in Hi as (preimage & vk & Hpre & ->).
  apply run_circuit_step in H as [Ho E]. cbn [fst] in E. subst steps1. cbn [sq_output sq_steps] in *.
  eexists. split; [econstructor; [exact Happ|by exists preimage, vk|exact Hc]|].
  rewrite Hs, <- !app_assoc. done.
Qed.

Lemma reset_circuit_ok label name inputs s s' (w w' : W) :
  reset_circuit prover config label name inputs s w = (w', Ok s') →
  answered (generate_reset_output prover inputs) (sq_output s') ∧
  sq_steps s' = sq_steps s ++ [output_to_step (sq_output s') name].
Proof.
  unfold reset_circuit. intros E. apply mthen_ok in E as (w1 & [[output steps] circuits] & H & E).
  apply mlift_ok in E as [_ [= <-]]. apply timed_now_ok in H as (w2 & w3 & H).
  by apply run_circuit_step in H.
Qed.

Definition tail_name (output : Output) : string :=
  if output_is_for_public output then "private_kernel_tail_to_public" else "private_kernel_tail".

Lemma tail_circuit_ok s s' (w w' : W) :
  tail_circuit prover config s w = (w', Ok s') →
  answered (generate_tail_output prover (build_tail_inputs (sq_output s))) (sq_output s') ∧
  sq_steps s' = sq_steps s ++ [output_to_step (sq_output s') (tail_name (sq_output s))].
Proof.
  unfold tail_circuit. intros E. apply mthen_ok in E as (w1 & [[output steps] circuits] & H & E).
  apply mlift_ok in E as [_ [= <-]]. apply timed_now_ok in H as (w2 & w3 & H).
  by apply run_circuit_step in H.
Qed.

(** The hiding kernel of a transaction, with or without public calls. *)
Definition hiding_step (for_public : bool) (tail : Output) (s : Step) : Prop :=
  let inputs := build_hiding_inputs tail in
  ∃ output, if for_public
    then answered (generate_hiding_to_public_output prover inputs) output ∧
         s = output_to_step output "hiding_kernel_to_public"
    else answered (generate_hiding_to_rollup_output prover inputs) output ∧
         s = output_to_step output "hiding_kernel_to_rollup".

Lemma hiding_circuit_ok for_public s s' (w w' : W) :
  hiding_circuit prover config for_public s w = (w', Ok s') →
  sq_output s' = sq_output s ∧
  ∃ step, hiding_step for_public (sq_output s) step ∧ sq_steps s' = sq_steps s ++ [step].
Proof.
  unfold hiding_circuit. rewrite proving. intros E. apply mthen_ok in E as (w1 & [steps circuits] & H & E).
  apply mlift_ok in E as [_ [= <-]]. apply timed_now_ok in H as (w2 & w3 & H). split; [done|].
  unfold hiding_step. destruct for_public; apply mthen_ok in H as (w4 & output & Ho & H);
    apply mlift_ok in H as [_ H]; injection H as H; cbn [sq_steps]; rewrite <- H;
    (eexists; split; [exists output; split; [by exists w2, w4|reflexivity]|done]).
Qed.

Lemma aggregate_proof_ok s proof (w w' : W) :
  sq_steps s ≠ [] → aggregate_proof prover config s w = (w', Ok proof) →
  ∃ p, proof.1 = Some p ∧ answered (create_chonk_proof prover (sq_steps s)) p.
Proof.
  intros Hne. unfold aggregate_proof. rewrite proving, bool_decide_false by (by destruct (sq_steps s)).
  cbn [negb andb]. intros E. apply mthen_ok in E as (w1 & ran & H & E). apply mlift_ok in E as [_ [= <-]].
  apply timed_now_ok in H as (w2 & w3 & H). exists ran.1. split; [done|by exists w2, w3].
Qed.

End chain.

(** ** An example: two calls to a contract, proved by a prover that repeats its inputs *)

Import Concrete.Instances ExampleWorld.Instances ExamplePxe.Instances.
#[local] Instance empty_witness : WitnessCode := {| serialize_witness _ := inr [] |}.

(** A tree of three keys, all zero. *)
Definition example_tree : string :=
  let node := "'0000000000000000000000000000000000000000000000000000000000000000',"%string in
  node +:+ node +:+ node.
Definition example_registry : InMemoryKvStore :=
  (register_contract empty_request (InMemoryKvStore_new, PxeState_new false)).1.1.

#[local] Instance tree_host : HostSystem InMemoryKvStore := {|
  env_var name := mok (if String.eqb name "PXE_VK_TREE_PATH" then Some "vk_tree.ts"%string else None);
  current_dir := mok None; path_exists _ := mok true; fs_read _ := mok (inl "not found"%string);
  fs_read_to_string _ := mok (inr example_tree); fs_write _ _ := mok (inl "not found"%string);
  fs_create_dir_all _ := mok (inl "not found"%string); fs_remove_dir_all _ := mok (inl "not found"%string);
  run_command _ _ _ := mok (inl "not found"%string); child := Empty_set;
  child_spawn _ _ _ := mok (inl "not found"%string); child_exited c := match c with end;
  child_write c := match c with end; child_flush c := match c with end;
  child_read_line c := match c with end; child_kill c := match c with end |}.

Definition repeat_inputs (inputs : jvalue) : M InMemoryKvStore PrivateKernelSimulateOutput :=
  mok {| ks_public_inputs := inputs; ks_verification_key := []; ks_output_witness := []; ks_bytecode := [] |}.
Definition example_prover : PrivateKernelProver InMemoryKvStore :=
  {| generate_init_output := repeat_inputs; simulate_init := repeat_inputs;
     generate_inner_output := repeat_inputs; simulate_inner := repeat_inputs;
     generate_reset_output := repeat_inputs; simulate_reset := repeat_inputs;
     generate_tail_output := repeat_inputs; simulate_tail := repeat_inputs;
     generate_hiding_to_rollup_output := repeat_inputs; generate_hiding_to_public_output := repeat_inputs;
     create_chonk_proof steps := mok {| cp_proof := []; cp_public_inputs := [] |};
     compute_gate_count_for_circuit _ _ := mok 0 |}.
Definition example_kernel_call : PrivateCallExecution :=
  {| pce_contract_address := instance_address (pxe.rcr_instance empty_request);
     pce_tx_request := JNull; pce_call_stack_item := JNull; pce_execution_result_json := JNull;
     pce_execution_result := PxeExecution.CallResult_default |}.

Lemma example_kernels_ok : ∃ w' r,
  prove_with_kernels example_prover KernelExecutionConfig_default [example_kernel_call; example_kernel_call]
    example_registry = (w', Ok r).
Proof.
  assert (is_ok (prove_with_kernels example_prover KernelExecutionConfig_default
    [example_kernel_call; example_kernel_call] example_registry).2 = true) as E by (vm_compute; reflexivity).
  destruct (prove_with_kernels _ _ _ _) as [w' [r|e|]]; [by exists w', r|discriminate E..].
Qed.

