(* ===== verification/RealProofSpec.v ===== *)
(** What is handed to the process that makes a real proof, and how it is asked: the binary
    form of a witness reads back, the calls of a request are numbered apart, and the daemon
    is asked at most twice. *)

From Stdlib Require Import Ascii String SpecFloat.
From S2P Require Import Prelude Bytes Ordered Deps Concrete Types Constants Poseidon Merkle Grumpkin Crypto AbiTypes KernelTypes Tx Hash Deploy Kv Simulated SimulatedSpec Rpc Node LocalStores AcvmExecutor ExecutorSpec Pxe Entrypoint ExampleWorld Oracle OracleSpec Host KernelOracle KernelProver PxeExecution RealProof EmbeddedPxe ExamplePxe AggregateSpec.

(** ** The binary form of a witness *)

Section witness.
Context {FR : PrimeField fr_modulus} {HX : HexCrate} {AC : AcirCrate}.

(** A reader of the form: a count, then as many pairs and nothing more. *)
Fixpoint read_entries (n : nat) (bytes : list byte) : option (list (Z * Fr)) :=
  match n with
  | 0%nat => if decide (bytes = []) then Some [] else None
  | S n =>
      if (length bytes <? 36)%nat then None
      else (λ rest, (be_Z (take 4 bytes), Fr_from_be (take 32 (drop 4 bytes))) :: rest)
             <$> read_entries n (drop 36 bytes)
  end.

Definition read_witness (bytes : list byte) : option (list (Z * Fr)) :=
  read_entries (Z.to_nat (be_Z (take 4 bytes))) (drop 4 bytes).

Lemma read_entries_app (entries : list (Z * fe)) :
  Forall (λ e, in_u 32 e.1) entries →
  read_entries (length entries)
    (mjoin ((λ e : Z * fe, be_bytes 4 e.1 ++ Fr_to_be_bytes (fe_to_fr e.2)) <$> entries))
  = Some ((λ e, (e.1, fe_to_fr e.2)) <$> entries).
Proof.
  induction 1 as [|e l He Hl IH]; [done|]. rewrite !fmap_cons, mjoin_cons. cbn [length read_entries].
  rewrite !length_app, length_be_bytes, Fr_to_be_bytes_length.
  replace (_ <? 36)%nat with false by (symmetry; apply Nat.ltb_ge; lia).
  rewrite <- app_assoc, (take_app_length' (be_bytes 4 e.1)), (drop_app_length' (be_bytes 4 e.1))
    by (by rewrite length_be_bytes).
  rewrite (take_app_length' (Fr_to_be_bytes _)) by (by rewrite Fr_to_be_bytes_length).
  rewrite (app_assoc (be_bytes 4 e.1)), (drop_app_length' (be_bytes 4 e.1 ++ _))
    by (by rewrite length_app, length_be_bytes, Fr_to_be_bytes_length).
  rewrite be_Z_be_bytes, Fr_from_to_be, Z.mod_small, IH by exact He. done.
Qed.

(** The binary form in which a witness is given to the prover says what the witness
    is. A reader of the form gets from it every index with the field of its value, in the
    order of the indexes and nothing else, when there are fewer than 2^32 of them and each
    is a 32-bit one; it takes 36 bytes for each, after four for their count. *)
Theorem witness_form_read (witness : list (Z * fe)) :
  Z.of_nat (length witness) < 2 ^ 32 → Forall (λ e, in_u 32 e.1) witness →
  let entries := sort_by_key fst witness in
  read_witness (encode_witness_binary_v1 witness) = Some ((λ e, (e.1, fe_to_fr e.2)) <$> entries) ∧
  entries ≡ₚ witness ∧
  length (encode_witness_binary_v1 witness) = (4 + 36 * length witness)%nat.
Proof.
  intros Hl Hw. cbn zeta. pose proof (sort_by_key_perm fst witness) as Hp. split_and!; [|done|].
  - unfold read_witness, encode_witness_binary_v1.
    rewrite take_app_length', drop_app_length' by (by rewrite length_be_bytes).
    rewrite be_Z_be_bytes, (Z.mod_small (Z.of_nat _)).
    2: { rewrite (Permutation_length Hp). change (256 ^ Z.of_nat 4) with (2 ^ 32). lia. }
    rewrite Nat2Z.id. apply read_entries_app. by rewrite Hp.
  - unfold encode_witness_binary_v1. rewrite length_app, length_be_bytes.
    rewrite (mjoin_fmap_length _ 36), (Permutation_length Hp); [lia|].
    apply Forall_forall. intros e _. by rewrite length_app, length_be_bytes, Fr_to_be_bytes_length.
Qed.
End witness.

(** ** The numbers of the calls *)

Section numbering.
Context {W : Type} {FR : PrimeField fr_modulus} {HX : HexCrate} {AC : AcirCrate} {B64E : Base64Encoder}.
Context `{HS : !HostSystem W}.

Lemma call_json_next format sidecar call n (w w' : W) r :
  kernel_proof_call_json format sidecar call n w = (w', Ok r) → r.2 = (n + length (collect_calls call))%nat.
Proof.
  revert n w w' r. induction call as [call IH] using call_result_nested_ind. intros n w w' r E.
  rewrite collect_calls_unfold. destruct call as [? ? ? ? ? ? ? ? ? ? ? nested]. cbn in E, IH |- *.
  apply mthen_ok in E as (w1 & res & H & E). apply mthen_ok in E as (w2 & circuit & _ & E).
  apply mlift_ok in E as [_ [= <-]]. cbn [snd].
  assert (∀ m (v v' : W) q,
    (fix go (calls : list PrivateCallExecutionResult) (next_call_id : nat) {struct calls} : M W (list JsonTree * nat) :=
       match calls with
       | [] => mok ([], next_call_id)
       | call :: calls' =>
           let! value := kernel_proof_call_json format sidecar call next_call_id in
           let! rest := go calls' value.2 in
           mok (value.1 :: rest.1, rest.2)
       end) nested m v = (v', Ok q) → q.2 = (m + length (List.flat_map collect_calls nested))%nat) as Hgo.
  { clear -IH. induction IH as [|c l Hc Hl IHl]; intros m v v' q E.
    - apply mlift_ok in E as [_ [= <-]]. simpl. lia.
    - apply mthen_ok in E as (w1 & value & H1 & E). apply mthen_ok in E as (w2 & rest & H2 & E).
      apply mlift_ok in E as [_ [= <-]]. apply Hc in H1. apply IHl in H2. cbn [snd List.flat_map].
      rewrite length_app. lia. }
  apply Hgo in H. lia.
Qed.
End numbering.

(** ** The daemon *)

Section daemon.
Context {W : Type} {FR : PrimeField fr_modulus} {JS : JsonCrate} {JM : JsonMake} {JW : JsonWrite}.
Context `{HS : !HostSystem W} (CARGO_MANIFEST_DIR request_path response_path : string).
Notation T := (W * RealProofState W)%type.
Notation once := (prove_with_real_kernel_daemon_once CARGO_MANIFEST_DIR request_path response_path).

Definition same_cache (s s' : T) : Prop :=
  real_proof_metadata_cache s'.2 = real_proof_metadata_cache s.2.
#[local] Instance same_cache_preorder : PreOrder same_cache.
Proof. split; [done|]. unfold same_cache. intros s1 s2 s3. congruence. Qed.

Lemma in_fst_cache {A : Type} (m : M W A) : within same_cache (in_fst m).
Proof. intros [w st]. unfold in_fst, same_cache. simpl. by destruct (m w). Qed.

Lemma get_daemon_cache : within same_cache get_daemon.
Proof. by intros [w st]. Qed.
Lemma set_daemon_cache d : within same_cache (set_daemon d).
Proof. by intros [w st]. Qed.

Ltac cache_step := first
  [ apply in_fst_cache | apply get_daemon_cache | apply set_daemon_cache
  | apply within_mtry | apply within_ok; exact _ | apply within_lift; exact _
  | apply within_then; [exact _| |intros ?]
  | match goal with |- within _ (match ?x with _ => _ end) => destruct x end ].

Lemma stop_cache : within same_cache (stop_real_kernel_prove_daemon (W := W)).
Proof. unfold stop_real_kernel_prove_daemon. repeat cache_step. Qed.
Lemma spawn_cache : within same_cache (spawn_daemon CARGO_MANIFEST_DIR).
Proof. unfold spawn_daemon. repeat cache_step. Qed.
Lemma start_cache : within same_cache (start_real_kernel_prove_daemon CARGO_MANIFEST_DIR).
Proof. unfold start_real_kernel_prove_daemon. repeat (cache_step || apply stop_cache || apply spawn_cache). Qed.
Lemma once_cache : within same_cache once.
Proof. unfold prove_with_real_kernel_daemon_once. repeat (cache_step || apply start_cache). Qed.

(** An answer is the answer of the daemon that is then kept. *)
Definition answered_by (s s' : T) (v : json_value) : Prop :=
  ∃ d w, real_kernel_prove_daemon s'.2 = Some d ∧ ask_daemon d request_path response_path w = (s'.1, Ok v).

Lemma once_answers (s s' : T) v : once s = (s', Ok v) → answered_by s s' v.
Proof.
  unfold prove_with_real_kernel_daemon_once. intros E. apply mthen_ok in E as (s1 & [] & _ & E).
  apply mthen_ok in E as (s2 & daemon & H & E). unfold get_daemon, in_snd in H. injection H as <- <-.
  destruct (real_kernel_prove_daemon s1.2) as [d|] eqn:Ed; [|discriminate E].
  apply mthen_ok in E as (s3 & alive & H & E). apply in_fst_done in H as [H2 H].
  destruct alive; [|discriminate E]. apply in_fst_done in E as [E2 E].
  exists d, s3.1. split; [|exact E]. cbn [fst snd] in *. rewrite E2, H2. exact Ed.
Qed.

Lemma stop_drops (s s' : T) :
  stop_real_kernel_prove_daemon s = (s', Ok ()) → real_kernel_prove_daemon s'.2 = None.
Proof.
  unfold stop_real_kernel_prove_daemon, get_daemon, mthen, in_snd. destruct s as [w st]. cbn.
  destruct (real_kernel_prove_daemon st) as [d|] eqn:Ed; cbn; [|by intros [= <-]].
  unfold in_fst. cbn. destruct (child_kill d w) as [w1 [[]|e|]]; [|done..]. by intros [= <-].
Qed.

End daemon.

(** ** Examples *)

Import Concrete.Instances.

Lemma witness_form_read_witness :
  read_witness (encode_witness_binary_v1 [(7, fr_to_fe (Fr_from_u64 3)); (2, fr_to_fe Fr_one)])
    = Some [(2, Fr_one); (7, Fr_from_u64 3)].
Proof.
  destruct (witness_form_read [(7, fr_to_fe (Fr_from_u64 3)); (2, fr_to_fe Fr_one)]) as [H _].
  - reflexivity.
  - repeat constructor; done.
  - transitivity (Some [(2, fe_to_fr (fr_to_fe Fr_one)); (7, fe_to_fr (fr_to_fe (Fr_from_u64 3)))]); [exact H|].
    by rewrite !fe_to_fr_of.
Defined.

(** Lines that say that all is well, and a process that writes nothing else. *)
#[local] Instance line_json : JsonCrate := {|
  json_value := jvalue;
  json_from_str s := Ok (if decide (s = "well"%string) then JObject [("ready", JBool true); ("ok", JBool true)]
                         else JString s);
  json_get := @json_get concrete_json; json_pointer := @json_pointer concrete_json;
  json_as_str := @json_as_str concrete_json; json_as_bool := @json_as_bool concrete_json;
  json_as_u64 := @json_as_u64 concrete_json; json_as_array := @json_as_array concrete_json;
  json_size := @json_size concrete_json; json_get_size := @json_get_size concrete_json;
  json_as_array_size := @json_as_array_size concrete_json |}.
#[local] Instance line_make : JsonMake := {| json_of _ := JNull |}.
#[local] Instance line_write : JsonWrite := {| json_to_vec _ := [] |}.
#[local] Instance daemon_host : HostSystem () := {|
  env_var _ := mok None; current_dir := mok None; path_exists _ := mok false;
  fs_read _ := mok (inr (as_bytes "proof")); fs_read_to_string _ := mok (inl "not found"%string);
  fs_write _ _ := mok (inr ()); fs_create_dir_all _ := mok (inr ());
  fs_remove_dir_all _ := mok (inr ()); run_command _ _ _ := mok (inl "not found"%string); child := ();
  child_spawn _ _ _ := mok (inr ()); child_exited _ := mok (inr false); child_write _ _ := mok (inr ());
  child_flush _ := mok (inr ()); child_read_line _ := mok (inr "well"%string); child_kill _ := mok () |}.

Definition no_daemon : RealProofState () :=
  {| real_proof_metadata_cache := RealProofMetadataCache_default; real_kernel_prove_daemon := None |}.

