(* ===== verification/Wallet.v ===== *)
(** [crates/wallet/src/{wallet,account_provider}.rs]: the options and results of a wallet,
    the [Wallet] and [AccountProvider] traits and the in-memory mock wallet. *)

From Stdlib Require Import Ascii String SpecFloat.
From S2P Require Import Prelude Bytes Ordered Deps Concrete Types AbiTypes Poseidon KernelTypes Tx Hash Kv Rpc Node Pxe.

(** [f64]: an IEEE 754 binary64 number. *)
Notation f64 := spec_float.

Record Aliased (T : Type) := { alias : string; item : T }.
Arguments alias {T} _.
Arguments item {T} _.
Arguments Build_Aliased {T} _ _.

Module wallet.
Section types.
Context `{JS : JsonCrate} {FR : PrimeField fr_modulus}.

Record ContractMetadata := {
  cm_instance : option ContractInstanceWithAddress;
  is_contract_initialized : bool;
  is_contract_published : bool;
  is_contract_updated : bool;
  updated_contract_class_id : option Fr;
}.

Record ContractClassMetadata := {
  is_artifact_registered : bool;
  is_contract_class_publicly_registered : bool;
}.

Definition default_skip_fee_enforcement : bool := true.
Definition default_skip_proof_generation : bool := true.

Record SimulateOptions := {
  so_from : AztecAddress;
  so_skip_validation : bool;
  so_skip_fee_enforcement : bool;
  so_auth_witnesses : list AuthWitness;
  so_capsules : list Capsule;
  so_additional_scopes : list AztecAddress;
  so_gas_settings : option GasSettings;
  so_fee_execution_payload : option ExecutionPayload;
  so_estimate_gas : bool;
  so_estimated_gas_padding : option f64;
}.

Record SendOptions := {
  sd_from : AztecAddress;
  sd_auth_witnesses : list AuthWitness;
  sd_capsules : list Capsule;
  sd_additional_scopes : list AztecAddress;
  sd_gas_settings : option GasSettings;
  sd_fee_execution_payload : option ExecutionPayload;
}.

Inductive ProfileMode := Gates | ExecutionSteps | Full.

Record ProfileOptions := {
  po_from : AztecAddress;
  po_auth_witnesses : list AuthWitness;
  po_capsules : list Capsule;
  po_additional_scopes : list AztecAddress;
  po_profile_mode : option ProfileMode;
  po_skip_proof_generation : bool;
  po_gas_settings : option GasSettings;
  po_fee_execution_payload : option ExecutionPayload;
}.

Record ExecuteUtilityOptions := {
  eu_scope : AztecAddress;
  eu_auth_witnesses : list AuthWitness;
}.

Record TxSimulationResult := { tsr_return_values : json_value; tsr_gas_used : option Gas }.

Record TxProfileResult := {
  tpr_return_values : json_value;
  tpr_gas_used : option Gas;
  tpr_profile_data : json_value;
}.

Record UtilityExecutionResult := { uer_result : json_value; uer_stats : option json_value }.

Record SendResult := { sr_tx_hash : TxHash }.

Record EventMetadataDefinition := {
  emd_event_selector : Fr;
  emd_abi_type : AbiType;
  emd_field_names : list string;
}.

Record PrivateEventFilter := {
  wef_contract_address : AztecAddress;
  wef_scopes : list AztecAddress;
  wef_tx_hash : option TxHash;
  wef_from_block : option Z;
  wef_to_block : option Z;
  wef_after_log : option LogId;
}.

Record PrivateEventMetadata := {
  pem_tx_hash : TxHash;
  pem_block_number : option Z;
  pem_log_index : option Z;
}.

Record PrivateEvent := { pe_event : json_value; pe_metadata : PrivateEventMetadata }.

Definition SimulateOptions_default : SimulateOptions :=
  {| so_from := Fr_zero; so_skip_validation := false;
     so_skip_fee_enforcement := default_skip_fee_enforcement; so_auth_witnesses := [];
     so_capsules := []; so_additional_scopes := []; so_gas_settings := None;
     so_fee_execution_payload := None; so_estimate_gas := false; so_estimated_gas_padding := None |}.

Definition SendOptions_default : SendOptions :=
  {| sd_from := Fr_zero; sd_auth_witnesses := []; sd_capsules := []; sd_additional_scopes := [];
     sd_gas_settings := None; sd_fee_execution_payload := None |}.

Definition ProfileOptions_default : ProfileOptions :=
  {| po_from := Fr_zero; po_auth_witnesses := []; po_capsules := []; po_additional_scopes := [];
     po_profile_mode := None; po_skip_proof_generation := default_skip_proof_generation;
     po_gas_settings := None; po_fee_execution_payload := None |}.

Definition ExecuteUtilityOptions_default : ExecuteUtilityOptions :=
  {| eu_scope := Fr_zero; eu_auth_witnesses := [] |}.

(** [opts.from = from]. *)
Definition simulate_from (o : SimulateOptions) (from : AztecAddress) : SimulateOptions :=
  {| so_from := from; so_skip_validation := so_skip_validation o;
     so_skip_fee_enforcement := so_skip_fee_enforcement o; so_auth_witnesses := so_auth_witnesses o;
     so_capsules := so_capsules o; so_additional_scopes := so_additional_scopes o;
     so_gas_settings := so_gas_settings o; so_fee_execution_payload := so_fee_execution_payload o;
     so_estimate_gas := so_estimate_gas o; so_estimated_gas_padding := so_estimated_gas_padding o |}.

Definition send_from (o : SendOptions) (from : AztecAddress) : SendOptions :=
  {| sd_from := from; sd_auth_witnesses := sd_auth_witnesses o; sd_capsules := sd_capsules o;
     sd_additional_scopes := sd_additional_scopes o; sd_gas_settings := sd_gas_settings o;
     sd_fee_execution_payload := sd_fee_execution_payload o |}.

Definition profile_from (o : ProfileOptions) (from : AztecAddress) : ProfileOptions :=
  {| po_from := from; po_auth_witnesses := po_auth_witnesses o; po_capsules := po_capsules o;
     po_additional_scopes := po_additional_scopes o; po_profile_mode := po_profile_mode o;
     po_skip_proof_generation := po_skip_proof_generation o; po_gas_settings := po_gas_settings o;
     po_fee_execution_payload := po_fee_execution_payload o |}.
End types.

(** [trait Wallet]: the object and its methods, on the world [W]. *)
Record Wallet (W : Type) `{JS : JsonCrate} {FR : PrimeField fr_modulus} := {
  get_chain_info : M W ChainInfo;
  get_accounts : M W (list (Aliased AztecAddress));
  get_address_book : M W (list (Aliased AztecAddress));
  register_sender : AztecAddress → option string → M W AztecAddress;
  get_contract_metadata : AztecAddress → M W ContractMetadata;
  get_contract_class_metadata : Fr → M W ContractClassMetadata;
  register_contract : ContractInstanceWithAddress → option (ContractArtifact FR JS) → option Fr →
    M W ContractInstanceWithAddress;
  get_private_events : EventMetadataDefinition → PrivateEventFilter → M W (list PrivateEvent);
  simulate_tx : ExecutionPayload → SimulateOptions → M W TxSimulationResult;
  execute_utility : FunctionCall → ExecuteUtilityOptions → M W UtilityExecutionResult;
  profile_tx : ExecutionPayload → ProfileOptions → M W TxProfileResult;
  send_tx : ExecutionPayload → SendOptions → M W SendResult;
  wait_for_contract : AztecAddress → M W ();
  wait_for_tx_proven : TxHash → M W ();
  create_auth_wit : AztecAddress → MessageHashOrIntent → M W AuthWitness;
  get_public_storage_at : AztecAddress → Fr → M W Fr;
}.
Arguments get_chain_info {W JS FR} _.
Arguments get_accounts {W JS FR} _.
Arguments get_address_book {W JS FR} _.
Arguments register_sender {W JS FR} _ _ _.
Arguments get_contract_metadata {W JS FR} _ _.
Arguments get_contract_class_metadata {W JS FR} _ _.
Arguments register_contract {W JS FR} _ _ _ _.
Arguments get_private_events {W JS FR} _ _ _.
Arguments simulate_tx {W JS FR} _ _ _.
Arguments execute_utility {W JS FR} _ _ _.
Arguments profile_tx {W JS FR} _ _ _.
Arguments send_tx {W JS FR} _ _ _.
Arguments wait_for_contract {W JS FR} _ _.
Arguments wait_for_tx_proven {W JS FR} _ _.
Arguments create_auth_wit {W JS FR} _ _ _.
Arguments get_public_storage_at {W JS FR} _ _ _.

(** [trait AccountProvider] of [account_provider.rs]. *)
Record AccountProvider (W : Type) `{JS : JsonCrate} {FR : PrimeField fr_modulus} := {
  ap_create_tx_execution_request : AztecAddress → ExecutionPayload → GasSettings → ChainInfo →
    option AztecAddress → option Z → M W pxe.TxExecutionRequest;
  ap_create_auth_wit : AztecAddress → MessageHashOrIntent → ChainInfo → M W AuthWitness;
  ap_get_complete_address : AztecAddress → M W (option CompleteAddress);
  ap_get_accounts : M W (list (Aliased AztecAddress));
}.
Arguments ap_create_tx_execution_request {W JS FR} _ _ _ _ _ _ _.
Arguments ap_create_auth_wit {W JS FR} _ _ _ _.
Arguments ap_get_complete_address {W JS FR} _ _.
Arguments ap_get_accounts {W JS FR} _.

(** ** [MockWallet]

    Its mutexes are held for one access at a time and none is poisoned, since no
    access panics. *)

Section mock.
Context `{JS : JsonCrate} {FR : PrimeField fr_modulus} {HX : HexCrate} `{JM : !JsonMake}.

Record MockWallet := {
  mw_chain_info : ChainInfo;
  mw_accounts : list (Aliased AztecAddress);
  mw_address_book : list (Aliased AztecAddress);
  mw_contracts : gmap AztecAddress ContractMetadata;
  mw_contract_classes : gmap Fr ContractClassMetadata;
  mw_simulate_result : TxSimulationResult;
  mw_send_result : SendResult;
}.

Definition MockWallet_new (chain_info : ChainInfo) : MockWallet :=
  {| mw_chain_info := chain_info; mw_accounts := []; mw_address_book := []; mw_contracts := ∅;
     mw_contract_classes := ∅;
     mw_simulate_result := {| tsr_return_values := json_of TNull; tsr_gas_used := None |};
     mw_send_result := {| sr_tx_hash := TxHash_zero |} |}.

Definition with_simulate_result (self : MockWallet) (result : TxSimulationResult) : MockWallet :=
  {| mw_chain_info := mw_chain_info self; mw_accounts := mw_accounts self;
     mw_address_book := mw_address_book self; mw_contracts := mw_contracts self;
     mw_contract_classes := mw_contract_classes self; mw_simulate_result := result;
     mw_send_result := mw_send_result self |}.

Definition with_send_result (self : MockWallet) (result : SendResult) : MockWallet :=
  {| mw_chain_info := mw_chain_info self; mw_accounts := mw_accounts self;
     mw_address_book := mw_address_book self; mw_contracts := mw_contracts self;
     mw_contract_classes := mw_contract_classes self;
     mw_simulate_result := mw_simulate_result self; mw_send_result := result |}.

(** The accesses under a lock. *)
Definition with_accounts (f : list (Aliased AztecAddress) → list (Aliased AztecAddress))
    (self : MockWallet) : MockWallet :=
  {| mw_chain_info := mw_chain_info self; mw_accounts := f (mw_accounts self);
     mw_address_book := mw_address_book self; mw_contracts := mw_contracts self;
     mw_contract_classes := mw_contract_classes self;
     mw_simulate_result := mw_simulate_result self; mw_send_result := mw_send_result self |}.
Definition with_address_book (f : list (Aliased AztecAddress) → list (Aliased AztecAddress))
    (self : MockWallet) : MockWallet :=
  {| mw_chain_info := mw_chain_info self; mw_accounts := mw_accounts self;
     mw_address_book := f (mw_address_book self); mw_contracts := mw_contracts self;
     mw_contract_classes := mw_contract_classes self;
     mw_simulate_result := mw_simulate_result self; mw_send_result := mw_send_result self |}.
Definition with_contracts (f : gmap AztecAddress ContractMetadata → gmap AztecAddress ContractMetadata)
    (self : MockWallet) : MockWallet :=
  {| mw_chain_info := mw_chain_info self; mw_accounts := mw_accounts self;
     mw_address_book := mw_address_book self; mw_contracts := f (mw_contracts self);
     mw_contract_classes := mw_contract_classes self;
     mw_simulate_result := mw_simulate_result self; mw_send_result := mw_send_result self |}.
Definition with_classes (f : gmap Fr ContractClassMetadata → gmap Fr ContractClassMetadata)
    (self : MockWallet) : MockWallet :=
  {| mw_chain_info := mw_chain_info self; mw_accounts := mw_accounts self;
     mw_address_book := mw_address_book self; mw_contracts := mw_contracts self;
     mw_contract_classes := f (mw_contract_classes self);
     mw_simulate_result := mw_simulate_result self; mw_send_result := mw_send_result self |}.

Definition read_mock {A : Type} (f : MockWallet → Outcome A) : M MockWallet A := λ s, (s, f s).
Definition update_mock (f : MockWallet → MockWallet) : M MockWallet () := λ s, (f s, Ok ()).

Definition add_account (address : AztecAddress) (name : option string) : M MockWallet () :=
  update_mock (with_accounts (λ l, l ++ [{| alias := default "" name; item := address |}])).

Definition register_contract_class (class_id : Fr) (metadata : ContractClassMetadata)
    : M MockWallet () := update_mock (with_classes (insert class_id metadata)).

(** [impl Wallet for MockWallet]. *)
Definition mock_register_contract (instance : ContractInstanceWithAddress)
    (artifact : option (ContractArtifact FR JS)) (secret_key : option Fr)
    : M MockWallet ContractInstanceWithAddress :=
  let metadata :=
    {| cm_instance := Some instance; is_contract_initialized := false;
       is_contract_published := false; is_contract_updated := false;
       updated_contract_class_id := None |} in
  update_mock (with_contracts (insert (instance_address instance) metadata)) ;;!
  let! _ :=
    match artifact with
    | Some _ => update_mock (with_classes (λ m,
        let class_id := ci_current_contract_class_id (instance_inner instance) in
        match m !! class_id with
        | Some _ => m
        | None => <[class_id := {| is_artifact_registered := true;
                                   is_contract_class_publicly_registered := false |}]> m
        end))
    | None => mok ()
    end in
  mok instance.

Definition mock_wallet : Wallet MockWallet :=
  {| get_chain_info := read_mock (λ s, Ok (mw_chain_info s));
     get_accounts := read_mock (λ s, Ok (mw_accounts s));
     get_address_book := read_mock (λ s, Ok (mw_address_book s));
     register_sender address name :=
       update_mock (with_address_book (λ l, l ++ [{| alias := default "" name; item := address |}]))
       ;;! mok address;
     get_contract_metadata address := read_mock (λ s,
       ok_or (mw_contracts s !! address)
         (InvalidData ("contract not registered: " +:+ Fr_to_string address)));
     get_contract_class_metadata class_id := read_mock (λ s,
       ok_or (mw_contract_classes s !! class_id)
         (InvalidData ("contract class not registered: " +:+ Fr_to_string class_id)));
     register_contract := mock_register_contract;
     get_private_events _ _ := mok [];
     simulate_tx _ _ := read_mock (λ s, Ok (mw_simulate_result s));
     execute_utility _ _ := mok {| uer_result := json_of TNull; uer_stats := None |};
     profile_tx _ _ := mok {| tpr_return_values := json_of TNull; tpr_gas_used := None;
                              tpr_profile_data := json_of TNull |};
     send_tx _ _ := read_mock (λ s, Ok (mw_send_result s));
     wait_for_contract _ := mok ();
     wait_for_tx_proven _ := mok ();
     create_auth_wit _ _ := mok {| aw_request_hash := Fr_zero; aw_fields := [] |};
     get_public_storage_at _ _ := mok Fr_zero |}.
End mock.
End wallet.
