(* ===== verification/Contract.v ===== *)
(** [crates/contract/src/]: contract handles, interactions and batches, deployment,
    authorisation witnesses and public events. *)

From Stdlib Require Import Ascii String SpecFloat.
From S2P Require Import Prelude Bytes Ordered Deps Concrete Types Constants Poseidon AbiTypes AbiCodec KernelTypes Tx Hash Deploy Kv Rpc Node Pxe Entrypoint Wallet.

(** ** The process environment of [deployment.rs]

    [current_dir], [path_join], [path_exists] are those of [std::env] and [std::path];
    [command_output] runs a program and answers the error's text, or the exit success,
    the standard output and the standard error; [json_from_slice] is
    [serde_json::from_slice]. *)
Class ProcessCrate `{JS : JsonCrate} := {
  current_dir : option string;
  path_join : string → string → string;
  path_exists : string → bool;
  command_output : string → list string → string + (bool * list byte * list byte);
  from_utf8_lossy : list byte → string;
  json_from_slice : list byte → Outcome json_value;
}.

(** ** [contract.rs]: interactions *)

Section interactions.
Context {W : Type} `{JS : JsonCrate} {FR : PrimeField fr_modulus}.

(** [merge_fee_payload]; also the five [extend]s that the wallet makes. *)
Definition extend_payload (payload fee_payload : ExecutionPayload) : ExecutionPayload :=
  {| ep_calls := ep_calls payload ++ ep_calls fee_payload;
     ep_auth_witnesses := ep_auth_witnesses payload ++ ep_auth_witnesses fee_payload;
     ep_capsules := ep_capsules payload ++ ep_capsules fee_payload;
     ep_extra_hashed_args := ep_extra_hashed_args payload ++ ep_extra_hashed_args fee_payload;
     ep_fee_payer := match ep_fee_payer fee_payload with
                     | Some payer => Some payer | None => ep_fee_payer payload end |}.

Definition merge_fee_payload (payload : ExecutionPayload) (fee : option ExecutionPayload)
    : Outcome ExecutionPayload :=
  Ok (match fee with Some fee_payload => extend_payload payload fee_payload | None => payload end).

Record ContractFunctionInteraction := {
  cfi_wallet : wallet.Wallet W;
  cfi_call : FunctionCall;
  cfi_capsules : list Capsule;
  cfi_auth_witnesses : list AuthWitness;
  cfi_extra_hashed_args : list HashedValues;
}.

Definition interaction_new (w : wallet.Wallet W) (call : FunctionCall) : ContractFunctionInteraction :=
  {| cfi_wallet := w; cfi_call := call; cfi_capsules := []; cfi_auth_witnesses := [];
     cfi_extra_hashed_args := [] |}.

Definition new_with_capsules (w : wallet.Wallet W) (call : FunctionCall) (capsules : list Capsule)
    : ContractFunctionInteraction :=
  {| cfi_wallet := w; cfi_call := call; cfi_capsules := capsules; cfi_auth_witnesses := [];
     cfi_extra_hashed_args := [] |}.

(** [with]. *)
Definition interaction_with (self : ContractFunctionInteraction) (auth_witnesses : list AuthWitness)
    (capsules : list Capsule) : ContractFunctionInteraction :=
  {| cfi_wallet := cfi_wallet self; cfi_call := cfi_call self;
     cfi_capsules := cfi_capsules self ++ capsules;
     cfi_auth_witnesses := cfi_auth_witnesses self ++ auth_witnesses;
     cfi_extra_hashed_args := cfi_extra_hashed_args self |}.

Definition interaction_request (self : ContractFunctionInteraction) : Outcome ExecutionPayload :=
  Ok {| ep_calls := [cfi_call self]; ep_auth_witnesses := cfi_auth_witnesses self;
        ep_capsules := cfi_capsules self; ep_extra_hashed_args := cfi_extra_hashed_args self;
        ep_fee_payer := None |}.

Definition interaction_simulate (self : ContractFunctionInteraction) (opts : wallet.SimulateOptions)
    : M W wallet.TxSimulationResult :=
  let! request := mlift (interaction_request self) in
  let! payload := mlift (merge_fee_payload request (wallet.so_fee_execution_payload opts)) in
  wallet.simulate_tx (cfi_wallet self) payload opts.

Definition interaction_profile (self : ContractFunctionInteraction) (opts : wallet.ProfileOptions)
    : M W wallet.TxProfileResult :=
  let! request := mlift (interaction_request self) in
  let! payload := mlift (merge_fee_payload request (wallet.po_fee_execution_payload opts)) in
  wallet.profile_tx (cfi_wallet self) payload opts.

Definition interaction_send (self : ContractFunctionInteraction) (opts : wallet.SendOptions)
    : M W wallet.SendResult :=
  let! request := mlift (interaction_request self) in
  let! payload := mlift (merge_fee_payload request (wallet.sd_fee_execution_payload opts)) in
  wallet.send_tx (cfi_wallet self) payload opts.

(** *** [BatchCall] *)

Record BatchCall := { bc_wallet : wallet.Wallet W; bc_payloads : list ExecutionPayload }.

(** One iteration of the loop of [request]: the same five updates as [extend_payload]. *)
Definition batch_request (self : BatchCall) : Outcome ExecutionPayload :=
  Ok (foldl extend_payload ExecutionPayload_default (bc_payloads self)).

Definition batch_simulate (self : BatchCall) (opts : wallet.SimulateOptions)
    : M W wallet.TxSimulationResult :=
  let! request := mlift (batch_request self) in
  let! payload := mlift (merge_fee_payload request (wallet.so_fee_execution_payload opts)) in
  wallet.simulate_tx (bc_wallet self) payload opts.

Definition batch_profile (self : BatchCall) (opts : wallet.ProfileOptions)
    : M W wallet.TxProfileResult :=
  let! request := mlift (batch_request self) in
  let! payload := mlift (merge_fee_payload request (wallet.po_fee_execution_payload opts)) in
  wallet.profile_tx (bc_wallet self) payload opts.

Definition batch_send (self : BatchCall) (opts : wallet.SendOptions) : M W wallet.SendResult :=
  let! request := mlift (batch_request self) in
  let! payload := mlift (merge_fee_payload request (wallet.sd_fee_execution_payload opts)) in
  wallet.send_tx (bc_wallet self) payload opts.

(** *** [Contract] *)

Record Contract := {
  ct_address : AztecAddress;
  ct_artifact : ContractArtifact FR JS;
  ct_wallet : wallet.Wallet W;
}.

Definition with_wallet (self : Contract) (w : wallet.Wallet W) : Contract :=
  {| ct_address := ct_address self; ct_artifact := ct_artifact self; ct_wallet := w |}.

(** [format!("{what} '{name}' expects {expected} argument(s), got {got}")]. *)
Definition wrong_arity (what name : string) (expected got : nat) : Error :=
  Abi (what +:+ " '" +:+ name +:+ "' expects " +:+ pretty expected +:+ " argument(s), got "
       +:+ pretty got).

Definition contract_method (self : Contract) (name : string) (args : list AbiValue)
    : Outcome ContractFunctionInteraction :=
  let? func := find_function (ct_artifact self) name in
  let expected := List.length (parameters func) in
  let got := List.length args in
  if decide (got ≠ expected) then Err (wrong_arity "function" name expected got)
  else
    let? selector := ok_or (fa_selector func)
      (Abi ("function '" +:+ name +:+ "' in artifact '" +:+ art_name (ct_artifact self)
            +:+ "' has no selector")) in
    let? encoded_args := encode_arguments func args in
    Ok (interaction_new (ct_wallet self)
      {| fc_to := ct_address self; fc_selector := selector;
         fc_args := AbiValue.Field <$> encoded_args;
         fc_function_type := function_type func; fc_is_static := fa_is_static func;
         fc_hide_msg_sender := false |}).
End interactions.
Arguments ContractFunctionInteraction W {JS FR}.
Arguments BatchCall W {JS FR}.
Arguments Contract W {JS FR}.

(** ** [deployment.rs] *)

(** [x as f64], [x.ceil() as u64]: the conversion to an integer saturates. *)
Definition u64_to_f64 (x : Z) : f64 := binary_normalize 53 1024 x 0 false.
Definition f64_ceil_u64 (x : f64) : Z :=
  match x with
  | S754_zero _ | S754_nan | S754_infinity true => 0
  | S754_infinity false => 2 ^ 64 - 1
  | S754_finite s m e =>
      let v := if s then Z.neg m else Z.pos m in
      let c := if 0 <=? e then v * 2 ^ e else - ((- v) / 2 ^ (- e)) in
      Z.max 0 (Z.min (2 ^ 64 - 1) c)
  end.
(** The literals [1.0] and [0.1]. *)
Definition f64_one : f64 := u64_to_f64 1.
Definition f64_tenth : f64 := S754_finite false 7205759403792794 (-56).

Section deployment.
Context {W : Type} {FR : PrimeField fr_modulus} {FQ : PrimeField fq_modulus} {HX : HexCrate}.
Context {P2 : Poseidon2Crate} {HC : HashCrates} {AG : GrumpkinCrate} {JS : JsonCrate}.
Context {JT : JsonText} {B64 : Base64Crate} {AS : AbiSerde} {PC : ProcessCrate}.
Context `{RW : !RandCrate W}.
Notation ContractArtifact := (ContractArtifact FR JS).

Record DeployOptions := {
  contract_address_salt : option Fr;
  skip_class_publication : bool;
  skip_instance_publication : bool;
  skip_initialization : bool;
  skip_registration : bool;
  universal_deploy : bool;
  do_from : option AztecAddress;
}.

Definition DeployOptions_default : DeployOptions :=
  {| contract_address_salt := None; skip_class_publication := false;
     skip_instance_publication := false; skip_initialization := false; skip_registration := false;
     universal_deploy := false; do_from := None |}.

Record SuggestedGasLimits := { sgl_gas_limits : Gas; sgl_teardown_gas_limits : Gas }.

Definition get_gas_limits (simulation_result : wallet.TxSimulationResult) (pad : option f64)
    : SuggestedGasLimits :=
  let pad_factor := SFadd 53 1024 f64_one (default f64_tenth pad) in
  let gas_used := default Gas_default (wallet.tsr_gas_used simulation_result) in
  let padded_da := f64_ceil_u64 (SFmul 53 1024 (u64_to_f64 (da_gas gas_used)) pad_factor) in
  let padded_l2 := f64_ceil_u64 (SFmul 53 1024 (u64_to_f64 (l2_gas gas_used)) pad_factor) in
  {| sgl_gas_limits := MkGas padded_da (Z.min padded_l2 MAX_PROCESSABLE_L2_GAS);
     sgl_teardown_gas_limits := Gas_default |}.

(** [extract_packed_bytecode] and [decode_artifact_bytes] repeat [hash.rs]. *)
Definition extract_packed_bytecode (artifact : ContractArtifact) : list byte :=
  extract_packed_public_bytecode artifact.

Definition publish_contract_class (w : wallet.Wallet W) (artifact : ContractArtifact)
    : M W (ContractFunctionInteraction W) :=
  let artifact_hash := compute_artifact_hash artifact in
  let! private_functions_root := mlift (compute_private_functions_root_from_artifact artifact) in
  let packed_bytecode := extract_packed_bytecode artifact in
  let! public_bytecode_commitment := mlift (compute_public_bytecode_commitment packed_bytecode) in
  let! bytecode_fields :=
    if decide (packed_bytecode = []) then mok []
    else mlift (buffer_as_fields packed_bytecode MAX_PACKED_PUBLIC_BYTECODE_SIZE_IN_FIELDS) in
  let registerer_address := protocol_contract_address.contract_class_registry in
  let call :=
    {| fc_to := registerer_address;
       fc_selector := FunctionSelector_from_signature "publish(Field,Field,Field)";
       fc_args := [AbiValue.Field artifact_hash; AbiValue.Field private_functions_root;
                   AbiValue.Field public_bytecode_commitment];
       fc_function_type := Private; fc_is_static := false; fc_hide_msg_sender := false |} in
  let! capsules :=
    if decide (bytecode_fields = []) then mok []
    else
      let! slot := mlift contract_class_registry_bytecode_capsule_slot in
      mok [{| cap_contract_address := registerer_address; cap_storage_slot := slot;
              cap_data := bytecode_fields |}] in
  mok (new_with_capsules w call capsules).

Definition point_to_abi_value (point : Point) : AbiValue :=
  AbiValue.Tuple [AbiValue.Field (pt_x point); AbiValue.Field (pt_y point);
                  AbiValue.Boolean (pt_is_infinite point)].

Definition public_keys_to_abi_value (k : PublicKeys) : AbiValue :=
  AbiValue.Tuple
    [point_to_abi_value (master_nullifier_public_key k);
     point_to_abi_value (master_incoming_viewing_public_key k);
     point_to_abi_value (master_outgoing_viewing_public_key k);
     point_to_abi_value (master_tagging_public_key k)].

Definition publish_instance (w : wallet.Wallet W) (instance : ContractInstanceWithAddress)
    : Outcome (ContractFunctionInteraction W) :=
  let inner := instance_inner instance in
  let is_universal_deploy := bool_decide (ci_deployer inner = Fr_zero) in
  let call :=
    {| fc_to := protocol_contract_address.contract_instance_registry;
       fc_selector := FunctionSelector_from_signature
         "publish_for_public_execution(Field,(Field),Field,(((Field,Field,bool)),((Field,Field,bool)),((Field,Field,bool)),((Field,Field,bool))),bool)";
       fc_args := [AbiValue.Field (ci_salt inner);
                   AbiValue.Tuple [AbiValue.Field (ci_current_contract_class_id inner)];
                   AbiValue.Field (ci_initialization_hash inner);
                   public_keys_to_abi_value (ci_public_keys inner);
                   AbiValue.Boolean is_universal_deploy];
       fc_function_type := Private; fc_is_static := false; fc_hide_msg_sender := false |} in
  Ok (interaction_new w call).

(** *** Instances *)

Record ContractInstantiationParams := {
  cip_constructor_name : option string;
  cip_constructor_args : list AbiValue;
  cip_salt : Fr;
  cip_public_keys : PublicKeys;
  cip_deployer : AztecAddress;
}.

Definition locate_repo_tool (name : string) : option string :=
  let candidates :=
    match env_var "AZTEC_RS_REPO" with
    | Some path => [path_join (path_join path "tools") name] | None => [] end
    ++ match current_dir with
       | Some cwd => [path_join (path_join cwd "tools") name;
                      path_join (path_join cwd "../tools") name;
                      path_join (path_join cwd "../../tools") name]
       | None => [] end in
  List.find path_exists candidates.

Definition point_args (point : Point) : list string :=
  [Fr_to_string (pt_x point); Fr_to_string (pt_y point);
   if pt_is_infinite point then "true" else "false"]%string.

Definition helper_args (script : string) (instance : ContractInstance)
    (artifact_hash private_functions_root public_bytecode_commitment : Fr) : list string :=
  let keys := ci_public_keys instance in
  [script; Fr_to_string artifact_hash; Fr_to_string private_functions_root;
   Fr_to_string public_bytecode_commitment; Fr_to_string (ci_salt instance);
   Fr_to_string (ci_initialization_hash instance); Fr_to_string (ci_deployer instance)]
  ++ point_args (master_nullifier_public_key keys)
  ++ point_args (master_incoming_viewing_public_key keys)
  ++ point_args (master_outgoing_viewing_public_key keys)
  ++ point_args (master_tagging_public_key keys).

Definition response_field (response : json_value) (name what : string) : Outcome Fr :=
  let? text := ok_or (json_get response name ≫= json_as_str)
    (InvalidData ("contract instance helper missing " +:+ what)) in
  Fr_from_hex text.

Definition canonicalize_instance_with_bbjs (instance : ContractInstanceWithAddress)
    (artifact_hash private_functions_root public_bytecode_commitment : Fr)
    : Outcome ContractInstanceWithAddress :=
  let inner := instance_inner instance in
  let? script := ok_or (locate_repo_tool "compute_contract_instance_from_rust.mjs")
    (InvalidData "tools/compute_contract_instance_from_rust.mjs not found for real proof benchmark") in
  match command_output "node"
          (helper_args script inner artifact_hash private_functions_root public_bytecode_commitment) with
  | inl err => Err (InvalidData ("run bb.js contract instance helper: " +:+ err))
  | inr (success, stdout, stderr) =>
      if negb success then
        Err (InvalidData ("bb.js contract instance helper failed: " +:+ from_utf8_lossy stderr))
      else
        let? response := json_from_slice stdout in
        let? class_id := response_field response "classId" "classId" in
        let? address := response_field response "address" "address" in
        Ok {| instance_address := address;
              instance_inner :=
                {| ci_version := ci_version inner; ci_salt := ci_salt inner;
                   ci_deployer := ci_deployer inner; ci_current_contract_class_id := class_id;
                   ci_original_contract_class_id := class_id;
                   ci_initialization_hash := ci_initialization_hash inner;
                   ci_public_keys := ci_public_keys inner |} |}
  end.

(** The environment asks for the external helper. *)
Definition real_proof_benchmark : bool :=
  match env_var "PXE_BENCH_REAL_PROOFS" with
  | Some value => String.eqb value "1" || String.eqb value "true" || String.eqb value "TRUE"
  | None => false
  end.

(** [find_function] of an optional name, transposed. *)
Definition find_initializer (artifact : ContractArtifact) (name : option string)
    : Outcome (option (FunctionArtifact FR JS)) :=
  match name with
  | Some name => let? f := find_function artifact name in Ok (Some f)
  | None => Ok None
  end.

Definition get_contract_instance_from_instantiation_params (artifact : ContractArtifact)
    (params : ContractInstantiationParams) : Outcome ContractInstanceWithAddress :=
  let artifact_hash := compute_artifact_hash artifact in
  let? private_functions_root := compute_private_functions_root_from_artifact artifact in
  let? public_bytecode_commitment :=
    compute_public_bytecode_commitment (extract_packed_bytecode artifact) in
  let class_id := compute_contract_class_id artifact_hash private_functions_root
                    public_bytecode_commitment in
  let? init_fn := find_initializer artifact (cip_constructor_name params) in
  let? init_hash := compute_initialization_hash init_fn (cip_constructor_args params) in
  let instance :=
    {| ci_version := 1; ci_salt := cip_salt params; ci_deployer := cip_deployer params;
       ci_current_contract_class_id := class_id; ci_original_contract_class_id := class_id;
       ci_initialization_hash := init_hash; ci_public_keys := cip_public_keys params |} in
  let? address := compute_contract_address_from_instance instance in
  let instance := {| instance_address := address; instance_inner := instance |} in
  if real_proof_benchmark
  then canonicalize_instance_with_bbjs instance artifact_hash private_functions_root
         public_bytecode_commitment
  else Ok instance.

(** *** [ContractDeployer] and [DeployMethod] *)

Record ContractDeployer := {
  cd_artifact : ContractArtifact;
  cd_wallet : wallet.Wallet W;
  cd_public_keys : PublicKeys;
  cd_constructor_name : option string;
}.

Definition ContractDeployer_new (artifact : ContractArtifact) (w : wallet.Wallet W)
    : Outcome ContractDeployer :=
  let? keys := PublicKeys_default in
  Ok {| cd_artifact := artifact; cd_wallet := w; cd_public_keys := keys;
        cd_constructor_name := None |}.

Definition with_public_keys (self : ContractDeployer) (keys : PublicKeys) : ContractDeployer :=
  {| cd_artifact := cd_artifact self; cd_wallet := cd_wallet self; cd_public_keys := keys;
     cd_constructor_name := cd_constructor_name self |}.

Definition with_constructor_name (self : ContractDeployer) (name : string) : ContractDeployer :=
  {| cd_artifact := cd_artifact self; cd_wallet := cd_wallet self;
     cd_public_keys := cd_public_keys self; cd_constructor_name := Some name |}.

Record DeployMethod := {
  dm_wallet : wallet.Wallet W;
  dm_artifact : ContractArtifact;
  dm_args : list AbiValue;
  dm_public_keys : PublicKeys;
  dm_constructor_name : option string;
  dm_default_salt : Fr;
}.

(** The initializer that a deployment with these arguments calls. *)
Definition choose_constructor (artifact : ContractArtifact) (constructor_name : option string)
    (args : list AbiValue) : Outcome (option string) :=
  let got := List.length args in
  match constructor_name with
  | Some name =>
      let? func := find_function artifact name in
      if negb (is_initializer func) then
        Err (Abi ("function '" +:+ name +:+ "' in artifact '" +:+ art_name artifact
                  +:+ "' is not an initializer"))
      else
        let expected := List.length (parameters func) in
        if decide (got ≠ expected) then Err (wrong_arity "constructor" name expected got)
        else Ok (Some name)
  | None =>
      match find_first is_initializer (functions artifact) with
      | Some func =>
          let expected := List.length (parameters func) in
          if decide (got ≠ expected) then Err (wrong_arity "constructor" (fa_name func) expected got)
          else Ok (Some (fa_name func))
      | None =>
          if decide (args = []) then Ok None
          else Err (Abi ("artifact '" +:+ art_name artifact +:+ "' has no initializer but got "
                         +:+ pretty got +:+ " constructor argument(s)"))
      end
  end.

Definition deployer_deploy (self : ContractDeployer) (args : list AbiValue) : M W DeployMethod :=
  let! constructor_name :=
    mlift (choose_constructor (cd_artifact self) (cd_constructor_name self) args) in
  let! default_salt := Fr_random in
  mok {| dm_wallet := cd_wallet self; dm_artifact := cd_artifact self; dm_args := args;
         dm_public_keys := cd_public_keys self; dm_constructor_name := constructor_name;
         dm_default_salt := default_salt |}.

Definition with_effective_from (opts : DeployOptions) (from : option AztecAddress) : DeployOptions :=
  if universal_deploy opts || bool_decide (is_Some (do_from opts)) then opts
  else {| contract_address_salt := contract_address_salt opts;
          skip_class_publication := skip_class_publication opts;
          skip_instance_publication := skip_instance_publication opts;
          skip_initialization := skip_initialization opts;
          skip_registration := skip_registration opts;
          universal_deploy := universal_deploy opts; do_from := from |}.

Definition get_instance (self : DeployMethod) (opts : DeployOptions)
    : Outcome ContractInstanceWithAddress :=
  get_contract_instance_from_instantiation_params (dm_artifact self)
    {| cip_constructor_name := dm_constructor_name self; cip_constructor_args := dm_args self;
       cip_salt := default (dm_default_salt self) (contract_address_salt opts);
       cip_public_keys := dm_public_keys self;
       cip_deployer := if universal_deploy opts then Fr_zero else default Fr_zero (do_from opts) |}.

(** The parts of [request], each the payloads it pushes. *)
Definition class_publication (self : DeployMethod) (opts : DeployOptions)
    (instance : ContractInstanceWithAddress) : M W (list ExecutionPayload) :=
  if skip_class_publication opts then mok []
  else
    let class_id := ci_current_contract_class_id (instance_inner instance) in
    let! metadata := mtry (wallet.get_contract_class_metadata (dm_wallet self) class_id) in
    let already_registered :=
      match metadata with
      | Ok m => wallet.is_contract_class_publicly_registered m | _ => false
      end in
    if already_registered then mok []
    else
      let! class_interaction := publish_contract_class (dm_wallet self) (dm_artifact self) in
      let! payload := mlift (interaction_request class_interaction) in
      mok [payload].

Definition instance_publication (self : DeployMethod) (opts : DeployOptions)
    (instance : ContractInstanceWithAddress) : Outcome (list ExecutionPayload) :=
  if skip_instance_publication opts then Ok []
  else
    let? instance_interaction := publish_instance (dm_wallet self) instance in
    let? payload := interaction_request instance_interaction in
    Ok [payload].

Definition single_call_payload (call : FunctionCall) : ExecutionPayload :=
  {| ep_calls := [call]; ep_auth_witnesses := []; ep_capsules := []; ep_extra_hashed_args := [];
     ep_fee_payer := None |}.

Definition constructor_call (self : DeployMethod) (opts : DeployOptions)
    (instance : ContractInstanceWithAddress) : Outcome (list ExecutionPayload) :=
  if skip_initialization opts then Ok []
  else
    match dm_constructor_name self with
    | None => Ok []
    | Some constructor_name =>
        let? func := find_function (dm_artifact self) constructor_name in
        let? encoded_fields := encode_arguments func (dm_args self) in
        Ok [single_call_payload
              {| fc_to := instance_address instance; fc_selector := artifact_selector func;
                 fc_args := AbiValue.Field <$> encoded_fields;
                 fc_function_type := function_type func; fc_is_static := false;
                 fc_hide_msg_sender := false |}]
    end.

Definition deploy_request (self : DeployMethod) (opts : DeployOptions) : M W ExecutionPayload :=
  let! instance := mlift (get_instance self opts) in
  let! _ :=
    if skip_registration opts then mok ()
    else
      let! _ := wallet.register_contract (dm_wallet self) instance (Some (dm_artifact self)) None in
      mok () in
  let! class_payloads := class_publication self opts instance in
  let! instance_payloads := mlift (instance_publication self opts instance) in
  let! constructor_payloads := mlift (constructor_call self opts instance) in
  mlift (merge (class_payloads ++ instance_payloads ++ constructor_payloads)).

Definition deploy_simulate (self : DeployMethod) (deploy_opts : DeployOptions)
    (sim_opts : wallet.SimulateOptions) : M W wallet.TxSimulationResult :=
  let effective_opts := with_effective_from deploy_opts (Some (wallet.so_from sim_opts)) in
  let! request := deploy_request self effective_opts in
  let! payload := mlift (merge_fee_payload request (wallet.so_fee_execution_payload sim_opts)) in
  wallet.simulate_tx (dm_wallet self) payload sim_opts.

Definition deploy_profile (self : DeployMethod) (deploy_opts : DeployOptions)
    (profile_opts : wallet.ProfileOptions) : M W wallet.TxProfileResult :=
  let effective_opts := with_effective_from deploy_opts (Some (wallet.po_from profile_opts)) in
  let! request := deploy_request self effective_opts in
  let! payload := mlift (merge_fee_payload request (wallet.po_fee_execution_payload profile_opts)) in
  wallet.profile_tx (dm_wallet self) payload profile_opts.

Record DeployResult := {
  dr_send_result : wallet.SendResult;
  dr_instance : ContractInstanceWithAddress;
}.

Definition deploy_send (self : DeployMethod) (deploy_opts : DeployOptions)
    (send_opts : wallet.SendOptions) : M W DeployResult :=
  let effective_opts := with_effective_from deploy_opts (Some (wallet.sd_from send_opts)) in
  let! instance := mlift (get_instance self effective_opts) in
  let! request := deploy_request self effective_opts in
  let! payload := mlift (merge_fee_payload request (wallet.sd_fee_execution_payload send_opts)) in
  let! send_result := wallet.send_tx (dm_wallet self) payload send_opts in
  let! _ :=
    if skip_instance_publication effective_opts then mok ()
    else wallet.wait_for_contract (dm_wallet self) (instance_address instance) in
  mok {| dr_send_result := send_result; dr_instance := instance |}.

(** [Contract::deploy] and [Contract::deploy_with_public_keys]. *)
Definition contract_deploy (w : wallet.Wallet W) (artifact : ContractArtifact)
    (args : list AbiValue) (constructor_name : option string) : M W DeployMethod :=
  let! deployer := mlift (ContractDeployer_new artifact w) in
  deployer_deploy
    (match constructor_name with
     | Some name => with_constructor_name deployer name | None => deployer end) args.

Definition deploy_with_public_keys (public_keys : PublicKeys) (w : wallet.Wallet W)
    (artifact : ContractArtifact) (args : list AbiValue) (constructor_name : option string)
    : M W DeployMethod :=
  let! deployer := mlift (ContractDeployer_new artifact w) in
  let deployer := with_public_keys deployer public_keys in
  deployer_deploy
    (match constructor_name with
     | Some name => with_constructor_name deployer name | None => deployer end) args.
End deployment.
Arguments ContractDeployer W {FR JS}.
Arguments DeployMethod W {FR JS}.

(** ** [authwit.rs] *)

Section authwit.
Context {W : Type} {FR : PrimeField fr_modulus} {P2 : Poseidon2Crate} {HC : HashCrates}.
Context {JS : JsonCrate} {JT : JsonText}.

Record SetPublicAuthWitInteraction := {
  sp_wallet : wallet.Wallet W;
  sp_from : AztecAddress;
  sp_call : FunctionCall;
}.

Definition set_public_authwit_create (w : wallet.Wallet W) (from : AztecAddress)
    (message_hash_or_intent : MessageHashOrIntent) (authorized : bool)
    : M W SetPublicAuthWitInteraction :=
  let! chain_info := wallet.get_chain_info w in
  let message_hash := compute_auth_wit_message_hash message_hash_or_intent chain_info in
  mok {| sp_wallet := w; sp_from := from;
         sp_call :=
           {| fc_to := protocol_contract_address.auth_registry;
              fc_selector := FunctionSelector_from_signature "set_authorized(Field,bool)";
              fc_args := [AbiValue.Field message_hash; AbiValue.Boolean authorized];
              fc_function_type := Public; fc_is_static := false; fc_hide_msg_sender := false |} |}.

Definition sp_request (self : SetPublicAuthWitInteraction) : ExecutionPayload :=
  {| ep_calls := [sp_call self]; ep_auth_witnesses := []; ep_capsules := [];
     ep_extra_hashed_args := []; ep_fee_payer := None |}.

Definition sp_simulate (self : SetPublicAuthWitInteraction) (opts : wallet.SimulateOptions)
    : M W wallet.TxSimulationResult :=
  wallet.simulate_tx (sp_wallet self) (sp_request self) (wallet.simulate_from opts (sp_from self)).
Definition sp_send (self : SetPublicAuthWitInteraction) (opts : wallet.SendOptions)
    : M W wallet.SendResult :=
  wallet.send_tx (sp_wallet self) (sp_request self) (wallet.send_from opts (sp_from self)).
Definition sp_profile (self : SetPublicAuthWitInteraction) (opts : wallet.ProfileOptions)
    : M W wallet.TxProfileResult :=
  wallet.profile_tx (sp_wallet self) (sp_request self) (wallet.profile_from opts (sp_from self)).

Record AuthWitValidity := { is_valid_in_private : bool; is_valid_in_public : bool }.

(** On the tree of the value; [Number::as_u64] is [Some 1] for the text ["1"] only. *)
Fixpoint parse_boolean_tree (value : JsonTree) : bool :=
  match value with
  | TBool b => b
  | TNumber n => String.eqb n "1"
  | TString s =>
      negb (String.eqb s "0x0000000000000000000000000000000000000000000000000000000000000000")
      && negb (String.eqb s "0") && negb (String.eqb s "false")
  | TArray arr => match arr with v :: _ => parse_boolean_tree v | [] => false end
  | _ => false
  end.
Definition parse_boolean_result (value : json_value) : bool := parse_boolean_tree (json_tree value).

Definition check_private_validity (w : wallet.Wallet W) (on_behalf_of consumer : AztecAddress)
    (inner_hash : Fr) (witness : AuthWitness) : M W bool :=
  let call :=
    {| fc_to := on_behalf_of;
       fc_selector := FunctionSelector_from_signature "lookup_validity((Field),Field)";
       fc_args := [AbiValue.Field consumer; AbiValue.Field inner_hash];
       fc_function_type := Utility; fc_is_static := true; fc_hide_msg_sender := false |} in
  let! r := mtry (wallet.execute_utility w call
    {| wallet.eu_scope := on_behalf_of; wallet.eu_auth_witnesses := [witness] |}) in
  mok (match r with Ok result => parse_boolean_result (wallet.uer_result result) | _ => false end).

Definition MAP_SLOT_SEP : Z := 4015149901.

Definition approved_actions_slot (on_behalf_of : AztecAddress) (message_hash : Fr) : Fr :=
  let base_slot := Fr_from_u64 2 in
  let intermediate := poseidon2_hash_with_separator [base_slot; on_behalf_of] MAP_SLOT_SEP in
  poseidon2_hash_with_separator [intermediate; message_hash] MAP_SLOT_SEP.

Definition check_public_validity (w : wallet.Wallet W) (on_behalf_of : AztecAddress)
    (message_hash : Fr) : M W bool :=
  let! r := mtry (wallet.get_public_storage_at w protocol_contract_address.auth_registry
                    (approved_actions_slot on_behalf_of message_hash)) in
  mok (match r with Ok value => negb (Fr_is_zero value) | _ => false end).

Definition lookup_validity (w : wallet.Wallet W) (on_behalf_of : AztecAddress)
    (intent : MessageHashOrIntent) (witness : AuthWitness) : M W AuthWitValidity :=
  let! chain_info := wallet.get_chain_info w in
  let both inner_hash consumer :=
    let! is_valid_in_private := check_private_validity w on_behalf_of consumer inner_hash witness in
    let message_hash := compute_auth_wit_message_hash intent chain_info in
    let! is_valid_in_public := check_public_validity w on_behalf_of message_hash in
    mok {| is_valid_in_private := is_valid_in_private; is_valid_in_public := is_valid_in_public |} in
  match intent with
  | Intent caller call => both (compute_inner_auth_wit_hash_from_action caller call) (fc_to call)
  | InnerHash consumer inner_hash => both inner_hash consumer
  | HashOnly hash =>
      let! is_valid_in_public := check_public_validity w on_behalf_of hash in
      mok {| is_valid_in_private := false; is_valid_in_public := is_valid_in_public |}
  end.
End authwit.

(** ** [events.rs] *)

Section events.
Context {W : Type} {FR : PrimeField fr_modulus} {HX : HexCrate} `{JS : JsonCrate}.
Context `{!AztecNode W}.

Record PublicEventMetadata := {
  pem_contract_address : AztecAddress;
  pem_tx_hash : option TxHash;
  pem_block_number : Z;
  pem_log_index : Z;
}.
Record PublicEvent := { pev_event : list (string * Fr); pev_metadata : PublicEventMetadata }.
Record PublicEventFilter := {
  pvf_tx_hash : option TxHash;
  pvf_from_block : option Z;
  pvf_to_block : option Z;
  pvf_contract_address : option AztecAddress;
  pvf_after_log : option LogId;
}.
Record GetPublicEventsResult := { gpe_events : list PublicEvent; gpe_max_logs_hit : bool }.

Definition event_names (event_metadata : wallet.EventMetadataDefinition) : Outcome (list string) :=
  let field_names := wallet.emd_field_names event_metadata in
  match wallet.emd_abi_type event_metadata with
  | AbiType.Struct _ fields =>
      if decide (field_names = []) then Ok (AbiType.p_name <$> fields)
      else if decide (List.length field_names ≠ List.length fields) then
        Err (Abi ("event metadata field name count " +:+ pretty (List.length field_names)
                  +:+ " does not match abi struct field count " +:+ pretty (List.length fields)))
      else Ok field_names
  | _ => Ok field_names
  end.

Definition decode_log_fields (data : list Fr) (event_metadata : wallet.EventMetadataDefinition)
    : Outcome (list (string * Fr)) :=
  match last data with
  | None => Err (Abi "log data is empty")
  | Some selector =>
      if decide (selector ≠ wallet.emd_event_selector event_metadata) then
        Err (Abi ("event selector mismatch: expected "
                  +:+ Fr_to_string (wallet.emd_event_selector event_metadata) +:+ ", got "
                  +:+ Fr_to_string selector))
      else
        let field_data := take (List.length data - 1) data in
        let? names := event_names event_metadata in
        if (List.length field_data <? List.length names)%nat then
          Err (Abi ("not enough fields in log data: expected at least "
                    +:+ pretty (List.length names) +:+ ", got " +:+ pretty (List.length field_data)))
        else Ok (foldl (λ result nf, bt_insert nf.1 nf.2 result) [] (zip names field_data))
  end.

(** One iteration of the loop over the logs. *)
Definition decode_public_log (event_metadata : wallet.EventMetadataDefinition) (log : PublicLog)
    : Outcome (list PublicEvent) :=
  if decide (last (pl_data log) = Some (wallet.emd_event_selector event_metadata)) then
    let? decoded := decode_log_fields (pl_data log) event_metadata in
    Ok [{| pev_event := decoded;
           pev_metadata := {| pem_contract_address := pl_contract_address log;
                              pem_tx_hash := pl_tx_hash log; pem_block_number := pl_block_number log;
                              pem_log_index := pl_log_index log |} |}]
  else Ok [].

Definition get_public_events (event_metadata : wallet.EventMetadataDefinition)
    (filter : PublicEventFilter) : M W GetPublicEventsResult :=
  let! response := get_public_logs
    {| plf_tx_hash := pvf_tx_hash filter; plf_from_block := pvf_from_block filter;
       plf_to_block := pvf_to_block filter; plf_contract_address := pvf_contract_address filter;
       plf_selector := None; plf_after_log := pvf_after_log filter |} in
  let! events := mlift (oconcat (decode_public_log event_metadata) (logs response)) in
  mok {| gpe_events := events; gpe_max_logs_hit := max_logs_hit response |}.
End events.
