(* ===== verification/HashHelper.v ===== *)
(** [crates/core/src/hash.rs], the helper process that hashes in the place of the native
    sponge when the environment asks for it: its command, what is read of its output, and
    that a helper that prints the hash of its arguments is the hash that is then used. *)

From Stdlib Require Import Ascii String.
From S2P Require Import Prelude Bytes Ordered Deps Concrete Types Constants Poseidon AbiTypes Contract.

(** ** Texts: [String::from_utf8] and [str::trim] *)

(** The bytes after the first character, if they begin with a character: its length is that
    of its first byte, its other bytes are continuations, and it is neither longer than it
    has to be, nor a surrogate, nor past the last code point. *)
Definition after_char (bs : list byte) : option (list byte) :=
  let within b lo hi := (lo <=? byte_Z b) && (byte_Z b <=? hi) in
  let tail b := within b 128 191 in
  match bs with
  | [] => None
  | b :: rest =>
      if byte_Z b <? 128 then Some rest
      else if within b 194 223 then
        match rest with c :: rest => if tail c then Some rest else None | _ => None end
      else if within b 224 239 then
        match rest with
        | c :: d :: rest =>
            if within c (if byte_Z b =? 224 then 160 else 128) (if byte_Z b =? 237 then 159 else 191) && tail d
            then Some rest else None
        | _ => None
        end
      else if within b 240 244 then
        match rest with
        | c :: d :: e :: rest =>
            if within c (if byte_Z b =? 240 then 144 else 128) (if byte_Z b =? 244 then 143 else 191)
               && tail d && tail e
            then Some rest else None
        | _ => None
        end
      else None
  end.

(** A character has a byte, so there are no more of them than bytes. *)
Fixpoint utf8_valid (fuel : nat) (bs : list byte) : bool :=
  match bs, fuel with
  | [], _ => true
  | _, O => false
  | _, S fuel => match after_char bs with Some rest => utf8_valid fuel rest | None => false end
  end.

Definition from_utf8 (bs : list byte) : option string :=
  if utf8_valid (length bs) bs then Some (from_bytes bs) else None.

(** The characters that are white space, as they are written. *)
Definition white_spaces : list (list byte) :=
  map Z_byte <$>
    [[9]; [10]; [11]; [12]; [13]; [32]; [194; 133]; [194; 160]; [225; 154; 128];
     [226; 128; 128]; [226; 128; 129]; [226; 128; 130]; [226; 128; 131]; [226; 128; 132];
     [226; 128; 133]; [226; 128; 134]; [226; 128; 135]; [226; 128; 136]; [226; 128; 137];
     [226; 128; 138]; [226; 128; 168]; [226; 128; 169]; [226; 128; 175]; [226; 129; 159];
     [227; 128; 128]].

Fixpoint drop_spaces (fuel : nat) (spaces : list (list byte)) (bs : list byte) : list byte :=
  match fuel, List.find (λ w, bool_decide (take (length w) bs = w)) spaces with
  | S fuel, Some w => drop_spaces fuel spaces (drop (length w) bs)
  | _, _ => bs
  end.

Definition trim (s : string) : string :=
  let bs := drop_spaces (length (as_bytes s)) white_spaces (as_bytes s) in
  from_bytes (reverse (drop_spaces (length bs) (map (@reverse byte) white_spaces) (reverse bs))).

(** ** The helper *)

Section helper.
Context {JS : JsonCrate} {PC : ProcessCrate} {FR : PrimeField fr_modulus} {HX : HexCrate} {P2 : Poseidon2Crate}.

Definition hash_tool (name : string) : option string :=
  let candidates :=
    match env_var "AZTEC_RS_REPO" with
    | Some path => [path_join (path_join path "tools") name]
    | None => []
    end
    ++ match current_dir with
       | Some cwd =>
           [path_join (path_join cwd "tools") name; path_join (path_join cwd "../tools") name;
            path_join (path_join cwd "../../tools") name]
       | None => []
       end in
  List.find path_exists candidates.

(** Whatever goes wrong is a panic. *)
Definition poseidon2_hash_with_bbjs (inputs : list Fr) : Outcome Fr :=
  match hash_tool "poseidon2_hash.mjs" with
  | None => Panic
  | Some script =>
      match command_output "node" (script :: (Fr_to_string <$> inputs)) with
      | inl _ => Panic
      | inr (success, stdout, _) =>
          if negb success then Panic
          else
            match from_utf8 stdout with
            | None => Panic
            | Some value =>
                match Fr_from_hex (trim value) with Ok f => Ok f | _ => Panic end
            end
      end
  end.
End helper.

(** ** A helper that prints its hash *)

Definition graphic (b : byte) : bool := (33 <=? byte_Z b) && (byte_Z b <? 128).
Definition line_feed : byte := Z_byte 10.

Lemma graphic_valid n bs :
  forallb graphic bs = true → (length bs < n)%nat → utf8_valid n (bs ++ [line_feed]) = true.
Proof.
  revert n. induction bs as [|b bs IH]; intros n Hb Hn; (destruct n as [|n]; [cbn in Hn; lia|]).
  - cbn. by destruct n.
  - cbn in Hb, Hn. apply andb_true_iff in Hb as [Hg Hb]. unfold graphic in Hg. cbn [app utf8_valid after_char].
    replace (byte_Z b <? 128) with true by lia. apply IH; [done|lia].
Qed.

Section spaces.
Context (spaces : list (list byte)).
Context (Hs : forallb (λ w, match w with c :: _ => negb (graphic c) | [] => false end) spaces = true).

Lemma drop_no_spaces n b bs : graphic b = true → drop_spaces n spaces (b :: bs) = b :: bs.
Proof using Hs.
  intros Hg. destruct n as [|n]; [done|]. cbn [drop_spaces].
  destruct (List.find _ spaces) as [w|] eqn:E; [|done].
  apply List.find_some in E as [Hw E%bool_decide_eq_true].
  rewrite List.forallb_forall in Hs. specialize (Hs w Hw).
  destruct w as [|c w]; [done|]. injection E as -> _. by rewrite Hg in Hs.
Qed.
End spaces.

Lemma trim_line s :
  s ≠ "" → forallb graphic (as_bytes s) = true → trim (s +:+ from_bytes [line_feed]) = s.
Proof.
  intros Hne Hg. unfold trim. rewrite as_bytes_app, as_from_bytes.
  destruct (as_bytes s) as [|b bs] eqn:E; [by rewrite <- (from_as_bytes s), E in Hne|].
  assert (graphic b = true) as Hb by (cbn in Hg; by apply andb_true_iff in Hg as [? _]).
  cbn [app]. rewrite drop_no_spaces by done. change (b :: bs ++ [line_feed]) with ((b :: bs) ++ [line_feed]).
  rewrite <- E in *. rewrite reverse_app, length_app, Nat.add_comm. cbn [length Nat.add reverse app].
  change (reverse [line_feed] ++ reverse (as_bytes s)) with (line_feed :: reverse (as_bytes s)).
  assert (∀ n, drop_spaces (Datatypes.S n) (map (@reverse byte) white_spaces) (line_feed :: reverse (as_bytes s))
               = drop_spaces n (map (@reverse byte) white_spaces) (reverse (as_bytes s))) as -> by done.
  destruct (reverse (as_bytes s)) as [|c cs] eqn:Er.
  { apply (f_equal reverse) in Er. rewrite reverse_involutive in Er. by rewrite E in Er. }
  rewrite drop_no_spaces; [by rewrite <- Er, reverse_involutive, from_as_bytes|done|].
  rewrite List.forallb_forall in Hg. apply Hg, list_elem_of_In, elem_of_reverse. rewrite Er. by left.
Qed.

Lemma hex_digit_graphic b : is_hex_digit b = true → graphic b = true.
Proof. destruct b as [[] [] [] [] [] [] [] []]; by vm_compute. Qed.

Lemma Fr_text_graphic `{!PrimeField fr_modulus} {HX : HexCrate} (f : Fr) :
  Fr_to_string f ≠ "" ∧ forallb graphic (as_bytes (Fr_to_string f)) = true.
Proof.
  unfold Fr_to_string, encode_field_hex, encode_hex. split; [done|]. rewrite as_bytes_app, forallb_app.
  apply andb_true_iff. split; [done|]. apply List.forallb_forall. intros b Hb. apply hex_digit_graphic.
  destruct (hex_decode_ok _ _ (hex_decode_encode (left_pad 32 (pf_to_bytes_be f)))) as [_ H].
  rewrite List.forallb_forall in H. by apply H.
Qed.

Section native.
Context {JS : JsonCrate} {PC : ProcessCrate} {FR : PrimeField fr_modulus} {HX : HexCrate} {P2 : Poseidon2Crate}.

(** When the tool is found and prints a line with its answer to the inputs, which is what
    [bbjs_poseidon2] stands for, and the environment asks for it, the hash is this answer. *)
Lemma helper_hashes inputs script stderr :
  use_external_poseidon2 = true → hash_tool "poseidon2_hash.mjs" = Some script →
  command_output "node" (script :: (Fr_to_string <$> inputs)) =
    inr (true, as_bytes (Fr_to_string (bbjs_poseidon2 inputs)) ++ [line_feed], stderr) →
  poseidon2_hash_with_bbjs inputs = Ok (poseidon2_hash inputs).
Proof.
  intros He Ht Hc. unfold poseidon2_hash_with_bbjs, poseidon2_hash. rewrite Ht, Hc, He. cbn [negb].
  destruct (Fr_text_graphic (bbjs_poseidon2 inputs)) as [Hne Hg]. unfold from_utf8.
  rewrite graphic_valid by (done || (rewrite length_app; cbn [length]; lia)).
  assert (from_bytes (as_bytes (Fr_to_string (bbjs_poseidon2 inputs)) ++ [line_feed])
          = Fr_to_string (bbjs_poseidon2 inputs) +:+ from_bytes [line_feed]) as ->.
  { apply (inj as_bytes). by rewrite as_bytes_app, !as_from_bytes. }
  by rewrite trim_line, Fr_from_to_string.
Qed.
End native.

Example trims : trim (" 0x12 " +:+ from_bytes [Z_byte 226; Z_byte 128; Z_byte 169; line_feed]) = "0x12".
Proof. reflexivity. Qed.
Example surrogates_are_no_text : from_utf8 [Z_byte 237; Z_byte 160; Z_byte 128] = None.
Proof. reflexivity. Qed.
