(* ===== verification/Account.v ===== *)
(** [crates/account/src/]: the Schnorr and the signerless account, authorisation
    requests, fee payment through an account, the account provider of one account, the
    account manager and account deployment. *)

From Stdlib Require Import Ascii String.
From S2P Require Import Prelude Bytes Ordered Deps Concrete Types Constants Poseidon Grumpkin Crypto AbiTypes AbiCodec KernelTypes Tx Hash Deploy Kv Rpc Node Pxe Entrypoint Wallet Contract.

(** ** [authorization.rs] *)

Section authorization.
Context {FR : PrimeField fr_modulus} {HX : HexCrate} {P2 : Poseidon2Crate}.

Record CallAuthorizationRequest := {
  car_selector : AuthorizationSelector;
  car_inner_hash : Fr;
  car_msg_sender : AztecAddress;
  car_function_selector : FunctionSelector;
  car_args_hash : Fr;
  car_args : list Fr;
}.

Definition CallAuthorizationRequest_selector : AuthorizationSelector :=
  AuthorizationSelector_from_signature "CallAuthorization((Field),(u32),Field)".

Definition invalid_authorization_selector (got : AuthorizationSelector) : Error :=
  InvalidData ("invalid authorization selector for CallAuthorizationRequest: expected "
    +:+ encode_hex CallAuthorizationRequest_selector +:+ ", got " +:+ encode_hex got).

Definition CallAuthorizationRequest_from_fields (fields : list Fr) : Outcome CallAuthorizationRequest :=
  match fields with
  | f0 :: f1 :: f2 :: f3 :: f4 :: args =>
      let selector := AuthorizationSelector_from_field f0 in
      if decide (selector ≠ CallAuthorizationRequest_selector) then
        Err (invalid_authorization_selector selector)
      else
        Ok {| car_selector := selector; car_inner_hash := f1; car_msg_sender := f2;
              car_function_selector := FunctionSelector_from_field f3; car_args_hash := f4;
              car_args := args |}
  | _ => Err (InvalidData "CallAuthorizationRequest requires at least 5 fields")
  end.
End authorization.

(** ** [account.rs]: account contracts *)

Record AccountContract (W : Type) {FR : PrimeField fr_modulus} {JS : JsonCrate} := {
  contract_artifact : M W (ContractArtifact FR JS);
  initialization_function_and_args : M W (option InitializationSpec);
  ac_account : CompleteAddress → Account W;
  auth_witness_provider : CompleteAddress → AuthorizationProvider W;
}.
Arguments contract_artifact {W FR JS} _.
Arguments initialization_function_and_args {W FR JS} _.
Arguments ac_account {W FR JS} _ _.
Arguments auth_witness_provider {W FR JS} _ _.

Section account.
Context {W : Type} {FR : PrimeField fr_modulus} {FQ : PrimeField fq_modulus} {HX : HexCrate}.
Context {P2 : Poseidon2Crate} {HC : HashCrates} {AG : GrumpkinCrate} {JS : JsonCrate}.
Context {JT : JsonText} {B64 : Base64Crate} {AS : AbiSerde} {PC : ProcessCrate} {JM : JsonMake}.
Context `{RW : !RandCrate W}.
Notation ContractArtifact := (ContractArtifact FR JS).

(** ** [schnorr.rs] *)

(** The chain information is copied field by field. *)
Definition resolve_message_hash (intent : MessageHashOrIntent) (chain_info : ChainInfo) : Fr :=
  match intent with
  | HashOnly hash => hash
  | _ => compute_auth_wit_message_hash intent
           {| chain_id := chain_id chain_info; version := version chain_info |}
  end.

Definition schnorr_auth_wit (signing_key : GrumpkinScalar) : AuthorizationProvider W :=
  λ intent chain_info,
    let message_hash := resolve_message_hash intent chain_info in
    let! signature := mlift (schnorr_sign signing_key message_hash) in
    mok {| aw_request_hash := message_hash; aw_fields := SchnorrSignature_to_fields signature |}.

(** The [u8] option of the wallet as the account's option. *)
Definition fee_payment_option (method : Z) : AccountFeePaymentMethodOptions :=
  if method =? 1 then PreexistingFeeJuice
  else if method =? 2 then FeeJuiceWithClaim else External.

Definition schnorr_tx_request (entrypoint : DefaultAccountEntrypoint W) (exec : ExecutionPayload)
    (gas_settings : GasSettings) (chain_info : ChainInfo) (options : EntrypointOptions)
    : M W TxExecutionRequest :=
  let core_chain_info := {| chain_id := chain_id chain_info; version := version chain_info |} in
  let ep_opts :=
    match eo_fee_payment_method options with
    | Some method =>
        {| cancellable := false; do_tx_nonce := None;
           fee_payment_method_options := fee_payment_option method |}
    | None => DefaultAccountEntrypointOptions_default
    end in
  entrypoint_tx_request entrypoint exec gas_settings core_chain_info ep_opts.

Definition schnorr_wrap (entrypoint : DefaultAccountEntrypoint W) (exec : ExecutionPayload)
    (options : EntrypointOptions) : M W ExecutionPayload :=
  entrypoint_wrap entrypoint exec {| chain_id := Fr_from_u64 0; version := Fr_from_u64 0 |}
    DefaultAccountEntrypointOptions_default.

Definition SchnorrAccount (address : CompleteAddress) (signing_key : GrumpkinScalar)
    (entrypoint : DefaultAccountEntrypoint W) : Account W :=
  {| create_auth_wit := schnorr_auth_wit signing_key;
     acc_complete_address := Ok address;
     acc_address := Ok (ca_address address);
     create_tx_execution_request := schnorr_tx_request entrypoint;
     wrap_execution_payload := schnorr_wrap entrypoint |}.

Record SchnorrAccountContract := {
  sac_secret_key : Fr;
  sac_signing_key : GrumpkinScalar;
  sac_signing_public_key : Point;
}.

Definition SchnorrAccountContract_new_with_signing_key (secret_key : Fr) (signing_key : GrumpkinScalar)
    : SchnorrAccountContract :=
  {| sac_secret_key := secret_key; sac_signing_key := signing_key;
     sac_signing_public_key := derive_public_key_from_secret_key signing_key |}.

Definition SchnorrAccountContract_new (secret_key : Fr) : SchnorrAccountContract :=
  let signing_key := derive_signing_key secret_key in
  {| sac_secret_key := secret_key; sac_signing_key := signing_key;
     sac_signing_public_key := derive_public_key_from_secret_key signing_key |}.

Definition constructor_artifact : FunctionArtifact FR JS :=
  {| fa_name := "constructor"; function_type := Private; is_initializer := true;
     fa_is_static := false; is_only_self := None;
     parameters := [param "signing_pub_key_x" AbiType.Field; param "signing_pub_key_y" AbiType.Field];
     return_types := []; error_types := None; fa_selector := None; bytecode := None;
     verification_key_hash := None; verification_key := None; custom_attributes := None;
     is_unconstrained := None; debug_symbols := None |}.

Definition schnorr_artifact : ContractArtifact :=
  {| art_name := "SchnorrAccount"; functions := [constructor_artifact; entrypoint_abi];
     outputs := None; file_map := None; context_inputs_sizes := None |}.

Definition schnorr_initialization (self : SchnorrAccountContract) : InitializationSpec :=
  {| constructor_name := "constructor";
     constructor_args := [AbiValue.Field (pt_x (sac_signing_public_key self));
                          AbiValue.Field (pt_y (sac_signing_public_key self))] |}.

(** [impl AccountContract for SchnorrAccountContract]. *)
Definition schnorr_account (self : SchnorrAccountContract) : AccountContract W :=
  {| contract_artifact := mok schnorr_artifact;
     initialization_function_and_args := mok (Some (schnorr_initialization self));
     ac_account address :=
       let auth := schnorr_auth_wit (sac_signing_key self) in
       SchnorrAccount address (sac_signing_key self)
         {| de_address := ca_address address; de_auth := auth |};
     auth_witness_provider _ := schnorr_auth_wit (sac_signing_key self) |}.

(** ** [signerless.rs] *)

Definition SignerlessAccount : Account W :=
  {| create_auth_wit _ _ := mlift (Err (InvalidData
       "SignerlessAccount does not support authorization witnesses"));
     acc_complete_address := Panic;
     acc_address := Panic;
     create_tx_execution_request exec gas_settings chain_info _ :=
       multi_call_tx_request DefaultMultiCallEntrypoint_new exec gas_settings chain_info;
     wrap_execution_payload exec _ := multi_call_wrap DefaultMultiCallEntrypoint_new exec |}.

(** ** [meta_payment.rs] *)

Definition meta_fee_payer (account : Account W) (inner : option (FeePaymentMethod W))
    : M W AztecAddress :=
  match inner with
  | Some method => get_fee_payer method
  | None => mlift (acc_address account)
  end.

(** The option when none is given: who pays, and whether there is something to claim. *)
Definition meta_fee_option (is_payer : bool) (inner_payload : ExecutionPayload)
    : AccountFeePaymentMethodOptions :=
  if is_payer && bool_decide (ep_calls inner_payload ≠ []) then FeeJuiceWithClaim
  else if is_payer then PreexistingFeeJuice else External.

Definition AccountEntrypointMetaPaymentMethod (account : Account W)
    (inner : option (FeePaymentMethod W))
    (fee_entrypoint_options : option DefaultAccountEntrypointOptions) : FeePaymentMethod W :=
  {| get_asset := match inner with
                  | Some method => get_asset method
                  | None => mok protocol_contract_address.fee_juice end;
     get_fee_payer := meta_fee_payer account inner;
     get_fee_execution_payload :=
       let! inner_payload := match inner with
                             | Some method => get_fee_execution_payload method
                             | None => mok ExecutionPayload_default end in
       let! options :=
         match fee_entrypoint_options with
         | Some opts => mok opts
         | None =>
             let! fee_payer := meta_fee_payer account inner in
             let! address := mlift (acc_address account) in
             let is_payer := bool_decide (fee_payer = address) in
             mok {| cancellable := false; do_tx_nonce := None;
                    fee_payment_method_options := meta_fee_option is_payer inner_payload |}
         end in
       wrap_execution_payload account inner_payload (EntrypointOptions_from options) |}.

(** ** [account.rs]: addresses, the manager and deployment *)

Definition instantiation_params (init_spec : option InitializationSpec) (salt : Fr)
    (public_keys : PublicKeys) : ContractInstantiationParams :=
  {| cip_constructor_name := constructor_name <$> init_spec;
     cip_constructor_args := match init_spec with Some spec => constructor_args spec | None => [] end;
     cip_salt := salt; cip_public_keys := public_keys; cip_deployer := Fr_zero |}.

Definition get_account_contract_address (account_contract : AccountContract W) (secret salt : Fr)
    : M W AztecAddress :=
  let public_keys := dk_public_keys (derive_keys secret) in
  let! init_spec := initialization_function_and_args account_contract in
  let! artifact := contract_artifact account_contract in
  let! instance := mlift (get_contract_instance_from_instantiation_params artifact
                            (instantiation_params init_spec salt public_keys)) in
  mok (instance_address instance).

Record AccountWithSecretKey := {
  aws_account : Account W;
  aws_secret_key : Fr;
  aws_salt : Fr;
}.

(** [impl Account for AccountWithSecretKey] delegates every method. *)
Definition AccountWithSecretKey_account (self : AccountWithSecretKey) : Account W :=
  {| create_auth_wit := create_auth_wit (aws_account self);
     acc_complete_address := acc_complete_address (aws_account self);
     acc_address := acc_address (aws_account self);
     create_tx_execution_request := create_tx_execution_request (aws_account self);
     wrap_execution_payload := wrap_execution_payload (aws_account self) |}.

Record AccountManager := {
  am_wallet : wallet.Wallet W;
  am_secret_key : Fr;
  am_account_contract : AccountContract W;
  am_has_initializer : bool;
  am_instance : ContractInstanceWithAddress;
  am_salt : Fr;
}.

(** The check of the initializer in [create]. *)
Definition check_initializer (artifact : ContractArtifact) (spec : InitializationSpec) : Outcome () :=
  let? initializer := find_function artifact (constructor_name spec) in
  if negb (is_initializer initializer) then
    Err (Abi ("function '" +:+ constructor_name spec +:+ "' in account artifact '"
              +:+ art_name artifact +:+ "' is not marked as an initializer"))
  else
    let expected := List.length (parameters initializer) in
    let actual := List.length (constructor_args spec) in
    if decide (actual ≠ expected) then
      Err (Abi ("initializer '" +:+ constructor_name spec +:+ "' in account artifact '"
                +:+ art_name artifact +:+ "' expects " +:+ pretty expected
                +:+ " argument(s), got " +:+ pretty actual))
    else Ok ().

Definition AccountManager_create (w : wallet.Wallet W) (secret_key : Fr)
    (account_contract : AccountContract W) (salt : option Fr) : M W AccountManager :=
  let! salt := match salt with Some s => mok s | None => Fr_random end in
  let! artifact := contract_artifact account_contract in
  let! init_spec := initialization_function_and_args account_contract in
  let! _ := mlift (match init_spec with Some spec => check_initializer artifact spec | None => Ok () end) in
  let public_keys := dk_public_keys (derive_keys secret_key) in
  let! instance := mlift (get_contract_instance_from_instantiation_params artifact
                            (instantiation_params init_spec salt public_keys)) in
  mok {| am_wallet := w; am_secret_key := secret_key; am_account_contract := account_contract;
         am_has_initializer := bool_decide (is_Some init_spec); am_instance := instance;
         am_salt := salt |}.

Definition manager_complete_address (self : AccountManager) : Outcome CompleteAddress :=
  let public_keys := dk_public_keys (derive_keys (am_secret_key self)) in
  let inner := instance_inner (am_instance self) in
  let salted_init_hash := compute_salted_initialization_hash (ci_salt inner)
                            (ci_initialization_hash inner) (ci_deployer inner) in
  let partial_address := compute_partial_address (ci_original_contract_class_id inner)
                           salted_init_hash in
  let? address := compute_address public_keys partial_address in
  Ok {| ca_address := address; ca_public_keys := public_keys; ca_partial_address := partial_address |}.

Definition manager_account (self : AccountManager) : Outcome AccountWithSecretKey :=
  let? complete_addr := manager_complete_address self in
  Ok {| aws_account := ac_account (am_account_contract self) complete_addr;
        aws_secret_key := am_secret_key self; aws_salt := am_salt self |}.

(** *** [DeployAccountMethod] *)

Record DeployAccountOptions := {
  dao_skip_class_publication : bool;
  dao_skip_instance_publication : bool;
  dao_skip_initialization : bool;
  dao_skip_registration : bool;
  dao_from : option AztecAddress;
  dao_fee : option (FeePaymentMethod W);
  dao_fee_entrypoint_options : option DefaultAccountEntrypointOptions;
}.

Definition DeployAccountOptions_default : DeployAccountOptions :=
  {| dao_skip_class_publication := true; dao_skip_instance_publication := true;
     dao_skip_initialization := false; dao_skip_registration := false; dao_from := None;
     dao_fee := None; dao_fee_entrypoint_options := None |}.

Record DeployAccountMethod := {
  dam_wallet : wallet.Wallet W;
  dam_account : Account W;
  dam_inner : DeployMethod W;
  dam_instance : ContractInstanceWithAddress;
}.

Definition to_deploy_options (self : DeployAccountMethod) (opts : DeployAccountOptions) : DeployOptions :=
  {| contract_address_salt := Some (ci_salt (instance_inner (dam_instance self)));
     skip_class_publication := dao_skip_class_publication opts;
     skip_instance_publication := dao_skip_instance_publication opts;
     skip_initialization := dao_skip_initialization opts;
     skip_registration := dao_skip_registration opts;
     universal_deploy := true; do_from := None |}.

(** The fee payload of a deployment. *)
Definition deploy_fee_payload (self : DeployAccountMethod) (opts : DeployAccountOptions)
    (is_self_deploy : bool) : M W (option ExecutionPayload) :=
  match dao_fee opts, is_self_deploy with
  | Some method, true =>
      let! p := get_fee_execution_payload
        (AccountEntrypointMetaPaymentMethod (dam_account self) (Some method)
           (dao_fee_entrypoint_options opts)) in
      mok (Some p)
  | Some method, false => let! p := get_fee_execution_payload method in mok (Some p)
  | None, true =>
      let! p := get_fee_execution_payload
        (AccountEntrypointMetaPaymentMethod (dam_account self) None
           (Some {| cancellable := false; do_tx_nonce := None;
                    fee_payment_method_options := PreexistingFeeJuice |})) in
      mok (Some p)
  | None, false => mok None
  end.

Definition deploy_account_request (self : DeployAccountMethod) (opts : DeployAccountOptions)
    : M W ExecutionPayload :=
  let! deploy_payload := deploy_request (dam_inner self) (to_deploy_options self opts) in
  let is_self_deploy := bool_decide (dao_from opts = Some Fr_zero) in
  let! fee_payload := deploy_fee_payload self opts is_self_deploy in
  mlift match fee_payload with
  | Some fee => if is_self_deploy then merge [deploy_payload; fee] else merge [fee; deploy_payload]
  | None => Ok deploy_payload
  end.

Definition deploy_account_simulate (self : DeployAccountMethod) (opts : DeployAccountOptions)
    (sim_opts : wallet.SimulateOptions) : M W wallet.TxSimulationResult :=
  let! payload := deploy_account_request self opts in
  wallet.simulate_tx (dam_wallet self) payload sim_opts.

Definition deploy_account_send (self : DeployAccountMethod) (opts : DeployAccountOptions)
    (send_opts : wallet.SendOptions) : M W DeployResult :=
  let! instance := mlift (get_instance (dam_inner self) (to_deploy_options self opts)) in
  let! payload := deploy_account_request self opts in
  let! send_result := wallet.send_tx (dam_wallet self) payload send_opts in
  mok {| dr_send_result := send_result; dr_instance := instance |}.

(** [AccountManager::deploy_method]. *)
Definition deploy_method (self : AccountManager) : M W DeployAccountMethod :=
  let! artifact := contract_artifact (am_account_contract self) in
  let! init_spec := initialization_function_and_args (am_account_contract self) in
  let! complete_addr := mlift (manager_complete_address self) in
  let account := ac_account (am_account_contract self) complete_addr in
  let args := match init_spec with Some spec => constructor_args spec | None => [] end in
  let! deployer := mlift (ContractDeployer_new artifact (am_wallet self)) in
  let deployer := with_public_keys deployer (ci_public_keys (instance_inner (am_instance self))) in
  let deployer := match init_spec with
                  | Some spec => with_constructor_name deployer (constructor_name spec)
                  | None => deployer end in
  let! inner := deployer_deploy deployer args in
  let deploy_opts :=
    {| contract_address_salt := Some (am_salt self); skip_class_publication := false;
       skip_instance_publication := false; skip_initialization := false;
       skip_registration := false; universal_deploy := false; do_from := None |} in
  let! inner_instance := mlift (get_instance inner deploy_opts) in
  mok {| dam_wallet := am_wallet self; dam_account := account; dam_inner := inner;
         dam_instance := inner_instance |}.

(** ** [single_account_provider.rs] *)

Context `{TV : !ToValue TxExecutionRequest}.

Record SingleAccountProvider := {
  sap_complete_address : CompleteAddress;
  sap_account_contract : AccountContract W;
  sap_alias : string;
}.

Definition account_not_found (from : AztecAddress) : Error :=
  InvalidData ("account not found: " +:+ Fr_to_string from).

Definition sap_create_tx_execution_request (self : SingleAccountProvider) (from : AztecAddress)
    (exec : ExecutionPayload) (gas_settings : GasSettings) (chain_info : ChainInfo)
    (fee_payer : option AztecAddress) (fee_payment_method : option Z)
    : M W pxe.TxExecutionRequest :=
  if decide (from ≠ ca_address (sap_complete_address self)) then mlift (Err (account_not_found from))
  else
    let account := ac_account (sap_account_contract self) (sap_complete_address self) in
    let options := {| eo_fee_payer := fee_payer; eo_gas_settings := Some gas_settings;
                      eo_fee_payment_method := fee_payment_method |} in
    let! tx_request := create_tx_execution_request account exec gas_settings chain_info options in
    match to_value tx_request with
    | inr data => mok {| pxe.tr_data := data |}
    | inl e => mlift (Err (InvalidData e))
    end.

Definition sap_create_auth_wit (self : SingleAccountProvider) (from : AztecAddress)
    (intent : MessageHashOrIntent) (chain_info : ChainInfo) : M W AuthWitness :=
  if decide (from ≠ ca_address (sap_complete_address self)) then mlift (Err (account_not_found from))
  else
    let hash := match intent with
                | HashOnly hash => hash
                | _ => compute_auth_wit_message_hash intent chain_info end in
    let account := ac_account (sap_account_contract self) (sap_complete_address self) in
    let! witness := create_auth_wit account (HashOnly hash) chain_info in
    mok {| aw_request_hash := hash; aw_fields := aw_fields witness |}.

Definition single_account_provider (self : SingleAccountProvider) : wallet.AccountProvider W :=
  {| wallet.ap_create_tx_execution_request := sap_create_tx_execution_request self;
     wallet.ap_create_auth_wit := sap_create_auth_wit self;
     wallet.ap_get_complete_address address :=
       mok (if decide (address = ca_address (sap_complete_address self))
            then Some (sap_complete_address self) else None);
     wallet.ap_get_accounts :=
       mok [{| alias := sap_alias self; item := ca_address (sap_complete_address self) |}] |}.
End account.
Arguments AccountManager W {FR JS}.
Arguments DeployAccountMethod W {FR JS}.
Arguments DeployAccountOptions W {FR}.
Arguments SingleAccountProvider W {FR JS}.
