(* ===== verification/AccountSpec.v ===== *)
(** What accounts promise: their witnesses verify under the key that their contract was
    initialised with, and the address that is computed, shown and deployed is one. *)

From Stdlib Require Import Ascii String.
From S2P Require Import Prelude Bytes Ordered Deps Concrete Types Constants Poseidon Grumpkin Crypto AbiTypes AbiCodec KernelTypes Tx Hash Deploy Kv Rpc Node Pxe Entrypoint EntrypointSpec ExampleWorld Wallet Contract Account.

Section spec.
Context {W : Type} {FR : PrimeField fr_modulus} {FQ : PrimeField fq_modulus} {HX : HexCrate}.
Context {P2 : Poseidon2Crate} {HC : HashCrates} {AG : GrumpkinCrate} {JS : JsonCrate}.
Context {JT : JsonText} {B64 : Base64Crate} {AS : AbiSerde} {PC : ProcessCrate} {JM : JsonMake}.
Context `{RW : !RandCrate W}.

(** ** Witnesses *)

(** The bytes that the account contract reads from the fields of a witness. *)
Definition witness_bytes (wit : AuthWitness) : list byte :=
  (λ f, Z_byte (Fr_to_usize f)) <$> aw_fields wit.

(** [wit] is a signature of [hash] under the key with coordinates [key]. *)
Definition signed_by (key : Point) (hash : Fr) (wit : AuthWitness) : Prop :=
  aw_request_hash wit = hash ∧ List.length (aw_fields wit) = 64%nat ∧
  schnorr_verify key hash (SchnorrSignature_from_bytes (witness_bytes wit)) = Ok true.

Lemma byte_field (b : byte) : Z_byte (Fr_to_usize (Fr_from_u64 (byte_Z b))) = b.
Proof.
  pose proof (byte_Z_range b). rewrite Fr_to_usize_val, Fr_val_from_u64 by (unfold in_u; lia).
  rewrite Z.mod_small by lia. apply Z_byte_Z.
Qed.

Lemma resolve_message_hash_eq (intent : MessageHashOrIntent) (chain_info : ChainInfo) :
  resolve_message_hash intent chain_info = compute_auth_wit_message_hash intent chain_info.
Proof. by destruct intent, chain_info. Qed.

Lemma schnorr_auth_wit_signs (signing_key : GrumpkinScalar) (intent : MessageHashOrIntent)
    (chain_info : ChainInfo) (w : W) :
  ∃ wit, schnorr_auth_wit signing_key intent chain_info w = (w, Ok wit) ∧
    signed_by (derive_public_key_from_secret_key signing_key)
      (compute_auth_wit_message_hash intent chain_info) wit.
Proof.
  unfold schnorr_auth_wit. rewrite resolve_message_hash_eq.
  set (hash := compute_auth_wit_message_hash intent chain_info).
  destruct (schnorr_sign_verifies signing_key hash) as (sg & Hs & Hl & Hv).
  eexists. unfold mthen, mlift. rewrite Hs. split; [done|]. split_and!; [done| |].
  - cbn. unfold SchnorrSignature_to_fields. by rewrite length_fmap.
  - assert (witness_bytes {| aw_request_hash := hash; aw_fields := SchnorrSignature_to_fields sg |}
            = SchnorrSignature_to_bytes sg) as ->; [|done].
    unfold witness_bytes, SchnorrSignature_to_fields. cbn. rewrite <- list_fmap_compose.
    rewrite (list_fmap_ext _ id), list_fmap_id; [done|]. intros i b _. apply byte_field.
Qed.

(** The fee option that a request with these options carries. *)
Definition requested_fee_option (options : EntrypointOptions) : AccountFeePaymentMethodOptions :=
  from_option fee_payment_option External (eo_fee_payment_method options).

(** For the provider of a Schnorr account, every account the provider does not
    manage is refused and nothing is signed for it; for its own account and every intent,
    the witness is made without a failure, names the message hash of the intent, and its
    64 fields are the bytes of a signature of that hash that verifies under exactly the
    public key that the account's constructor is called with. *)
Theorem account_witness_verifies (secret : Fr) (signing_key : GrumpkinScalar)
    (address : CompleteAddress) (name : string) (from : AztecAddress)
    (intent : MessageHashOrIntent) (chain_info : ChainInfo) (w : W) :
  let contract := SchnorrAccountContract_new_with_signing_key secret signing_key in
  let provider := {| sap_complete_address := address; sap_account_contract := schnorr_account contract;
                     sap_alias := name |} in
  ∃ key,
    constructor_args (schnorr_initialization contract)
      = [AbiValue.Field (pt_x key); AbiValue.Field (pt_y key)] ∧
    (from ≠ ca_address address →
     sap_create_auth_wit provider from intent chain_info w = (w, Err (account_not_found from))) ∧
    (from = ca_address address →
     ∃ wit, sap_create_auth_wit provider from intent chain_info w = (w, Ok wit) ∧
       signed_by key (compute_auth_wit_message_hash intent chain_info) wit).
Proof.
  intros contract provider. exists (derive_public_key_from_secret_key signing_key).
  split; [done|]. unfold sap_create_auth_wit. split; intros Hf.
  - by rewrite decide_True.
  - rewrite decide_False by (by intros []). subst from.
    set (hash := match intent with HashOnly hash => hash
                 | _ => compute_auth_wit_message_hash intent chain_info end).
    assert (hash = compute_auth_wit_message_hash intent chain_info) as Hh by (by destruct intent).
    destruct (schnorr_auth_wit_signs signing_key (HashOnly hash) chain_info w) as (wit & Hw & Hs).
    exists {| aw_request_hash := hash; aw_fields := aw_fields wit |}.
    change (create_auth_wit (ac_account (sap_account_contract provider) (sap_complete_address provider)))
      with (schnorr_auth_wit signing_key : AuthorizationProvider W).
    unfold mthen. rewrite Hw. split; [done|]. rewrite <- Hh.
    destruct Hs as (? & ? & ?). by split_and!.
Qed.

(** A Schnorr account turns every payload of at most five calls into a request, and
    refuses more: the last witness of the request is a signature, under the key the
    account's constructor is called with, of the hash of the very field elements
    that the request passes to the account's entrypoint. *)
Theorem schnorr_request_signed (secret : Fr) (signing_key : GrumpkinScalar)
    (address : CompleteAddress) (exec : ExecutionPayload) (gas_settings : GasSettings)
    (chain_info : ChainInfo) (options : EntrypointOptions) (w : W) :
  (∀ v : W, ∃ v' f, Fr_random v = (v', Ok f)) →
  let contract := SchnorrAccountContract_new_with_signing_key secret signing_key in
  let account := ac_account (schnorr_account contract) address in
  let request := create_tx_execution_request account exec gas_settings chain_info options w in
  if (5 <? List.length (ep_calls exec))%nat then
    request = (w, Err (too_many_calls (List.length (ep_calls exec))))
  else
    ∃ w' r nonce wit, request = (w', Ok r) ∧
      tr_origin r = ca_address address ∧
      tr_auth_witnesses r = ep_auth_witnesses exec ++ [wit] ∧
      let payload := payload_fields (ep_calls exec) nonce in
      signed_by (sac_signing_public_key contract)
        (poseidon2_hash_with_separator payload domain_separator.SIGNATURE_PAYLOAD) wit ∧
      tr_first_call_args_hash r
      = compute_var_args_hash (payload ++ [Fr_from_u128 (fee_option_discriminant
                                             (requested_fee_option options)); Fr_from_bool false]).
Proof.
  intros Hrand contract account request.
  set (opts := {| cancellable := false; do_tx_nonce := None;
                  fee_payment_method_options := requested_fee_option options |}).
  assert (request = request_spec {| de_address := ca_address address;
                                    de_auth := schnorr_auth_wit signing_key |} exec gas_settings
                      {| chain_id := chain_id chain_info; version := version chain_info |} opts w) as ->.
  { unfold request. cbn. unfold schnorr_tx_request. rewrite entrypoint_request_spec.
    unfold opts, requested_fee_option. by destruct (eo_fee_payment_method options). }
  unfold request_spec. destruct (5 <? _)%nat; [done|]. unfold mthen. cbn [do_tx_nonce opts from_option].
  destruct (Hrand w) as (w1 & nonce & ->). cbn [de_auth].
  destruct (schnorr_auth_wit_signs signing_key
    (HashOnly (poseidon2_hash_with_separator (payload_fields (ep_calls exec) nonce)
                 domain_separator.SIGNATURE_PAYLOAD))
    {| chain_id := chain_id chain_info; version := version chain_info |} w1) as (wit & -> & Hs).
  destruct (Hrand w1) as (w2 & salt & ->).
  eexists w2, _, nonce, wit. by split_and!.
Qed.

(** Fee payment through a Schnorr account: whatever options the caller asks for, the
    wrapped entrypoint call carries the option [External]. *)
Lemma meta_payment_option_lost (signing_key : GrumpkinScalar) (address : CompleteAddress) (secret : Fr)
    (inner : option (FeePaymentMethod W)) (o1 o2 : DefaultAccountEntrypointOptions) (w : W) :
  let account := ac_account (schnorr_account
                   (SchnorrAccountContract_new_with_signing_key secret signing_key)) address in
  get_fee_execution_payload (AccountEntrypointMetaPaymentMethod account inner (Some o1)) w
  = get_fee_execution_payload (AccountEntrypointMetaPaymentMethod account inner (Some o2)) w.
Proof. done. Qed.

Lemma schnorr_wrap_external (entrypoint : DefaultAccountEntrypoint W) (exec : ExecutionPayload)
    (options : EntrypointOptions) (w w' : W) (p : ExecutionPayload) :
  schnorr_wrap entrypoint exec options w = (w', Ok p) →
  ∃ call payload, ep_calls p = [call] ∧
    fc_args call = [payload; AbiValue.Integer (fee_option_discriminant External); AbiValue.Boolean false].
Proof.
  unfold schnorr_wrap, entrypoint_wrap, mthen.
  destruct (build_entrypoint_call_data _ _ _ _ w) as [s [cd|e|]]; [|done..].
  intros [= <- <-]. eexists _, _. by split.
Qed.

(** ** Addresses *)

Lemma native_instance (artifact : ContractArtifact FR JS) (params : ContractInstantiationParams)
    (i : ContractInstanceWithAddress) :
  real_proof_benchmark = false →
  get_contract_instance_from_instantiation_params artifact params = Ok i →
  compute_contract_address_from_instance (instance_inner i) = Ok (instance_address i) ∧
  ci_salt (instance_inner i) = cip_salt params ∧
  ci_public_keys (instance_inner i) = cip_public_keys params ∧
  ci_deployer (instance_inner i) = cip_deployer params.
Proof.
  unfold get_contract_instance_from_instantiation_params. intros -> H.
  apply obind_ok in H as (root & _ & H). apply obind_ok in H as (com & _ & H).
  apply obind_ok in H as (init & _ & H). apply obind_ok in H as (h & _ & H).
  apply obind_ok in H as (a & Ha & [= <-]). by split_and!.
Qed.

(** An account contract that answers the same artifact and initializer each time. *)
Definition answers (account_contract : AccountContract W) (artifact : ContractArtifact FR JS)
    (init_spec : option InitializationSpec) : Prop :=
  ∀ w : W, contract_artifact account_contract w = (w, Ok artifact) ∧
           initialization_function_and_args account_contract w = (w, Ok init_spec).

Lemma created_manager (w : wallet.Wallet W) (secret salt : Fr) (account_contract : AccountContract W)
    (artifact : ContractArtifact FR JS) (init_spec : option InitializationSpec) (s s' : W)
    (m : AccountManager W) :
  answers account_contract artifact init_spec →
  AccountManager_create w secret account_contract (Some salt) s = (s', Ok m) →
  s' = s ∧ am_secret_key m = secret ∧ am_salt m = salt ∧ am_account_contract m = account_contract ∧
  get_contract_instance_from_instantiation_params artifact
    (instantiation_params init_spec salt (dk_public_keys (derive_keys secret)))
  = Ok (am_instance m).
Proof.
  intros Ha. unfold AccountManager_create, mthen. cbn [mok].
  unfold mok. rewrite (proj1 (Ha s)), (proj2 (Ha s)). unfold mlift.
  destruct (match init_spec with Some spec => _ | None => _ end); [|done..].
  destruct (get_contract_instance_from_instantiation_params _ _) eqn:E; [|done..].
  intros [= <- <-]. by split_and!.
Qed.

(** The initializer that a deployment chooses is the one of the specification. *)
Lemma chosen_constructor (artifact : ContractArtifact FR JS) (init_spec : option InitializationSpec)
    (args : list AbiValue) (name : option string) :
  init_spec ≠ None ∨ find_first is_initializer (functions artifact) = None →
  choose_constructor artifact (constructor_name <$> init_spec) args = Ok name →
  name = constructor_name <$> init_spec.
Proof.
  intros Hor. unfold choose_constructor. destruct init_spec as [spec|]; cbn.
  - intros H. apply obind_ok in H as (f & _ & H). destruct (negb _); [done|].
    case_decide; [done|]. by injection H.
  - destruct Hor as [| ->]; [done|]. case_decide; [|done]. by intros [= <-].
Qed.

Lemma deployer_deploy_ok (d : ContractDeployer W) (args : list AbiValue) (t t' : W) (dm : DeployMethod W) :
  deployer_deploy d args t = (t', Ok dm) →
  dm_artifact dm = cd_artifact d ∧ dm_args dm = args ∧ dm_public_keys dm = cd_public_keys d ∧
  choose_constructor (cd_artifact d) (cd_constructor_name d) args = Ok (dm_constructor_name dm).
Proof.
  unfold deployer_deploy, mthen, mlift.
  destruct (choose_constructor _ _ _) as [n|e|]; [|done..].
  destruct (Fr_random t) as [t1 [f|e|]]; [|done..]. intros [= <- <-]. by split_and!.
Qed.

Lemma named_deployer (artifact : ContractArtifact FR JS) (w : wallet.Wallet W) (d0 : ContractDeployer W)
    (init_spec : option InitializationSpec) (keys : PublicKeys) :
  ContractDeployer_new artifact w = Ok d0 →
  let d := with_public_keys d0 keys in
  let d := match init_spec with
           | Some spec => with_constructor_name d (constructor_name spec) | None => d end in
  cd_artifact d = artifact ∧ cd_public_keys d = keys ∧
  cd_constructor_name d = constructor_name <$> init_spec.
Proof. intros H. apply obind_ok in H as (k & _ & [= <-]). by destruct init_spec. Qed.

End spec.

(** ** Examples *)

Import Concrete.Instances.
#[local] Existing Instance concrete_json.

#[local] Existing Instance example_json_make.
#[local] Instance example_abi_serde : AbiSerde := {| return_types_value _ := Ok TNull |}.
#[local] Instance example_process : ProcessCrate :=
  {| current_dir := None; path_join := String.append; path_exists _ := false;
     command_output _ _ := inl EmptyString; from_utf8_lossy := from_bytes;
     json_from_slice bs := Ok (JString (from_bytes bs)) |}.
#[local] Instance example_rand : RandCrate wallet.MockWallet := {| rand_fr s := (s, Ok Fr_one) |}.

Definition example_contract : SchnorrAccountContract := SchnorrAccountContract_new Fr_one.
Definition example_chain : ChainInfo := {| chain_id := Fr_one; version := Fr_zero |}.
Definition example_wallet : wallet.MockWallet := wallet.MockWallet_new example_chain.

Lemma ok_result {S A} (p : S * Outcome A) : is_ok p.2 = true → ∃ s a, p = (s, Ok a).
Proof. destruct p as [s [a|e|]]; [|done..]. by exists s, a. Qed.

Lemma example_manager_created :
  ∃ s m, AccountManager_create wallet.mock_wallet Fr_one (schnorr_account example_contract)
           (Some Fr_one) example_wallet = (s, Ok m).
Proof. apply ok_result. vm_compute. reflexivity. Qed.

Definition example_address : CompleteAddress :=
  {| ca_address := Fr_one; ca_public_keys := dk_public_keys (derive_keys Fr_one);
     ca_partial_address := Fr_zero |}.
Definition example_account : Account wallet.MockWallet :=
  ac_account (schnorr_account (SchnorrAccountContract_new_with_signing_key Fr_one (Fq_from_u64 5)))
    example_address.

Lemma account_witness_verifies_witness :
  ∃ key wit, sap_create_auth_wit
      {| sap_complete_address := example_address;
         sap_account_contract :=
           schnorr_account (SchnorrAccountContract_new_with_signing_key Fr_one (Fq_from_u64 5));
         sap_alias := EmptyString |} Fr_one (InnerHash Fr_one Fr_zero) example_chain example_wallet
    = (example_wallet, Ok wit) ∧
    signed_by key (compute_auth_wit_message_hash (InnerHash Fr_one Fr_zero) example_chain) wit.
Proof.
  destruct (account_witness_verifies Fr_one (Fq_from_u64 5) example_address EmptyString Fr_one
    (InnerHash Fr_one Fr_zero) example_chain example_wallet) as (key & _ & _ & H).
  exists key. apply H. reflexivity.
Defined.

Lemma schnorr_request_signed_witness :
  ∃ w' r, create_tx_execution_request example_account ExecutionPayload_default GasSettings_default
      example_chain {| eo_fee_payer := None; eo_gas_settings := None; eo_fee_payment_method := Some 2 |}
      example_wallet = (w', Ok r) ∧ tr_origin r = Fr_one.
Proof.
  destruct (schnorr_request_signed Fr_one (Fq_from_u64 5) example_address ExecutionPayload_default
    GasSettings_default example_chain
    {| eo_fee_payer := None; eo_gas_settings := None; eo_fee_payment_method := Some 2 |} example_wallet)
    as (w' & r & _ & _ & H & Ho & _).
  - intros v. by exists v, Fr_one.
  - exists w', r. by split.
Defined.

