(* ===== verification/AuthSpec.v ===== *)
(** The signatures of a request between the account that makes them and the PXE that checks
    them. *)

From Stdlib Require Import Ascii String.
From S2P Require Import Prelude Bytes Ordered Deps Concrete Types Constants Poseidon Grumpkin Crypto AbiTypes AbiCodec KernelTypes Tx Hash Deploy Kv Rpc Node LocalStores NoteStore AcvmExecutor ExecutorSpec Pxe Entrypoint EntrypointSpec OracleCommon ExampleWorld Wallet Contract Account AccountSpec PxeExecution.

Section check.
Context {W : Type} {FR : PrimeField fr_modulus} {FQ : PrimeField fq_modulus} {HX : HexCrate}.
Context {AC : AcirCrate} {P2 : Poseidon2Crate} {HC : HashCrates} {AG : GrumpkinCrate} {B64 : Base64Crate}.
Context `{JT : JsonText} {AS : AbiSerde} {PC : ProcessCrate} {JM : JsonMake} `{KV : KvStore W} `{RW : !RandCrate W}.
Context {SN : SerdeJson StoredNote} {SL : SerdeJson (list string)} {FA : FromValue (list AuthWitness)}.

(** A witness of 64 fields is a signature of its hash under [pk]; others are not checked. *)
Definition accepted (pk : Point) (aw : AuthWitness) : Prop :=
  length (aw_fields aw) = 64%nat →
  schnorr_verify pk (aw_request_hash aw) (SchnorrSignature_from_bytes (witness_bytes aw)) = Ok true.

Lemma signature_bytes (aw : AuthWitness) :
  (λ f, Z_byte (wrap 8 (Fr_to_usize f))) <$> aw_fields aw = witness_bytes aw.
Proof.
  apply list_fmap_ext. intros _ f _. unfold Z_byte, wrap. by rewrite Z.mod_mod.
Qed.

Lemma verify_witness_exact pk aw : verify_witness pk aw = Ok () ↔ accepted pk aw.
Proof.
  unfold verify_witness, accepted. destruct (Nat.eqb_spec (length (aw_fields aw)) 64) as [E|E]; [|done].
  rewrite signature_bytes. destruct (schnorr_verify _ _ _) as [[]|e|]; simpl; split; try done.
  all: intros H; specialize (H E); discriminate H.
Qed.

Lemma for_each_checks {A : Type} (f : A → Outcome ()) (l : list A) (w : W) :
  for_each (λ a, mlift (f a)) l w = (w, Ok ()) ↔ Forall (λ a, f a = Ok ()) l.
Proof.
  induction l as [|a l IH]; simpl; [done|]. unfold mthen, mlift at 1. rewrite Forall_cons, <- IH.
  destruct (f a) as [[]|e|]; split; try (by intros [? _]); try done; by intros [_ ?].
Qed.

(** C13: the PXE accepts the signatures of a request exactly when they verify. With a
    signing key note at the account, its witnesses are accepted if and only if each one
    that has the length of a signature is one of its own hash under that key; and every
    witness that a Schnorr account with this key makes, for whatever intent, is accepted. *)
Theorem witness_check_exact (tx_request : pxe.TxExecutionRequest) (origin : AztecAddress) (w w1 : W)
    (notes : list StoredNote) (pk : Point) (ws : list AuthWitness) :
  request_auth_witnesses tx_request = Some ws →
  ws ≠ [] →
  NoteStore.get_notes_by_slot origin (Fr_from_u64 1) w = (w1, Ok notes) →
  signing_key notes = Some pk →
  (verify_auth_witness_signatures tx_request origin w = (w1, Ok ()) ↔ Forall (accepted pk) ws) ∧
  (∀ (key : GrumpkinScalar) intent chain_info wit (v : W), derive_public_key_from_secret_key key = pk →
     schnorr_auth_wit key intent chain_info v = (v, Ok wit) → accepted pk wit).
Proof.
  intros Hws Hne Hn Hk. split.
  - unfold verify_auth_witness_signatures. rewrite Hws. cbn [default].
    destruct (decide _) as [E|_]; [by destruct ws|]. unfold mthen, mtry. rewrite Hn. cbn. rewrite Hk.
    rewrite for_each_checks. apply Forall_proper; [|done]. intros aw. apply verify_witness_exact.
  - intros key intent chain_info wit v <- E _.
    destruct (schnorr_auth_wit_signs key intent chain_info v) as (wit' & E' & Hh & _ & Hv).
    rewrite E in E'. injection E' as <-. by rewrite Hh.
Qed.
End check.

(** ** An example: an account with the key 5 *)

Import Concrete.Instances ExampleWorld.Instances.
#[local] Instance nothing_abi : AbiSerde := {| return_types_value _ := Ok TNull |}.

Definition example_key : Point := derive_public_key_from_secret_key (Fq_from_u64 5).
Definition example_key_note : StoredNote :=
  {| sn_contract_address := Fr_one; sn_owner := Fr_one; sn_storage_slot := Fr_from_u64 1;
     sn_randomness := Fr_zero; sn_note_nonce := Fr_one; sn_note_hash := Fr_one;
     sn_siloed_nullifier := Fr_from_u64 9; sn_note_data := [pt_x example_key; pt_y example_key];
     sn_nullified := false; sn_is_pending := false; sn_nullification_block_number := None;
     sn_leaf_index := None; sn_block_number := None; sn_tx_index_in_block := None;
     sn_note_index_in_tx := None; sn_scopes := [] |}.
Definition example_key_store : InMemoryKvStore :=
  (NoteStore.add_notes [example_key_note] Fr_one InMemoryKvStore_new).1.
Definition example_witness : AuthWitness :=
  default {| aw_request_hash := Fr_zero; aw_fields := [] |}
    (ok_opt (schnorr_auth_wit (Fq_from_u64 5) (HashOnly (Fr_from_u64 3))
               {| chain_id := Fr_one; version := Fr_one |} InMemoryKvStore_new).2).
#[local] Instance one_witness : FromValue (list AuthWitness) := {| from_value _ := Ok [example_witness] |}.
Definition witnessed_request : pxe.TxExecutionRequest :=
  {| pxe.tr_data := JObject [("authWitnesses", JNull)] |}.
Definition example_notes : list StoredNote :=
  default [] (ok_opt (NoteStore.get_notes_by_slot Fr_one (Fr_from_u64 1) example_key_store).2).

Lemma example_notes_found :
  ∃ w1, NoteStore.get_notes_by_slot Fr_one (Fr_from_u64 1) example_key_store = (w1, Ok example_notes).
Proof.
  assert (is_ok (NoteStore.get_notes_by_slot Fr_one (Fr_from_u64 1) example_key_store).2 = true) as E
    by (vm_compute; reflexivity).
  unfold example_notes. destruct (NoteStore.get_notes_by_slot _ _ _) as [w1 [l|e|]]; [by exists w1|discriminate E..].
Qed.

Lemma example_key_found : signing_key example_notes = Some example_key.
Proof. apply (bool_decide_unpack _). vm_compute. exact I. Qed.

Lemma example_witnesses : request_auth_witnesses witnessed_request = Some [example_witness].
Proof. reflexivity. Qed.

Lemma witness_check_exact_witness :
  ∃ w1, verify_auth_witness_signatures witnessed_request Fr_one example_key_store = (w1, Ok ()).
Proof.
  destruct example_notes_found as [w1 En]. exists w1.
  destruct (witness_check_exact witnessed_request Fr_one example_key_store w1 example_notes example_key
    [example_witness] example_witnesses ltac:(discriminate) En example_key_found) as [Hiff Hmade].
  apply Hiff. apply Forall_cons_2; [|constructor].
  destruct (schnorr_auth_wit_signs (Fq_from_u64 5) (HashOnly (Fr_from_u64 3))
    {| chain_id := Fr_one; version := Fr_one |} InMemoryKvStore_new) as (wit & E & _).
  apply (Hmade (Fq_from_u64 5) (HashOnly (Fr_from_u64 3)) {| chain_id := Fr_one; version := Fr_one |} _
    InMemoryKvStore_new eq_refl). unfold example_witness. by rewrite E.
Defined.
