(* ===== verification/Messaging.v ===== *)
(** [crates/ethereum/src/messaging.rs] and [cross_chain.rs]: the messages between Ethereum
    and Aztec, the claims of bridged tokens, and waiting until a message can be consumed. *)

From Stdlib Require Import Ascii String.
From S2P Require Import Prelude Bytes Ordered Deps Concrete Types Constants Poseidon Merkle Tx Kv Rpc Node Entrypoint.

(** ** Messages *)

Section messaging.
Context {FR : PrimeField fr_modulus}.

Record L1Actor := { la_sender : EthAddress; la_chain_id : Z }.

Definition L1Actor_new (sender : EthAddress) (chain_id : Z) : L1Actor :=
  {| la_sender := sender; la_chain_id := chain_id |}.
Definition L1Actor_empty : L1Actor :=
  {| la_sender := replicate 20 zero_byte; la_chain_id := 0 |}.

(** The twenty bytes of the sender at the end of 32. *)
Definition L1Actor_to_fields (self : L1Actor) : list Fr :=
  [Fr_from_bytes32 (replicate 12 zero_byte ++ la_sender self); Fr_from_u64 (la_chain_id self)].

Record L2Actor := { l2a_recipient : AztecAddress; l2a_version : Z }.

Definition L2Actor_new (recipient : AztecAddress) (version : Z) : L2Actor :=
  {| l2a_recipient := recipient; l2a_version := version |}.
Definition L2Actor_empty : L2Actor := {| l2a_recipient := AztecAddress_zero; l2a_version := 0 |}.

Definition L2Actor_to_fields (self : L2Actor) : list Fr :=
  [l2a_recipient self; Fr_from_u64 (l2a_version self)].

Record L1ToL2Message := {
  lm_sender : L1Actor;
  lm_recipient : L2Actor;
  lm_content : Fr;
  lm_secret_hash : Fr;
  lm_index : Fr;
}.

Definition L1ToL2Message_new (sender : L1Actor) (recipient : L2Actor) (content secret_hash index : Fr)
    : L1ToL2Message :=
  {| lm_sender := sender; lm_recipient := recipient; lm_content := content;
     lm_secret_hash := secret_hash; lm_index := index |}.
Definition L1ToL2Message_empty : L1ToL2Message :=
  {| lm_sender := L1Actor_empty; lm_recipient := L2Actor_empty; lm_content := Fr_zero;
     lm_secret_hash := Fr_zero; lm_index := Fr_zero |}.

(** The index is not among them. *)
Definition L1ToL2Message_to_fields (self : L1ToL2Message) : list Fr :=
  L1Actor_to_fields (lm_sender self) ++ L2Actor_to_fields (lm_recipient self)
  ++ [lm_content self; lm_secret_hash self].

Definition L1ToL2Message_hash {HC : HashCrates} (self : L1ToL2Message) : Fr :=
  sha256_to_field (mjoin (Fr_to_be_bytes <$> L1ToL2Message_to_fields self)).

(** ** Claims *)

Record L2Claim := {
  lc_claim_secret : Fr;
  claim_secret_hash : Fr;
  lc_message_hash : Fr;
  lc_message_leaf_index : Z;
}.
Record L2AmountClaim := { lc_claim : L2Claim; lc_claim_amount : Z }.
Record L2AmountClaimWithRecipient := { amount_claim : L2AmountClaim; lc_recipient : AztecAddress }.

Definition generate_claim_secret {P2 : Poseidon2Crate} {W : Type} `{RW : !RandCrate W} : M W (Fr * Fr) :=
  let! secret := Fr_random in
  mok (secret, compute_secret_hash secret).
End messaging.

(** ** [cross_chain.rs] *)

Section cross_chain.
Context {W : Type} {FR : PrimeField fr_modulus} {HX : HexCrate} `{JS : JsonCrate}.
Context `{AN : !AztecNode W} `{CL : !Clock W}.

(** The number compared with the checkpoint of the message is the latest block's own. *)
Definition is_l1_to_l2_message_ready (l1_to_l2_message_hash : Fr) : M W bool :=
  let! checkpoint := get_l1_to_l2_message_checkpoint l1_to_l2_message_hash in
  match checkpoint with
  | None => mok false
  | Some msg_checkpoint =>
      let! block_number := get_block_number in
      if block_number =? 0 then mok false
      else
        let! block := get_block block_number in
        match block with
        | None => mok false
        | Some block_json =>
            let block_checkpoint :=
              default 0 (json_pointer block_json "/header/globalVariables/blockNumber" ≫= json_as_u64) in
            mok (msg_checkpoint <=? block_checkpoint)
        end
  end.

Definition message_not_ready (l1_to_l2_message_hash : Fr) (timeout : Z) : Error :=
  Timeout ("L1-to-L2 message " +:+ Fr_to_string l1_to_l2_message_hash +:+ " not ready within "
           +:+ Duration_debug timeout).

Definition message_ready_body (l1_to_l2_message_hash : Fr) (timeout start : Z) : M W (option ()) :=
  let! ready := is_l1_to_l2_message_ready l1_to_l2_message_hash in
  if (ready : bool) then mok (Some ())
  else
    let! t := now in
    if timeout <=? Z.max 0 (t - start) then mlift (Err (message_not_ready l1_to_l2_message_hash timeout))
    else sleep (from_secs 1) ;;! mok None.

Definition wait_for_l1_to_l2_message_ready (fuel : nat) (l1_to_l2_message_hash : Fr) (timeout : Z)
    : M W (option ()) :=
  let! start := now in
  mloop fuel (message_ready_body l1_to_l2_message_hash timeout start).
End cross_chain.
