(* ===== verification/BaseWallet.v ===== *)
(** [crates/wallet/src/base_wallet.rs]: the wallet over a PXE, a node and an account
    provider.  The world carries the PXE, the node and the clock.  A method that waits
    answers [None] when its fuel is spent, which [base_wallet] takes for a panic;
    [BaseWalletSpec.v] shows that [wallet_fuel] is never spent. *)

From Stdlib Require Import Ascii String.
From S2P Require Import Prelude Bytes Ordered Deps Concrete Types Constants Poseidon AbiTypes KernelTypes Tx Hash Kv Rpc Node Pxe Wallet Contract.

(** [impl Display for serde_json::Value]: the compact text, members in the map's order. *)
Fixpoint json_display `{JT : JsonText} (value : JsonTree) : string :=
  match value with
  | TNull => "null"
  | TBool boolean => if boolean then "true" else "false"
  | TNumber number => number
  | TString s => json_quote s
  | TArray items => "[" +:+ join "," (json_display <$> items) +:+ "]"
  | TObject map =>
      "{" +:+ join "," ((λ kv, json_quote kv.1 +:+ ":" +:+ json_display kv.2) <$> map) +:+ "}"
  end.

Definition from_millis (ms : Z) : Z := ms * 1000000.

Definition fueled {W A : Type} (m : M W (option A)) : M W A :=
  let! r := m in match r with Some a => mok a | None => mlift Panic end.

Definition wallet_fuel : nat := 602.

Section base_wallet.
Context {W : Type} {FR : PrimeField fr_modulus} {P2 : Poseidon2Crate} `{HX : HexCrate}.
Context {JS : JsonCrate} {JT : JsonText} {JM : JsonMake}.
Context `{!Pxe W, !AztecNode W, !Clock W} `{!ToValue NodeTx, !ToValue Fr, !ToValue (list Fr)}.
Context (accounts : wallet.AccountProvider W).

(** ** Assertion messages *)

Definition decode_assertion_message_from_error_types (error_types : json_value)
    (selector_key : string) : option string :=
  json_get error_types selector_key ≫= λ entry,
    match json_get entry "error_kind" ≫= json_as_str with
    | Some kind =>
        if String.eqb kind "string" || String.eqb kind "fmtstring"
        then json_get entry "string" ≫= json_as_str else None
    | None => None
    end.

Definition known_protocol_assertion_message (contract_address : AztecAddress) (selector_key : string)
    : option string :=
  if bool_decide (contract_address = protocol_contract_address.auth_registry)
     && String.eqb selector_key "17089945683942782951"
  then Some "unauthorized"%string else None.

Definition known_assertion_message_by_selector (selector_key : string) : option string :=
  if String.eqb selector_key "17089945683942782951" then Some "unauthorized"%string
  else if String.eqb selector_key "7136484461999155778" then
    Some "Invalid authwit nonce. When 'from' and 'msg_sender' are the same, 'authwit_nonce' must be zero"%string
  else if String.eqb selector_key "1998584279744703196" then
    Some "attempt to subtract with overflow"%string
  else None.

Definition error_selector_key_from_hex (selector_hex : string) : option string :=
  pretty <$> parse_hex_u128 (default selector_hex (strip_prefix "0x" selector_hex)).

(** The instance and the artifact that the PXE has for an address. *)
Definition registered_artifact (address : AztecAddress) : M W (option (ContractArtifact FR JS)) :=
  let! instance := pxe.get_contract_instance address in
  match instance with
  | None => mok None
  | Some instance =>
      pxe.get_contract_artifact (ci_current_contract_class_id (instance_inner instance))
  end.

Definition public_function_error_types (contract_address : AztecAddress)
    (function_selector : FunctionSelector) : M W (option json_value) :=
  let! artifact := registered_artifact contract_address in
  mok (artifact ≫= λ a, find_function_by_selector a function_selector ≫= error_types).

(** The first message that a function of the artifact gives. *)
Fixpoint first_message (selector_key : string) (fs : list (FunctionArtifact FR JS)) : option string :=
  match fs with
  | [] => None
  | f :: fs' =>
      match error_types f ≫= λ t, decode_assertion_message_from_error_types t selector_key with
      | Some message => Some message
      | None => first_message selector_key fs'
      end
  end.

Fixpoint find_message (selector_key : string) (addresses : list AztecAddress)
    : M W (option string) :=
  match addresses with
  | [] => mok None
  | address :: addresses' =>
      let! artifact := registered_artifact address in
      match artifact ≫= λ a, first_message selector_key (functions a) with
      | Some message => mok (Some message)
      | None => find_message selector_key addresses'
      end
  end.

Definition find_registered_error_message_by_selector (selector_key : string) : M W (option string) :=
  let! addresses := pxe.get_contracts in find_message selector_key addresses.

(** What a revert reason says: the selector, the failing contract and its function. *)
Definition revert_selector_key (revert_reason : json_value) : option string :=
  ((((json_get revert_reason "revertData") ≫= json_as_array) ≫= head) ≫= json_as_str)
    ≫= error_selector_key_from_hex.

Definition failing_function (revert_reason : json_value) : option (AztecAddress * FunctionSelector) :=
  (((json_get revert_reason "functionErrorStack") ≫= json_as_array) ≫= last) ≫= λ f,
    (json_get f "contractAddress" ≫= json_as_str) ≫= λ a,
    match Fr_from_hex a with
    | Ok contract_address =>
        (json_get f "functionSelector" ≫= json_as_str) ≫= λ s,
        match FunctionSelector_from_hex s with
        | Ok function_selector => Some (contract_address, function_selector)
        | _ => None
        end
    | _ => None
    end.

Definition assertion_failed (message : string) : string := "Assertion failed: " +:+ message.

Definition decode_public_assertion_message (revert_reason : json_value) : M W (option string) :=
  match revert_selector_key revert_reason, failing_function revert_reason with
  | Some selector_key, Some (contract_address, function_selector) =>
      let! types := mtry (public_function_error_types contract_address function_selector) in
      match (match types with
             | Ok (Some t) => decode_assertion_message_from_error_types t selector_key
             | _ => None end) with
      | Some message => mok (Some (assertion_failed message))
      | None =>
          let! found := mtry (find_registered_error_message_by_selector selector_key) in
          match found with
          | Ok (Some message) => mok (Some (assertion_failed message))
          | _ =>
              mok (assertion_failed <$>
                match known_protocol_assertion_message contract_address selector_key with
                | Some message => Some message
                | None => known_assertion_message_by_selector selector_key
                end)
          end
      end
  | _, _ => mok None
  end.

(** ** Payloads and scopes *)

Definition merge_execution_payload (exec : ExecutionPayload) (auth_witnesses : list AuthWitness)
    (capsules : list Capsule) : ExecutionPayload :=
  {| ep_calls := ep_calls exec; ep_auth_witnesses := ep_auth_witnesses exec ++ auth_witnesses;
     ep_capsules := ep_capsules exec ++ capsules;
     ep_extra_hashed_args := ep_extra_hashed_args exec; ep_fee_payer := ep_fee_payer exec |}.

(** The five updates when the options carry a fee payload. *)
Definition with_fee_payload (exec : ExecutionPayload) (fee : option ExecutionPayload)
    : ExecutionPayload :=
  match fee with
  | Some fee_payload =>
      {| ep_calls := ep_calls exec ++ ep_calls fee_payload;
         ep_auth_witnesses := ep_auth_witnesses exec ++ ep_auth_witnesses fee_payload;
         ep_capsules := ep_capsules exec ++ ep_capsules fee_payload;
         ep_extra_hashed_args := ep_extra_hashed_args exec ++ ep_extra_hashed_args fee_payload;
         ep_fee_payer := match ep_fee_payer fee_payload with
                         | Some payer => Some payer | None => ep_fee_payer exec end |}
  | None => exec
  end.

Definition build_scopes (from : AztecAddress) (additional : list AztecAddress) : list AztecAddress :=
  if bool_decide (from ≠ Fr_zero) && negb (bool_decide (from ∈ additional))
  then additional ++ [from] else additional.

Definition has_no_private_return_values (result : json_value) : bool :=
  let is_empty (v : option json_value) :=
    match v ≫= json_as_array with Some arr => bool_decide (List.length arr = 0%nat) | None => false end in
  match json_get result "returnValues" with
  | Some v =>
      match json_as_array v with
      | Some arr => bool_decide (List.length arr = 0%nat)
      | None => is_empty (json_get v "returnValues")
      end
  | None => false
  end.

(** ** Waiting *)

(** One round of the poll for a new block; the second component of the world is [next_log]. *)
Definition checkpoint_body (hash : TxHash) (start_block deadline : Z) : M (W * Z) (option ()) :=
  let! answer := in_fst (mtry (get_tx_receipt hash)) in
  let! _ :=
    match answer with
    | Panic => mlift Panic
    | _ =>
        let! t := in_fst now in
        let! next_log := in_snd (λ n, (n, n)) in
        if next_log <=? t then
          let! t' := in_fst now in
          let! next := mlift (instant_add W t' (from_secs 2)) in
          in_snd (λ _, (next, ()))
        else mok ()
    end in
  let! current_block := in_fst get_block_number in
  if start_block <? current_block then mok (Some ())
  else
    let! t := in_fst now in
    if deadline <=? t then
      mlift (Err (Timeout "transaction was submitted but did not become checkpoint-visible"))
    else in_fst (sleep (from_millis 500)) ;;! mok None.

(** Run on a world with an extra component [c], which is dropped at the end. *)
Definition with_component {S A : Type} (c : S) (m : M (W * S) A) : M W A := λ w,
  let '((w', _), r) := m (w, c) in (w', r).

Definition world_state_body (nullifier : Fr) (deadline : Z) : M W (option ()) :=
  let! answer := mtry (get_nullifier_membership_witness 0 nullifier) in
  match answer with
  | Panic => mlift Panic
  | Ok (Some _) => mok (Some ())
  | _ =>
      let! t := now in
      if deadline <=? t then mok (Some ()) else sleep (from_millis 200) ;;! mok None
  end.

Definition wait_for_world_state (fuel : nat) (hash : TxHash) : M W (option ()) :=
  let! answer := mtry (get_tx_effect hash) in
  match answer with
  | Panic => mlift Panic
  | Ok (Some effect) =>
      let first_nullifier :=
        (json_pointer effect "/data/nullifiers/0" ≫= json_as_str) ≫= λ s,
          match Fr_from_hex s with Ok f => Some f | _ => None end in
      match first_nullifier with
      | None => sleep (from_secs 1) ;;! mok (Some ())
      | Some nullifier =>
          let! t := now in
          let! deadline := mlift (instant_add W t (from_secs 15)) in
          mloop fuel (world_state_body nullifier deadline)
      end
  | _ => sleep (from_secs 1) ;;! mok (Some ())
  end.

Definition submission_wait_opts : WaitOpts :=
  {| wo_timeout := from_secs 15; wo_interval := wo_interval WaitOpts_default;
     wait_for_status := wait_for_status WaitOpts_default;
     dont_throw_on_revert := dont_throw_on_revert WaitOpts_default;
     ignore_dropped_receipts_for := ignore_dropped_receipts_for WaitOpts_default |}.

Definition wait_for_submission_checkpoint (fuel : nat) (hash : TxHash) : M W (option ()) :=
  let! block := mtry get_block_number in
  let! start_block := match block with
                      | Ok b => mok b | Err _ => mok 0 | Panic => mlift Panic end in
  let! waited := mtry (wait_for_tx fuel hash submission_wait_opts) in
  let?! _ :=
    match waited with
    | Ok (Some _) => mok (Some ())
    | Ok None => mok None
    | Err (Timeout _) | Err (InvalidData _) =>
        let! t := now in
        let! deadline := mlift (instant_add W t (from_secs 30)) in
        let! next_log := now in
        with_component next_log (mloop fuel (checkpoint_body hash start_block deadline))
    | Err err => mlift (Err err)
    | Panic => mlift Panic
    end in
  wait_for_world_state fuel hash.

(** ** Preflight *)

Definition display_value (v : json_value) : string := json_display (json_tree v).

(** [Self::simulate_public_calls]. *)
Definition wallet_simulate_public_calls (hash : TxHash) (tx_json : json_value) : M W json_value :=
  let! simulation := simulate_public_calls tx_json false in
  match json_get simulation "revertReason" with
  | Some revert_reason =>
      if json_is_null revert_reason then mok simulation
      else
        let debug_logs := match json_get simulation "debugLogs" with
                          | Some logs => display_value logs | None => "null"%string end in
        let! decoded_assertion := decode_public_assertion_message revert_reason in
        let decoded_prefix := match decoded_assertion with
                              | Some message => message +:+ " " | None => ""%string end in
        mlift (Err (InvalidData ("node public-call preflight for tx " +:+ TxHash_to_string hash
          +:+ " reverted: " +:+ decoded_prefix +:+ "reason=" +:+ display_value revert_reason
          +:+ " debugLogs=" +:+ debug_logs)))
  | None => mok simulation
  end.

Definition should_ignore_public_preflight_error (err : Error) : bool :=
  match err with InvalidData msg => contains "is not deployed" msg | _ => false end.

Definition is_anchor_header_validation_lag (result : TxValidationResult) : bool :=
  match result with
  | Invalid reason => existsb (contains "Block header not found") reason
  | _ => false
  end.

Definition validate_body (tx_json : json_value) (deadline : Z) : M W (option TxValidationResult) :=
  let! result := is_valid_tx tx_json in
  if negb (is_anchor_header_validation_lag result) then mok (Some result)
  else
    let! t := now in
    if deadline <=? t then mok (Some result) else sleep (from_millis 500) ;;! mok None.

Definition validate_tx_when_anchor_available (fuel : nat) (tx_json : json_value)
    : M W (option TxValidationResult) :=
  let! t := now in
  let! deadline := mlift (instant_add W t (from_secs 300)) in
  mloop fuel (validate_body tx_json deadline).

(** ** [impl Wallet for BaseWallet] *)

Definition bw_get_chain_info : M W ChainInfo :=
  let! info := get_node_info in
  mok {| chain_id := Fr_from_u64 (l1_chain_id info); version := Fr_from_u64 (rollup_version info) |}.

Definition bw_get_address_book : M W (list (Aliased AztecAddress)) :=
  let! senders := pxe.get_senders in
  mok ((λ addr, {| alias := EmptyString; item := addr |}) <$> senders).

Definition bw_get_contract_metadata (address : AztecAddress) : M W wallet.ContractMetadata :=
  let! instance := pxe.get_contract_instance address in
  let! on_chain := get_contract address in
  let is_published := bool_decide (is_Some on_chain) in
  let is_updated :=
    match on_chain with
    | Some contract => bool_decide (ci_current_contract_class_id (instance_inner contract)
                                    ≠ ci_original_contract_class_id (instance_inner contract))
    | None => false
    end in
  mok {| wallet.cm_instance := instance; wallet.is_contract_initialized := is_published;
         wallet.is_contract_published := is_published; wallet.is_contract_updated := is_updated;
         wallet.updated_contract_class_id := on_chain ≫= λ contract,
           if is_updated then Some (ci_current_contract_class_id (instance_inner contract))
           else None |}.

Definition bw_get_contract_class_metadata (class_id : Fr) : M W wallet.ContractClassMetadata :=
  let! artifact := pxe.get_contract_artifact class_id in
  let! on_chain := get_contract_class class_id in
  mok {| wallet.is_artifact_registered := bool_decide (is_Some artifact);
         wallet.is_contract_class_publicly_registered := bool_decide (is_Some on_chain) |}.

Definition missing_artifact (instance : ContractInstanceWithAddress) : Error :=
  InvalidData ("cannot register contract at " +:+ Fr_to_string (instance_address instance)
    +:+ " without an artifact; class "
    +:+ Fr_to_string (ci_current_contract_class_id (instance_inner instance))
    +:+ " is not registered in PXE").

Definition missing_complete_address (instance : ContractInstanceWithAddress) : Error :=
  InvalidData ("cannot register account for " +:+ Fr_to_string (instance_address instance)
    +:+ ": account provider does not expose its complete address").

Definition bw_register_contract (instance : ContractInstanceWithAddress)
    (artifact : option (ContractArtifact FR JS)) (secret_key : option Fr)
    : M W ContractInstanceWithAddress :=
  let class_id i := ci_current_contract_class_id (instance_inner i) in
  let! existing_instance := pxe.get_contract_instance (instance_address instance) in
  let! _ :=
    match existing_instance, artifact with
    | Some existing, Some artifact =>
        if decide (class_id existing ≠ class_id instance)
        then pxe.update_contract (instance_address instance) artifact else mok ()
    | Some _, None => mok ()
    | None, artifact =>
        let! artifact :=
          match artifact with
          | Some artifact => mok artifact
          | None =>
              let! known := pxe.get_contract_artifact (class_id instance) in
              mlift (ok_or known (missing_artifact instance))
          end in
        pxe.register_contract {| pxe.rcr_instance := instance; pxe.rcr_artifact := Some artifact |}
    end in
  let! _ :=
    match secret_key with
    | Some sk =>
        let! complete := wallet.ap_get_complete_address accounts (instance_address instance) in
        let! complete_address := mlift (ok_or complete (missing_complete_address instance)) in
        let! _ := pxe.register_account sk (ca_partial_address complete_address) in
        mok ()
    | None => mok ()
    end in
  mok instance.

Definition resolve_event_field_names (event_metadata : wallet.EventMetadataDefinition) : list string :=
  if decide (wallet.emd_field_names event_metadata ≠ []) then wallet.emd_field_names event_metadata
  else match wallet.emd_abi_type event_metadata with
       | AbiType.Struct _ fields => AbiType.p_name <$> fields
       | _ => []
       end.

(** The members of a decoded event: the names that have a field, at their positions. *)
Definition event_members (names : list string) (fields : list Fr) : list (string * JsonTree) :=
  foldl (λ m nf, bt_insert nf.1
           (match to_value nf.2 with inr v => json_tree v | inl _ => TNull end) m)
    [] (zip names fields).

Definition decode_private_events (packed : list pxe.PackedPrivateEvent)
    (event_metadata : wallet.EventMetadataDefinition) : list wallet.PrivateEvent :=
  let field_names := resolve_event_field_names event_metadata in
  (λ e, {| wallet.pe_event := json_of (TObject (event_members field_names (pxe.packed_event e)));
           wallet.pe_metadata :=
             {| wallet.pem_tx_hash := pxe.ppe_tx_hash e;
                wallet.pem_block_number := Some (pxe.l2_block_number e);
                wallet.pem_log_index := None |} |}) <$> packed.

Definition pxe_event_filter (filter : wallet.PrivateEventFilter) : pxe.PrivateEventFilter :=
  {| pxe.pef_contract_address := wallet.wef_contract_address filter;
     pxe.pef_tx_hash := wallet.wef_tx_hash filter;
     pxe.pef_from_block := wallet.wef_from_block filter;
     pxe.pef_to_block := wallet.wef_to_block filter;
     pxe.pef_after_log := (λ l,
       {| pxe.li_block_number := li_block_number l; pxe.li_block_hash := pxe.BlockHash_default;
          pxe.li_tx_hash := TxHash_zero; pxe.li_tx_index := 0; pxe.li_log_index := li_log_index l |})
       <$> wallet.wef_after_log filter;
     pxe.pef_scopes := wallet.wef_scopes filter |}.

Definition bw_get_private_events (event_metadata : wallet.EventMetadataDefinition)
    (filter : wallet.PrivateEventFilter) : M W (list wallet.PrivateEvent) :=
  let! packed := pxe.get_private_events (wallet.emd_event_selector event_metadata)
                   (pxe_event_filter filter) in
  mok (decode_private_events packed event_metadata).

(** [{ daGas, l2Gas }], zero where a member is missing. *)
Definition gas_of (g : json_value) : Gas :=
  MkGas (default 0 (json_get g "daGas" ≫= json_as_u64)) (default 0 (json_get g "l2Gas" ≫= json_as_u64)).

(** The request that the account provider makes of a payload. *)
Definition account_request (from : AztecAddress) (exec : ExecutionPayload)
    (gas_settings : option GasSettings) (fee_payer : option AztecAddress)
    (fee_payment_method : option Z) : M W pxe.TxExecutionRequest :=
  let! chain_info := bw_get_chain_info in
  wallet.ap_create_tx_execution_request accounts from exec (default GasSettings_default gas_settings)
    chain_info fee_payer fee_payment_method.

Definition missing_tx_hash : Error := InvalidData "PXE prove_tx result did not include a tx hash".

(** The payload that the account gets. *)
Definition simulate_payload (exec : ExecutionPayload) (opts : wallet.SimulateOptions) : ExecutionPayload :=
  with_fee_payload (merge_execution_payload exec (wallet.so_auth_witnesses opts) (wallet.so_capsules opts))
    (wallet.so_fee_execution_payload opts).

Definition send_payload (exec : ExecutionPayload) (opts : wallet.SendOptions) : ExecutionPayload :=
  with_fee_payload (merge_execution_payload exec (wallet.sd_auth_witnesses opts) (wallet.sd_capsules opts))
    (wallet.sd_fee_execution_payload opts).

Definition bw_simulate_tx (exec : ExecutionPayload) (opts : wallet.SimulateOptions)
    : M W wallet.TxSimulationResult :=
  let exec := simulate_payload exec opts in
  let! tx_request := account_request (wallet.so_from opts) exec (wallet.so_gas_settings opts) None None in
  let scopes := build_scopes (wallet.so_from opts) (wallet.so_additional_scopes opts) in
  let! result := pxe.simulate_tx tx_request
    {| pxe.simulate_public := true; pxe.skip_tx_validation := wallet.so_skip_validation opts;
       pxe.skip_fee_enforcement := wallet.so_skip_fee_enforcement opts; pxe.overrides := None;
       pxe.st_scopes := scopes |} in
  let return_values := pxe.sim_data result in
  let gas_used := gas_of <$> json_get return_values "gasUsed" in
  let! proven := pxe.prove_tx tx_request scopes in
  let tx := pxe.to_tx proven in
  if decide (ntx_public_function_calldata tx = []) then
    mok {| wallet.tsr_return_values := return_values; wallet.tsr_gas_used := gas_used |}
  else
    let! hash := mlift (ok_or (pxe.pr_tx_hash proven) missing_tx_hash) in
    let! tx_json := mlift (to_json_value tx) in
    let! simulation := wallet_simulate_public_calls hash tx_json in
    let return_values :=
      if has_no_private_return_values return_values
      then default return_values (json_get simulation "publicReturnValues") else return_values in
    let gas_used :=
      match json_get simulation "gasUsed" ≫= λ g, json_get g "totalGas" with
      | Some total_gas => Some (gas_of total_gas) | None => gas_used end in
    mok {| wallet.tsr_return_values := return_values; wallet.tsr_gas_used := gas_used |}.

Definition bw_execute_utility (call : FunctionCall) (opts : wallet.ExecuteUtilityOptions)
    : M W wallet.UtilityExecutionResult :=
  let! result := pxe.execute_utility call
    {| pxe.authwits := wallet.eu_auth_witnesses opts; pxe.eu_scopes := [wallet.eu_scope opts] |} in
  mok {| wallet.uer_result := match to_value (pxe.ut_result result) with
                              | inr v => v | inl _ => json_of TNull end;
         wallet.uer_stats := pxe.ut_stats result |}.

Definition pxe_profile_mode (mode : option wallet.ProfileMode) : pxe.ProfileMode :=
  match mode with
  | Some wallet.ExecutionSteps => pxe.ExecutionSteps
  | Some wallet.Gates => pxe.Gates
  | Some wallet.Full | None => pxe.Full
  end.

Definition bw_profile_tx (exec : ExecutionPayload) (opts : wallet.ProfileOptions)
    : M W wallet.TxProfileResult :=
  let exec := merge_execution_payload exec (wallet.po_auth_witnesses opts) (wallet.po_capsules opts) in
  let! tx_request := account_request (wallet.po_from opts) exec (wallet.po_gas_settings opts) None None in
  let scopes := build_scopes (wallet.po_from opts) (wallet.po_additional_scopes opts) in
  let! result := pxe.profile_tx tx_request
    {| pxe.profile_mode := pxe_profile_mode (wallet.po_profile_mode opts);
       pxe.skip_proof_generation := wallet.po_skip_proof_generation opts; pxe.pt_scopes := scopes |} in
  mok {| wallet.tpr_return_values := pxe.prof_data result; wallet.tpr_gas_used := None;
         wallet.tpr_profile_data := pxe.prof_data result |}.

(** The preflight simulation of the public calls, when there are any. *)
Definition preflight (hash : TxHash) (tx : NodeTx) (tx_json : json_value) : M W () :=
  if decide (ntx_public_function_calldata tx = []) then mok ()
  else
    let! r := mtry (wallet_simulate_public_calls hash tx_json) in
    match r with
    | Ok _ => mok ()
    | Err err => if should_ignore_public_preflight_error err then mok () else mlift (Err err)
    | Panic => mlift Panic
    end.

Definition rejected_tx (hash : TxHash) (reason : list string) : Error :=
  InvalidData ("node rejected tx " +:+ TxHash_to_string hash +:+ " during preflight validation: "
               +:+ join ", " reason).

(** What is proved and checked before a transaction is handed to the node. *)
Definition prove_and_check (fuel : nat) (exec : ExecutionPayload) (opts : wallet.SendOptions)
    : M W (option (TxHash * json_value)) :=
  let exec := send_payload exec opts in
  let! tx_request := account_request (wallet.sd_from opts) exec (wallet.sd_gas_settings opts)
    (ep_fee_payer exec) ((λ _, 2) <$> wallet.sd_fee_execution_payload opts) in
  let scopes := build_scopes (wallet.sd_from opts) (wallet.sd_additional_scopes opts) in
  let! proven := pxe.prove_tx tx_request scopes in
  let! hash := mlift (ok_or (pxe.pr_tx_hash proven) missing_tx_hash) in
  let tx := pxe.to_tx proven in
  let! tx_json := mlift (to_json_value tx) in
  let! _ := preflight hash tx tx_json in
  let?! validation := validate_tx_when_anchor_available fuel tx_json in
  match validation with
  | Invalid reason => mlift (Err (rejected_tx hash reason))
  | Valid | Skipped _ => mok (Some (hash, tx_json))
  end.

Definition bw_send_tx (fuel : nat) (exec : ExecutionPayload) (opts : wallet.SendOptions)
    : M W (option wallet.SendResult) :=
  let?! (hash, tx_json) := prove_and_check fuel exec opts in
  let! _ := send_tx tx_json in
  let?! _ := wait_for_submission_checkpoint fuel hash in
  mok (Some {| wallet.sr_tx_hash := hash |}).

(** *** Waiting for a contract *)

(** The contract and its class are known to the node. *)
Definition contract_visible (address : AztecAddress) : M W bool :=
  let! contract := get_contract address in
  match contract with
  | Some contract =>
      let! class := get_contract_class (ci_current_contract_class_id (instance_inner contract)) in
      mok (bool_decide (is_Some class))
  | None => mok false
  end.

(** Seen twice, the stabilization time apart. *)
Definition contract_stable (address : AztecAddress) : M W bool :=
  let! first := contract_visible address in
  if (first : bool) then sleep (from_secs 2) ;;! contract_visible address else mok false.

Definition wait_for_contract_body (address : AztecAddress) (start : Z) : M W (option ()) :=
  let! stable := contract_stable address in
  if (stable : bool) then mok (Some ())
  else
    let! t := now in
    if from_secs 30 <=? Z.max 0 (t - start) then
      mlift (Err (Timeout ("contract " +:+ Fr_to_string address
        +:+ " did not become node-visible within " +:+ Duration_debug (from_secs 30))))
    else sleep (from_millis 250) ;;! mok None.

Definition bw_wait_for_contract (fuel : nat) (address : AztecAddress) : M W (option ()) :=
  let! start := now in mloop fuel (wait_for_contract_body address start).

Definition proven_wait_opts : WaitOpts :=
  {| wo_timeout := from_secs 60; wo_interval := from_millis 500; wait_for_status := Proven;
     dont_throw_on_revert := dont_throw_on_revert WaitOpts_default;
     ignore_dropped_receipts_for := ignore_dropped_receipts_for WaitOpts_default |}.

Definition bw_wait_for_tx_proven (fuel : nat) (hash : TxHash) : M W (option ()) :=
  let?! _ := wait_for_tx fuel hash proven_wait_opts in mok (Some ()).

Definition bw_create_auth_wit (from : AztecAddress) (intent : MessageHashOrIntent) : M W AuthWitness :=
  let! chain_info := bw_get_chain_info in
  wallet.ap_create_auth_wit accounts from intent chain_info.

Definition base_wallet : wallet.Wallet W :=
  {| wallet.get_chain_info := bw_get_chain_info;
     wallet.get_accounts := wallet.ap_get_accounts accounts;
     wallet.get_address_book := bw_get_address_book;
     wallet.register_sender address _ := pxe.register_sender address;
     wallet.get_contract_metadata := bw_get_contract_metadata;
     wallet.get_contract_class_metadata := bw_get_contract_class_metadata;
     wallet.register_contract := bw_register_contract;
     wallet.get_private_events := bw_get_private_events;
     wallet.simulate_tx := bw_simulate_tx;
     wallet.execute_utility := bw_execute_utility;
     wallet.profile_tx := bw_profile_tx;
     wallet.send_tx exec opts := fueled (bw_send_tx wallet_fuel exec opts);
     wallet.wait_for_contract address := fueled (bw_wait_for_contract wallet_fuel address);
     wallet.wait_for_tx_proven hash := fueled (bw_wait_for_tx_proven wallet_fuel hash);
     wallet.create_auth_wit := bw_create_auth_wit;
     wallet.get_public_storage_at contract slot := get_public_storage_at 0 contract slot |}.
End base_wallet.
