(* ===== verification/Wire.v ===== *)
(** The wire forms of [crates/core/src/types.rs], [tx.rs] and [abi/selectors.rs]: what the
    [Serialize] and [Deserialize] implementations write and read, as JSON trees. *)

From Stdlib Require Import Ascii String.
From S2P Require Import Prelude Bytes Ordered Deps Concrete Types Constants Poseidon AbiTypes KernelTypes Tx Rpc Node Host BaseWallet.

(** ** Readers

    The members of an object have different names.
    [unexpected t expected] is serde's text for a tree that is not what is expected. *)
Class SerdeTexts := { unexpected : JsonTree → string → string }.

Section readers.
Context {ST : SerdeTexts}.

Definition not_expected {A : Type} (t : JsonTree) (expected : string) : Outcome A :=
  Err (Json (unexpected t expected)).

Definition wire_string (t : JsonTree) : Outcome string :=
  match t with TString s => Ok s | _ => not_expected t "a string" end.
Definition wire_bool (t : JsonTree) : Outcome bool :=
  match t with TBool b => Ok b | _ => not_expected t "a boolean" end.

Definition wire_list {A : Type} (read : JsonTree → Outcome A) (t : JsonTree) : Outcome (list A) :=
  match t with TArray items => omapM read items | _ => not_expected t "a sequence" end.

(** An integer of [w] bits. *)
Definition wire_uint (w : Z) (t : JsonTree) : Outcome Z :=
  match t with
  | TNumber text =>
      match parse_u64 text with
      | Some n => if n <? 2 ^ w then Ok n else not_expected t "an integer"
      | None => not_expected t "an integer"
      end
  | _ => not_expected t "an integer"
  end.

Definition wire_option {A : Type} (read : JsonTree → Outcome A) (t : JsonTree) : Outcome (option A) :=
  match t with TNull => Ok None | _ => let? a := read t in Ok (Some a) end.
Definition option_wire {A : Type} (write : A → JsonTree) (o : option A) : JsonTree :=
  match o with Some a => write a | None => TNull end.

(** [map_err(serde::de::Error::custom)]. *)
Definition custom {A : Type} (r : Outcome A) : Outcome A :=
  match r with Err e => Err (Json (Error_display e)) | r => r end.

(** A string that is parsed. *)
Definition parsed {A : Type} (parse : string → Outcome A) (t : JsonTree) : Outcome A :=
  let? s := wire_string t in custom (parse s).

(** The members that a derived reader goes through: those of an object, or the elements of
    an array in the order of the fields, of which the last may be missing. *)
Definition members (required : nat) (names : list string) (t : JsonTree)
    : Outcome (list (string * JsonTree)) :=
  match t with
  | TObject m => Ok m
  | TArray items =>
      if decide (required ≤ length items ≤ length names)%nat then Ok (zip names items)
      else not_expected t "a struct"
  | _ => not_expected t "a struct"
  end.

Definition member_of (name : string) (m : list (string * JsonTree)) : option JsonTree :=
  snd <$> List.find (λ kv, String.eqb kv.1 name) m.

Definition read_member {A : Type} (read : JsonTree → Outcome A) (missing : option A) (name : string)
    (m : list (string * JsonTree)) : Outcome A :=
  match member_of name m, missing with
  | Some t, _ => read t
  | None, Some a => Ok a
  | None, None => Err (Json ("missing field `" +:+ name +:+ "`"))
  end.

(** A unit variant: its name, or an object with its name and nothing under it. *)
Definition read_variant {A : Type} (variants : list (string * A)) (t : JsonTree) : Outcome A :=
  let find name := snd <$> List.find (λ kv, String.eqb kv.1 name) variants in
  match t with
  | TString name | TObject [(name, TNull)] =>
      match find name with Some a => Ok a | None => not_expected t "a variant" end
  | _ => not_expected t "a variant"
  end.
End readers.

(** ** [types.rs] *)

Section types.
Context {ST : SerdeTexts} {FR : PrimeField fr_modulus} {FQ : PrimeField fq_modulus} {HX : HexCrate}.

Definition Fr_to_wire (f : Fr) : JsonTree := TString (Fr_to_string f).
Definition Fr_of_wire (t : JsonTree) : Outcome Fr := parsed Fr_from_hex t.

Definition Fq_to_string (f : Fq) : string := encode_field_hex f.
Definition Fq_to_wire (f : Fq) : JsonTree := TString (Fq_to_string f).
Definition Fq_of_wire (t : JsonTree) : Outcome Fq := parsed Fq_from_hex t.

Definition AztecAddress_to_wire (a : AztecAddress) : JsonTree := Fr_to_wire a.
Definition AztecAddress_of_wire (t : JsonTree) : Outcome AztecAddress := Fr_of_wire t.

Definition EthAddress_to_string (a : EthAddress) : string := encode_hex a.
Definition EthAddress_to_wire (a : EthAddress) : JsonTree := TString (EthAddress_to_string a).
Definition EthAddress_of_wire (t : JsonTree) : Outcome EthAddress := parsed (decode_fixed_hex 20) t.

Definition Point_to_wire (p : Point) : JsonTree :=
  TObject [("x", Fr_to_wire (pt_x p)); ("y", Fr_to_wire (pt_y p)); ("isInfinite", TBool (pt_is_infinite p))].

Definition read_point_object (t : JsonTree) : Outcome Point :=
  let? m := members 2 ["x"; "y"; "isInfinite"] t in
  let? x := read_member Fr_of_wire None "x" m in
  let? y := read_member Fr_of_wire None "y" m in
  let? is_infinite := read_member wire_bool (Some false) "isInfinite" m in
  Ok (MkPoint x y is_infinite).

(** The untagged enum: a string is packed, anything else is an object, and all that is
    wrong with it is that it is neither. *)
Definition Point_of_wire (t : JsonTree) : Outcome Point :=
  match t with
  | TString value => custom (Point_from_packed value)
  | _ =>
      match read_point_object t with
      | Err _ => Err (Json "data did not match any variant of untagged enum PointWire")
      | point => point
      end
  end.

Definition PublicKeys_to_wire (k : PublicKeys) : JsonTree :=
  TObject [("masterNullifierPublicKey", Point_to_wire (master_nullifier_public_key k));
           ("masterIncomingViewingPublicKey", Point_to_wire (master_incoming_viewing_public_key k));
           ("masterOutgoingViewingPublicKey", Point_to_wire (master_outgoing_viewing_public_key k));
           ("masterTaggingPublicKey", Point_to_wire (master_tagging_public_key k))].

Definition PublicKeys_of_wire (t : JsonTree) : Outcome PublicKeys :=
  let? m := members 4 ["masterNullifierPublicKey"; "masterIncomingViewingPublicKey";
                       "masterOutgoingViewingPublicKey"; "masterTaggingPublicKey"] t in
  let? npk := read_member Point_of_wire None "masterNullifierPublicKey" m in
  let? ivpk := read_member Point_of_wire None "masterIncomingViewingPublicKey" m in
  let? ovpk := read_member Point_of_wire None "masterOutgoingViewingPublicKey" m in
  let? tpk := read_member Point_of_wire None "masterTaggingPublicKey" m in
  Ok {| master_nullifier_public_key := npk; master_incoming_viewing_public_key := ivpk;
        master_outgoing_viewing_public_key := ovpk; master_tagging_public_key := tpk |}.

(** The only record of these that keeps the names of its fields. *)
Definition CompleteAddress_to_wire (c : CompleteAddress) : JsonTree :=
  TObject [("address", AztecAddress_to_wire (ca_address c));
           ("public_keys", PublicKeys_to_wire (ca_public_keys c));
           ("partial_address", Fr_to_wire (ca_partial_address c))].

Definition CompleteAddress_of_wire (t : JsonTree) : Outcome CompleteAddress :=
  let? m := members 3 ["address"; "public_keys"; "partial_address"] t in
  let? address := read_member AztecAddress_of_wire None "address" m in
  let? keys := read_member PublicKeys_of_wire None "public_keys" m in
  let? partial := read_member Fr_of_wire None "partial_address" m in
  Ok {| ca_address := address; ca_public_keys := keys; ca_partial_address := partial |}.

Definition instance_members (c : ContractInstance) : list (string * JsonTree) :=
  [("version", TNumber (pretty (ci_version c))); ("salt", Fr_to_wire (ci_salt c));
   ("deployer", AztecAddress_to_wire (ci_deployer c));
   ("currentContractClassId", Fr_to_wire (ci_current_contract_class_id c));
   ("originalContractClassId", Fr_to_wire (ci_original_contract_class_id c));
   ("initializationHash", Fr_to_wire (ci_initialization_hash c));
   ("publicKeys", PublicKeys_to_wire (ci_public_keys c))].
Definition ContractInstance_to_wire (c : ContractInstance) : JsonTree := TObject (instance_members c).

Definition read_instance (m : list (string * JsonTree)) : Outcome ContractInstance :=
  let? version := read_member (wire_uint 8) None "version" m in
  let? salt := read_member Fr_of_wire None "salt" m in
  let? deployer := read_member AztecAddress_of_wire None "deployer" m in
  let? current := read_member Fr_of_wire None "currentContractClassId" m in
  let? original := read_member Fr_of_wire None "originalContractClassId" m in
  let? initialization := read_member Fr_of_wire None "initializationHash" m in
  let? keys := read_member PublicKeys_of_wire None "publicKeys" m in
  Ok {| ci_version := version; ci_salt := salt; ci_deployer := deployer;
        ci_current_contract_class_id := current; ci_original_contract_class_id := original;
        ci_initialization_hash := initialization; ci_public_keys := keys |}.
Definition ContractInstance_of_wire (t : JsonTree) : Outcome ContractInstance :=
  let? m := members 7 ["version"; "salt"; "deployer"; "currentContractClassId";
                       "originalContractClassId"; "initializationHash"; "publicKeys"] t in
  read_instance m.

(** A flattened record is read from objects only. *)
Definition ContractInstanceWithAddress_to_wire (c : ContractInstanceWithAddress) : JsonTree :=
  TObject (("address", AztecAddress_to_wire (instance_address c)) :: instance_members (instance_inner c)).
Definition ContractInstanceWithAddress_of_wire (t : JsonTree) : Outcome ContractInstanceWithAddress :=
  match t with
  | TObject m =>
      let? address := read_member AztecAddress_of_wire None "address" m in
      let? inner := read_instance m in
      Ok {| instance_address := address; instance_inner := inner |}
  | _ => not_expected t "a struct"
  end.
End types.

(** ** [selectors.rs] *)

Section selectors.
Context {ST : SerdeTexts} {FR : PrimeField fr_modulus} {HX : HexCrate} {P2 : Poseidon2Crate}.

Definition FunctionSelector_to_wire (sel : FunctionSelector) : JsonTree :=
  TString (FunctionSelector_to_string sel).
Definition FunctionSelector_of_wire (t : JsonTree) : Outcome FunctionSelector :=
  parsed FunctionSelector_from_hex t.

Definition AuthorizationSelector_to_wire (sel : AuthorizationSelector) : JsonTree :=
  TString (AuthorizationSelector_to_string sel).
Definition AuthorizationSelector_of_wire (t : JsonTree) : Outcome AuthorizationSelector :=
  parsed AuthorizationSelector_from_hex t.

Definition NoteSelector_to_wire (sel : Z) : JsonTree := TNumber (pretty sel).
Definition NoteSelector_of_wire (t : JsonTree) : Outcome Z :=
  let? val := wire_uint 8 t in custom (NoteSelector_new val).
End selectors.

(** ** [tx.rs] *)

Section tx.
Context {ST : SerdeTexts} {FR : PrimeField fr_modulus} {HX : HexCrate} `{JT : JsonText}.

Definition TxHash_to_wire (h : TxHash) : JsonTree := TString (TxHash_to_string h).
Definition TxHash_of_wire (t : JsonTree) : Outcome TxHash := parsed TxHash_from_hex t.

Definition tx_statuses : list (string * TxStatus) :=
  [("dropped", Dropped); ("pending", Pending); ("proposed", Proposed);
   ("checkpointed", Checkpointed); ("proven", Proven); ("finalized", Finalized)].
Definition execution_results : list (string * TxExecutionResult) :=
  [("success", Success); ("app_logic_reverted", AppLogicReverted);
   ("teardown_reverted", TeardownReverted); ("both_reverted", BothReverted)].

Definition variant_to_wire {A : Type} `{EqDecision A} (variants : list (string * A)) (a : A) : JsonTree :=
  TString (default "" (fst <$> List.find (λ kv, bool_decide (kv.2 = a)) variants)).

(** [option_hex_bytes_32]. *)
Definition hex_32_to_wire (value : option (list byte)) : JsonTree :=
  option_wire (λ bytes, TString (encode_hex bytes)) value.
Definition hex_32_of_wire (t : JsonTree) : Outcome (option (list byte)) :=
  wire_option (parsed (decode_fixed_hex 32)) t.

(** [option_u128_from_string_or_number]; the fee is written as a number.  The error of a
    text is that of the first digit that is none, or takes the number past its type. *)
Definition u128_text_error (s : string) : string :=
  match as_bytes s with
  | [] => "cannot parse integer from empty string"
  | c :: rest =>
      let digits := if (byte_Z c =? 43) then rest else c :: rest in
      let is_digit b := (48 <=? byte_Z b) && (byte_Z b <=? 57) in
      match digits with
      | [] => "invalid digit found in string"
      | _ =>
          let fix go (acc : Z) (l : list byte) : string :=
            match l with
            | [] => ""
            | b :: l' =>
                if is_digit b then
                  let acc' := acc * 10 + (byte_Z b - 48) in
                  if acc' <? 2 ^ 128 then go acc' l' else "number too large to fit in target type"
                else "invalid digit found in string"
            end in
          go 0 digits
      end
  end.

Definition fee_of_wire (t : JsonTree) : Outcome (option Z) :=
  match t with
  | TNull => Ok None
  | TNumber n =>
      match parse_u64 n with
      | Some v => Ok (Some v)
      | None => Err (Json "invalid numeric transactionFee")
      end
  | TString s =>
      match parse_u128 s with
      | Some v => Ok (Some v)
      | None => Err (Json (u128_text_error s))
      end
  | other => Err (Json ("invalid transactionFee value: " +:+ json_display other))
  end.
Definition fee_to_wire (fee : option Z) : JsonTree := option_wire (λ n, TNumber (pretty n)) fee.

Definition TxReceipt_to_wire (r : TxReceipt) : JsonTree :=
  TObject [("txHash", TxHash_to_wire (tx_hash r)); ("status", variant_to_wire tx_statuses (tx_status r));
           ("executionResult", option_wire (variant_to_wire execution_results) (execution_result r));
           ("error", option_wire TString (tx_error r)); ("transactionFee", fee_to_wire (transaction_fee r));
           ("blockHash", hex_32_to_wire (block_hash r));
           ("blockNumber", option_wire (λ n, TNumber (pretty n)) (rc_block_number r));
           ("epochNumber", option_wire (λ n, TNumber (pretty n)) (epoch_number r))].

Definition TxReceipt_of_wire (t : JsonTree) : Outcome TxReceipt :=
  let? m := members 8 ["txHash"; "status"; "executionResult"; "error"; "transactionFee"; "blockHash";
                       "blockNumber"; "epochNumber"] t in
  let? hash := read_member TxHash_of_wire None "txHash" m in
  let? status := read_member (read_variant tx_statuses) None "status" m in
  let? result := read_member (wire_option (read_variant execution_results)) (Some None) "executionResult" m in
  let? error := read_member (wire_option wire_string) (Some None) "error" m in
  let? fee := read_member fee_of_wire (Some None) "transactionFee" m in
  let? block := read_member hex_32_of_wire (Some None) "blockHash" m in
  let? number := read_member (wire_option (wire_uint 64)) (Some None) "blockNumber" m in
  let? epoch := read_member (wire_option (wire_uint 64)) (Some None) "epochNumber" m in
  Ok {| tx_hash := hash; tx_status := status; execution_result := result; tx_error := error;
        transaction_fee := fee; block_hash := block; rc_block_number := number; epoch_number := epoch |}.
End tx.

(** [base64_buffer]. *)
Section base64.
Context {ST : SerdeTexts} {B64 : Base64Crate} {B64E : Base64Encoder}.

Definition base64_to_wire (value : list byte) : JsonTree := TString (base64_encode value).
Definition base64_of_wire (t : JsonTree) : Outcome (list byte) :=
  let? encoded := wire_string t in
  match base64_decode encoded with inl e => Err (Json e) | inr bytes => Ok bytes end.
End base64.

(** ** The transaction for the node, and the witnesses and capsules of a request *)
Section node_tx.
Context {ST : SerdeTexts} {FR : PrimeField fr_modulus} {HX : HexCrate}.
Context {B64 : Base64Crate} {B64E : Base64Encoder}.

Definition Fr_list_to_wire (l : list Fr) : JsonTree := TArray (Fr_to_wire <$> l).
Definition Fr_list_of_wire : JsonTree → Outcome (list Fr) := wire_list Fr_of_wire.

Definition AuthWitness_to_wire (a : AuthWitness) : JsonTree :=
  TObject [("request_hash", Fr_to_wire (aw_request_hash a)); ("fields", Fr_list_to_wire (aw_fields a))].
Definition AuthWitness_of_wire (t : JsonTree) : Outcome AuthWitness :=
  let? m := members 0 ["request_hash"; "fields"] t in
  let? request_hash := read_member Fr_of_wire (Some Fr_zero) "request_hash" m in
  let? fields := read_member Fr_list_of_wire (Some []) "fields" m in
  Ok {| aw_request_hash := request_hash; aw_fields := fields |}.

Definition Capsule_to_wire (c : Capsule) : JsonTree :=
  TObject [("contract_address", AztecAddress_to_wire (cap_contract_address c));
           ("storage_slot", Fr_to_wire (cap_storage_slot c)); ("data", Fr_list_to_wire (cap_data c))].
Definition Capsule_of_wire (t : JsonTree) : Outcome Capsule :=
  let? m := members 3 ["contract_address"; "storage_slot"; "data"] t in
  let? address := read_member AztecAddress_of_wire None "contract_address" m in
  let? slot := read_member Fr_of_wire None "storage_slot" m in
  let? data := read_member Fr_list_of_wire None "data" m in
  Ok {| cap_contract_address := address; cap_storage_slot := slot; cap_data := data |}.

Definition HashedValues_to_wire (h : HashedValues) : JsonTree :=
  TObject [("values", Fr_list_to_wire (hv_values h)); ("hash", Fr_to_wire (hv_hash h))].
Definition HashedValues_of_wire (t : JsonTree) : Outcome HashedValues :=
  let? m := members 0 ["values"; "hash"] t in
  let? values := read_member Fr_list_of_wire (Some []) "values" m in
  let? hash := read_member Fr_of_wire (Some Fr_zero) "hash" m in
  Ok {| hv_values := values; hv_hash := hash |}.

Definition ContractClassLogFields_to_wire (c : ContractClassLogFields) : JsonTree :=
  TObject [("fields", Fr_list_to_wire (cclf_fields c))].
Definition ContractClassLogFields_of_wire (t : JsonTree) : Outcome ContractClassLogFields :=
  let? m := members 0 ["fields"] t in
  let? fields := read_member Fr_list_of_wire (Some []) "fields" m in
  Ok {| cclf_fields := fields |}.

(** The two buffers are transparent: each is its base64 text. *)
Definition NodeTx_to_wire (tx : NodeTx) : JsonTree :=
  TObject [("data", base64_to_wire (pki_bytes (ntx_data tx)));
           ("chonkProof", base64_to_wire (chonk_bytes (ntx_chonk_proof tx)));
           ("contractClassLogFields",
            TArray (ContractClassLogFields_to_wire <$> ntx_contract_class_log_fields tx));
           ("publicFunctionCalldata", TArray (HashedValues_to_wire <$> ntx_public_function_calldata tx))].
Definition NodeTx_of_wire (t : JsonTree) : Outcome NodeTx :=
  let? m := members 2 ["data"; "chonkProof"; "contractClassLogFields"; "publicFunctionCalldata"] t in
  let? data := read_member base64_of_wire None "data" m in
  let? proof := read_member base64_of_wire None "chonkProof" m in
  let? logs := read_member (wire_list ContractClassLogFields_of_wire) (Some []) "contractClassLogFields" m in
  let? calldata := read_member (wire_list HashedValues_of_wire) (Some []) "publicFunctionCalldata" m in
  Ok {| ntx_data := {| pki_bytes := data |}; ntx_chonk_proof := {| chonk_bytes := proof |};
        ntx_contract_class_log_fields := logs; ntx_public_function_calldata := calldata |}.
End node_tx.
