(* ===== verification/WireSpec.v ===== *)
(** The readers of the wire forms read back what the writers write. *)

From Stdlib Require Import Ascii String.
From S2P Require Import Prelude Bytes Ordered Deps Concrete Types Constants Poseidon AbiTypes KernelTypes Tx Rpc Node Host BaseWallet Wire.

(** ** Numbers that do not fit *)

Lemma parse_pretty_go_large x s : 2 ^ 64 ≤ Z.of_N x → parse_digits 0 (pretty_N_go x s) = None.
Proof.
  revert s. induction (N.lt_wf_0 x) as [x _ IH]. intros s Hx.
  rewrite pretty_N_go_step by lia.
  pose proof (N.div_lt x 10 ltac:(lia) ltac:(lia)).
  pose proof (N.div_mod x 10 ltac:(lia)). pose proof (N.mod_lt x 10 ltac:(lia)) as Hd.
  destruct (Z.le_gt_cases (2 ^ 64) (Z.of_N (x / 10))); [by apply IH|].
  rewrite parse_pretty_go by lia. set (d := (x `mod` 10)%N) in *. set (q := (x `div` 10)%N) in *. clearbody d q. cbn [parse_digits].
  assert (byte_Z (pretty_N_char d) - 48 = Z.of_N d) as ->.
  { unfold byte_Z. clear - Hd.
    destruct d as [|[[[|[]|]|[|[]|]|]|[[|[]|]|[|[]|]|]|]]; try reflexivity; lia. }
  replace ((0 <=? Z.of_N d) && (Z.of_N d <=? 9)) with true by lia.
  destruct (Z.ltb_spec (Z.of_N q * 10 + Z.of_N d) (2 ^ 64)); [lia|done].
Qed.

Lemma pretty_N_first x : (x ≠ 0)%N → ∃ c s, pretty_N_go x "" = String c s ∧ byte_Z c ≠ 43.
Proof.
  intros Hx. assert (∀ s, (∃ c t, s = String c t ∧ byte_Z c ≠ 43) ∨ (x ≠ 0)%N → ∃ c t, pretty_N_go x s = String c t ∧ byte_Z c ≠ 43) as H.
  { clear. induction (N.lt_wf_0 x) as [x _ IH]. intros s Hs.
    destruct (decide (x = 0)%N) as [->|Hne]; [rewrite pretty_N_go_0; by destruct Hs|].
    rewrite pretty_N_go_step by lia. apply IH; [apply N.div_lt; lia|]. left.
    eexists _, _. split; [done|]. pose proof (N.mod_lt x 10 ltac:(lia)) as Hd.
    set (d := (x `mod` 10)%N) in *. clearbody d. clear - Hd. unfold byte_Z.
    destruct d as [|[[[|[]|]|[|[]|]|]|[[|[]|]|[|[]|]|]|]]; try done; lia. }
  apply H. by right.
Qed.

Lemma parse_u64_large z : 2 ^ 64 ≤ z → parse_u64 (pretty z) = None.
Proof.
  intros Hz. assert (pretty z = pretty_N_go (Z.to_N z) "") as ->.
  { destruct z as [|p|p]; [lia| |lia]. change (pretty (Z.pos p)) with (pretty (N.pos p)).
    unfold pretty, pretty_N. by rewrite decide_False. }
  destruct (pretty_N_first (Z.to_N z)) as (c & s & E & Hc); [lia|].
  pose proof (parse_pretty_go_large (Z.to_N z) "" ltac:(lia)) as H. rewrite E in H |- *. unfold parse_u64.
  destruct (Z.eqb_spec (byte_Z c) 43); [done|]. exact H.
Qed.

(** ** Reading back *)

Section members.
Context {ST : SerdeTexts} {A : Type} (read : JsonTree → Outcome A).

Lemma read_member_here missing name t m : read_member read missing name ((name, t) :: m) = read t.
Proof. unfold read_member, member_of. cbn. by rewrite String.eqb_refl. Qed.

Lemma read_member_skip missing name other t m :
  String.eqb other name = false →
  read_member read missing name ((other, t) :: m) = read_member read missing name m.
Proof. intros H. unfold read_member, member_of. cbn. by rewrite H. Qed.

Lemma read_option_back (write : A → JsonTree) (o : option A) :
  (∀ a, o = Some a → read (write a) = Ok a ∧ write a ≠ TNull) →
  wire_option read (option_wire write o) = Ok o.
Proof.
  intros H. destruct o as [a|]; [|done]. destruct (H a eq_refl) as [E Hn]. cbn.
  unfold wire_option. destruct (write a); [done|by rewrite E..].
Qed.

Lemma parsed_back (parse : string → Outcome A) s a : parse s = Ok a → parsed parse (TString s) = Ok a.
Proof. intros E. unfold parsed. cbn. by rewrite E. Qed.
End members.

#[local] Arguments read_member : simpl never.

(** Goes through the members of an object that a derived reader reads. *)
Ltac read_members :=
  repeat first
    [ rewrite read_member_here
    | rewrite read_member_skip by reflexivity ].

Section wire.
Context {ST : SerdeTexts} {FR : PrimeField fr_modulus} {FQ : PrimeField fq_modulus}.
Context {HX : HexCrate} {P2 : Poseidon2Crate} `{JT : JsonText}.

Lemma wire_uint_back w n : w ≤ 64 → in_u w n → wire_uint w (TNumber (pretty n)) = Ok n.
Proof.
  intros Hw Hn. unfold wire_uint, in_u in *.
  assert (2 ^ w ≤ 2 ^ 64) by (apply Z.pow_le_mono_r; lia).
  rewrite parse_u64_pretty by (unfold in_u; lia). by destruct (Z.ltb_spec n (2 ^ w)); [|lia].
Qed.

Lemma Fr_wire_back f : Fr_of_wire (Fr_to_wire f) = Ok f.
Proof. apply parsed_back, Fr_from_to_string. Qed.

Lemma Fq_wire_back f : Fq_of_wire (Fq_to_wire f) = Ok f.
Proof.
  apply parsed_back. unfold Fq_from_hex, Fq_to_string, encode_field_hex.
  rewrite (decode_encode_hex 32); [cbn; f_equal; apply Fq_from_to_be|].
  change (length (Fq_to_be_bytes f) = 32%nat). rewrite Fq_to_be_bytes_eq. apply pf_length_to_bytes.
Qed.

Lemma bytes_wire_back n bs : length bs = n → parsed (decode_fixed_hex n) (TString (encode_hex bs)) = Ok bs.
Proof. intros H. by apply parsed_back, decode_encode_hex. Qed.

Lemma selector_wire_back sel : length sel = 4%nat →
  FunctionSelector_of_wire (FunctionSelector_to_wire sel) = Ok sel ∧
  AuthorizationSelector_of_wire (AuthorizationSelector_to_wire sel) = Ok sel.
Proof. intros H. split; by apply parsed_back, selector_hex_roundtrip. Qed.

Lemma note_selector_wire_back sel : 0 ≤ sel < 128 → NoteSelector_of_wire (NoteSelector_to_wire sel) = Ok sel.
Proof.
  intros H. unfold NoteSelector_of_wire, NoteSelector_to_wire. rewrite wire_uint_back by (unfold in_u; lia).
  cbn [obind]. unfold NoteSelector_new, NoteSelector_MAX_VALUE. by destruct (Z.ltb_spec 127 sel); [lia|].
Qed.

Lemma Point_wire_back p : Point_of_wire (Point_to_wire p) = Ok p.
Proof.
  unfold Point_of_wire, read_point_object, Point_to_wire, members. cbn [obind]. read_members.
  rewrite !Fr_wire_back. cbn. by destruct p.
Qed.

Lemma PublicKeys_wire_back k : PublicKeys_of_wire (PublicKeys_to_wire k) = Ok k.
Proof.
  unfold PublicKeys_of_wire, PublicKeys_to_wire, members. cbn [obind]. read_members.
  rewrite !Point_wire_back. by destruct k.
Qed.

Lemma CompleteAddress_wire_back c : CompleteAddress_of_wire (CompleteAddress_to_wire c) = Ok c.
Proof.
  unfold CompleteAddress_of_wire, CompleteAddress_to_wire, AztecAddress_of_wire, AztecAddress_to_wire, members.
  cbn [obind]. read_members. rewrite !Fr_wire_back, PublicKeys_wire_back. by destruct c.
Qed.

Lemma read_instance_back c rest :
  in_u 8 (ci_version c) → read_instance (instance_members c ++ rest) = Ok c.
Proof.
  intros Hv. unfold read_instance, instance_members, AztecAddress_of_wire, AztecAddress_to_wire.
  cbn [app]. read_members. rewrite wire_uint_back by done. cbn [obind].
  rewrite !Fr_wire_back, PublicKeys_wire_back. by destruct c.
Qed.

Lemma instance_wire_back c : in_u 8 (ci_version (instance_inner c)) →
  ContractInstanceWithAddress_of_wire (ContractInstanceWithAddress_to_wire c) = Ok c.
Proof.
  intros Hv. unfold ContractInstanceWithAddress_of_wire, ContractInstanceWithAddress_to_wire, AztecAddress_of_wire.
  read_members. unfold AztecAddress_to_wire at 1. rewrite Fr_wire_back. cbn [obind].
  assert (∀ t, read_instance (("address", t) :: instance_members (instance_inner c)) = Ok (instance_inner c)) as ->.
  { intros t. unfold read_instance. rewrite !(read_member_skip _ _ _ "address") by reflexivity.
    rewrite <- (app_nil_r (instance_members _)). by apply read_instance_back. }
  by destruct c.
Qed.

(** *** Receipts *)

Lemma status_wire_back st : read_variant tx_statuses (variant_to_wire tx_statuses st) = Ok st.
Proof. by destruct st. Qed.

Lemma execution_result_wire_back e :
  read_variant execution_results (variant_to_wire execution_results e) = Ok e.
Proof. by destruct e. Qed.

Lemma hex_32_wire_back h :
  (∀ bs, h = Some bs → length bs = 32%nat) → hex_32_of_wire (hex_32_to_wire h) = Ok h.
Proof. intros H. apply read_option_back. intros bs E. split; [by apply bytes_wire_back, H|done]. Qed.

Lemma option_u64_wire_back (n : option Z) :
  (∀ z, n = Some z → in_u 64 z) →
  wire_option (wire_uint 64) (option_wire (λ z, TNumber (pretty z)) n) = Ok n.
Proof. intros H. apply read_option_back. intros z E. split; [by apply wire_uint_back, H|done]. Qed.

Lemma fee_wire_back fee :
  (∀ z, fee = Some z → in_u 128 z) →
  fee_of_wire (fee_to_wire fee) =
  match fee with
  | Some z => if z <? 2 ^ 64 then Ok fee else Err (Json "invalid numeric transactionFee")
  | None => Ok None
  end.
Proof.
  intros H. destruct fee as [z|]; [|done]. specialize (H z eq_refl). unfold in_u in H.
  cbn [fee_to_wire option_wire fee_of_wire]. destruct (Z.ltb_spec z (2 ^ 64)).
  - by rewrite parse_u64_pretty by (unfold in_u; lia).
  - by rewrite parse_u64_large.
Qed.

(** What the fields of a receipt may hold in the program. *)
Definition receipt_typed (r : TxReceipt) : Prop :=
  length (tx_hash r) = 32%nat ∧ (∀ bs, block_hash r = Some bs → length bs = 32%nat) ∧
  (∀ z, transaction_fee r = Some z → in_u 128 z) ∧
  (∀ z, rc_block_number r = Some z → in_u 64 z) ∧ (∀ z, epoch_number r = Some z → in_u 64 z).

Lemma receipt_wire_back r :
  receipt_typed r →
  TxReceipt_of_wire (TxReceipt_to_wire r) =
  (let? _ := fee_of_wire (fee_to_wire (transaction_fee r)) in Ok r).
Proof.
  intros (Hh & Hb & Hf & Hn & He). unfold TxReceipt_of_wire, TxReceipt_to_wire, members.
  cbn [obind]. read_members. unfold TxHash_of_wire, TxHash_to_wire.
  rewrite (bytes_wire_back 32) by done.
  cbn [obind]. rewrite status_wire_back. cbn [obind].
  rewrite read_option_back by (intros e _; split; [apply execution_result_wire_back|done]). cbn [obind].
  rewrite read_option_back by done. cbn [obind].
  rewrite hex_32_wire_back by done.
  destruct (fee_of_wire _) as [fee|e|] eqn:E; cbn [obind]; [|done..].
  rewrite !option_u64_wire_back by done. cbn [obind].
  assert (fee = transaction_fee r) as ->; [|by destruct r].
  rewrite fee_wire_back in E by done. destruct (transaction_fee r) as [z|]; [|congruence].
  destruct (z <? 2 ^ 64); congruence.
Qed.

(** *** Transactions for the node *)

Section node_tx.
Context {B64 : Base64Crate} {B64E : Base64Encoder}.
(** The decoder of the crate reads what its encoder writes. *)
Context (Hb64 : ∀ bytes, base64_decode (base64_encode bytes) = inr bytes).

Lemma wire_list_back {A : Type} (read : JsonTree → Outcome A) (write : A → JsonTree) l :
  (∀ a, read (write a) = Ok a) → wire_list read (TArray (write <$> l)) = Ok l.
Proof.
  intros H. cbn [wire_list]. induction l as [|a l IH]; [done|]. cbn. rewrite H. cbn.
  change (fmap write l) with (write <$> l). by rewrite IH.
Qed.

Lemma base64_wire_back bytes : base64_of_wire (base64_to_wire bytes) = Ok bytes.
Proof. unfold base64_of_wire, base64_to_wire. cbn. by rewrite Hb64. Qed.

Lemma Fr_list_wire_back l : Fr_list_of_wire (Fr_list_to_wire l) = Ok l.
Proof. apply wire_list_back, Fr_wire_back. Qed.

Lemma AuthWitness_wire_back a : AuthWitness_of_wire (AuthWitness_to_wire a) = Ok a.
Proof.
  unfold AuthWitness_of_wire, AuthWitness_to_wire, members. cbn [obind]. read_members.
  rewrite Fr_wire_back, Fr_list_wire_back. by destruct a.
Qed.

Lemma Capsule_wire_back c : Capsule_of_wire (Capsule_to_wire c) = Ok c.
Proof.
  unfold Capsule_of_wire, Capsule_to_wire, AztecAddress_of_wire, AztecAddress_to_wire, members.
  cbn [obind]. read_members. rewrite !Fr_wire_back, Fr_list_wire_back. by destruct c.
Qed.

Lemma HashedValues_wire_back h : HashedValues_of_wire (HashedValues_to_wire h) = Ok h.
Proof.
  unfold HashedValues_of_wire, HashedValues_to_wire, members. cbn [obind]. read_members.
  rewrite Fr_wire_back, Fr_list_wire_back. by destruct h.
Qed.

Lemma ContractClassLogFields_wire_back c :
  ContractClassLogFields_of_wire (ContractClassLogFields_to_wire c) = Ok c.
Proof.
  unfold ContractClassLogFields_of_wire, ContractClassLogFields_to_wire, members. cbn [obind].
  read_members. rewrite Fr_list_wire_back. by destruct c.
Qed.

Lemma NodeTx_wire_back tx : NodeTx_of_wire (NodeTx_to_wire tx) = Ok tx.
Proof.
  unfold NodeTx_of_wire, NodeTx_to_wire, members. cbn [obind]. read_members.
  rewrite !base64_wire_back. cbn [obind].
  rewrite (wire_list_back _ _ _ ContractClassLogFields_wire_back). cbn [obind].
  rewrite (wire_list_back _ _ _ HashedValues_wire_back). by destruct tx as [[] [] ? ?].
Qed.
End node_tx.

(** What is written is read back: addresses with their keys, contract instances, and
    receipts, unless the fee of the receipt does not fit 64 bits: the fee is a 128-bit
    integer that is written as a number, and the reader takes numbers of 64 bits only. *)
Theorem wire_roundtrip (complete : CompleteAddress) (instance : ContractInstanceWithAddress) (receipt : TxReceipt) :
  in_u 8 (ci_version (instance_inner instance)) → receipt_typed receipt →
  CompleteAddress_of_wire (CompleteAddress_to_wire complete) = Ok complete ∧
  ContractInstanceWithAddress_of_wire (ContractInstanceWithAddress_to_wire instance) = Ok instance ∧
  TxReceipt_of_wire (TxReceipt_to_wire receipt) =
    match transaction_fee receipt with
    | Some fee => if fee <? 2 ^ 64 then Ok receipt else Err (Json "invalid numeric transactionFee")
    | None => Ok receipt
    end.
Proof.
  intros Hv Hr. split; [apply CompleteAddress_wire_back|]. split; [by apply instance_wire_back|].
  rewrite receipt_wire_back by done. destruct Hr as (_ & _ & Hf & _). rewrite fee_wire_back by done.
  destruct (transaction_fee receipt) as [fee|]; [|done]. by destruct (fee <? 2 ^ 64).
Qed.
End wire.

(** ** Examples *)

Section examples.
Import Concrete.Instances.

Definition plain_texts : SerdeTexts :=
  {| unexpected t expected := "invalid type, expected " +:+ expected |}.
#[local] Existing Instance plain_texts.

Definition paid_receipt (fee : Z) : TxReceipt :=
  {| tx_hash := TxHash_zero; tx_status := Proven; execution_result := Some AppLogicReverted;
     tx_error := Some "reverted"; transaction_fee := Some fee; block_hash := Some TxHash_zero;
     rc_block_number := Some 7; epoch_number := None |}.

Lemma paid_receipt_typed fee : in_u 128 fee → receipt_typed (paid_receipt fee).
Proof. intros H. split_and!; try done; intros z [= <-]; done. Qed.

Example receipt_read : TxReceipt_of_wire (TxReceipt_to_wire (paid_receipt 12)) = Ok (paid_receipt 12).
Proof. vm_compute. reflexivity. Qed.
Example large_fee_refused :
  TxReceipt_of_wire (TxReceipt_to_wire (paid_receipt (2 ^ 64))) = Err (Json "invalid numeric transactionFee").
Proof. vm_compute. reflexivity. Qed.
Example number_is_no_point :
  Point_of_wire (TNumber "3") = Err (Json "data did not match any variant of untagged enum PointWire").
Proof. reflexivity. Qed.
Example point_of_two_members :
  is_ok (Point_of_wire (TArray [Fr_to_wire Fr_one; Fr_to_wire Fr_one])) = true.
Proof. vm_compute. reflexivity. Qed.
End examples.
