(* ===== verification/BaseWalletSpec.v ===== *)
(** What the wallet promises: its waits end, a transaction is sent only after it was
    proved, simulated and not rejected, and what a fee payload does to a payload. *)

From Stdlib Require Import Ascii String.
From S2P Require Import Prelude Bytes Ordered Deps Concrete Types Constants Poseidon AbiTypes KernelTypes Tx Hash Kv Rpc Node Polling Pxe Wallet Contract BaseWallet.

(** ** The waits end *)

(** A loop that reads the clock and goes round again only before the deadline, and at
    least an interval later. *)
Lemma mloop_deadline {W A : Type} (time : W → Z) (interval deadline : Z)
    (body : M W (option A)) (Q : W → Outcome A → Prop) (n : nat) :
  0 < interval →
  (∀ w, ∃ w' r, body w = (w', r) ∧
     match r with
     | Ok (Some a) => Q w' (Ok a)
     | Ok None => ∃ t, time w ≤ t < deadline ∧ t + interval ≤ time w'
     | Err e => Q w' (Err e)
     | Panic => Q w' Panic
     end) →
  ∀ w, deadline ≤ time w + (Z.of_nat n - 1) * interval →
  ∃ w' r, mloop (S n) body w = (w', omap_ok Some r) ∧ Q w' r.
Proof.
  intros Hi Hb w Hn.
  apply (mloop_ends time interval (deadline + interval)); [lia| |lia].
  intros v. destruct (Hb v) as (w' & r & E & Hr). exists w', r. split; [done|].
  destruct r as [[a|]|e|]; [done| |done|done]. destruct Hr as (t & ? & ?). lia.
Qed.

Section waits.
Context {W : Type} {FR : PrimeField fr_modulus} {P2 : Poseidon2Crate} `{HX : HexCrate}.
Context {JS : JsonCrate} {JT : JsonText} {JM : JsonMake}.
Context `{!Pxe W, !AztecNode W, !Clock W} `{!ToValue NodeTx, !ToValue Fr, !ToValue (list Fr)}.
Context (accounts : wallet.AccountProvider W) (time : W → Z).

(** Every call of the node and of the wallet's other partners is answered, with a value or
    an error, and the clock is paced. *)
Record answered : Prop := {
  an_paced : paced time Z.le;
  an_receipt h : timed time Z.le (get_tx_receipt h);
  an_block : timed time Z.le get_block_number;
  an_effect h : timed time Z.le (get_tx_effect h);
  an_witness b n : timed time Z.le (get_nullifier_membership_witness b n);
  an_valid v : timed time Z.le (is_valid_tx v);
  an_contract a : timed time Z.le (get_contract a);
  an_class c : timed time Z.le (get_contract_class c);
}.
Context (Ha : answered).

(** The result is not that the fuel is spent. *)
Definition fuel_left {X A : Type} (m : M X (option A)) : Prop := ∀ w, (m w).2 ≠ Ok None.

Lemma fuel_left_some {X A : Type} (a : A) : fuel_left (mok (Some a) : M X (option A)).
Proof. by intros w. Qed.
Lemma fuel_left_err {X A : Type} (e : Error) : fuel_left (mlift (Err e) : M X (option A)).
Proof. by intros w. Qed.
Lemma fuel_left_panic {X A : Type} : fuel_left (mlift Panic : M X (option A)).
Proof. by intros w. Qed.
Lemma fuel_left_then {X A B : Type} (m : M X A) (f : A → M X (option B)) :
  (∀ a, fuel_left (f a)) → fuel_left (let! a := m in f a).
Proof. intros Hf w. unfold mthen. destruct (m w) as [w' [a|e|]]; [apply Hf|done..]. Qed.
Lemma fuel_left_mtry {X A B : Type} (m : M X (option A)) (f : Outcome (option A) → M X (option B)) :
  fuel_left m → (∀ r, r ≠ Ok None → fuel_left (f r)) → fuel_left (let! a := mtry m in f a).
Proof.
  intros Hm Hf w. specialize (Hm w). unfold mthen, mtry.
  destruct (m w) as [w' [a|e|]]; cbn in Hm; [|by apply Hf|done]. apply Hf. congruence.
Qed.
Lemma fuel_left_opt {X A B : Type} (m : M X (option A)) (f : A → M X (option B)) :
  fuel_left m → (∀ a, fuel_left (f a)) → fuel_left (let?! a := m in f a).
Proof.
  intros Hm Hf w. specialize (Hm w). unfold mthen_opt, mthen.
  destruct (m w) as [w' [[a|]|e|]]; [apply Hf|by cbn in Hm|done..].
Qed.

(** A loop that starts at an instant read from the clock, from its rounds. *)
Lemma mloop_fuel {X A : Type} (clock : X → Z) (interval deadline : Z) (body : M X (option A)) (n : nat) :
  0 < interval →
  (∀ w, ∃ w' r, body w = (w', r) ∧
     (r = Ok None → ∃ t, clock w ≤ t < deadline ∧ t + interval ≤ clock w')) →
  ∀ w, deadline ≤ clock w + (Z.of_nat n - 1) * interval → (mloop (S n) body w).2 ≠ Ok None.
Proof.
  intros Hi Hb w Hn.
  destruct (mloop_deadline clock interval deadline body (λ _ _, True) n Hi) with (w := w)
    as (w' & r & -> & _); [|done|by destruct r].
  intros v. destruct (Hb v) as (w' & r & E & Hr). exists w', r. split; [done|].
  destruct r as [[a|]|e|]; [done|by apply Hr|done..].
Qed.

(** The end of a round: past the deadline [fin], before it a sleep and another round. *)
Lemma round_end {A : Type} (past : Z → bool) (deadline interval : Z) (fin : M W (option A)) (v : W) :
  (∀ t, past t = false → t < deadline) → 0 ≤ interval → (∀ w, (fin w).2 ≠ Ok None) →
  ∃ v' r, (let! t := now in if past t then fin else sleep interval ;;! mok None) v = (v', r) ∧
    (r = Ok None → ∃ t, time v ≤ t < deadline ∧ t + interval ≤ time v').
Proof.
  intros Hpast Hi Hf. destruct (an_paced Ha) as [Hnow Hsleep]. unfold mthen.
  destruct (Hnow v) as (v1 & -> & Ht). destruct (past (time v1)) eqn:Ep.
  - specialize (Hf v1). destruct (fin v1) as [v2 r]. by exists v2, r.
  - destruct (Hsleep interval v1 Hi) as (v2 & -> & Ht2). eexists _, _. split; [done|].
    intros _. exists (time v1). split; [|done]. split; [done|by apply Hpast].
Qed.

(** The start of a loop with a deadline. *)
Lemma deadline_fuel {A : Type} (timeout : Z) (loop : Z → Z → M W (option A)) :
  (∀ w, (loop (time w) (time w + timeout) w).2 ≠ Ok None) →
  fuel_left (let! t := now in let! deadline := mlift (instant_add W t timeout) in loop t deadline).
Proof.
  intros Hl w. unfold mthen, mlift, instant_add. destruct (an_paced Ha) as [Hnow _].
  destruct (Hnow w) as (w1 & -> & _). destruct (_ <=? _); [apply Hl|done].
Qed.

Lemma validate_fuel (tx_json : json_value) :
  fuel_left (validate_tx_when_anchor_available (W := W) wallet_fuel tx_json).
Proof.
  apply (deadline_fuel _ (λ _ deadline, mloop _ (validate_body tx_json deadline))). intros w.
  apply (mloop_fuel time (from_millis 500) (time w + from_secs 300)); [done| |unfold from_secs, from_millis; lia].
  intros v. unfold validate_body, mthen at 1.
  destruct (an_valid Ha tx_json v) as (v1 & r & -> & Hr & Ht). destruct r as [res|e|]; [|by eexists _, _|done].
  destruct (negb _); [by eexists _, _|].
  destruct (round_end (λ t, time w + from_secs 300 <=? t) (time w + from_secs 300) (from_millis 500)
    (mok (Some res)) v1) as (v' & r & E & HN); [intros; lia|done|done|].
  exists v', r. split; [exact E|]. intros H. destruct (HN H) as (t & ? & ?). exists t. lia.
Qed.

Lemma world_state_fuel (hash : TxHash) : fuel_left (wait_for_world_state (W := W) wallet_fuel hash).
Proof.
  unfold wait_for_world_state. apply fuel_left_then. intros answer.
  destruct answer as [[effect|]|e|]; [|by apply fuel_left_then; intros ?; apply fuel_left_some..|
    by apply fuel_left_then; intros ?; apply fuel_left_some|apply fuel_left_panic].
  cbv zeta. destruct (json_pointer effect _ ≫= _) as [text|]; cbn [mbind option_bind];
    [|by apply fuel_left_then; intros ?; apply fuel_left_some].
  destruct (Fr_from_hex text) as [nullifier|e|]; cbn [mbind option_bind];
    [|by apply fuel_left_then; intros ?; apply fuel_left_some..].
  apply (deadline_fuel _ (λ _ deadline, mloop _ (world_state_body nullifier deadline))). intros w.
  apply (mloop_fuel time (from_millis 200) (time w + from_secs 15)); [done| |unfold from_secs, from_millis; lia].
  intros v. unfold world_state_body, mthen at 1, mtry.
  destruct (an_witness Ha 0 nullifier v) as (v1 & r & -> & Hr & Ht).
  destruct (round_end (λ t, time w + from_secs 15 <=? t) (time w + from_secs 15) (from_millis 200)
    (mok (Some ())) v1) as (v' & r' & E & HN); [intros; lia|done|done|].
  assert (r' = Ok None → ∃ t, time v ≤ t < time w + from_secs 15 ∧ t + from_millis 200 ≤ time v') as HN'.
  { intros H. destruct (HN H) as (t & ? & ?). exists t. lia. }
  destruct r as [[x|]|e|]; [by eexists _, _|by exists v', r'|by exists v', r'|done].
Qed.

Lemma wait_for_tx_fuel (hash : TxHash) (opts : WaitOpts) :
  0 < wo_interval opts → wo_timeout opts ≤ 601 * wo_interval opts →
  fuel_left (wait_for_tx (W := W) wallet_fuel hash opts).
Proof.
  intros Hi Ht.
  apply (deadline_fuel _ (λ start deadline, mloop _ (wait_for_tx_body hash opts start deadline))). intros w.
  destruct (mloop_ends time (wo_interval opts) (time w + wo_timeout opts)
    (wait_for_tx_body hash opts (time w) (time w + wo_timeout opts)) (tx_answer time hash opts) 601) with (w := w)
    as (w' & r & E & _); [lia| |lia|].
  - intros v. apply wait_for_tx_round; [apply (an_paced Ha)|apply (an_receipt Ha)|done].
  - unfold wallet_fuel. by rewrite E; destruct r.
Qed.

(** The two halves of a world with a component. *)
Lemma in_fst_now (v : W * Z) : ∃ v1, in_fst (S := Z) now v = ((v1, v.2), Ok (time v1)) ∧ time v.1 ≤ time v1.
Proof.
  destruct (an_paced Ha) as [Hnow _]. unfold in_fst. destruct (Hnow v.1) as (v1 & -> & ?). by exists v1.
Qed.

Lemma checkpoint_round (hash : TxHash) (start_block deadline : Z) (v : W * Z) :
  ∃ v' r, checkpoint_body hash start_block deadline v = (v', r) ∧
    (r = Ok None → ∃ t, time v.1 ≤ t < deadline ∧ t + from_millis 500 ≤ time v'.1).
Proof.
  assert (∀ u : W * Z, time v.1 ≤ time u.1 → ∃ v' r,
    (let! current_block := in_fst get_block_number in
     if start_block <? current_block then mok (Some ())
     else
       let! t := in_fst now in
       if deadline <=? t then
         mlift (Err (Timeout "transaction was submitted but did not become checkpoint-visible"))
       else in_fst (sleep (from_millis 500)) ;;! mok None) u = (v', r) ∧
    (r = Ok None → ∃ t, time v.1 ≤ t < deadline ∧ t + from_millis 500 ≤ time v'.1)) as Hend.
  { intros u Hu. unfold mthen at 1. unfold in_fst at 1.
    destruct (an_block Ha u.1) as (u1 & rb & -> & Hrb & Hu1). destruct rb as [b|e|]; [|by eexists _, _|done].
    destruct (start_block <? b); [by eexists _, _|]. unfold mthen at 1.
    destruct (in_fst_now (u1, u.2)) as (u2 & -> & Hu2). cbn [fst] in Hu2.
    destruct (Z.leb_spec deadline (time u2)); [by eexists _, _|].
    unfold mthen, in_fst. destruct (proj2 (an_paced Ha) (from_millis 500) u2) as (u3 & E & Hu3); [done|].
    cbn [fst snd]. rewrite E. eexists _, _. split; [done|]. intros _. exists (time u2). cbn [fst]. lia. }
  unfold checkpoint_body, mthen at 1. unfold in_fst at 1, mtry at 1.
  destruct (an_receipt Ha hash v.1) as (v1 & ra & -> & Hra & Hv1).
  assert (∀ u : W * Z, time v.1 ≤ time u.1 → ∃ v' r,
    (let! _ :=
       let! t := in_fst now in
       let! next_log := in_snd (λ n, (n, n)) in
       if next_log <=? t then
         let! t' := in_fst now in
         let! next := mlift (instant_add W t' (from_secs 2)) in
         in_snd (λ _, (next, ()))
       else mok () in
     let! current_block := in_fst get_block_number in
     if start_block <? current_block then mok (Some ())
     else
       let! t := in_fst now in
       if deadline <=? t then
         mlift (Err (Timeout "transaction was submitted but did not become checkpoint-visible"))
       else in_fst (sleep (from_millis 500)) ;;! mok None) u = (v', r) ∧
    (r = Ok None → ∃ t, time v.1 ≤ t < deadline ∧ t + from_millis 500 ≤ time v'.1)) as Hlog.
  { intros u Hu. unfold mthen at 1 2. destruct (in_fst_now u) as (u1 & -> & Hu1).
    unfold mthen at 1, in_snd at 1. cbn [fst snd].
    destruct (u.2 <=? time u1); [|apply Hend; cbn; lia].
    unfold mthen at 1. destruct (in_fst_now (u1, u.2)) as (u2 & -> & Hu2). cbn [fst snd] in Hu2 |- *.
    unfold mthen at 1, mlift, instant_add. destruct (_ <=? _); [|by eexists _, _].
    unfold in_snd. apply Hend. cbn. lia. }
  destruct ra as [r|e|]; [apply Hlog; cbn; lia..|done].
Qed.

Lemma submission_fuel (hash : TxHash) : fuel_left (wait_for_submission_checkpoint (W := W) wallet_fuel hash).
Proof.
  unfold wait_for_submission_checkpoint. apply fuel_left_then. intros block.
  apply fuel_left_then. intros start_block. apply fuel_left_mtry; [by apply wait_for_tx_fuel|].
  intros waited Hw. apply fuel_left_opt; [|intros; apply world_state_fuel].
  assert (fuel_left (X := W)
    (let! t := now in
     let! deadline := mlift (instant_add W t (from_secs 30)) in
     let! next_log := now in
     with_component next_log (mloop wallet_fuel (checkpoint_body hash start_block deadline)))) as Hloop.
  { apply (deadline_fuel _ (λ _ deadline, let! next_log := now in
      with_component next_log (mloop wallet_fuel (checkpoint_body hash start_block deadline)))).
    intros w. unfold mthen. destruct (proj1 (an_paced Ha) w) as (w1 & -> & Hw1). unfold with_component.
    pose proof (mloop_fuel (λ v : W * Z, time v.1) (from_millis 500) (time w + from_secs 30)
      (checkpoint_body hash start_block (time w + from_secs 30)) 601) as Hm.
    specialize (Hm ltac:(done) (checkpoint_round hash start_block _) (w1, time w1)).
    unfold wallet_fuel. destruct (mloop 602 _ (w1, time w1)) as [[w2 c] r]. apply Hm.
    cbn. unfold from_secs, from_millis. lia. }
  destruct waited as [[receipt|]|[]|]; try done; try apply Hloop; intros w; done.
Qed.

Lemma contract_round (address : AztecAddress) (start : Z) (v : W) :
  ∃ v' r, wait_for_contract_body address start v = (v', r) ∧
    (r = Ok None → ∃ t, time v ≤ t < start + from_secs 30 ∧ t + from_millis 250 ≤ time v').
Proof.
  assert (∀ w, ∃ w' r, contract_visible address w = (w', r) ∧ time w ≤ time w') as Hvis.
  { intros w. unfold contract_visible, mthen at 1.
    destruct (an_contract Ha address w) as (w1 & r & -> & Hr & Ht).
    destruct r as [[c|]|e|]; [|by eexists _, _|by eexists _, _|done].
    unfold mthen. destruct (an_class Ha (ci_current_contract_class_id (instance_inner c)) w1)
      as (w2 & r2 & -> & Hr2 & Ht2). destruct r2; eexists _, _; (split; [done|lia]). }
  unfold wait_for_contract_body, mthen at 1, contract_stable. unfold mthen at 1.
  destruct (Hvis v) as (v1 & r & -> & Hv1). destruct r as [first|e|]; [|by eexists _, _..].
  assert (∀ u, time v ≤ time u → ∃ v' r,
    (let! t := now in
     if from_secs 30 <=? Z.max 0 (t - start) then
       mlift (Err (Timeout ("contract " +:+ Fr_to_string address
         +:+ " did not become node-visible within " +:+ Duration_debug (from_secs 30))))
     else sleep (from_millis 250) ;;! mok (A := option ()) None) u = (v', r) ∧
    (r = Ok None → ∃ t, time v ≤ t < start + from_secs 30 ∧ t + from_millis 250 ≤ time v')) as Hend.
  { intros u Hu.
    destruct (round_end (λ t, from_secs 30 <=? Z.max 0 (t - start)) (start + from_secs 30) (from_millis 250)
      (mlift (Err (Timeout ("contract " +:+ Fr_to_string address
         +:+ " did not become node-visible within " +:+ Duration_debug (from_secs 30)))) : M W (option ())) u)
      as (v' & r & E & HN); [intros t ?%Z.leb_gt; unfold from_secs in *; lia|done|done|].
    exists v', r. split; [exact E|]. intros H. destruct (HN H) as (t & ? & ?). exists t. lia. }
  destruct first; [|by apply Hend]. unfold mthen at 1.
  destruct (proj2 (an_paced Ha) (from_secs 2) v1) as (v2 & -> & Hv2); [done|].
  destruct (Hvis v2) as (v3 & r & -> & Hv3). unfold from_secs in Hv2.
  destruct r as [[]|e|]; [by eexists _, _|apply Hend; lia|by eexists _, _..].
Qed.

(** C18: the wallet's waits end.  However the node answers, as long as its answers come and
    the clock goes on, submitting a transaction (the preflight validation, the wait for
    inclusion, the wait for a new block and the wait for the world state included),
    waiting for a contract and waiting for a proof return, fail or report that the
    platform's clock ran over within [wallet_fuel] rounds of each loop: the fuel with
    which [base_wallet] runs its loops is never spent. *)
Theorem wallet_waits_end (exec : ExecutionPayload) (opts : wallet.SendOptions)
    (address : AztecAddress) (hash : TxHash) (w : W) :
  (bw_send_tx accounts wallet_fuel exec opts w).2 ≠ Ok None ∧
  (bw_wait_for_contract wallet_fuel address w).2 ≠ Ok None ∧
  (bw_wait_for_tx_proven wallet_fuel hash w).2 ≠ Ok None.
Proof.
  split_and!.
  - revert w. apply fuel_left_opt.
    + unfold prove_and_check. do 5 (apply fuel_left_then; intros ?).
      apply fuel_left_opt; [apply validate_fuel|].
      intros []; [apply fuel_left_some|apply fuel_left_err|apply fuel_left_some].
    + intros [h tx_json]. apply fuel_left_then. intros _.
      apply fuel_left_opt; [apply submission_fuel|intros _; apply fuel_left_some].
  - unfold bw_wait_for_contract, mthen. destruct (proj1 (an_paced Ha) w) as (w1 & -> & _).
    apply (mloop_fuel time (from_millis 250) (time w1 + from_secs 30)); [done|apply contract_round|].
    unfold from_secs, from_millis. lia.
  - revert w. apply fuel_left_opt; [by apply wait_for_tx_fuel|intros _; apply fuel_left_some].
Qed.
End waits.

(** ** What is sent *)

Lemma mloop_result {X A : Type} (body : M X (option A)) (n : nat) (w w' : X) (a : A) :
  mloop n body w = (w', Ok (Some a)) → ∃ v, body v = (w', Ok (Some a)).
Proof.
  revert w. induction n as [|n IH]; intros w; cbn [mloop]; [done|]. unfold mthen.
  destruct (body w) as [w1 [[b|]|e|]] eqn:E; [|apply IH|done..]. intros [= <- <-]. by exists w.
Qed.

Lemma mthen_opt_eq {X A B : Type} (m : M X (option A)) (f : A → M X (option B)) (w : X) :
  mthen_opt m f w =
  match m w with
  | (w1, Ok (Some a)) => f a w1
  | (w1, Ok None) => (w1, Ok None)
  | (w1, Err e) => (w1, Err e)
  | (w1, Panic) => (w1, Panic)
  end.
Proof. unfold mthen_opt, mthen. by destruct (m w) as [w1 [[a|]|e|]]. Qed.

Section sends.
Context {W : Type} {FR : PrimeField fr_modulus} {P2 : Poseidon2Crate} `{HX : HexCrate}.
Context {JS : JsonCrate} {JT : JsonText} {JM : JsonMake}.
Context `{!Pxe W, !AztecNode W, !Clock W} `{!ToValue NodeTx, !ToValue Fr, !ToValue (list Fr)}.
Context (accounts : wallet.AccountProvider W).

(** A validation that is not a rejection is the node's last answer. *)
Lemma validated (fuel : nat) (tx_json : json_value) (w w' : W) (v : TxValidationResult) :
  validate_tx_when_anchor_available fuel tx_json w = (w', Ok (Some v)) →
  (∀ reason, v ≠ Invalid reason) → ∃ w1, is_valid_tx tx_json w1 = (w', Ok v).
Proof.
  unfold validate_tx_when_anchor_available, mthen. destruct (now w) as [w1 [t|e|]]; [|done..].
  unfold mlift. destruct (instant_add W t _) as [deadline|e|]; [|done..].
  intros (w2 & Hb)%mloop_result Hv. exists w2. unfold validate_body, mthen in Hb.
  destruct (is_valid_tx tx_json w2) as [w3 [r|e|]]; [|done..].
  assert (is_anchor_header_validation_lag r = true → v ≠ r) as Hlag.
  { intros H ->. destruct r as [|reason|reason]; [done|by apply (Hv reason)|done]. }
  unfold mok in Hb. destruct (is_anchor_header_validation_lag r); cbn [negb] in Hb; [|by simplify_eq].
  destruct (now w3) as [w4 [t'|e|]]; [|done..].
  destruct (deadline <=? t'); [|by destruct (sleep _ w4) as [w5 [[]|e|]]].
  injection Hb as _ ->. by destruct Hlag.
Qed.

(** [hash] and [tx_json] come from a proof that the PXE made of the account's request for
    the payload, and the node answered in [w'] that the transaction is not invalid. *)
Definition proved_and_accepted (exec : ExecutionPayload) (opts : wallet.SendOptions) (w w' : W)
    (hash : TxHash) (tx_json : json_value) : Prop :=
  ∃ w1 w2 w3 request proven validation,
    account_request accounts (wallet.sd_from opts) (send_payload exec opts) (wallet.sd_gas_settings opts)
      (ep_fee_payer (send_payload exec opts)) ((λ _, 2) <$> wallet.sd_fee_execution_payload opts) w
    = (w1, Ok request) ∧
    pxe.prove_tx request (build_scopes (wallet.sd_from opts) (wallet.sd_additional_scopes opts)) w1
    = (w2, Ok proven) ∧
    pxe.pr_tx_hash proven = Some hash ∧ to_json_value (pxe.to_tx proven) = Ok tx_json ∧
    is_valid_tx tx_json w3 = (w', Ok validation) ∧ ∀ reason, validation ≠ Invalid reason.

Lemma prove_and_check_ok (fuel : nat) (exec : ExecutionPayload) (opts : wallet.SendOptions) (w w' : W)
    (hash : TxHash) (tx_json : json_value) :
  prove_and_check accounts fuel exec opts w = (w', Ok (Some (hash, tx_json))) →
  proved_and_accepted exec opts w w' hash tx_json.
Proof.
  unfold prove_and_check, mthen at 1.
  destruct (account_request _ _ _ _ _ _ w) as [w1 [request|e|]] eqn:E1; [|done..].
  unfold mthen at 1. destruct (pxe.prove_tx request _ w1) as [w2 [proven|e|]] eqn:E2; [|done..].
  unfold mthen at 1, mlift at 1. destruct (pxe.pr_tx_hash proven) as [h|] eqn:E3; [|done]. cbn [ok_or].
  unfold mthen at 1, mlift at 1. destruct (to_json_value (pxe.to_tx proven)) as [v|e|] eqn:E4; [|done..].
  unfold mthen at 1. destruct (preflight h (pxe.to_tx proven) v w2) as [w3 [[]|e|]]; [|done..].
  unfold mthen_opt, mthen at 1.
  destruct (validate_tx_when_anchor_available fuel v w3) as [w4 [[validation|]|e|]] eqn:E5; [|done..].
  intros H. assert (w4 = w' ∧ h = hash ∧ v = tx_json ∧ ∀ reason, validation ≠ Invalid reason)
    as (-> & -> & -> & Hv)
    by (destruct validation; unfold mok, mlift in H; [injection H as -> -> ->|done|injection H as -> -> ->];
        by split_and!).
  destruct (validated _ _ _ _ _ E5 Hv) as (w5 & E6).
  by exists w1, w2, w5, request, proven, validation.
Qed.


(** An interaction that is sent with a fee payload through this wallet makes the
    account execute the fee calls twice: the interaction appends them to its payload and
    the wallet appends them again, while the payload sent without the interaction has
    them once. *)
Theorem interaction_fee_twice (call : FunctionCall) (opts : wallet.SendOptions)
    (fee : ExecutionPayload) (w : W) :
  wallet.sd_fee_execution_payload opts = Some fee →
  let self := interaction_new (base_wallet accounts) call in
  let payload := extend_payload (single_call_payload call) fee in
  interaction_send self opts w = fueled (bw_send_tx accounts wallet_fuel payload opts) w ∧
  ep_calls (send_payload payload opts) = [call] ++ ep_calls fee ++ ep_calls fee ∧
  ep_calls (send_payload (single_call_payload call) opts) = [call] ++ ep_calls fee.
Proof.
  intros Hfee self payload. unfold interaction_send, mthen, mlift. cbn [interaction_request self].
  rewrite Hfee. cbn [merge_fee_payload]. split; [done|]. unfold send_payload. rewrite Hfee. by split.
Qed.
End sends.

(** ** A wallet whose node and PXE are mostly offline *)

Section examples.
Import Concrete.Instances.
#[local] Existing Instance concrete_json.
#[local] Existing Instance slow_clock.
#[local] Existing Instance slow_node.

#[local] Instance offline_pxe : Pxe Z := {|
  pxe.get_synced_block_header := offline; pxe.get_contract_instance _ := offline;
  pxe.get_contract_artifact _ := offline; pxe.get_contracts := offline;
  pxe.register_account _ _ := offline; pxe.get_registered_accounts := offline;
  pxe.register_sender _ := offline; pxe.get_senders := offline; pxe.remove_sender _ := offline;
  pxe.register_contract_class _ := offline; pxe.register_contract _ := offline;
  pxe.update_contract _ _ := offline; pxe.simulate_tx _ _ := offline; pxe.prove_tx _ _ := offline;
  pxe.profile_tx _ _ := offline; pxe.execute_utility _ _ := offline;
  pxe.get_private_events _ _ := offline; pxe.stop := offline |}.
#[local] Instance null_make : JsonMake := {| json_of _ := JNull |}.
#[local] Instance null_value (T : Type) : ToValue T := {| to_value _ := inr JNull |}.

Definition no_accounts : wallet.AccountProvider Z :=
  {| wallet.ap_create_tx_execution_request _ _ _ _ _ _ := offline;
     wallet.ap_create_auth_wit _ _ _ := offline; wallet.ap_get_complete_address _ := offline;
     wallet.ap_get_accounts := offline |}.

Lemma timed_offline {A : Type} : timed (λ w : Z, w) Z.le (offline : M Z A).
Proof. intros w. by exists w, (Err (Transport "offline")). Qed.

Lemma slow_answered : answered (λ w : Z, w).
Proof.
  split; [apply slow_paced; intros; lia| |intros; apply timed_offline..].
  intros h w. do 2 eexists. split; [reflexivity|]. split; [by destruct (w <? _)|simpl; lia].
Qed.

Lemma wallet_waits_end_witness :
  answered (λ w : Z, w) ∧ (bw_wait_for_tx_proven wallet_fuel TxHash_zero 0).2 ≠ Ok None ∧
  (wait_for_tx wallet_fuel TxHash_zero proven_wait_opts 0).2
  = Err (Reverted ("tx " +:+ TxHash_to_string TxHash_zero +:+ " execution reverted: unknown reason")).
Proof.
  split; [exact slow_answered|]. split; [|vm_compute; reflexivity].
  apply (wallet_waits_end no_accounts (λ w : Z, w) slow_answered ExecutionPayload_default
    wallet.SendOptions_default Fr_zero TxHash_zero 0).
Defined.

Definition sponsored : ExecutionPayload := single_call_payload FunctionCall_empty.
Definition sponsored_options : wallet.SendOptions :=
  {| wallet.sd_from := Fr_zero; wallet.sd_auth_witnesses := []; wallet.sd_capsules := [];
     wallet.sd_additional_scopes := []; wallet.sd_gas_settings := None;
     wallet.sd_fee_execution_payload := Some sponsored |}.

Lemma interaction_fee_twice_witness :
  ep_calls (send_payload (extend_payload sponsored sponsored) sponsored_options)
  = [FunctionCall_empty] ++ [FunctionCall_empty] ++ [FunctionCall_empty].
Proof. apply (interaction_fee_twice no_accounts FunctionCall_empty sponsored_options sponsored 0 eq_refl). Defined.
End examples.
