(* ===== verification/L1Client.v ===== *)
(** [crates/ethereum/src/l1_client.rs]: the JSON-RPC client of an Ethereum node, the calldata
    of the contracts that Aztec has there, sending a message through the inbox and bridging
    fee juice. *)

From Stdlib Require Import Ascii String.
From S2P Require Import Prelude Bytes Ordered Deps Concrete Types Constants Poseidon Tx Kv Rpc Node Entrypoint Host Messaging BaseWallet.

(** ** The crates behind the client

    [plain_post] is one POST of a JSON body without a timeout, which answers a response or
    the [Display] text of an error; [keccak256] is the digest of [sha3]. *)
Class PlainHttp (W : Type) `{JS : JsonCrate} := {
  plain_response : Type;
  plain_post : string → json_value → M W (string + plain_response);
  plain_json : plain_response → string + json_value;
}.
#[global] Hint Mode PlainHttp ! - : typeclass_instances.

Class KeccakCrate := {
  keccak256 : list byte → list byte;
  keccak256_length bs : length (keccak256 bs) = 32%nat;
}.

(** ** Calldata *)

Section calldata.
Context {FR : PrimeField fr_modulus} {HX : HexCrate} {KC : KeccakCrate}.

(** [hex::decode(text.strip_prefix("0x").unwrap_or(text)).unwrap_or_default()]. *)
Definition hex_bytes (text : string) : list byte :=
  match hex_decode (default text (strip_prefix "0x" text)) with inr bytes => bytes | inl _ => [] end.

(** [copy_from_slice] at the end of 32 zero bytes: more than 32 bytes do not fit. *)
Definition padded_32 (bytes : list byte) : Outcome (list byte) :=
  if (length bytes <=? 32)%nat then Ok (left_pad 32 bytes) else Panic.

Definition calldata_text (bytes : list byte) : string := "0x" +:+ hex_encode bytes.

Definition keccak_selector (sig : string) : list byte := take 4 (keccak256 (as_bytes sig)).

Definition uint256_u64 (n : Z) : list byte := replicate 24 zero_byte ++ be_bytes 8 n.
Definition uint256_u128 (n : Z) : list byte := replicate 16 zero_byte ++ be_bytes 16 n.

Definition encode_send_l2_message (recipient : AztecAddress) (rollup_version : Z)
    (content secret_hash : Fr) : string :=
  calldata_text (keccak_selector "sendL2Message((bytes32,uint256),bytes32,bytes32)"
    ++ Fr_to_be_bytes recipient ++ uint256_u64 rollup_version
    ++ Fr_to_be_bytes content ++ Fr_to_be_bytes secret_hash).

Definition encode_mint (to : string) : Outcome string :=
  let? padded := padded_32 (hex_bytes to) in
  Ok (calldata_text (keccak_selector "mint(address)" ++ padded)).

Definition encode_approve (spender : string) (amount : Z) : Outcome string :=
  let? padded := padded_32 (hex_bytes spender) in
  Ok (calldata_text (keccak_selector "approve(address,uint256)" ++ padded ++ uint256_u128 amount)).

Definition encode_deposit_to_aztec_public (to : AztecAddress) (amount : Z) (secret_hash : Fr) : string :=
  calldata_text (keccak_selector "depositToAztecPublic(bytes32,uint256,bytes32)"
    ++ Fr_to_be_bytes to ++ uint256_u128 amount ++ Fr_to_be_bytes secret_hash).

Definition encode_mint_amount : string := calldata_text (keccak_selector "mintAmount()").

(** The first topic of a [MessageSent] event. *)
Definition message_sent_sig : string :=
  calldata_text (keccak256 (as_bytes "MessageSent(uint256,uint256,bytes32,bytes16)")).
End calldata.

(** ** The client *)

Section client.
Context {W : Type} {FR : PrimeField fr_modulus} {HX : HexCrate} {KC : KeccakCrate} {P2 : Poseidon2Crate}.
Context `{JT : JsonText} {JM : JsonMake} `{PH : !PlainHttp W} `{CL : !Clock W} `{RW : !RandCrate W}.
Context `{HS : !HostSystem W}.

Record L1ContractAddresses := {
  l1_inbox : string;
  l1_outbox : string;
  l1_rollup : string;
  l1_fee_juice_portal : string;
  l1_fee_juice : option string;
  l1_fee_asset_handler : option string;
}.

Definition text_at (json : json_value) (member : string) : option string :=
  json_get json member ≫= json_as_str.

Definition L1ContractAddresses_from_json (json : json_value) : option L1ContractAddresses :=
  inbox ← text_at json "inboxAddress";
  outbox ← text_at json "outboxAddress";
  rollup ← text_at json "rollupAddress";
  portal ← text_at json "feeJuicePortalAddress";
  Some {| l1_inbox := inbox; l1_outbox := outbox; l1_rollup := rollup; l1_fee_juice_portal := portal;
          l1_fee_juice := text_at json "feeJuiceAddress";
          l1_fee_asset_handler := text_at json "feeAssetHandlerAddress" |}.

Record L1ToL2MessageSentResult := {
  ms_msg_hash : Fr;
  ms_global_leaf_index : Fr;
  ms_tx_hash : string;
}.

Record EthClient := { ec_url : string }.
Definition EthClient_new (url : string) : EthClient := {| ec_url := url |}.

Definition EthClient_default_url : M W string :=
  let! given := env_var "ETHEREUM_HOST" in mok (default "http://localhost:8545" given).

Section calls.
Context (self : EthClient).

(** [json["result"]]: null where there is none.  An error member is an error even when it is
    null. *)
Definition rpc_call (method : string) (params : JsonTree) : M W json_value :=
  let body := json_of (TObject [("jsonrpc", TString "2.0"); ("method", TString method);
                                ("params", params); ("id", TNumber "1")]) in
  let! sent := plain_post (ec_url self) body in
  let! response := mlift match sent with
    | inl e => Err (InvalidData ("L1 RPC error: " +:+ e)) | inr response => Ok response end in
  let! json := mlift match plain_json response with
    | inl e => Err (InvalidData ("L1 RPC parse error: " +:+ e)) | inr json => Ok json end in
  match json_get json "error" with
  | Some err => mlift (Err (InvalidData ("L1 RPC error: " +:+ json_display (json_tree err))))
  | None => mok (default (json_of TNull) (json_get json "result"))
  end.

Definition get_account : M W string :=
  let! result := rpc_call "eth_accounts" (TArray []) in
  mlift (ok_or ((json_as_array result ≫= head) ≫= json_as_str) (InvalidData "no L1 accounts available")).

Definition send_transaction (to data from : string) : M W string :=
  let! result := rpc_call "eth_sendTransaction"
    (TArray [TObject [("from", TString from); ("to", TString to); ("data", TString data);
                      ("gas", TString "0xf4240")]]) in
  mlift (ok_or (json_as_str result) (InvalidData "no tx hash in response")).

(** [rounds] of the 60. *)
Fixpoint poll_receipt (rounds : nat) (tx_hash : string) : M W json_value :=
  match rounds with
  | 0%nat => mlift (Err (Timeout "L1 tx receipt not available after 30s"))
  | S n =>
      let! result := rpc_call "eth_getTransactionReceipt" (TArray [TString tx_hash]) in
      if json_is_null result then sleep (from_millis 500) ;;! poll_receipt n tx_hash
      else mok result
  end.

Definition wait_for_receipt (tx_hash : string) : M W json_value := poll_receipt 60 tx_hash.
End calls.

(** *** Events *)

Definition receipt_status (receipt : json_value) : string := default "0x0" (text_at receipt "status").

(** The topics of a log, when it is a [MessageSent] event. *)
Definition message_sent_topics (log : json_value) : option (list json_value) :=
  let topics := default [] (json_get log "topics" ≫= json_as_array) in
  match topics with
  | topic0 :: _ :: _ :: _ =>
      if String.eqb (default "" (json_as_str topic0)) message_sent_sig then Some topics else None
  | _ => None
  end.

(** The first log that is one, with its topics. *)
Fixpoint find_message_sent (logs : list json_value) : option (json_value * list json_value) :=
  match logs with
  | [] => None
  | log :: logs' =>
      match message_sent_topics log with
      | Some topics => Some (log, topics)
      | None => find_message_sent logs'
      end
  end.

(** The hash in the third topic. *)
Definition message_sent_hash (topics : list json_value) : Outcome Fr :=
  let hash_hex := default "0x0" (topics !! 2%nat ≫= json_as_str) in
  let? hsh := padded_32 (hex_bytes hash_hex) in
  Ok (Fr_from_bytes32 hsh).

Definition log_data (log : json_value) : list byte := hex_bytes (default "0x" (text_at log "data")).

Definition send_l1_to_l2_message (eth_client : EthClient) (inbox_address : string)
    (recipient : AztecAddress) (rollup_version : Z) (content secret_hash : Fr)
    : M W L1ToL2MessageSentResult :=
  let! from := get_account eth_client in
  let calldata := encode_send_l2_message recipient rollup_version content secret_hash in
  let! tx_hash := send_transaction eth_client inbox_address calldata from in
  let! receipt := wait_for_receipt eth_client tx_hash in
  let status := receipt_status receipt in
  if negb (String.eqb status "0x1") then
    mlift (Err (InvalidData ("L1 tx " +:+ tx_hash +:+ " failed with status " +:+ status)))
  else
    let! logs := mlift (ok_or (json_get receipt "logs" ≫= json_as_array)
                          (InvalidData "no logs in L1 receipt")) in
    match find_message_sent logs with
    | None => mlift (Err (InvalidData "no MessageSent event found in L1 receipt"))
    | Some (log, topics) =>
        let! msg_hash := mlift (message_sent_hash topics) in
        let data_bytes := log_data log in
        let idx := if (32 <=? length data_bytes)%nat then take 32 data_bytes
                   else replicate 32 zero_byte in
        mok {| ms_msg_hash := msg_hash; ms_global_leaf_index := Fr_from_bytes32 idx;
               ms_tx_hash := tx_hash |}
    end.

(** *** Fee juice *)

Record FeeJuiceBridgeResult := {
  fj_claim_amount : Z;
  fj_claim_secret : Fr;
  fj_message_leaf_index : Z;
  fj_message_hash : Fr;
}.

(** [.map_err(|e| InvalidData(format!("{what} failed: {e}")))]. *)
Definition or_failed {A : Type} (what : string) (m : M W A) : M W A :=
  let! tried := mtry m in
  match tried with
  | Err e => mlift (Err (InvalidData (what +:+ " failed: " +:+ Error_display e)))
  | other => mlift other
  end.

(** The amount that a mint gives. *)
Definition query_mint_amount (eth_client : EthClient) (handler_address : string) : M W Z :=
  let! result := or_failed "mintAmount() call"
    (rpc_call eth_client "eth_call"
       (TArray [TObject [("to", TString handler_address); ("data", TString encode_mint_amount)];
                TString "latest"])) in
  let bytes := hex_bytes (default "0x0" (json_as_str result)) in
  if (32 <=? length bytes)%nat then mok (be_Z (take 16 (drop 16 bytes)))
  else mlift (Err (InvalidData ("mintAmount() returned invalid data ("
                                +:+ pretty (Z.of_nat (length bytes)) +:+ " bytes)"))).

(** One transaction, sent and waited for; its receipt when it did not revert. *)
Definition confirmed_transaction (eth_client : EthClient) (label to data from : string) : M W json_value :=
  let! tx_hash := or_failed (label +:+ " tx send") (send_transaction eth_client to data from) in
  let! receipt := wait_for_receipt eth_client tx_hash in
  let status := receipt_status receipt in
  if negb (String.eqb status "0x1") then
    mlift (Err (InvalidData (label +:+ " tx reverted: " +:+ status)))
  else mok receipt.

Definition prepare_fee_juice_on_l1 (eth_client : EthClient) (l1_addresses : L1ContractAddresses)
    (recipient : AztecAddress) : M W FeeJuiceBridgeResult :=
  let! fee_juice_address := mlift (ok_or (l1_fee_juice l1_addresses)
    (InvalidData "feeJuiceAddress not in node info")) in
  let! handler_address := mlift (ok_or (l1_fee_asset_handler l1_addresses)
    (InvalidData "feeAssetHandlerAddress not in node info")) in
  let portal_address := l1_fee_juice_portal l1_addresses in
  let! from := get_account eth_client in
  let! mint_amount := query_mint_amount eth_client handler_address in
  let! mint_data := mlift (encode_mint from) in
  let! _ := confirmed_transaction eth_client "mint" handler_address mint_data from in
  let! approve_data := mlift (encode_approve portal_address mint_amount) in
  let! _ := confirmed_transaction eth_client "approve" fee_juice_address approve_data from in
  let! secrets := generate_claim_secret in
  let '(claim_secret, claim_secret_hash) := secrets in
  let deposit_data := encode_deposit_to_aztec_public recipient mint_amount claim_secret_hash in
  let! receipt := confirmed_transaction eth_client "depositToAztecPublic" portal_address deposit_data from in
  let! logs := mlift (ok_or (json_get receipt "logs" ≫= json_as_array)
                        (InvalidData "no logs in depositToAztecPublic receipt")) in
  match find_message_sent logs with
  | None => mlift (Err (InvalidData "no MessageSent event found in deposit receipt"))
  | Some (log, topics) =>
      let! message_hash := mlift (message_sent_hash topics) in
      let data_bytes := log_data log in
      let message_leaf_index := if (32 <=? length data_bytes)%nat then be_Z (take 8 (drop 24 data_bytes))
                                else 0 in
      mok {| fj_claim_amount := mint_amount; fj_claim_secret := claim_secret;
             fj_message_leaf_index := message_leaf_index; fj_message_hash := message_hash |}
  end.
End client.
