(* ===== verification/L1Spec.v ===== *)
(** What the client of Ethereum promises: its calldata says what it is asked for, the wait
    for a message ends, and a bridge that answers has paid for the claim that it returns. *)

From Stdlib Require Import Ascii String.
From S2P Require Import Prelude Bytes Ordered Deps Concrete Types Constants Poseidon Merkle Tx Kv Rpc Node Polling AcvmExecutor ExecutorSpec Entrypoint ExampleWorld UtilityOracle Host KernelProver RealProof EmbeddedPxe ExamplePxe Messaging BaseWallet L1Client.

(** ** Waiting for a message *)

Section waiting.
Context {W : Type} {FR : PrimeField fr_modulus} {HX : HexCrate} `{JS : JsonCrate}.
Context `{AN : !AztecNode W} `{CL : !Clock W} (time : W → Z).

Lemma timed_then {A B : Type} (m : M W A) (f : A → M W B) :
  timed time Z.le m → (∀ a, timed time Z.le (f a)) → timed time Z.le (mthen m f).
Proof.
  intros Hm Hf w. destruct (Hm w) as (w1 & r & E & Hr & Ht). unfold mthen. rewrite E.
  destruct r as [a|e|]; [|by exists w1, (Err e)|done].
  destruct (Hf a w1) as (w2 & r2 & E2 & Hr2 & Ht2). exists w2, r2. split_and!; [done..|lia].
Qed.

Lemma timed_ok {A : Type} (a : A) : timed time Z.le (mok a).
Proof. intros w. exists w, (Ok a). split_and!; [done..|lia]. Qed.

Lemma message_ready_timed hash :
  timed time Z.le (get_l1_to_l2_message_checkpoint hash) → timed time Z.le get_block_number →
  (∀ n, timed time Z.le (get_block n)) → timed time Z.le (is_l1_to_l2_message_ready hash).
Proof.
  intros Hc Hn Hb. unfold is_l1_to_l2_message_ready. apply timed_then; [done|].
  intros [checkpoint|]; [|apply timed_ok]. apply timed_then; [done|]. intros n.
  destruct (n =? 0); [apply timed_ok|]. apply timed_then; [done|]. intros [block|]; apply timed_ok.
Qed.

(** What the wait may answer. *)
Definition message_answer (hash : Fr) (timeout start : Z) (r : Outcome ()) : Prop :=
  match r with
  | Ok _ => ∃ w w' : W, is_l1_to_l2_message_ready hash w = (w', Ok true)
  | Err e => (∃ w w' : W, is_l1_to_l2_message_ready hash w = (w', Err e)) ∨ e = message_not_ready hash timeout
  | Panic => False
  end.

Lemma message_round hash timeout start (w : W) :
  paced time Z.le → timed time Z.le (is_l1_to_l2_message_ready hash) →
  ∃ w' r, message_ready_body hash timeout start w = (w', r) ∧
    match r with
    | Ok (Some a) => message_answer hash timeout start (Ok a)
    | Ok None => time w + from_secs 1 < Z.max start (start + timeout) + from_secs 1 ∧ time w + from_secs 1 ≤ time w'
    | Err e => message_answer hash timeout start (Err e)
    | Panic => message_answer hash timeout start Panic
    end.
Proof.
  intros [Hnow Hsleep] Hr. destruct (Hr w) as (w1 & r & E & Hr1 & Ht).
  unfold message_ready_body, mthen at 1. rewrite E. destruct r as [[]|e|]; [| |eexists _, _; split; [done|]|done].
  - eexists _, _. split; [done|]. by exists w, w1.
  - destruct (Hnow w1) as (w2 & En & Ht2). unfold mthen at 1. rewrite En.
    destruct (Z.leb_spec timeout (Z.max 0 (time w2 - start))).
    + eexists _, _. split; [done|]. by right.
    + destruct (Hsleep (from_secs 1) w2) as (w3 & Es & Ht3); [done|]. unfold mthen. rewrite Es.
      eexists _, _. split; [done|]. unfold from_secs in *. lia.
  - left. by exists w, w1.
Qed.

(** Waiting for a message from Ethereum ends. However the node answers, as long as its
    answers come and the clock goes on, the wait returns within the rounds that its timeout
    takes and two more: it succeeds only when the node says that the message can be
    consumed, and fails only with an error of the node or with the timeout. *)
Lemma message_wait_ends (hash : Fr) (timeout : Z) (fuel : nat) (w : W) :
  paced time Z.le →
  timed time Z.le (get_l1_to_l2_message_checkpoint hash) → timed time Z.le get_block_number →
  (∀ n, timed time Z.le (get_block n)) →
  0 ≤ timeout → timeout ≤ (Z.of_nat fuel - 2) * from_secs 1 →
  ∃ w' r start, wait_for_l1_to_l2_message_ready fuel hash timeout w = (w', omap_ok Some r) ∧
    message_answer hash timeout start r.
Proof.
  intros Hp Hc Hn Hb H0 Hf. destruct fuel as [|n]; [unfold from_secs in Hf; lia|].
  pose proof (message_ready_timed hash Hc Hn Hb) as Hr.
  unfold wait_for_l1_to_l2_message_ready, mthen at 1. pose proof Hp as [Hnow _].
  destruct (Hnow w) as (w1 & E & Ht). rewrite E.
  destruct (mloop_ends time (from_secs 1) (Z.max (time w1) (time w1 + timeout) + from_secs 1)
    (message_ready_body hash timeout (time w1)) (λ _ r, message_answer hash timeout (time w1) r) n)
    with (w := w1) as (w' & r & Em & Ha).
  - unfold from_secs. lia.
  - intros v. by apply message_round.
  - unfold from_secs in *. lia.
  - by exists w', r, (time w1).
Qed.
End waiting.

(** ** Calldata *)

Section calldata.
Context {FR : PrimeField fr_modulus} {HX : HexCrate} {KC : KeccakCrate}.

(** A reader of calldata: the selector, then words of 32 bytes. *)
Fixpoint read_words (n : nat) (bytes : list byte) : option (list (list byte)) :=
  match n with
  | 0%nat => if decide (bytes = []) then Some [] else None
  | S n => if (length bytes <? 32)%nat then None else (take 32 bytes ::.) <$> read_words n (drop 32 bytes)
  end.

Definition read_calldata (n : nat) (text : string) : option (list byte * list (list byte)) :=
  hex ← strip_prefix "0x" text;
  match hex_decode hex with
  | inr bytes => (λ words, (take 4 bytes, words)) <$> read_words n (drop 4 bytes)
  | inl _ => None
  end.

Lemma read_words_join (words : list (list byte)) :
  Forall (λ w, length w = 32%nat) words → read_words (length words) (mjoin words) = Some words.
Proof.
  induction 1 as [|w ws Hw Hws IH]; [done|]. rewrite mjoin_cons. cbn [length read_words].
  rewrite length_app, Hw. replace (_ <? 32)%nat with false by (symmetry; apply Nat.ltb_ge; lia).
  by rewrite take_app_length', drop_app_length', IH.
Qed.

Lemma length_selector sig : length (keccak_selector sig) = 4%nat.
Proof. unfold keccak_selector. rewrite length_take, keccak256_length. done. Qed.

Lemma read_encoded sig (words : list (list byte)) :
  Forall (λ w, length w = 32%nat) words →
  read_calldata (length words) (calldata_text (keccak_selector sig ++ mjoin words))
  = Some (keccak_selector sig, words).
Proof.
  intros Hw. unfold read_calldata, calldata_text. rewrite strip_prefix_app. cbn [mbind option_bind].
  rewrite hex_decode_encode, take_app_length', drop_app_length' by (by rewrite length_selector).
  by rewrite read_words_join.
Qed.
End calldata.

(** ** Bridging fee juice *)

Section bridge.
Context {W : Type} {FR : PrimeField fr_modulus} {HX : HexCrate} {KC : KeccakCrate} {P2 : Poseidon2Crate}.
Context `{JT : JsonText} {JM : JsonMake} `{PH : !PlainHttp W} `{CL : !Clock W} `{RW : !RandCrate W}.

Lemma or_failed_ok {A : Type} what (m : M W A) (w w' : W) a :
  or_failed what m w = (w', Ok a) → m w = (w', Ok a).
Proof.
  unfold or_failed. intros E. apply mthen_ok in E as (w1 & r & H & E). unfold mtry in H.
  destruct (m w) as [w2 [x|e|]]; [|injection H as <- <-; discriminate E|discriminate H].
  injection H as <- <-. apply mlift_ok in E as [-> E]. by injection E as ->.
Qed.

(** A transaction to the contract [to] that was sent in the world [w] and is on the chain,
    not reverted, in the world [w']. *)
Definition mined (c : EthClient) (to data from : string) (w w' : W) (receipt : json_value) : Prop :=
  ∃ tx_hash w1, send_transaction c to data from w = (w1, Ok tx_hash) ∧
    wait_for_receipt c tx_hash w1 = (w', Ok receipt) ∧ receipt_status receipt = "0x1"%string.

Lemma confirmed_mined c label to data from (w w' : W) receipt :
  confirmed_transaction c label to data from w = (w', Ok receipt) → mined c to data from w w' receipt.
Proof.
  unfold confirmed_transaction. intros E. apply mthen_ok in E as (w1 & tx_hash & H & E).
  apply or_failed_ok in H. apply mthen_ok in E as (w2 & r & Hr & E).
  destruct (String.eqb_spec (receipt_status r) "0x1") as [Es|]; [|discriminate E].
  apply mlift_ok in E as [-> [= ->]]. by exists tx_hash, w1.
Qed.

Lemma query_mint_amount_range c handler (w w' : W) amount :
  query_mint_amount c handler w = (w', Ok amount) → in_u 128 amount.
Proof.
  unfold query_mint_amount. intros E. apply mthen_ok in E as (w1 & result & _ & E).
  set (bytes := hex_bytes _) in E. destruct (Nat.leb_spec 32 (length bytes)); [|discriminate E].
  apply mlift_ok in E as [_ [= <-]]. pose proof (be_Z_range (take 16 (drop 16 bytes))) as Hr.
  rewrite length_take, length_drop, Nat.min_l in Hr by lia. exact Hr.
Qed.

Lemma uint256_u128_value n : in_u 128 n → be_Z (uint256_u128 n) = n ∧ length (uint256_u128 n) = 32%nat.
Proof.
  intros Hn. unfold uint256_u128. split.
  - rewrite be_Z_app, be_Z_replicate_zero, be_Z_be_bytes. rewrite Z.mul_0_l, Z.add_0_l. by apply Z.mod_small.
  - rewrite length_app, length_replicate, length_be_bytes. done.
Qed.

Lemma padded_word_length bytes p : padded_32 bytes = Ok p → p = left_pad 32 bytes ∧ length p = 32%nat.
Proof.
  unfold padded_32. destruct (Nat.leb_spec (length bytes) 32); [|done]. intros [= <-]. split; [done|].
  by rewrite length_left_pad || (unfold left_pad; rewrite length_app, length_replicate; lia).
Qed.

(** The event of the message in the receipt of a deposit. *)
Definition message_in (receipt : json_value) (hash : Fr) : Prop :=
  ∃ logs log topics, json_get receipt "logs" ≫= json_as_array = Some logs ∧
    find_message_sent logs = Some (log, topics) ∧ message_sent_hash topics = Ok hash.

End bridge.

(** ** An example: a node that grants everything *)

Import Concrete.Instances ExampleWorld.Instances ExamplePxe.Instances.
#[local] Instance mixed_keccak : KeccakCrate.
Proof. refine {| keccak256 := Concrete.mix_bytes 32 11 |}. intros; apply length_be_bytes. Defined.

(** The hash in the receipts of the node. *)
Definition granted_hash : list byte := Fr_to_be_bytes (Fr_from_u64 77).

Definition granted_receipt : jvalue :=
  JObject [("status", JString "0x1");
           ("logs", JArray [JObject [("topics", JArray [JString message_sent_sig; JString "0x00";
                                                        JString (calldata_text granted_hash)]);
                                     ("data", JString (calldata_text (be_bytes 32 5 ++ be_bytes 32 9)))]])]%string.

Definition granted (body : jvalue) : jvalue :=
  match json_get body "method" ≫= json_as_str with
  | Some "eth_accounts" => JArray [JString "0x01"]
  | Some "eth_call" => JString (calldata_text (be_bytes 32 1000))
  | Some "eth_sendTransaction" => JString "0xaa"
  | _ => granted_receipt
  end%string.

#[local] Instance granting_node : PlainHttp InMemoryKvStore := {|
  plain_response := jvalue;
  plain_post _ body := mok (inr (JObject [("result"%string, granted body)]));
  plain_json := inr |}.

Definition example_l1 : L1ContractAddresses :=
  {| l1_inbox := "0x0a"; l1_outbox := "0x0b"; l1_rollup := "0x0c"; l1_fee_juice_portal := "0x0d";
     l1_fee_juice := Some "0x0e"%string; l1_fee_asset_handler := Some "0x0f"%string |}%string.

Definition bridged_amount (r : Outcome FeeJuiceBridgeResult) : option (Z * Z) :=
  match r with Ok r => Some (fj_claim_amount r, fj_message_leaf_index r) | _ => None end.

Lemma example_bridged : ∃ w' r,
  prepare_fee_juice_on_l1 (EthClient_new "http://l1") example_l1 Fr_one InMemoryKvStore_new = (w', Ok r) ∧
  fj_claim_amount r = 1000 ∧ fj_message_leaf_index r = 5.
Proof.
  assert (bool_decide (bridged_amount
    (prepare_fee_juice_on_l1 (EthClient_new "http://l1") example_l1 Fr_one InMemoryKvStore_new).2
    = Some (1000, 5)) = true) as H%bool_decide_eq_true by (vm_compute; reflexivity).
  destruct (prepare_fee_juice_on_l1 _ _ _ _) as [w' [r|e|]]; [|discriminate H..].
  injection H as H1 H2. by exists w', r.
Qed.

