(* ===== verification/SledStore.v ===== *)
(** [crates/pxe/src/stores/sled_store.rs]: the key-value store on disk, over the [sled]
    database, which is a class. *)

From Stdlib Require Import Ascii String.
From S2P Require Import Prelude Bytes Ordered Deps Types Kv.

(** ** The database

    Every call answers or gives the [Display] text of an error; writing answers the value
    that was there, and a scan goes through results, one for each entry. *)
Class SledCrate (W : Type) := {
  sled_db : Type;
  sled_open : string → M W (string + sled_db);
  sled_open_temporary : M W (string + sled_db);
  sled_get : sled_db → list byte → M W (string + option (list byte));
  sled_insert : sled_db → list byte → list byte → M W (string + option (list byte));
  sled_remove : sled_db → list byte → M W (string + option (list byte));
  sled_scan_prefix : sled_db → list byte → M W (list (string + list byte * list byte));
  sled_flush : sled_db → M W (string + Z);
  sled_size_on_disk : sled_db → M W (string + Z);
}.
#[global] Hint Mode SledCrate ! : typeclass_instances.
Arguments sled_db W {_}.

(** ** The store *)

Section store.
Context {W : Type} `{SC : !SledCrate W}.

Record SledKvStore := { db : sled_db W }.

(** [map_err(|e| Error::InvalidData(format!("{what}: {e}")))]. *)
Definition sled_result {A : Type} (what : string) (r : string + A) : Outcome A :=
  match r with inl e => Err (InvalidData (what +:+ ": " +:+ e)) | inr a => Ok a end.

Definition SledKvStore_open (path : string) : M W SledKvStore :=
  let! opened := sled_open path in
  let! d := mlift (sled_result "failed to open sled database" opened) in
  mok {| db := d |}.

Definition SledKvStore_open_temporary : M W SledKvStore :=
  let! opened := sled_open_temporary in
  let! d := mlift (sled_result "failed to open temporary sled database" opened) in
  mok {| db := d |}.

Section operations.
Context (self : SledKvStore).

Definition flush : M W () :=
  let! r := sled_flush (db self) in
  let! _ := mlift (sled_result "sled flush failed" r) in
  mok ().

Definition size_on_disk : M W Z :=
  let! r := sled_size_on_disk (db self) in
  mlift (sled_result "sled size_on_disk failed" r).

Definition sled_store_get (key : list byte) : M W (option (list byte)) :=
  let! r := sled_get (db self) key in
  mlift (sled_result "sled get failed" r).

Definition sled_store_put (key value : list byte) : M W () :=
  let! r := sled_insert (db self) key value in
  let! _ := mlift (sled_result "sled put failed" r) in
  mok ().

Definition sled_store_delete (key : list byte) : M W () :=
  let! r := sled_remove (db self) key in
  let! _ := mlift (sled_result "sled delete failed" r) in
  mok ().

(** [collect] stops at the first error. *)
Fixpoint collect_entries (results : list (string + list byte * list byte))
    : Outcome (list (list byte * list byte)) :=
  match results with
  | [] => Ok []
  | r :: results' =>
      let? entry := sled_result "sled scan failed" r in
      let? entries := collect_entries results' in
      Ok (entry :: entries)
  end.

Definition sled_store_list_prefix (prefix : list byte) : M W (list (list byte * list byte)) :=
  let! results := sled_scan_prefix (db self) prefix in
  mlift (collect_entries results).

Definition sled_kv : KvStore W := {|
  kv_get := sled_store_get; kv_put := sled_store_put; kv_delete := sled_store_delete;
  kv_list_prefix := sled_store_list_prefix |}.
End operations.
End store.

(** ** What the store promises

    A database that does not fail is a map whose scans are in the order of the keys. *)
Class SledLaws {W : Type} `{SC : !SledCrate W} (d : sled_db W) := {
  sled_wf : W → Prop;
  sled_view : W → gmap (list byte) (list byte);
  sled_get_ok w k : sled_wf w → sled_get d k w = (w, Ok (inr (sled_view w !! k)));
  sled_insert_ok w k v : sled_wf w → ∃ w', sled_insert d k v w = (w', Ok (inr (sled_view w !! k))) ∧
    sled_wf w' ∧ sled_view w' = <[k:=v]> (sled_view w);
  sled_remove_ok w k : sled_wf w → ∃ w', sled_remove d k w = (w', Ok (inr (sled_view w !! k))) ∧
    sled_wf w' ∧ sled_view w' = delete k (sled_view w);
  sled_scan_ok w p : sled_wf w → ∃ l, sled_scan_prefix d p w = (w, Ok (inr <$> l)) ∧
    StronglySorted entry_lt l ∧
    ∀ k v, (k, v) ∈ l ↔ sled_view w !! k = Some v ∧ p `prefix_of` k;
}.

Section laws.
Context {W : Type} `{SC : !SledCrate W}.

Lemma collect_found (l : list (list byte * list byte)) : collect_entries (inr <$> l) = Ok l.
Proof. induction l as [|x l IH]; [done|]. rewrite fmap_cons. cbn [collect_entries]. simpl. by rewrite IH. Qed.

(** So everything that the stores of the PXE promise over a lawful key-value store, they
    promise over this one. *)
Definition sled_kv_laws (self : SledKvStore) `{SL : !SledLaws (db self)} : @KvStoreLaws W (sled_kv self).
Proof.
  refine {| kv_wf := sled_wf (d := db self); kv_view := sled_view (d := db self) |}.
  all: cbn [kv_get kv_put kv_delete kv_list_prefix sled_kv]; intros.
  - unfold sled_store_get, mthen. by rewrite (sled_get_ok (d := db self)).
  - unfold sled_store_put, mthen. destruct (sled_insert_ok (d := db self) s k v) as (w' & -> & ? & ?); [done|]. by exists w'.
  - unfold sled_store_delete, mthen. destruct (sled_remove_ok (d := db self) s k) as (w' & -> & ? & ?); [done|]. by exists w'.
  - unfold sled_store_list_prefix, mthen. destruct (sled_scan_ok (d := db self) s p) as (l & -> & ? & ?); [done|].
    exists l. unfold mlift. by rewrite collect_found.
Defined.

(** A scan that meets an error answers the first of them, whatever comes after it. *)
Lemma scan_first_error (l : list (list byte * list byte)) e rest :
  collect_entries ((inr <$> l) ++ inl e :: rest) = Err (InvalidData ("sled scan failed: " +:+ e)).
Proof. induction l as [|x l IH]; [done|]. rewrite fmap_cons. cbn [collect_entries app]. simpl. by rewrite IH. Qed.
End laws.
